(* ===== verification/_CoqProject ===== *)
-Q . S2P
Prelude.v
JsValue.v
Text.v
JsNumber.v
JsSort.v
Records.v
Ranking.v
Titles.v
Progress.v
Monthly.v
History.v
Gifts.v
Store.v
Timer.v
LuckyDraw.v
Loading.v
LogView.v
Bible.v
Page.v
Medal.v
Api.v
ScoreEntry.v
Network.v
