(* ===== verification/Prelude.v ===== *)
(** * A verification development of class-point-system (src/script.js)

    The program is a single browser script, [src/script.js].  It keeps a
    snapshot of spreadsheet rows in module-level variables ([allStudents],
    [originalStudents], [titleConfig], [allGifts], [allLogs], ...), and it
    re-renders DOM views from them.  Almost all of its logic sits in the
    renderers and in a few handlers that mutate the globals.  This
    development models that logic as pure Rocq functions over an explicit
    state, leaving out the DOM strings.

    ** Parts of the program and the files that model them

    - [Prelude] (this file): the notation scope [cps_scope], the hint
      databases [cps] and [cps_rw], the tactics [zify_bools] and
      [string_cases], and generic lemmas on lists ([filter], [find] by
      a unique key, sortedness under [filter], [fmap], sublists and
      lookups), on [gmap] updates ([insert_all]) and on [gset] counting
      ([distinct_above], with a [Proper] instance for rewriting under
      permutations).
    - [JsValue]: the JavaScript values found in spreadsheet cells
      ([cell]) and the conversions the script applies to them:
      [Number(x)] on integer literals ([js_Number], NaN is [None]),
      [Number(x) || 0] ([num_or0]), [String(x)] ([js_String]), [trim]
      ([js_trim]), truthiness ([js_truthy]) and [parseInt]
      ([js_parseInt], with its [0x] prefix).  Lemmas: [Number(String(z))
      || 0 = z] and [parseInt(String(z)) = z].
    - [Text]: text as a list of characters, shared by the readers of
      [Medal] and [Api]: character classes, [span], [drop_prefix], and
      the shape of the decimal text of an integer.
    - [JsNumber]: [Number(s)] on every string (StringToNumber: [trim],
      [Infinity], signed decimals with fraction and exponent, [0x]/[0o]/
      [0b]), valued in [jsnum] ([Q] with the infinities and NaN).
      Lemmas: every result is a value a double takes, and the integer
      model of [JsValue] agrees with it where it gives a number.
    - [JsSort]: [Array.prototype.sort] with a comparator.  For a
      consistent comparator (the class [ConsistentCmp]) ECMAScript fixes
      the result: it is the unique stable sorted permutation.  [js_sort]
      is the stable insertion sort that computes it.  Lemmas:
      permutation, sortedness, stability, uniqueness.
    - [Records]: the row types ([Student], [TitleRule], [TitleConfig],
      [Gift], [LogEntry], [Teacher], [Item]) with the field coercions the
      script repeats.
    - [Ranking] ([getGroupRankings], 957-979; medals, 178-182): the group
      partition in insertion order, the per-group sort and the [forEach]
      with its [cur]/[last] state.  C1-C3: the rank is the dense rank in
      the group, the map does not depend on the input order, rank 1 is
      the group maximum.
    - [Titles] (title pill of [renderStudents], 159-167; frame, 174-176;
      [renderTitles], 286-326).  C4-C7: the sort-then-search is a single
      scan for the best rule; the pill is the highest met threshold; the
      in-place [rules.sort] changes no title; the holder lists.
    - [Progress] ([updateLevelProgress], 591-613), the percentages in
      [jsnum].  C9, C10, C13, C14: the width is finite in [0,100] on
      numeric rules; the next title (none exactly at the top tier, else
      the least threshold above, with its gap); the current title agrees
      with the pill on distinct thresholds; when the score meets no
      threshold and one threshold is negative, the bar is drawn full
      while points are still missing (the synthetic floor 0 lies above
      the next title).
    - [Monthly] (monthly leader of [updateLevelProgress], 614-628).  C17:
      the three texts, the leader being the first member of the group
      in list order with the group maximum.
    - [History] ([renderStudentHistory], [changeHistoryPage], the history
      part of [openScoreModal]): the cursor and the open student as a
      state record, an inductive [hist_reachable].  C18, C19, C21: the
      cursor stays in [1, totalPages] (rule induction); the view, and
      the pages partition the logs; every page is reachable.
    - [Gifts] ([renderGifts], 235-284).  C22: a row holds its range,
      available gifts first, scores ascending; the tiers cover
      [-9999, 99999] exactly once and nothing outside.
    - [Store] (the globals of lines 33-36 and the handlers that write
      them: [window.onload], [toggleSort], [filterStudents] with the
      buttons of [generateFilterButtons], the reply handlers of
      [updateScores], [sendScoreRecord] and [doEditLog],
      [logoutTeacher], [renderPage] with the in-place sorts of
      [renderTitles] and [updateLogStudentOptions('all')], and the cards
      of [renderStudents]).  The arrays are shared: [renderPage] sorts the
      array [allStudents] itself by name, as the code does.  An inductive
      [store_reachable] collects the stores reachable after the load.
      C24-C26, C29: [originalStudents] never changes after the load;
      in unsorted mode a reply changes no score on screen; toggling and
      replies in sorted mode show a descending list; every [renderPage]
      sorts [allStudents] by name, so a later filter click shows name
      order in sorted mode, and so does an edit reply.
    - [Timer] (872-954): the countdown as a record, each handler a
      function, the interval callback as a tick that only a running timer
      receives, and an inductive [timer_reachable].  C23: a running
      timer never goes below 0 and a ringing alarm means 0 (rule
      induction); at most [totalSeconds + 1] ticks stop a reachable
      timer (termination, measure [totalSeconds]) and a countdown of [n]
      seconds rings after exactly [n + 1] ticks.  Lemma: the fields of
      [addTime] read back through [parseInt].
    - [LuckyDraw] (669-837): the lucky-draw globals, the two button
      flags and the live intervals as a record, every handler and
      callback as a function, [lucky_enabled] for the events the page can
      deliver and an inductive [lucky_reachable]; an abstract draw
      ([draw_spec]: members and excluded names) and the abstraction
      [abs_lucky]; the dice as a second record.  [Math.random()] is a
      rational in [0, 1) carried by the event.  C8: the draw refines the
      abstract draw (cache invariant, each handler an abstract step or a
      stutter, a tick shows an abstract candidate); C12: switching the
      group during an automatic draw leaks an interval no event can
      clear; C16: the die shows a face in [1, faces]; C28: stopping
      before the first tick reopens the previous winner.
    - [LogView] (328-418, 493-508, 632-649): the two selects of the log
      tab as a record whose steps ([initLogFilter], [onLogGroupChange])
      also return the store, because [updateLogStudentOptions('all')]
      sorts [allStudents] in place; [renderLogs], [renderMarquee], the
      lookup of [loginTeacher], and the edit modal ([openEditLogModal],
      [doEditLog]).  C35: once a student is selected the table shows
      exactly that student's logs (distinct names).
    - [Bible] ([renderBibleVerses], 840-871), a section over the
      parameters [new Date(x)], [setHours] and today.  C11: every verse
      with valid dates is shown once and the others are dropped; the main
      card is the newest verse whose days contain today or that is
      highlighted.
    - [ScoreEntry] (the score modal: [openScoreModal]'s form part,
      [setScoreCategory], [updateScoreOptions], [toggleCustomInput], the
      batch selector and [toggleBatchItem], [renderGroups], and
      [sendScoreRecord] up to its payload) as a record with an inductive
      [form_reachable].  C15: non-numeric custom text passes the guard
      [!score || score <= 0] and is sent; C34: every payload carries an
      item of the category, a preset or accepted custom score and the
      computed target; C36: on distinct names the score goes to the
      non-excluded members and is refused exactly when all are excluded,
      and with two members of one name an empty list can be sent.
    - [Medal] ([getMedalHtml], 981-985; the medal of a card, 177-182;
      [showRankingModal], 1057-1065): the HTML of a medal as a string,
      and a click as the browser runs it: the [onclick] attribute read up
      to the next double quote, its code read by [read_call] (string and
      integer literals, identifiers, with JavaScript's [SyntaxError]s),
      and the modal as the record of the values its template prints.
      C31: for a name, group and picture without quote, backslash, [&]
      or line break, the click shows the student's emoji, name, group,
      rank and score (a round trip through HTML and JavaScript); C33: a
      name with an apostrophe makes the click a [SyntaxError], and a
      name that closes the literal shifts the arguments.
    - [Api] ([callApi], 10-28; [openELearning], 1108-1112): the payload
      [{action, ...params}] as an object with insertion order, the GET
      with the urlencoded query of [URLSearchParams] for the two read
      actions and the POST with [JSON.stringify] otherwise, the [error]
      of a reply, and the link check of [openELearning].  The server's
      reading is modelled by an urlencoded parser and a JSON reader.
      C37: the server reads back the payload (each value through
      [String] in a query, [undefined] dropped from a body), which is
      the action followed by the parameters when their keys are
      distinct.  Lemma: a numeric link setting makes [openELearning]
      throw.
    - [Loading] ([startLoadingSimulation], [finishLoading], 999-1026;
      [generateRandomPastelColor], 995-997): the local [p], the interval
      and the bar width as a record, a tick per interval callback.
      Lemmas: [p] stays in [0, 95] with the bar showing it, and [n]
      ticks raise it to at least [min 95 n].
    - [Page] (the handlers that join the components: [window.onload],
      [renderPage], [switchCategory], [loginTeacher], [logoutTeacher],
      the replies): the store, the teacher, the tab, the log selects and
      the rows on screen as a record, an inductive [page_reachable].
      C30: the events other than a logout and the two replies keep the
      log table equal to [filterLogs] of the state; C32: on the log tab
      a logout keeps the rows with their edit buttons, so the table no
      longer shows [filterLogs], and after an edit or score reply it
      shows [filterLogs] only when the reply changed nothing it shows.
    - [Network] (the requests in flight: [window.onload], 55-86;
      [updateScores] and [sendScoreRecord], 423-489; [doEditLog],
      640-665): the page of [Page] with the three [disabled] buttons,
      the loading overlay, the requests in flight (each with its reply
      once answered) and the alerts, as a record [net].  A handler
      disables its button and appends a request built by
      [Api.callApi_request]; the server, a parameter (a state and an
      answer to each request), answers or fails any unanswered request;
      any answered request is delivered, and [on_reply] runs the [then]
      or [catch] callback of its handler on the page ([callApi] turns a
      truthy [error] into the [catch]).  The form values of
      [sendScoreRecord] and [doEditLog] are the outcomes of [ScoreEntry]
      and [LogView] carried by the event.  An inductive [net_reachable]
      collects the worlds reachable from the load.  A failure carries the
      [Error] object the [catch] receives (its name and message), printed
      as the callback prints it.  C20: each button is disabled exactly
      while its one request is in flight (rule induction), and from every
      reachable world all requests can be answered and delivered, after
      which no button is disabled; C27: replies are applied in arrival
      order: of an update sent before a score, whichever reply arrives
      last decides the logs on screen, so a late update hides the new
      score.

    ** Bounds, fuel and executability

    Every definition is executable: the loops of the program are
    structural recursions over lists or strings, and the witnesses
    evaluate them with [vm_compute].  The two readers that list
    arguments or members ([Medal.read_args], [Api.read_json_members])
    take the length of their text as fuel: every argument or member
    consumes at least one character, so the fuel never runs out on a
    text the program writes, which the round-trip theorems C31 and C37
    show.  Integers are unbounded [Z]: the script's values are
    doubles, exact on the integers the sheet holds (below 2^53), so no
    wrap-around is involved; [JsNumber] rounds to a double only at the
    overflow and underflow thresholds, which is all that [score <= 0]
    can observe.  The countdown terminates by the measure
    [totalSeconds]; the intervals of the lucky draw and the dice are
    events of a step relation, not loops.

    ** Plan for later sittings

    Tie the score event of [Network] to the form state of [ScoreEntry],
    so that the payload sent is the one the reachable form produces.

    ** Not modelled

    The DOM, CSS, Bootstrap modals, the transport of [fetch] (a request
    is answered, fails or waits, in any order: see [Network]) and the
    spreadsheet server (a parameter of [Network]; its reading of a
    request is modelled in [Api]), the button labels, the
    CSS of the pastel colours and of the loading bar, audio, and the
    HTML the template strings produce (except the medal of [Medal],
    whose HTML carries code): they carry no logic the theorems speak
    of.  [localeCompare], [new Date(x)], [setHours] and
    [toLocaleString] depend on the locale and the time zone: the first
    three are parameters of the definitions that call them, and the log
    rows keep the time cell.

    ** Modelling choices

    Scores are integers ([Z]); a spreadsheet cell holding a fraction is
    outside the model.  [Number(s)] of a sheet cell is modelled for
    decimal integer literals with an optional sign and surrounding ASCII
    white space, other strings being NaN ([JsValue]); the text a teacher
    types goes through the full [Number] of [JsNumber], which agrees with
    the integer model where that one gives a number (a lemma of
    [JsNumber]).  [trim] and
    [parseInt] skip ASCII white space only.  Array sorts are modelled by [js_sort], which is what
    every conforming engine computes when the comparator is consistent;
    with an inconsistent comparator (a NaN score) ECMAScript leaves the
    order to the engine and the model fixes one. *)

From stdpp Require Export base list gmap strings sorting.
From Stdlib Require Export ZArith Lia.

Declare Scope cps_scope.
Delimit Scope cps_scope with cps.

Create HintDb cps discriminated.
Create Rewrite HintDb cps_rw.

(** ** Shared definitions *)

(** The number of distinct values of [l] strictly above [x]. *)
Definition distinct_above (l : list Z) (x : Z) : nat :=
  size (list_to_set (C := gset Z) (filter (λ y, x < y)%Z l)).

(** [for (x of l) m[key(x)] = val(x)] *)
Definition insert_all {A K V} `{Countable K} (key : A → K) (val : A → V)
    (l : list A) (m : gmap K V) : gmap K V :=
  foldl (λ m x, <[key x := val x]> m) m l.

(** ** Tactics *)

(** Turn the boolean comparisons of [Z] that the code performs into
    propositions, case by case. *)
Ltac zify_bools :=
  repeat match goal with
  | |- context [Z.leb ?a ?b] => destruct (Z.leb_spec a b)
  | |- context [Z.ltb ?a ?b] => destruct (Z.ltb_spec a b)
  | |- context [Z.eqb ?a ?b] => destruct (Z.eqb_spec a b)
  | H : context [Z.leb ?a ?b] |- _ => destruct (Z.leb_spec a b)
  | H : context [Z.ltb ?a ?b] |- _ => destruct (Z.ltb_spec a b)
  | H : context [Z.eqb ?a ?b] |- _ => destruct (Z.eqb_spec a b)
  end.

(** Case on every [String.eqb] of the goal. *)
Ltac string_cases :=
  repeat match goal with
  | |- context [String.eqb ?a ?b] => destruct (String.eqb_spec a b); subst
  end.

(** ** Generic lemmas on lists *)

Section ListFacts.
Context {A : Type}.

Lemma filter_ext_in (P Q : A → Prop) `{∀ x, Decision (P x)} `{∀ x, Decision (Q x)}
    (l : list A) :
  (∀ x, x ∈ l → P x ↔ Q x) → filter P l = filter Q l.
Proof.
  induction l as [|x l IH]; intros Hx; [done|].
  rewrite !filter_cons, IH by (intros y Hy; apply Hx; set_solver).
  assert (P x ↔ Q x) by (apply Hx; set_solver).
  repeat case_decide; naive_solver.
Qed.

Lemma filter_all_true (P : A → Prop) `{∀ x, Decision (P x)} (l : list A) :
  Forall P l → filter P l = l.
Proof.
  induction 1 as [|x l Hx _ IH]; [done|].
  rewrite filter_cons, IH. by case_decide.
Qed.

Lemma filter_all_false (P : A → Prop) `{∀ x, Decision (P x)} (l : list A) :
  Forall (λ x, ¬ P x) l → filter P l = [].
Proof.
  induction 1 as [|x l Hx _ IH]; [done|].
  rewrite filter_cons, IH. by case_decide.
Qed.
Lemma list_fmap_ext_in {B} (f g : A → B) (l : list A) :
  (∀ x, x ∈ l → f x = g x) → f <$> l = g <$> l.
Proof.
  intros Hfg. apply list_fmap_ext. intros i x Hi. apply Hfg.
  by eapply list_elem_of_lookup_2.
Qed.

(** A key that is unique in a list identifies the element. *)
Lemma NoDup_fmap_inj_in {B} (f : A → B) (l : list A) x y :
  NoDup (f <$> l) → x ∈ l → y ∈ l → f x = f y → x = y.
Proof.
  induction l as [|z l IH]; [set_solver|].
  rewrite fmap_cons, NoDup_cons. intros [Hz Hnd] Hx Hy Hf.
  apply elem_of_cons in Hx as [->|Hx], Hy as [->|Hy]; try done.
  - destruct Hz. rewrite Hf. by apply list_elem_of_fmap_2.
  - destruct Hz. rewrite <- Hf. by apply list_elem_of_fmap_2.
  - by apply IH.
Qed.

(** [find] by a key that is unique in the list returns the element. *)
Lemma list_find_key_unique {B} `{EqDecision B} (f : A → B) (l : list A) (b : B) x :
  NoDup (f <$> l) → x ∈ l → f x = b → snd <$> list_find (λ y, f y = b) l = Some x.
Proof.
  intros Hnd Hx Hb. destruct (list_find _ l) as [[i y]|] eqn:Hf.
  - apply list_find_Some in Hf as (Hy & Hfy & _). cbn. f_equal.
    apply (NoDup_fmap_inj_in f l); [done|by eapply list_elem_of_lookup_2|done|congruence].
  - apply list_find_None in Hf. rewrite Forall_forall in Hf. by destruct (Hf x Hx).
Qed.

Lemma NoDup_fmap_filter {B} (f : A → B) (P : A → Prop) `{∀ x, Decision (P x)} (l : list A) :
  NoDup (f <$> l) → NoDup (f <$> filter P l).
Proof. intros Hnd. eapply sublist_NoDup; [exact Hnd|]. apply (fmap_sublist f), sublist_filter. Qed.

(** In a sorted list every element is related to every later one. *)
Lemma StronglySorted_lookup (R : A → A → Prop) (l : list A) i j x y :
  StronglySorted R l → l !! i = Some x → l !! j = Some y → (i < j)%nat → R x y.
Proof.
  intros Hs. revert i j. induction Hs as [|z l _ IH Hz]; intros i j Hi Hj Hij; [done|].
  destruct i as [|i], j as [|j]; cbn in *; [lia| |lia|].
  - simplify_eq. eapply Forall_forall; [exact Hz|]. by eapply list_elem_of_lookup_2.
  - apply (IH i j); [done|done|lia].
Qed.

(** A sublist of a sorted list is sorted. *)
Lemma StronglySorted_sublist (R : A → A → Prop) (l1 l2 : list A) :
  l1 `sublist_of` l2 → StronglySorted R l2 → StronglySorted R l1.
Proof.
  induction 1 as [|x l1 l2 Hsub IH|x l1 l2 _ IH]; intros Hs; [constructor| |].
  - apply StronglySorted_inv in Hs as [Hs Hx]. constructor; [by apply IH|].
    rewrite Forall_forall in Hx |- *. intros y Hy. apply Hx.
    eapply elem_of_submseteq; [exact Hy|]. by apply sublist_submseteq.
  - apply IH. by apply StronglySorted_inv in Hs as [Hs _].
Qed.

(** A sorted list stays sorted for any weaker relation. *)
Lemma StronglySorted_weaken (R R' : A → A → Prop) (l : list A) :
    (∀ x y, R x y → R' x y) → StronglySorted R l → StronglySorted R' l.
Proof.
    intros HR. induction 1 as [|x l _ IH Hx]; constructor; [done|].
    eapply Forall_impl; [exact Hx|]. auto.
Qed.

Lemma StronglySorted_filter (R : A → A → Prop) (P : A → Prop) `{∀ x, Decision (P x)} (l : list A) :
  StronglySorted R l → StronglySorted R (filter P l).
Proof.
  induction 1 as [|x l _ IH Hx]; [constructor|]. rewrite filter_cons.
  case_decide; [|done]. constructor; [done|].
  rewrite Forall_forall in *. intros y Hy%list_elem_of_filter. apply Hx. tauto.
Qed.

Lemma StronglySorted_fmap {B} (R : B → B → Prop) (f : A → B) (l : list A) :
  StronglySorted (λ x y, R (f x) (f y)) l → StronglySorted R (f <$> l).
Proof. induction 1 as [|x l _ IH Hx]; constructor; [done|]. by apply Forall_fmap. Qed.
End ListFacts.

(** ** Counting distinct values with [gset] *)


Lemma distinct_above_perm l l' x :
  l ≡ₚ l' → distinct_above l x = distinct_above l' x.
Proof. intros Hp. unfold distinct_above. by rewrite Hp. Qed.

(** Counting is blind to the order of the list: [distinct_above]
    respects permutations, so [rewrite] can replace its list by a
    permutation of it. *)
#[export] Instance distinct_above_proper : Proper ((≡ₚ) ==> eq ==> eq) distinct_above.
Proof. intros l l' Hp x ? <-. by apply distinct_above_perm. Qed.

Lemma distinct_above_app l l' x :
  Forall (λ y, y ≤ x)%Z l' → distinct_above (l ++ l') x = distinct_above l x.
Proof.
  intros Hl'. unfold distinct_above.
  rewrite filter_app, (filter_all_false _ l') by (eapply Forall_impl; [exact Hl'|]; cbn; lia).
  by rewrite app_nil_r.
Qed.

Lemma distinct_above_self x : distinct_above [x] x = 0%nat.
Proof. unfold distinct_above. rewrite filter_cons, decide_False by lia. done. Qed.

(** Every value above [x]: all of them are counted. *)
Lemma distinct_above_all l x :
  Forall (λ y, x < y)%Z l → distinct_above l x = size (list_to_set (C := gset Z) l).
Proof. intros Hl. unfold distinct_above. by rewrite filter_all_true. Qed.

(** [v] is the least value of [l]: the values above it and [v] itself
    are all the distinct values. *)
Lemma distinct_above_min l v :
  v ∈ l → Forall (λ y, v ≤ y)%Z l →
  S (distinct_above l v) = size (list_to_set (C := gset Z) l).
Proof.
  intros Hv Hl. unfold distinct_above.
  assert (Hset : list_to_set (C := gset Z) l =
                 {[v]} ∪ list_to_set (filter (λ y, v < y)%Z l)).
  { apply set_eq. intros w. rewrite elem_of_union, elem_of_singleton,
      !elem_of_list_to_set, list_elem_of_filter.
    rewrite Forall_forall in Hl. split.
    - intros Hw. specialize (Hl w Hw).
      destruct (Z.eq_dec w v); [by left|right; split; [lia|done]].
    - intros [->|[_ Hw]]; done. }
  rewrite Hset, size_union, size_singleton; [done|].
  apply disjoint_singleton_l. rewrite elem_of_list_to_set, list_elem_of_filter. lia.
Qed.

(** ** Maps filled by a loop of assignments *)


Section InsertAll.
Context {A K V : Type} `{Countable K} (key : A → K) (val : A → V).

Lemma insert_all_cons x l m :
  insert_all key val (x :: l) m = insert_all key val l (<[key x := val x]> m).
Proof. done. Qed.

Lemma insert_all_notin n l m :
  n ∉ key <$> l → insert_all key val l m !! n = m !! n.
Proof.
  revert m. induction l as [|x l IH]; intros m Hn; [done|].
  rewrite insert_all_cons. rewrite fmap_cons, elem_of_cons in Hn.
  rewrite IH by naive_solver. apply lookup_insert_ne. naive_solver.
Qed.

Lemma insert_all_in x l m :
  NoDup (key <$> l) → x ∈ l → insert_all key val l m !! key x = Some (val x).
Proof.
  revert m. induction l as [|y l IH]; intros m Hnd Hx; [by apply elem_of_nil in Hx|].
  rewrite fmap_cons, NoDup_cons in Hnd. destruct Hnd as [Hy Hnd].
  apply elem_of_cons in Hx as [->|Hx]; rewrite insert_all_cons.
  - by rewrite insert_all_notin, lookup_insert_eq.
  - by apply IH.
Qed.
End InsertAll.

#[export] Hint Resolve filter_all_true filter_all_false : cps.
