(* ===== verification/JsValue.v ===== *)
(** * JavaScript values read from spreadsheet cells

    The script reads every field of a row as an untyped JavaScript value
    and converts it on use: [Number(x)], [Number(x) || 0], [String(x)],
    [String(x).trim()], [x === ""].  This file gives the values a type,
    [cell], and the conversions their ECMAScript meaning on it.  NaN is
    the [None] of [option Z]. *)

From S2P Require Import Prelude.
From Stdlib Require Import Ascii.
From stdpp Require Import pretty.
Local Open Scope string_scope.
Local Open Scope Z_scope.

(** A cell value as the API delivers it: a number, a string, a boolean,
    [null] or [undefined] (a missing key). *)
Inductive cell : Type :=
  | CNum (z : Z)
  | CStr (s : string)
  | CBool (b : bool)
  | CNull
  | CUndef.

#[export] Instance cell_eq_dec : EqDecision cell.
Proof. solve_decision. Defined.

(** ** White space and [trim] *)

(** The white space [trim] and [Number] strip, restricted to ASCII:
    TAB, LF, VT, FF, CR and SPACE. *)
Definition is_js_space (c : Ascii.ascii) : bool :=
  match Ascii.nat_of_ascii c with
  | 9 | 10 | 11 | 12 | 13 | 32 => true
  | _ => false
  end%nat.

Fixpoint trim_left (s : string) : string :=
  match s with
  | EmptyString => EmptyString
  | String c s' => if is_js_space c then trim_left s' else s
  end.

Definition string_rev (s : string) : string :=
  String.string_of_list_ascii (rev (String.list_ascii_of_string s)).

(** [String.prototype.trim]: strip white space at both ends. *)
Definition js_trim (s : string) : string :=
  string_rev (trim_left (string_rev (trim_left s))).

(** ** [Number(x)] *)

Definition digit_value (c : Ascii.ascii) : option Z :=
  let n := Ascii.nat_of_ascii c in
  if (48 <=? n)%nat && (n <=? 57)%nat then Some (Z.of_nat n - 48) else None.

(** Read a non-empty run of decimal digits, accumulating from [acc]. *)
Fixpoint digits_value (acc : Z) (s : string) : option Z :=
  match s with
  | EmptyString => Some acc
  | String c s' =>
      match digit_value c with
      | Some d => digits_value (10 * acc + d) s'
      | None => None
      end
  end.

Definition unsigned_literal (s : string) : option Z :=
  match s with
  | EmptyString => None
  | _ => digits_value 0 s
  end.

(** An optional leading sign: the function it applies and the rest. *)
Definition split_sign (s : string) : (Z → Z) * string :=
  match s with
  | String c t =>
      if Ascii.eqb c "-" then (Z.opp, t)
      else if Ascii.eqb c "+" then (id, t)
      else (id, s)
  | EmptyString => (id, s)
  end.

(** StringToNumber on the integer literals: after [trim], the empty
    string is 0 and an optionally signed decimal literal is its value;
    anything else is NaN. *)
Definition string_to_number (s : string) : option Z :=
  match js_trim s with
  | EmptyString => Some 0
  | t => let '(sign, u) := split_sign t in option_map sign (unsigned_literal u)
  end.

(** [Number(x)]; [None] is NaN. *)
Definition js_Number (c : cell) : option Z :=
  match c with
  | CNum z => Some z
  | CStr s => string_to_number s
  | CBool b => Some (if b then 1 else 0)
  | CNull => Some 0
  | CUndef => None
  end.

(** [Number(x) || 0]: NaN (and 0) become 0. *)
Definition num_or0 (c : cell) : Z :=
  match js_Number c with
  | Some z => z
  | None => 0
  end.

Notation "⟦ c ⟧" := (num_or0 c) (format "⟦ c ⟧") : cps_scope.

(** [x >= y] between a number and a possibly-NaN number: false on NaN. *)
Definition js_ge (x : Z) (y : option Z) : bool :=
  match y with
  | Some z => z <=? x
  | None => false
  end.

(** The numeric difference [a - b] that the comparators return, read by
    [Array.prototype.sort]: a NaN result counts as 0 (SortCompare). *)
Definition js_sub_cmp (a b : option Z) : Z :=
  match a, b with
  | Some x, Some y => x - y
  | _, _ => 0
  end.

(** ** [String(x)] *)

(** [String(x)]: numbers print in decimal, [null] and [undefined] by
    name. *)
Definition js_String (c : cell) : string :=
  match c with
  | CNum z => pretty z
  | CStr s => s
  | CBool b => if b then "true" else "false"
  | CNull => "null"
  | CUndef => "undefined"
  end.

(** [x === ""] and [x === undefined], the tests of renderGifts. *)
Definition is_empty_or_undef (c : cell) : bool :=
  match c with
  | CStr "" | CUndef => true
  | _ => false
  end.

(** JavaScript truthiness, the test of [x || y]: [0], [""], [false],
    [null] and [undefined] are falsy. *)
Definition js_truthy (c : cell) : bool :=
  match c with
  | CNum z => negb (z =? 0)
  | CStr s => negb (String.eqb s "")
  | CBool b => b
  | CNull | CUndef => false
  end.

(** The characters of a string. *)
Definition chars (s : string) : list Ascii.ascii := String.list_ascii_of_string s.

(** ** [parseInt(x)] *)

(** A digit of radix 10 or 16: [0-9], and [a-f], [A-F] in radix 16. *)
Definition digit_in (radix : Z) (c : Ascii.ascii) : option Z :=
  match digit_value c with
  | Some d => Some d
  | None =>
      let n := Ascii.nat_of_ascii c in
      if radix =? 16 then
        if (97 <=? n)%nat && (n <=? 102)%nat then Some (Z.of_nat n - 87)
        else if (65 <=? n)%nat && (n <=? 70)%nat then Some (Z.of_nat n - 55)
        else None
      else None
  end.

(** The value of the longest prefix of radix digits, accumulating from
    [acc]. *)
Fixpoint digit_prefix (radix acc : Z) (s : string) : Z :=
  match s with
  | EmptyString => acc
  | String c s' =>
      match digit_in radix c with
      | Some d => digit_prefix radix (radix * acc + d) s'
      | None => acc
      end
  end.

(** NaN when the prefix is empty. *)
Definition parse_radix (radix : Z) (s : string) : option Z :=
  match s with
  | String c _ =>
      match digit_in radix c with
      | Some _ => Some (digit_prefix radix 0 s)
      | None => None
      end
  | EmptyString => None
  end.

(** [parseInt(s)] without a radix (ECMAScript 19.2.5): leading white
    space, an optional sign, a [0x]/[0X] prefix selecting radix 16, then
    the longest digit prefix. *)
Definition js_parseInt (s : string) : option Z :=
  let '(sign, u) := split_sign (trim_left s) in
  match u with
  | String c (String x rest) =>
      if Ascii.eqb c "0" && (Ascii.eqb x "x" || Ascii.eqb x "X")
      then option_map sign (parse_radix 16 rest)
      else option_map sign (parse_radix 10 u)
  | _ => option_map sign (parse_radix 10 u)
  end.

(** [parseInt(s) || 0] *)
Definition parseInt_or0 (s : string) : Z := default 0 (js_parseInt s).

(** ** Lemmas *)


Lemma string_rev_involutive s : string_rev (string_rev s) = s.
Proof.
  unfold string_rev.
  by rewrite String.list_ascii_of_string_of_list_ascii, rev_involutive,
    String.string_of_list_ascii_of_string.
Qed.

Lemma chars_string_rev s : chars (string_rev s) = rev (chars s).
Proof. apply String.list_ascii_of_string_of_list_ascii. Qed.

Lemma trim_left_no_space s :
  Forall (λ c, is_js_space c = false) (chars s) → trim_left s = s.
Proof.
  destruct s as [|c s]; [done|]. intros Hs. apply Forall_cons in Hs as [Hc _].
  cbn. by rewrite Hc.
Qed.

(** [trim] leaves a string without white space alone. *)
Lemma js_trim_no_space s :
  Forall (λ c, is_js_space c = false) (chars s) → js_trim s = s.
Proof.
  intros Hs. unfold js_trim.
  rewrite (trim_left_no_space s), (trim_left_no_space (string_rev s)) by
    (first [done | rewrite chars_string_rev; by apply Forall_rev]).
  apply string_rev_involutive.
Qed.

Lemma pretty_N_char_digit x : digit_value (pretty_N_char (x `mod` 10)) = Some (Z.of_N (x `mod` 10)).
Proof.
  assert (Hm : (x `mod` 10 < 10)%N) by (apply N.mod_lt; lia).
  revert Hm. generalize (x `mod` 10)%N. intros m Hm.
  assert (m = 0 ∨ m = 1 ∨ m = 2 ∨ m = 3 ∨ m = 4 ∨ m = 5 ∨ m = 6 ∨ m = 7 ∨ m = 8 ∨ m = 9)%N
    as Hc by lia.
  repeat destruct Hc as [->|Hc]; [done..|]. by subst.
Qed.

(** Reading the digits [pretty] writes gives back the number, whatever
    was accumulated before. *)
Lemma digits_value_pretty_N_go x s :
  ∃ k : nat, ∀ acc, digits_value acc (pretty_N_go x s) = digits_value (acc * 10 ^ Z.of_nat k + Z.of_N x) s.
Proof.
  revert s. induction (N.lt_wf_0 x) as [x _ IH]; intros s.
  destruct (decide (x = 0)%N) as [->|Hx].
  { exists 0%nat. intros acc. rewrite pretty_N_go_0. f_equal; lia. }
  rewrite pretty_N_go_step by lia.
  destruct (IH (x `div` 10)%N ltac:(apply N.div_lt; lia)
              (String (pretty_N_char (x `mod` 10)) s)) as [k Hk].
  exists (S k). intros acc. rewrite Hk. cbn [digits_value].
  rewrite pretty_N_char_digit. f_equal.
  rewrite Nat2Z.inj_succ, Z.pow_succ_r by lia.
  pose proof (N.div_mod x 10 ltac:(lia)). lia.
Qed.

Lemma pretty_N_go_chars P x s :
  (∀ y, P (pretty_N_char y)) → Forall P (chars s) → Forall P (chars (pretty_N_go x s)).
Proof.
  intros HP. revert s. induction (N.lt_wf_0 x) as [x _ IH]; intros s Hs.
  destruct (decide (x = 0)%N) as [->|Hx]; [by rewrite pretty_N_go_0|].
  rewrite pretty_N_go_step by lia. apply IH; [apply N.div_lt; lia|]. by constructor.
Qed.

Lemma pretty_N_char_no_space y : is_js_space (pretty_N_char y) = false.
Proof. unfold pretty_N_char. by repeat case_match. Qed.

Lemma pretty_N_char_not_sign y :
  Ascii.eqb (pretty_N_char y) "-" = false ∧ Ascii.eqb (pretty_N_char y) "+" = false.
Proof. unfold pretty_N_char. by repeat case_match. Qed.

Lemma pretty_N_go_pos_shape x :
  (0 < x)%N → ∃ y t, pretty_N_go x "" = String (pretty_N_char y) t.
Proof.
  induction (N.lt_wf_0 x) as [x _ IH]; intros Hx.
  rewrite pretty_N_go_step by lia.
  destruct (decide (x `div` 10 = 0)%N) as [E|E].
  - rewrite E, pretty_N_go_0. eauto.
  - clear IH. revert E. generalize (String (pretty_N_char (x `mod` 10)%N) "").
    induction (N.lt_wf_0 (x `div` 10)%N) as [w _ IHw]; intros s E.
    rewrite pretty_N_go_step by lia.
    destruct (decide (w `div` 10 = 0)%N) as [E'|E'].
    + rewrite E', pretty_N_go_0. eauto.
    + apply IHw; [apply N.div_lt; lia|done].
Qed.

Lemma string_to_number_pretty_pos (p : positive) :
  string_to_number (pretty (Npos p)) = Some (Z.pos p).
Proof.
  assert (Hs : pretty (Npos p) = pretty_N_go (Npos p) "") by (cbv [pretty pretty_N]; by case_decide).
  unfold string_to_number. rewrite Hs, js_trim_no_space.
  2:{ apply pretty_N_go_chars; [apply pretty_N_char_no_space|constructor]. }
  destruct (pretty_N_go_pos_shape (Npos p) ltac:(lia)) as (y & t & Ht).
  rewrite Ht. cbn [split_sign].
  destruct (pretty_N_char_not_sign y) as [-> ->]. rewrite <- Ht.
  destruct (digits_value_pretty_N_go (Npos p) "") as [k Hk].
  unfold unsigned_literal. rewrite Ht, <- Ht, Hk. cbn. f_equal; lia.
Qed.

Lemma unsigned_literal_pretty_pos (p : positive) :
  unsigned_literal (pretty (Npos p)) = Some (Z.pos p).
Proof.
  assert (Hs : pretty (Npos p) = pretty_N_go (Npos p) "") by (cbv [pretty pretty_N]; by case_decide).
  destruct (pretty_N_go_pos_shape (Npos p) ltac:(lia)) as (y & t & Ht).
  destruct (digits_value_pretty_N_go (Npos p) "") as [k Hk].
  unfold unsigned_literal. rewrite Hs, Ht, <- Ht, Hk. cbn. f_equal; lia.
Qed.

Lemma pretty_pos_no_space (p : positive) :
  Forall (λ c, is_js_space c = false) (chars (pretty (Npos p))).
Proof.
  cbv [pretty pretty_N]. case_decide; [done|].
  apply pretty_N_go_chars; [apply pretty_N_char_no_space|constructor].
Qed.

(** Reading back the decimal text of an integer: [Number(String(z))] is
    [z]. *)
Lemma Number_String_roundtrip (z : Z) :
  js_Number (CStr (js_String (CNum z))) = Some z.
Proof.
  destruct z as [|p|p]; [done| |]; cbn [js_Number js_String].
  - unfold string_to_number. cbn [pretty pretty_Z].
    change (pretty p) with (pretty (Npos p)).
    rewrite js_trim_no_space by apply pretty_pos_no_space.
    destruct (pretty_N_go_pos_shape (Npos p) ltac:(lia)) as (y & t & Ht).
    assert (Hs : pretty (Npos p) = String (pretty_N_char y) t)
      by (rewrite <- Ht; cbv [pretty pretty_N]; by case_decide).
    rewrite Hs. cbn [split_sign].
    destruct (pretty_N_char_not_sign y) as [-> ->]. rewrite <- Hs.
    by rewrite unsigned_literal_pretty_pos.
  - unfold string_to_number. cbn [pretty pretty_Z].
    change (pretty p) with (pretty (Npos p)).
    rewrite js_trim_no_space.
    2:{ constructor; [done|]. apply pretty_pos_no_space. }
    change ("-" +:+ pretty (Npos p)) with (String "-" (pretty (Npos p))).
    unfold split_sign. by rewrite Ascii.eqb_refl, unsigned_literal_pretty_pos.
Qed.

(** ** [parseInt] reads back [String] *)

Lemma digit_prefix_digits acc s d :
  digits_value acc s = Some d → digit_prefix 10 acc s = d.
Proof.
  revert acc. induction s as [|c s IH]; intros acc; cbn; [congruence|].
  unfold digit_in. destruct (digit_value c); [apply IH|done].
Qed.

Lemma parse_radix_digits s d :
  s ≠ "" → digits_value 0 s = Some d → parse_radix 10 s = Some d.
Proof.
  destruct s as [|c s]; [done|]. intros _ Hd. cbn [parse_radix].
  pose proof (digit_prefix_digits 0 (String c s) d Hd) as <-.
  cbn in Hd. unfold digit_in. by destruct (digit_value c).
Qed.

(** The characters [pretty] writes: digits, neither space, sign nor [x]. *)
Abbreviation plain_digit := (λ c, is_js_space c = false ∧ Ascii.eqb c "-" = false ∧
   Ascii.eqb c "+" = false ∧ Ascii.eqb c "x" = false ∧ Ascii.eqb c "X" = false).

Lemma pretty_pos_plain (p : positive) : Forall plain_digit (chars (pretty (Npos p))).
Proof.
  cbv [pretty pretty_N]. case_decide; [done|].
  apply pretty_N_go_chars; [|constructor]. intros y. unfold pretty_N_char. by repeat case_match.
Qed.

Ltac plain_chars :=
  repeat match goal with
  | H : Forall _ (_ :: _) |- _ => apply Forall_cons in H as [(? & ? & ? & ? & ?) H]
  end;
  repeat match goal with H : ?b = false |- context [?b] => rewrite H end.

(** Without a leading sign, space or [0x], [parseInt] reads decimal. *)
Lemma js_parseInt_unsigned u :
  Forall plain_digit (chars u) → js_parseInt u = parse_radix 10 u.
Proof.
  intros Hu. unfold js_parseInt.
  rewrite trim_left_no_space by (eapply Forall_impl; [exact Hu|]; intros ? []; done).
  destruct u as [|c [|x rest]]; cbn [chars String.list_ascii_of_string] in Hu; [done| |];
    cbn [split_sign]; plain_chars; cbn; [|rewrite andb_false_r];
    match goal with |- option_map _ ?x = _ => by destruct x end.
Qed.

Lemma js_parseInt_minus u :
  Forall plain_digit (chars u) → js_parseInt (String "-" u) = option_map Z.opp (parse_radix 10 u).
Proof.
  intros Hu. unfold js_parseInt. cbn [trim_left].
  replace (is_js_space "-") with false by done. cbn [split_sign]. rewrite Ascii.eqb_refl.
  destruct u as [|c [|x rest]]; cbn [chars String.list_ascii_of_string] in Hu; [done..|].
  plain_chars. by rewrite andb_false_r.
Qed.

Lemma parse_radix_pretty_pos (p : positive) :
  parse_radix 10 (pretty (Npos p)) = Some (Z.pos p).
Proof.
  apply parse_radix_digits.
  - destruct (pretty_N_go_pos_shape (Npos p) ltac:(lia)) as (y & t & Ht).
    cbv [pretty pretty_N]. case_decide; [done|]. by rewrite Ht.
  - pose proof (unsigned_literal_pretty_pos p) as H. unfold unsigned_literal in H.
    by case_match.
Qed.

(** [parseInt(String(z))] is [z]. *)
Lemma parseInt_String_roundtrip (z : Z) : js_parseInt (pretty z) = Some z.
Proof.
  destruct z as [|p|p]; [done| |]; cbn [pretty pretty_Z];
    change (pretty p) with (pretty (Npos p)).
  - by rewrite js_parseInt_unsigned, parse_radix_pretty_pos by apply pretty_pos_plain.
  - change ("-" +:+ pretty (Npos p)) with (String "-" (pretty (Npos p))).
    by rewrite js_parseInt_minus, parse_radix_pretty_pos by apply pretty_pos_plain.
Qed.
