(* ===== verification/Text.v ===== *)
(** * Text as a list of characters

    The readers of [Medal] and [Api] walk a text character by
    character: the character classes they test, the longest run of a
    class ([span]), a known prefix ([drop_prefix]), and the facts they
    share: a text cut at a character outside the run, and the shape of
    the decimal text [String(z)] of an integer. *)

From S2P Require Import Prelude JsValue.
From Stdlib Require Import Ascii.
From stdpp Require Import pretty.
Local Open Scope Z_scope.

Definition in_range (lo hi : nat) (c : ascii) : bool :=
  (lo <=? nat_of_ascii c)%nat && (nat_of_ascii c <=? hi)%nat.
Definition is_digit (c : ascii) : bool := in_range 48 57 c.
Definition is_num_char (c : ascii) : bool := is_digit c || Ascii.eqb c "-".
Definition is_space (c : ascii) : bool := Ascii.eqb c " " || Ascii.eqb c "009".

(** The double quote. *)
Definition dq : ascii := "034".

Fixpoint skip_sp (cs : list ascii) : list ascii :=
  match cs with c :: r => if is_space c then skip_sp r else cs | [] => [] end.

(** The longest run of characters satisfying [p], and the rest. *)
Fixpoint span (p : ascii → bool) (cs : list ascii) : list ascii * list ascii :=
  match cs with
  | c :: r => if p c then let '(t, u) := span p r in (c :: t, u) else ([], cs)
  | [] => ([], [])
  end.

Fixpoint drop_prefix (p cs : list ascii) : option (list ascii) :=
  match p, cs with
  | [], _ => Some cs
  | a :: p', c :: cs' => if Ascii.eqb a c then drop_prefix p' cs' else None
  | _ :: _, [] => None
  end.

(** ** Lemmas *)

Lemma chars_app s t :
  String.list_ascii_of_string (s +:+ t) = String.list_ascii_of_string s ++ String.list_ascii_of_string t.
Proof. induction s as [|c s IH]; simpl; [done|by f_equal]. Qed.

Lemma span_app p l r :
  Forall (λ c, p c = true) l → (∀ c r', r = c :: r' → p c = false) → span p (l ++ r) = (l, r).
Proof.
  intros Hl Hr. induction Hl as [|c l Hc _ IH]; cbn.
  - destruct r as [|c r]; [done|]. cbn. by rewrite (Hr c r).
  - by rewrite Hc, IH.
Qed.

Lemma drop_prefix_app p r : drop_prefix p (p ++ r) = Some r.
Proof. induction p as [|a p IH]; [done|]. cbn. by rewrite Ascii.eqb_refl. Qed.

(** The text of an integer: digits and minus signs, not empty. *)
Lemma pretty_N_num_chars x :
  Forall (λ c, is_num_char c = true) (String.list_ascii_of_string (pretty_N_go x "")).
Proof. apply pretty_N_go_chars; [|constructor]. intros y. unfold pretty_N_char. by repeat case_match. Qed.

Lemma pretty_shape (z : Z) : ∃ c l, String.list_ascii_of_string (pretty z) = c :: l ∧
  Forall (λ c, is_num_char c = true) (c :: l).
Proof.
  destruct z as [|p|p]; [exists "0"%char, []; split; [reflexivity|by repeat constructor]|..];
    cbn [pretty pretty_Z];
    change (pretty p) with (pretty (Npos p));
    assert (Hs : pretty (Npos p) = pretty_N_go (Npos p) "") by (cbv [pretty pretty_N]; by case_decide);
    destruct (pretty_N_go_pos_shape (Npos p) ltac:(lia)) as (y & t & Ht);
    pose proof (pretty_N_num_chars (Npos p)) as Hn; rewrite Hs.
  - rewrite Ht in Hn |- *. by eexists _, _.
  - eexists _, _. split; [reflexivity|]. by constructor.
Qed.

(** A character of an integer's text is neither a space nor one of the
    delimiters the readers stop at. *)
Lemma num_char_not c d : is_num_char c = true → is_num_char d = false → c ≠ d.
Proof. by intros Hc Hd ->; rewrite Hc in Hd. Qed.

Lemma num_char_not_space c : is_num_char c = true → is_space c = false.
Proof. unfold is_space. intros Hc. by destruct (Ascii.eqb_spec c " "), (Ascii.eqb_spec c "009"); subst. Qed.

Lemma Forall_forallb_true {A} (p : A → bool) (l : list A) : forallb p l = true → Forall (λ c, p c = true) l.
Proof. induction l as [|x l IH]; cbn; [done|]. intros [? ?]%andb_prop. constructor; auto. Qed.
