(* ===== verification/JsNumber.v ===== *)
(** * [Number(s)] on every string: StringToNumber (ECMAScript 7.1.4.1.1)

    [JsValue] reads the integer literals of the sheet with the integer
    model [string_to_number].  The text a teacher types in the custom
    score field is any string, and [sendScoreRecord] compares it with
    [0]: this file gives [Number(s)] its full grammar, StrNumericLiteral
    after [trim]: the empty string is 0, [Infinity] with an optional
    sign, a decimal literal with an optional sign, a fraction and an
    exponent, and the [0x], [0o], [0b] integer literals.

    The value is the exact rational [m * 10^e], rounded as a double only
    at the two ends: a magnitude at or above [2^1024 - 2^970] is an
    infinity, a magnitude at or below [2^-1075] is 0 (both ties go to
    the even neighbour).  The rounding to 53 bits in between is not
    modelled: it keeps the sign and the order with every integer below
    [2^53], which is all the script compares these numbers with.

    [jsnum] is the type of JavaScript numbers shared with [Progress]. *)

From S2P Require Import Prelude JsValue.
From Stdlib Require Import Ascii QArith Qabs.
Local Open Scope Z_scope.

(** A JavaScript number: a rational, an infinity or NaN. *)
Inductive jsnum :=
  | JFin (q : Q)
  | JPosInf
  | JNegInf
  | JNaN.

(** A digit of radix 2, 8, 10 or 16. *)
Definition radix_digit (radix : Z) (c : ascii) : option Z :=
  match digit_in 16 c with
  | Some d => if d <? radix then Some d else None
  | None => None
  end.

(** The longest run of radix digits: its value accumulated from [acc],
    the count of digits read from [n], and the rest of the string. *)
Fixpoint radix_run (radix acc : Z) (n : nat) (s : string) : Z * nat * string :=
  match s with
  | String c s' =>
      match radix_digit radix c with
      | Some d => radix_run radix (radix * acc + d) (S n) s'
      | None => (acc, n, s)
      end
  | EmptyString => (acc, n, EmptyString)
  end.

(** ExponentPart, or nothing: [e] or [E], an optional sign and at least
    one digit, which must end the string. *)
Definition exponent_part (s : string) : option Z :=
  match s with
  | EmptyString => Some 0
  | String c t =>
      if Ascii.eqb c "e" || Ascii.eqb c "E" then
        let '(sign, u) := split_sign t in
        match radix_run 10 0 0 u with
        | (v, S _, EmptyString) => Some (sign v)
        | _ => None
        end
      else None
  end.

(** StrUnsignedDecimalLiteral without [Infinity]: [digits], [digits.],
    [digits.digits] or [.digits], then an exponent; the value is
    [m * 10^e] as the pair [(m, e)]. *)
Definition unsigned_decimal (s : string) : option (Z * Z) :=
  let '(ip, n1, r1) := radix_run 10 0 0 s in
  match r1 with
  | String c r2 =>
      if Ascii.eqb c "." then
        let '(m, n2, r3) := radix_run 10 ip 0 r2 in
        if (n1 + n2 =? 0)%nat then None
        else option_map (λ e, (m, e - Z.of_nat n2)) (exponent_part r3)
      else if (n1 =? 0)%nat then None
      else option_map (λ e, (ip, e)) (exponent_part r1)
  | EmptyString => if (n1 =? 0)%nat then None else Some (ip, 0)
  end.

(** The largest finite double plus half its unit in the last place: the
    magnitudes that round to an infinity start here. *)
Definition overflow_bound : Z := 2 ^ 1024 - 2 ^ 970.

(** Half the least positive double: the magnitudes at or below it round
    to 0. *)
Definition underflow_bound : Q := 1 # Z.to_pos (2 ^ 1075).

(** A non-negative exact value as a double, at the two ends. *)
Definition round_extremes (q : Q) : jsnum :=
  if Qle_bool (inject_Z overflow_bound) q then JPosInf
  else if Qle_bool q underflow_bound then JFin 0
  else JFin q.

(** [m * 10^e] for [m >= 0]; exponents far outside the range of doubles
    are decided without computing the power. *)
Definition decimal_value (m e : Z) : jsnum :=
  if m =? 0 then JFin 0
  else if 400 <? e then JPosInf
  else if e + Z.log2 m + 1 <? -400 then JFin 0
  else round_extremes (if 0 <=? e then inject_Z (m * 10 ^ e) else m # Z.to_pos (10 ^ (- e))).

(** [-x] *)
Definition js_neg (x : jsnum) : jsnum :=
  match x with
  | JFin q => JFin (- q)
  | JPosInf => JNegInf
  | JNegInf => JPosInf
  | JNaN => JNaN
  end.

(** A leading [-] or [+]: whether to negate, and the rest. *)
Definition sign_split (t : string) : bool * string :=
  match t with
  | String c u => if Ascii.eqb c "-" then (true, u) else if Ascii.eqb c "+" then (false, u) else (false, t)
  | EmptyString => (false, t)
  end.

(** StrDecimalLiteral: an optional sign, then [Infinity] or an unsigned
    decimal literal. *)
Definition decimal_literal (t : string) : jsnum :=
  let '(neg, u) := sign_split t in
  let v := if String.eqb u "Infinity" then JPosInf
           else match unsigned_decimal u with
                | Some (m, e) => decimal_value m e
                | None => JNaN
                end in
  if neg then js_neg v else v.

(** The radix a [0x], [0o] or [0b] prefix selects (either case). *)
Definition radix_prefix (x : ascii) : option Z :=
  if Ascii.eqb x "x" || Ascii.eqb x "X" then Some 16
  else if Ascii.eqb x "o" || Ascii.eqb x "O" then Some 8
  else if Ascii.eqb x "b" || Ascii.eqb x "B" then Some 2
  else None.

(** NonDecimalIntegerLiteral after its prefix: at least one digit and
    nothing else. *)
Definition non_decimal (radix : Z) (u : string) : jsnum :=
  match radix_run radix 0 0 u with
  | (v, S _, EmptyString) => round_extremes (inject_Z v)
  | _ => JNaN
  end.

(** [Number(s)] for a string [s]. *)
Definition string_to_jsnum (s : string) : jsnum :=
  match js_trim s with
  | EmptyString => JFin 0
  | String c (String x u) as t =>
      if Ascii.eqb c "0" then
        match radix_prefix x with
        | Some radix => non_decimal radix u
        | None => decimal_literal t
        end
      else decimal_literal t
  | t => decimal_literal t
  end.

(** The values a double takes: 0, a magnitude strictly between the
    underflow and the overflow bounds, an infinity or NaN. *)
Definition js_representable (x : jsnum) : Prop :=
  match x with
  | JFin q => (q == 0 ∨ (underflow_bound < Qabs q ∧ Qabs q < inject_Z overflow_bound))%Q
  | _ => True
  end.

(** ** Lemmas *)

Lemma radix_digit_10 c : radix_digit 10 c = digit_value c.
Proof. destruct c as [[][][][][][][][]]; reflexivity. Qed.

Lemma radix_prefix_not_digit x r : radix_prefix x = Some r → digit_value x = None.
Proof. destruct x as [[][][][][][][][]]; by compute. Qed.

Lemma digits_value_mono acc u v : 0 ≤ acc → digits_value acc u = Some v → acc ≤ v.
Proof.
  revert acc. induction u as [|c u IH]; intros acc Hacc Hv; cbn in Hv; [by simplify_eq|].
  destruct (digit_value c) as [d|] eqn:Hd; [|done].
  assert (0 ≤ d).
  { unfold digit_value in Hd. destruct (_ && _) eqn:Hb; [|done].
    apply andb_true_iff in Hb as [Hb _]. apply Nat.leb_le in Hb. simplify_eq. lia. }
  apply IH in Hv; lia.
Qed.

(** On a string of digits the run reads everything, to the value of the
    integer model. *)
Lemma radix_run_digits acc n u v :
  digits_value acc u = Some v → radix_run 10 acc n u = (v, (n + String.length u)%nat, EmptyString).
Proof.
  revert acc n. induction u as [|c u IH]; intros acc n Hv; cbn in *.
  - simplify_eq. by rewrite Nat.add_0_r.
  - rewrite radix_digit_10. destruct (digit_value c); [|done].
    rewrite (IH _ _ Hv). do 2 f_equal. lia.
Qed.

Lemma split_sign_sign_split t :
  split_sign t = (if (sign_split t).1 then Z.opp else id, (sign_split t).2).
Proof. destruct t as [|c u]; [done|]. cbn. by repeat case_match. Qed.

(** A positive integer below the overflow bound is its own double. *)
Lemma round_extremes_int v :
  1 ≤ v → v < overflow_bound → round_extremes (inject_Z v) = JFin (inject_Z v).
Proof.
  intros H1 H2. unfold round_extremes.
  assert (Qle_bool (inject_Z overflow_bound) (inject_Z v) = false) as ->.
  { apply not_true_iff_false. rewrite Qle_bool_iff, <- Zle_Qle. lia. }
  assert (Qle_bool (inject_Z v) underflow_bound = false) as ->; [|done].
  apply not_true_iff_false. rewrite Qle_bool_iff. apply Qlt_not_le.
  apply (Qlt_le_trans _ 1); [reflexivity|]. change (inject_Z 1 <= inject_Z v)%Q. by rewrite <- Zle_Qle.
Qed.

Lemma round_extremes_repr (q : Q) : (0 <= q)%Q → js_representable (round_extremes q).
Proof.
  intros Hq. unfold round_extremes.
  destruct (Qle_bool _ q) eqn:H1; [done|]. destruct (Qle_bool q _) eqn:H2; [by left|].
  right. rewrite Qabs_pos by done. apply not_true_iff_false in H1, H2.
  rewrite Qle_bool_iff in H1, H2. split; by apply Qnot_le_lt.
Qed.

Lemma Qabs_opp_eq (q : Q) : Qabs (- q) = Qabs q.
Proof. destruct q as [n d]. unfold Qabs, Qopp. cbn. by rewrite Z.abs_opp. Qed.

Lemma js_neg_repr x : js_representable x → js_representable (js_neg x).
Proof.
  destruct x as [q| | |]; unfold js_neg, js_representable; try done. rewrite Qabs_opp_eq.
  intros [H|H]; [left; rewrite H; reflexivity|by right].
Qed.

(** A digit [n - off] read when the code [n] is at least [lo ≥ off]. *)
Lemma digit_code_nonneg (b : bool) (n lo : nat) off d :
  ((lo <=? n)%nat && b) = true → off ≤ Z.of_nat lo → Some (Z.of_nat n - off) = Some d → 0 ≤ d.
Proof. intros [Hk%Nat.leb_le _]%andb_true_iff Hoff [= <-]. lia. Qed.

Lemma radix_digit_nonneg radix c d : radix_digit radix c = Some d → 0 ≤ d.
Proof.
  unfold radix_digit, digit_in, digit_value. cbv zeta.
  destruct (_ && _) eqn:H1; [case_match; [|done]; by apply (digit_code_nonneg _ _ 48%nat _ _ H1)|].
  destruct (16 =? 16); [|done].
  destruct ((97 <=? _)%nat && _) eqn:H2; [case_match; [|done]; by apply (digit_code_nonneg _ _ 97%nat _ _ H2)|].
  destruct ((65 <=? _)%nat && _) eqn:H3; [case_match; [|done]; by apply (digit_code_nonneg _ _ 65%nat _ _ H3)|done].
Qed.

Lemma radix_run_nonneg radix acc n s :
  0 ≤ radix → 0 ≤ acc → 0 ≤ (radix_run radix acc n s).1.1.
Proof.
  revert acc n. induction s as [|c s IH]; intros acc n Hr Ha; cbn; [done|].
  destruct (radix_digit radix c) as [d|] eqn:Hd; cbn; [|done].
  apply IH; [done|]. pose proof (radix_digit_nonneg _ _ _ Hd). nia.
Qed.

Lemma unsigned_decimal_nonneg u m e : unsigned_decimal u = Some (m, e) → 0 ≤ m.
Proof.
  unfold unsigned_decimal. pose proof (radix_run_nonneg 10 0 0 u ltac:(lia) ltac:(lia)) as H1.
  destruct (radix_run 10 0 0 u) as [[ip n1] r1]. cbn in H1.
  destruct r1 as [|c r2]; [case_match; intros; simplify_eq; lia|].
  case_match; [|case_match; [done|]; destruct (exponent_part _); cbn; intros; simplify_eq; lia].
  pose proof (radix_run_nonneg 10 ip 0 r2 ltac:(lia) H1) as H2.
  destruct (radix_run 10 ip 0 r2) as [[m' n2] r3]. cbn in H2.
  case_match; [done|]. destruct (exponent_part r3); cbn; intros; simplify_eq; lia.
Qed.

Lemma inject_Z_nonneg z : 0 ≤ z → (0 <= inject_Z z)%Q.
Proof. intros Hz. change 0%Q with (inject_Z 0). by rewrite <- Zle_Qle. Qed.

Lemma decimal_value_repr m e : 0 ≤ m → js_representable (decimal_value m e).
Proof.
  intros Hm. unfold decimal_value.
  destruct (m =? 0); [by left|]. destruct (400 <? e); [done|].
  destruct (e + Z.log2 m + 1 <? -400); [by left|]. apply round_extremes_repr.
  destruct (0 <=? e) eqn:He.
  - apply inject_Z_nonneg, Z.mul_nonneg_nonneg; [done|]. apply Z.pow_nonneg. lia.
  - unfold Qle. cbn. lia.
Qed.

Lemma decimal_literal_repr t : js_representable (decimal_literal t).
Proof.
  unfold decimal_literal. destruct (sign_split t) as [neg u].
  assert (Hv : js_representable (if String.eqb u "Infinity" then JPosInf
           else match unsigned_decimal u with Some (m, e) => decimal_value m e | None => JNaN end)).
  { destruct (String.eqb u _); [done|].
    destruct (unsigned_decimal u) as [[m e]|] eqn:Hu; [|done].
    apply decimal_value_repr. by eapply unsigned_decimal_nonneg. }
  destruct neg; [by apply js_neg_repr|done].
Qed.

Lemma non_decimal_repr radix u : 0 ≤ radix → js_representable (non_decimal radix u).
Proof.
  intros Hr. unfold non_decimal. pose proof (radix_run_nonneg radix 0 0 u Hr ltac:(lia)) as Hv.
  destruct (radix_run radix 0 0 u) as [[v [|n]] [|c r]]; cbn in Hv; try done.
  by apply round_extremes_repr, inject_Z_nonneg.
Qed.

Lemma radix_prefix_nonneg x r : radix_prefix x = Some r → 0 ≤ r.
Proof. unfold radix_prefix. repeat case_match; intros; simplify_eq; lia. Qed.

(** ** What [Number] returns *)

(** [Number(s)] is always a value a double can take: 0, a finite
    number whose magnitude lies strictly between the underflow and the
    overflow bounds, an infinity, or NaN; whatever text a teacher types,
    the comparison [score <= 0] meets no value outside that range. *)
Lemma string_to_jsnum_representable s : js_representable (string_to_jsnum s).
Proof.
  unfold string_to_jsnum. destruct (js_trim s) as [|c [|x u]]; [by left|apply decimal_literal_repr|].
  destruct (Ascii.eqb c "0"); [|apply decimal_literal_repr].
  destruct (radix_prefix x) as [r|] eqn:Hr; [|apply decimal_literal_repr].
  apply non_decimal_repr. by eapply radix_prefix_nonneg.
Qed.

(** The integer model of [Number] that every other component reads
    agrees with the full StringToNumber: a string it reads as the
    integer [z] is, for [Number], the number [z] (below the overflow
    bound, where [Number] gives an infinity instead). *)
Lemma string_to_jsnum_refines s z :
  string_to_number s = Some z → Z.abs z < overflow_bound → string_to_jsnum s = JFin (inject_Z z).
Proof.
  unfold string_to_number, string_to_jsnum. destruct (js_trim s) as [|c t] eqn:Ht.
  { by intros [= <-]. }
  intros Hz Hb.
  assert (Hdec : decimal_literal (String c t) = JFin (inject_Z z)).
  { unfold decimal_literal. rewrite split_sign_sign_split in Hz.
    destruct (sign_split _) as [neg u]. cbn in Hz.
    destruct u as [|c' u']; [done|]. cbn [unsigned_literal] in Hz.
    destruct (digits_value 0 _) as [v|] eqn:Hu; [|done].
    assert (String.eqb (String c' u') "Infinity" = false) as ->.
    { apply String.eqb_neq. intros Heq. rewrite Heq in Hu. discriminate. }
    pose proof (digits_value_mono _ _ _ (Z.le_refl 0) Hu) as Hv.
    unfold unsigned_decimal. rewrite (radix_run_digits 0 0 _ v Hu). cbn -[decimal_value].
    unfold decimal_value. destruct (Z.eqb_spec v 0) as [->|Hv0].
    { destruct neg; simplify_eq/=; reflexivity. }
    assert ((0 + Z.log2 v + 1 <? -400) = false) as ->.
    { apply Z.ltb_ge. pose proof (Z.log2_nonneg v). lia. }
    cbn -[round_extremes Z.mul Z.pow]. rewrite Z.pow_0_r, Z.mul_1_r.
    destruct neg; simplify_eq/=; rewrite round_extremes_int by lia; reflexivity. }
  destruct t as [|x u]; [exact Hdec|].
  destruct (Ascii.eqb c "0") eqn:Hc; [|exact Hdec].
  destruct (radix_prefix x) as [r|] eqn:Hr; [|exact Hdec].
  apply Ascii.eqb_eq in Hc. subst c. cbn in Hz.
  by rewrite (radix_prefix_not_digit _ _ Hr) in Hz.
Qed.

