(* ===== verification/JsSort.v ===== *)
(** * [Array.prototype.sort] with a comparator

    The script sorts with comparators that return a number: students by
    cumulative score, title rules by threshold, gifts by stock and price,
    names by [localeCompare].  ECMAScript (since 2019) requires the sort to
    be stable; for a consistent comparator this fixes the result, the
    unique stable permutation that is sorted.  [js_sort] computes it by
    insertion: the head of the input is inserted before the first element
    it does not have to follow.

    [ConsistentCmp] is the interface a comparator offers to its clients:
    totality and transitivity of [cmp a b <= 0].  The theorems below are
    proved against it and each comparator of the script discharges it. *)

From S2P Require Import Prelude.
Local Open Scope Z_scope.

Section Sort.
Context {A : Type} (cmp : A → A → Z).

(** Insert [x] before the first [y] with [cmp x y <= 0]. *)
Fixpoint insert_by (x : A) (l : list A) : list A :=
  match l with
  | [] => [x]
  | y :: l' => if cmp x y <=? 0 then x :: l else y :: insert_by x l'
  end.

(** [l.sort(cmp)]. *)
Fixpoint js_sort (l : list A) : list A :=
  match l with
  | [] => []
  | x :: l' => insert_by x (js_sort l')
  end.
End Sort.

(** A consistent comparator, the condition of ECMAScript under which the
    result of [sort] is fixed.  [cmp a b <= 0] is a total preorder. *)
Class ConsistentCmp {A : Type} (cmp : A → A → Z) : Prop := {
  cmp_total : ∀ x y, cmp x y ≤ 0 ∨ cmp y x ≤ 0;
  cmp_trans : ∀ x y z, cmp x y ≤ 0 → cmp y z ≤ 0 → cmp x z ≤ 0
}.

(** Elements the comparator cannot tell apart. *)
Definition cmp_equiv {A} (cmp : A → A → Z) (x y : A) : Prop :=
  cmp x y ≤ 0 ∧ cmp y x ≤ 0.

#[export] Instance cmp_equiv_dec {A} (cmp : A → A → Z) x y : Decision (cmp_equiv cmp x y).
Proof. unfold cmp_equiv. apply _. Defined.

(** The comparator [(a, b) => key(a) - key(b)] (ascending). *)
Definition asc_by {A} (key : A → Z) (a b : A) : Z := key a - key b.
(** The comparator [(a, b) => key(b) - key(a)] (descending). *)
Definition desc_by {A} (key : A → Z) (a b : A) : Z := key b - key a.

(** The comparator of [sort()] without argument on strings: the order
    of the characters' codes ([[...allGroups].sort()]). *)
Definition group_name_cmp (a b : string) : Z :=
  match String.compare a b with Lt => -1 | Eq => 0 | Gt => 1 end.

#[export] Instance asc_by_consistent {A} (key : A → Z) : ConsistentCmp (asc_by key).
Proof. split; unfold asc_by; intros; lia. Qed.

#[export] Instance desc_by_consistent {A} (key : A → Z) : ConsistentCmp (desc_by key).
Proof. split; unfold desc_by; intros; lia. Qed.

Section Permutation.
Context {A : Type} (cmp : A → A → Z).

Lemma insert_by_perm x l : insert_by cmp x l ≡ₚ x :: l.
Proof.
  induction l as [|y l IH]; cbn; [done|].
  case_match; [done|]. rewrite IH. apply Permutation_swap.
Qed.

Lemma js_sort_perm l : js_sort cmp l ≡ₚ l.
Proof. induction l as [|x l IH]; cbn; [done|]. by rewrite insert_by_perm, IH. Qed.

Lemma elem_of_js_sort x l : x ∈ js_sort cmp l ↔ x ∈ l.
Proof. by rewrite js_sort_perm. Qed.

Lemma length_js_sort l : length (js_sort cmp l) = length l.
Proof. by rewrite js_sort_perm. Qed.

End Permutation.

(** Comparators that agree on the signs that matter sort alike. *)
Lemma js_sort_ext {A} (cmp cmp' : A → A → Z) (l : list A) :
  (∀ x y, x ∈ l → y ∈ l → (cmp x y <=? 0) = (cmp' x y <=? 0)) →
  js_sort cmp l = js_sort cmp' l.
Proof.
  induction l as [|x l IH]; intros Hext; cbn; [done|].
  rewrite IH by (intros; apply Hext; set_solver).
  assert (Hin : ∀ y, y ∈ js_sort cmp' l → y ∈ x :: l).
  { intros y Hy. rewrite (elem_of_js_sort cmp') in Hy. by right. }
  revert Hin. generalize (js_sort cmp' l) as s.
  induction s as [|y s IHs]; intros Hin; cbn; [done|].
  rewrite (Hext x y); [|set_solver|apply Hin; set_solver].
  case_match; [done|]. f_equal. apply IHs. intros; apply Hin; set_solver.
Qed.

#[export] Hint Resolve js_sort_perm : cps.
#[export] Hint Rewrite @length_js_sort : cps_rw.

Section Consistent.
Context {A : Type} (cmp : A → A → Z) `{!ConsistentCmp cmp}.

Abbreviation R := (λ x y, cmp x y ≤ 0).

Lemma cmp_refl x : cmp x x ≤ 0.
Proof. by destruct (cmp_total x x). Qed.

Lemma insert_by_sorted x l :
  StronglySorted R l → StronglySorted R (insert_by cmp x l).
Proof.
  induction 1 as [|y l Hl IH Hy]; cbn; [repeat constructor|].
  destruct (Z.leb_spec (cmp x y) 0) as [Hxy|Hxy].
  - constructor; [by constructor|]. constructor; [done|].
    eapply Forall_impl; [exact Hy|]. intros z Hz. by eapply cmp_trans.
  - constructor; [done|]. rewrite insert_by_perm. constructor; [|done].
    destruct (cmp_total x y); lia.
Qed.

(** The result of [sort] is sorted: every element may precede every
    later one. *)
Lemma js_sort_sorted l : StronglySorted R (js_sort cmp l).
Proof. induction l; cbn; [constructor|]. by apply insert_by_sorted. Qed.

Lemma insert_by_filter_equiv x l k :
  StronglySorted R l →
  filter (λ z, cmp_equiv cmp z k) (insert_by cmp x l) =
  if decide (cmp_equiv cmp x k) then x :: filter (λ z, cmp_equiv cmp z k) l
  else filter (λ z, cmp_equiv cmp z k) l.
Proof.
  induction 1 as [|y l Hl IH Hy]; cbn.
  - by rewrite ?filter_cons; case_decide.
  - destruct (Z.leb_spec (cmp x y) 0) as [Hxy|Hxy].
    + rewrite filter_cons. by case_decide.
    + rewrite filter_cons, IH. unfold cmp_equiv in *.
      repeat case_decide; rewrite ?filter_cons; try case_decide; try done.
      exfalso. destruct_and!. pose proof (cmp_trans x k y). lia.
Qed.

(** Stability: the elements of one equivalence class keep their input
    order. *)
Lemma js_sort_stable l k :
  filter (λ z, cmp_equiv cmp z k) (js_sort cmp l) = filter (λ z, cmp_equiv cmp z k) l.
Proof.
  induction l as [|x l IH]; cbn [js_sort]; [done|].
  rewrite insert_by_filter_equiv by apply js_sort_sorted.
  rewrite filter_cons, IH. by case_decide.
Qed.

(** A sorted list is determined by the order of each class: there is
    one stable sorted permutation. *)
Lemma sorted_classes_unique l1 l2 :
  StronglySorted R l1 → StronglySorted R l2 →
  (∀ k, filter (λ z, cmp_equiv cmp z k) l1 = filter (λ z, cmp_equiv cmp z k) l2) →
  l1 = l2.
Proof.
  intros H1. revert l2.
  induction H1 as [|x t1 Ht1 IH Hx]; intros l2 H2 Hcl.
  - destruct l2 as [|y t2]; [done|]. specialize (Hcl y).
    rewrite filter_cons, decide_True in Hcl; [done|]. split; apply cmp_refl.
  - destruct H2 as [|y t2 Ht2 Hy].
    { specialize (Hcl x). rewrite filter_cons, decide_True in Hcl; [done|].
      split; apply cmp_refl. }
    assert (Hxl2 : x ∈ y :: t2).
    { cut (x ∈ filter (λ z, cmp_equiv cmp z x) (y :: t2));
        [rewrite list_elem_of_filter; tauto|].
      rewrite <- Hcl, filter_cons, decide_True; [by left|]. split; apply cmp_refl. }
    assert (Hyl1 : y ∈ x :: t1).
    { cut (y ∈ filter (λ z, cmp_equiv cmp z y) (x :: t1));
        [rewrite list_elem_of_filter; tauto|].
      rewrite Hcl, filter_cons, decide_True; [by left|]. split; apply cmp_refl. }
    assert (Hxy : cmp x y ≤ 0).
    { apply elem_of_cons in Hyl1 as [->|Hyl1]; [apply cmp_refl|].
      by eapply Forall_forall in Hx. }
    assert (Hyx : cmp y x ≤ 0).
    { apply elem_of_cons in Hxl2 as [->|Hxl2]; [apply cmp_refl|].
      by eapply Forall_forall in Hy. }
    pose proof (Hcl x) as Hx'. rewrite !filter_cons, !decide_True in Hx' by
      (split; [apply cmp_refl || done ..]).
    injection Hx' as <- _. f_equal. apply IH; [done|].
    intros k. specialize (Hcl k). rewrite !filter_cons in Hcl.
    case_decide; [by simplify_eq|done].
Qed.

(** Sorting any rearrangement that keeps the order inside each class
    gives the same result. *)
Lemma js_sort_same_classes l l' :
  (∀ k, filter (λ z, cmp_equiv cmp z k) l' = filter (λ z, cmp_equiv cmp z k) l) →
  js_sort cmp l' = js_sort cmp l.
Proof.
  intros Hcl. apply sorted_classes_unique; [apply js_sort_sorted..|].
  intros k. by rewrite !js_sort_stable.
Qed.
End Consistent.

(** Sorting again by a comparator with the same classes: the first sort
    is forgotten. *)
Lemma js_sort_resort {A} (cmp1 cmp2 : A → A → Z) `{!ConsistentCmp cmp1, !ConsistentCmp cmp2} l :
  (∀ x y, cmp_equiv cmp1 x y ↔ cmp_equiv cmp2 x y) →
  js_sort cmp2 (js_sort cmp1 l) = js_sort cmp2 l.
Proof.
  intros Heq. apply js_sort_same_classes; [done|]. intros k.
  rewrite (filter_ext_in _ (λ z, cmp_equiv cmp1 z k)) by (intros; by rewrite Heq).
  rewrite js_sort_stable by done.
  apply filter_ext_in. intros; by rewrite Heq.
Qed.
