(* ===== verification/Records.v ===== *)
(** * The rows the script reads

    The API delivers students, title rules, gifts and log entries as
    JavaScript objects keyed by the sheet's column headers
    ([stu["累積分數"]], [rule.score], [g["數量"]], [log.student], ...).  Each
    becomes a record whose fields are [cell]s, the type of untyped values,
    except the fields the script only compares as strings.  The coercions
    the script applies to the fields are defined once here. *)

From S2P Require Import Prelude JsValue.
Local Open Scope string_scope.
Local Open Scope Z_scope.

(** A student row: 姓名 (name), 分組 (group), 總得分 (current score),
    累積分數 (cumulative score), 本月得分 (monthly score), 圖片網址
    (picture). *)
Record Student := mkStudent {
  s_name : string;
  s_group : cell;
  s_total : cell;
  s_cumulative : cell;
  s_month : cell;
  s_image : cell
}.

(** A title rule [{score, title}] of [titleConfig.rules]. *)
Record TitleRule := mkRule {
  r_score : cell;
  r_title : string
}.

(** [titleConfig = {enabled, rules}]. *)
Record TitleConfig := mkTitleConfig {
  tc_enabled : bool;
  tc_rules : list TitleRule
}.

(** A gift row: 禮物名稱 (name), 所需分數 (required score), 數量
    (quantity), 圖片連結 (picture). *)
Record Gift := mkGift {
  g_name : string;
  g_score : cell;
  g_qty : cell;
  g_image : cell
}.

(** A log row: [student], [score], [item], [time], [teacherAcc],
    [rowIndex]. *)
Record LogEntry := mkLog {
  l_student : string;
  l_score : cell;
  l_item : string;
  l_time : cell;
  l_teacher : string;
  l_row : Z
}.

(** A row of [teacherList]: 帳號 (account), 密碼 (password), 姓名
    (name). *)
Record Teacher := mkTeacher {
  t_account : cell;
  t_password : cell;
  t_name : cell
}.

(** A row of [allItems]: 項目名稱 (item name), 加扣分 (add or deduct). *)
Record Item := mkScoreItem {
  it_name : cell;
  it_kind : cell
}.

#[export] Instance Student_eq_dec : EqDecision Student.
Proof. solve_decision. Defined.
#[export] Instance TitleRule_eq_dec : EqDecision TitleRule.
Proof. solve_decision. Defined.
#[export] Instance Gift_eq_dec : EqDecision Gift.
Proof. solve_decision. Defined.
#[export] Instance LogEntry_eq_dec : EqDecision LogEntry.
Proof. solve_decision. Defined.

(** ** Field coercions *)

(** [Number(stu["累積分數"]) || 0] *)
Definition cumulative_of (s : Student) : Z := ⟦s_cumulative s⟧%cps.
(** [Number(stu["總得分"]) || 0] *)
Definition total_of (s : Student) : Z := ⟦s_total s⟧%cps.
(** [Number(s["本月得分"]) || 0] *)
Definition month_of (s : Student) : Z := ⟦s_month s⟧%cps.
(** [String(s["分組"]).trim()] *)
Definition group_of (s : Student) : string := js_trim (js_String (s_group s)).

(** The label of students without a group, 未分組. *)
Definition unassigned_group : string := "未分組".

(** [String(s["分組"]).trim() || "未分組"] *)
Definition rank_group_of (s : Student) : string :=
  let g := group_of s in if String.eqb g "" then unassigned_group else g.

(** [Number(rule.score)], NaN as [None]. *)
Definition rule_threshold (r : TitleRule) : option Z := js_Number (r_score r).

(** The threshold as a number, for numeric rules. *)
Definition threshold0 (r : TitleRule) : Z := default 0 (rule_threshold r).

(** The rule scores are all numbers: no NaN reaches a comparison. *)
Definition rules_numeric (rules : list TitleRule) : Prop :=
  Forall (λ r, is_Some (rule_threshold r)) rules.

#[export] Instance rules_numeric_dec rules : Decision (rules_numeric rules).
Proof. unfold rules_numeric. apply _. Defined.

(** ** Lemmas *)

Lemma js_ge_threshold0 c r :
  is_Some (rule_threshold r) → js_ge c (rule_threshold r) = (threshold0 r <=? c).
Proof. intros [z Hz]. unfold threshold0. by rewrite Hz. Qed.

Lemma rules_numeric_in rules r :
  rules_numeric rules → r ∈ rules → ∃ z, rule_threshold r = Some z ∧ threshold0 r = z.
Proof.
  unfold rules_numeric. rewrite Forall_forall. intros Hn Hr.
  destruct (Hn r Hr) as [z Hz]. exists z. unfold threshold0. by rewrite Hz.
Qed.
