(* ===== verification/Ranking.v ===== *)
(** * [getGroupRankings]: dense ranks per group (script.js 957-979)

    [getGroupRankings(students)] partitions the students by
    [String(s["分組"]).trim() || "未分組"] into the object [groups] (keys in
    insertion order), sorts each group by descending cumulative score,
    then walks it with two variables: [cur], the current rank, and
    [last], the last distinct score.  It writes [rankMap[name] = cur] for
    every student.  [renderStudents] turns ranks 1, 2, 3 into medals.

    The rank the walk assigns is the dense rank: one more than the number
    of distinct cumulative scores of the group above the student's. *)

From S2P Require Import Prelude JsValue JsSort Records.
Local Open Scope Z_scope.

Module Ranking.

(** [if (!groups[g]) groups[g] = []; groups[g].push(s);] *)
Fixpoint push_group (g : string) (s : Student) (gs : list (string * list Student))
    : list (string * list Student) :=
  match gs with
  | [] => [(g, [s])]
  | (g', ss) :: gs' =>
      if String.eqb g g' then (g', (ss ++ [s])%list) :: gs' else (g', ss) :: push_group g s gs'
  end.

(** [students.forEach(s => ...)] building [groups]. *)
Definition group_partition (students : list Student) : list (string * list Student) :=
  foldl (λ gs s, push_group (rank_group_of s) s gs) [] students.

(** [(a, b) => (Number(b["累積分數"]) || 0) - (Number(a["累積分數"]) || 0)] *)
Definition rank_cmp : Student → Student → Z := desc_by cumulative_of.

(** The [forEach((s, i) => ...)] over a sorted group, threading
    [cur], [last] and [rankMap]. *)
Fixpoint rank_walk (i : nat) (cur : nat) (last : Z) (l : list Student)
    (rankMap : gmap string nat) : gmap string nat :=
  match l with
  | [] => rankMap
  | s :: l' =>
      let sc := cumulative_of s in
      let '(cur', last') :=
        if Nat.eqb i 0 then (cur, sc)
        else if sc <? last then (S cur, sc)
        else (cur, last) in
      rank_walk (S i) cur' last' l' (<[s_name s := cur']> rankMap)
  end.

(** One iteration of [for (const g in groups)]. *)
Definition rank_group (rankMap : gmap string nat) (group : string * list Student)
    : gmap string nat :=
  rank_walk 0 1 (-1) (js_sort rank_cmp group.2) rankMap.

Definition getGroupRankings (students : list Student) : gmap string nat :=
  foldl rank_group ∅ (group_partition students).

(** ** The dense rank, as the spec defines it *)

Definition group_members (students : list Student) (g : string) : list Student :=
  filter (λ t, rank_group_of t = g) students.

(** One more than the number of distinct cumulative scores of the
    student's group above its own. *)
Definition dense_rank (students : list Student) (s : Student) : nat :=
  S (distinct_above (cumulative_of <$> group_members students (rank_group_of s))
                    (cumulative_of s)).

(** The medal [renderStudents] draws for a rank (180-182). *)
Inductive medal := Gold | Silver | Bronze.

Definition medal_of (rank : option nat) : option medal :=
  match rank with
  | Some 1%nat => Some Gold
  | Some 2%nat => Some Silver
  | Some 3%nat => Some Bronze
  | _ => None
  end.

(** ** Auxiliary definitions of the proofs *)

(** The rank the walk gives [t] in the sorted group [L]. *)
Definition walk_rank (L : list Student) (t : Student) : nat :=
  S (distinct_above (cumulative_of <$> L) (cumulative_of t)).

(** The keys of [groups] in insertion order. *)
Definition group_keys (students : list Student) : list string :=
  foldl (λ K s, if decide (rank_group_of s ∈ K) then K else K ++ [rank_group_of s])
    [] students.

End Ranking.

(** Concrete rows for the witnesses: the spec's scores 80, 80, 60 in
    one group, listed in two orders. *)
Module RankingDemo.
Import Ranking.
Definition demo_student (n g : string) (c : Z) : Student :=
  mkStudent n (CStr g) (CNum 0) (CNum c) (CNum 0) CUndef.
Definition demo_A := demo_student "A" "Group 1" 80.
Definition demo_B := demo_student "B" " Group 1 " 80.
Definition demo_C := demo_student "C" "Group 1" 60.
Definition demo_D := demo_student "D" "" 5.
Definition demo_class := [demo_A; demo_B; demo_C; demo_D].
Definition demo_class' := [demo_C; demo_D; demo_B; demo_A].
End RankingDemo.

Module RankingFacts.
Import Ranking.

Abbreviation desc_sorted := (StronglySorted (λ x y, rank_cmp x y ≤ 0)).

Lemma rank_cmp_le x y : rank_cmp x y ≤ 0 ↔ cumulative_of y ≤ cumulative_of x.
Proof. unfold rank_cmp, desc_by. lia. Qed.

(** The walk from the second element on: after a non-empty prefix [p]
    whose least score is [v], [cur] counts the distinct scores of [p]. *)
Lemma rank_walk_tail L p r v m :
  L = p ++ r → desc_sorted L → p ≠ [] →
  v ∈ cumulative_of <$> p → Forall (λ w, v ≤ w) (cumulative_of <$> p) →
  rank_walk (length p) (S (distinct_above (cumulative_of <$> p) v)) v r m =
  insert_all s_name (walk_rank L) r m.
Proof.
  revert p v m. induction r as [|t r IH]; intros p v m -> Hs Hp Hv Hmin; [done|].
  assert (Hlast : ∀ u, u ∈ r → cumulative_of u ≤ cumulative_of t).
  { intros u Hu. apply rank_cmp_le.
    apply (StronglySorted_app_1_elem_of (λ x y, rank_cmp x y ≤ 0) (p ++ [t]) r); [by rewrite <- app_assoc|set_solver|done]. }
  assert (Htv : cumulative_of t ≤ v).
  { apply list_elem_of_fmap in Hv as (y & -> & Hy). apply rank_cmp_le.
    apply (StronglySorted_app_1_elem_of (λ x y, rank_cmp x y ≤ 0) p (t :: r)); [done|done|set_solver]. }
  assert (Hrank : walk_rank (p ++ t :: r) t =
                  S (distinct_above (cumulative_of <$> p ++ [t]) (cumulative_of t))).
  { unfold walk_rank. f_equal.
    replace (p ++ t :: r) with ((p ++ [t]) ++ r) by (by rewrite <- app_assoc).
    rewrite fmap_app, distinct_above_app; [done|].
    apply Forall_forall. intros w (u & -> & Hu)%list_elem_of_fmap. by apply Hlast. }
  assert (Hlen : Nat.eqb (length p) 0 = false) by (destruct p; done).
  assert (Hpt : distinct_above (cumulative_of <$> p ++ [t]) (cumulative_of t) =
                distinct_above (cumulative_of <$> p) (cumulative_of t)).
  { rewrite fmap_app, distinct_above_app; [done|]. constructor; [lia|constructor]. }
  cbn [rank_walk]. rewrite Hlen, insert_all_cons.
  destruct (Z.ltb_spec (cumulative_of t) v) as [Hlt|Hge].
  - assert (Hcur : S (S (distinct_above (cumulative_of <$> p) v)) =
                   S (distinct_above (cumulative_of <$> p ++ [t]) (cumulative_of t))).
    { rewrite Hpt, distinct_above_min, distinct_above_all by
        (done || (eapply Forall_impl; [exact Hmin|]; cbn; lia)). done. }
    rewrite Hcur, Hrank.
    replace (S (length p)) with (length (p ++ [t])) by (rewrite length_app; cbn; lia).
    apply (IH (p ++ [t])); [by rewrite <- app_assoc|done|by destruct p| |].
    + rewrite fmap_app. set_solver.
    + rewrite fmap_app. apply Forall_app. split; [|by repeat constructor].
      eapply Forall_impl; [exact Hmin|]. cbn. lia.
  - assert (Ht : cumulative_of t = v) by lia. rewrite Ht in Hrank, Hpt.
    rewrite Hrank, <- Hpt.
    replace (S (length p)) with (length (p ++ [t])) by (rewrite length_app; cbn; lia).
    apply (IH (p ++ [t])); [by rewrite <- app_assoc|done|by destruct p| |].
    + rewrite fmap_app. set_solver.
    + rewrite fmap_app. apply Forall_app. split; [done|]. constructor; [lia|constructor].
Qed.

(** On a group sorted by descending score, the walk assigns every
    student its [walk_rank]. *)
Lemma rank_walk_sorted L m :
  desc_sorted L → rank_walk 0 1 (-1) L m = insert_all s_name (walk_rank L) L m.
Proof.
  destruct L as [|t r]; intros Hs; [done|].
  assert (H1 : walk_rank (t :: r) t = 1%nat).
  { unfold walk_rank.
    change (cumulative_of <$> t :: r) with ([cumulative_of t] ++ (cumulative_of <$> r)).
    rewrite (distinct_above_app [cumulative_of t]).
    { by rewrite distinct_above_self. }
    apply StronglySorted_cons in Hs as [Hs _].
    apply Forall_fmap. eapply Forall_impl; [exact Hs|]. intros u. cbn. apply rank_cmp_le. }
  cbn [rank_walk Nat.eqb]. rewrite insert_all_cons, H1.
  pose proof (rank_walk_tail (t :: r) [t] r (cumulative_of t) (<[s_name t := 1%nat]> m)) as Ht.
  rewrite fmap_cons, fmap_nil, distinct_above_self in Ht.
  apply Ht; [done|done|done|set_solver|]. constructor; [lia|constructor].
Qed.

#[export] Instance rank_cmp_consistent : ConsistentCmp rank_cmp.
Proof. apply desc_by_consistent. Qed.

(** ** The partition into groups *)

Lemma group_members_snoc pre s g :
  group_members (pre ++ [s]) g =
  group_members pre g ++ (if decide (rank_group_of s = g) then [s] else []).
Proof. unfold group_members. rewrite filter_app, filter_cons. by case_decide. Qed.

Lemma push_group_members pre s K :
  NoDup K → (rank_group_of s ∉ K → group_members pre (rank_group_of s) = []) →
  push_group (rank_group_of s) s ((λ g, (g, group_members pre g)) <$> K) =
  (λ g, (g, group_members (pre ++ [s]) g)) <$>
    (if decide (rank_group_of s ∈ K) then K else K ++ [rank_group_of s]).
Proof.
  induction K as [|g K IH]; intros Hnd Hnew.
  - rewrite decide_False by set_solver. cbn [app fmap list_fmap push_group].
    rewrite group_members_snoc, Hnew, decide_True by set_solver. done.
  - rewrite NoDup_cons in Hnd. destruct Hnd as [Hg Hnd].
    rewrite fmap_cons. cbn [push_group].
    destruct (String.eqb_spec (rank_group_of s) g) as [<-|Hne].
    + rewrite decide_True by set_solver.
      rewrite fmap_cons, group_members_snoc, decide_True by done. f_equal.
      apply list_fmap_ext_in. intros g' Hg'.
      rewrite group_members_snoc, decide_False by set_solver. by rewrite app_nil_r.
    + rewrite IH by (done || set_solver).
      destruct (decide (rank_group_of s ∈ K));
        [rewrite decide_True by set_solver|rewrite decide_False by set_solver];
        cbn; rewrite group_members_snoc, decide_False, app_nil_r by done; done.
Qed.

Lemma group_keys_snoc l s :
  group_keys (l ++ [s]) =
  if decide (rank_group_of s ∈ group_keys l) then group_keys l
  else group_keys l ++ [rank_group_of s].
Proof. unfold group_keys. by rewrite foldl_app. Qed.

Lemma group_keys_spec l :
  NoDup (group_keys l) ∧ ∀ g, g ∈ group_keys l ↔ ∃ t, t ∈ l ∧ rank_group_of t = g.
Proof.
  induction l as [|s l IH] using rev_ind; [split; [constructor|set_solver]|].
  rewrite group_keys_snoc. destruct IH as [Hnd Hin].
  assert (Hl : ∀ g, (∃ t, t ∈ l ++ [s] ∧ rank_group_of t = g) ↔
                    (∃ t, t ∈ l ∧ rank_group_of t = g) ∨ rank_group_of s = g).
  { intros g. setoid_rewrite elem_of_app. setoid_rewrite list_elem_of_singleton. naive_solver. }
  case_decide as Hs; split.
  - done.
  - intros g. rewrite Hl, <- Hin. naive_solver.
  - apply NoDup_app. split; [done|]. split; [set_solver|]. constructor; [set_solver|constructor].
  - intros g. rewrite Hl, elem_of_app, list_elem_of_singleton, <- Hin. naive_solver.
Qed.

(** [groups] holds, for each group name in order of first appearance,
    the members of the group in input order. *)
Lemma group_partition_eq l :
  group_partition l = (λ g, (g, group_members l g)) <$> group_keys l.
Proof.
  induction l as [|s l IH] using rev_ind; [done|].
  unfold group_partition in *. rewrite foldl_app, IH. cbn [foldl].
  rewrite push_group_members.
  - by rewrite group_keys_snoc.
  - apply group_keys_spec.
  - intros Hn. unfold group_members. apply filter_all_false. apply Forall_forall.
    intros t Ht Heq. apply Hn, group_keys_spec. eauto.
Qed.

(** ** The loop over the groups *)

Lemma rank_group_eq m g ss :
  rank_group m (g, ss) =
  insert_all s_name (walk_rank (js_sort rank_cmp ss)) (js_sort rank_cmp ss) m.
Proof. apply rank_walk_sorted, js_sort_sorted, _. Qed.

Lemma fold_groups_notin l n K m :
  (∀ g, g ∈ K → n ∉ s_name <$> group_members l g) →
  foldl rank_group m ((λ g, (g, group_members l g)) <$> K) !! n = m !! n.
Proof.
  revert m. induction K as [|g K IH]; intros m Hn; [done|].
  rewrite fmap_cons. cbn [foldl]. rewrite IH by set_solver.
  rewrite rank_group_eq, insert_all_notin; [done|].
  rewrite (js_sort_perm rank_cmp). set_solver.
Qed.

Lemma fold_groups_in l s K m :
  NoDup (s_name <$> l) → s ∈ l → NoDup K → rank_group_of s ∈ K →
  foldl rank_group m ((λ g, (g, group_members l g)) <$> K) !! s_name s =
  Some (dense_rank l s).
Proof.
  intros Hnd Hs. revert m. induction K as [|g K IH]; intros m HK Hg; [set_solver|].
  rewrite NoDup_cons in HK. destruct HK as [HgK HK].
  rewrite fmap_cons. cbn [foldl].
  destruct (decide (rank_group_of s = g)) as [<-|Hne]; [|apply IH; [done|set_solver]].
  rewrite fold_groups_notin.
  - rewrite rank_group_eq, insert_all_in.
    + unfold walk_rank, dense_rank. by rewrite (js_sort_perm rank_cmp).
    + rewrite (js_sort_perm rank_cmp). by apply NoDup_fmap_filter.
    + rewrite (elem_of_js_sort rank_cmp). unfold group_members.
      by apply list_elem_of_filter.
  - intros g' Hg' (t & Ht & Htm)%list_elem_of_fmap.
    unfold group_members in Htm. apply list_elem_of_filter in Htm as [Htg Htl].
    assert (t = s) as -> by (eapply (NoDup_fmap_inj_in s_name); eauto).
    set_solver.
Qed.

(** ** Theorems *)

(** The rank of a student, read off the members of its group. *)
Lemma getGroupRankings_lookup students s :
  NoDup (s_name <$> students) → s ∈ students →
  getGroupRankings students !! s_name s =
    Some (S (distinct_above (cumulative_of <$> group_members students (rank_group_of s))
                            (cumulative_of s))).
Proof.
  intros Hnd Hs. unfold getGroupRankings. rewrite group_partition_eq.
  apply fold_groups_in; [done|done|apply group_keys_spec|].
  apply group_keys_spec. eauto.
Qed.

(** C1: for students with distinct names, [getGroupRankings] gives each
    student the dense rank of its cumulative score in its group: one
    more than the number of distinct scores of the group above its
    own. *)
Theorem getGroupRankings_dense students s :
  NoDup (s_name <$> students) → s ∈ students →
  getGroupRankings students !! s_name s = Some (dense_rank students s).
Proof. intros Hnd Hs. by rewrite getGroupRankings_lookup. Qed.

(** Only students get a rank. *)
Lemma getGroupRankings_dom students n :
  n ∉ s_name <$> students → getGroupRankings students !! n = None.
Proof.
  intros Hn. unfold getGroupRankings. rewrite group_partition_eq, fold_groups_notin; [done|].
  intros g _ Hg. apply Hn. unfold group_members in Hg.
  apply list_elem_of_fmap in Hg as (t & -> & Ht). apply list_elem_of_filter in Ht.
  apply list_elem_of_fmap_2. tauto.
Qed.

(** C2: the rank map does not depend on the order of the input: any
    reordering of students with distinct names gives the same ranks. *)
Theorem getGroupRankings_perm students students' :
  NoDup (s_name <$> students) → students ≡ₚ students' →
  getGroupRankings students = getGroupRankings students'.
Proof.
  intros Hnd Hp. assert (Hnd' : NoDup (s_name <$> students')) by by rewrite <- Hp.
  apply map_eq. intros n.
  destruct (decide (n ∈ s_name <$> students)) as [Hn|Hn].
  - apply list_elem_of_fmap in Hn as (s & -> & Hs).
    rewrite !getGroupRankings_lookup; [|done|by rewrite <- Hp|done|done].
    unfold group_members. by rewrite Hp.
  - rewrite !getGroupRankings_dom; [done|by rewrite <- Hp|done].
Qed.

(** C3: a student ranks first (the gold medal of [renderStudents])
    exactly when no student of its group has a higher cumulative
    score. *)
Theorem rank_one_iff_group_max students s :
  NoDup (s_name <$> students) → s ∈ students →
  getGroupRankings students !! s_name s = Some 1%nat ↔
  ∀ t, t ∈ students → rank_group_of t = rank_group_of s → cumulative_of t ≤ cumulative_of s.
Proof.
  intros Hnd Hs. rewrite getGroupRankings_lookup by done.
  unfold distinct_above, group_members. split.
  - intros [= Hsz] t Ht Hg. apply size_empty_inv in Hsz.
    destruct (Z_le_gt_dec (cumulative_of t) (cumulative_of s)) as [|Hgt]; [done|].
    exfalso. eapply (not_elem_of_empty (C := gset Z) (cumulative_of t)).
    rewrite <- Hsz, elem_of_list_to_set, list_elem_of_filter. split; [lia|].
    apply list_elem_of_fmap_2, list_elem_of_filter. done.
  - intros Hmax. rewrite filter_all_false; [done|].
    apply Forall_forall. intros z (t & -> & Ht)%list_elem_of_fmap.
    apply list_elem_of_filter in Ht as [Hg Ht]. specialize (Hmax t Ht Hg). lia.
Qed.

(** ** Witnesses *)

Import RankingDemo.

Lemma getGroupRankings_dense_witness :
  getGroupRankings demo_class !! "C" = Some (dense_rank demo_class demo_C) ∧
  dense_rank demo_class demo_C = 2%nat.
Proof.
  split; [|vm_compute; reflexivity].
  apply (getGroupRankings_dense demo_class demo_C).
  - apply (bool_decide_unpack _). vm_compute. reflexivity.
  - right. right. left.
Defined.

Lemma getGroupRankings_perm_witness :
  getGroupRankings demo_class = getGroupRankings demo_class'.
Proof.
  apply getGroupRankings_perm.
  - apply (bool_decide_unpack _). vm_compute. reflexivity.
  - unfold demo_class, demo_class'.
    apply (bool_decide_unpack _). vm_compute. reflexivity.
Defined.

Lemma rank_one_iff_group_max_witness :
  getGroupRankings demo_class !! "B" = Some 1%nat.
Proof.
  apply (rank_one_iff_group_max demo_class demo_B).
  - apply (bool_decide_unpack _). vm_compute. reflexivity.
  - right. left.
  - intros t Ht Hg. repeat (apply elem_of_cons in Ht as [->|Ht]);
      [vm_compute; congruence ..|by apply elem_of_nil in Ht].
Defined.

(** The spec's example: scores 80, 80, 60 rank 1, 1, 2 (not 1, 1, 3),
    in either input order; the student without a group ranks 1 in
    [未分組]. *)
Example demo_ranks :
  getGroupRankings demo_class !! "A" = Some 1%nat ∧
  getGroupRankings demo_class !! "B" = Some 1%nat ∧
  getGroupRankings demo_class !! "C" = Some 2%nat ∧
  getGroupRankings demo_class' !! "C" = Some 2%nat ∧
  getGroupRankings demo_class !! "D" = Some 1%nat.
Proof. vm_compute. repeat split. Qed.
End RankingFacts.
