(* ===== verification/Titles.v ===== *)
(** * Title tiers: the resolver of [renderStudents] and [renderTitles]

    [renderStudents] (159-167) sorts a copy of [titleConfig.rules] by
    descending [Number(rule.score)] and takes the first rule whose
    threshold the cumulative score meets ([for ... break]).
    [renderTitles] (286-326) repeats the same search with [find] to
    collect, per title label, the names of the students holding it.  It
    then sorts [titleConfig.rules] itself in place (line 307) by
    ascending [Number(a.score) || 0] and sorts each holder list with
    [localeCompare].

    [best_rule] is the reference: a single left-to-right scan that keeps
    the first rule of highest threshold at or below the score.  The
    sorted search is proved equal to it on numeric thresholds. *)

From S2P Require Import Prelude JsValue JsSort Records.
Local Open Scope Z_scope.

Module Titles.

(** [(a, b) => Number(b.score) - Number(a.score)]; a NaN difference
    counts as 0. *)
Definition rule_desc_cmp (a b : TitleRule) : Z :=
  js_sub_cmp (rule_threshold b) (rule_threshold a).

(** [(a, b) => (Number(a.score) || 0) - (Number(b.score) || 0)], the
    in-place sort of [renderTitles]. *)
Definition rule_asc_cmp (a b : TitleRule) : Z :=
  ⟦r_score a⟧%cps - ⟦r_score b⟧%cps.

(** [for (const rule of sortedRules) if (score >= Number(rule.score))
    {...; break;}], and equally [sortedRules.find(r => score >=
    Number(r.score))]. *)
Fixpoint first_rule_at_or_below (score : Z) (rules : list TitleRule) : option TitleRule :=
  match rules with
  | [] => None
  | r :: rs => if js_ge score (rule_threshold r) then Some r else first_rule_at_or_below score rs
  end.

(** The rule of the title pill of [renderStudents] (159-167). *)
Definition student_title (cfg : TitleConfig) (s : Student) : option TitleRule :=
  if tc_enabled cfg && negb (Nat.eqb (length (tc_rules cfg)) 0) then
    first_rule_at_or_below (cumulative_of s) (js_sort rule_desc_cmp (tc_rules cfg))
  else None.

(** The frame of the picture (174-176). *)
Inductive frame := FrameGold | FrameSilver | FrameBronze | FrameNone.

Definition frame_of (cumulative : Z) : frame :=
  if 80 <=? cumulative then FrameGold
  else if 35 <=? cumulative then FrameSilver
  else if 20 <=? cumulative then FrameBronze
  else FrameNone.

(** The order of the frames, for comparing them. *)
Definition frame_rank (f : frame) : Z :=
  match f with FrameNone => 0 | FrameBronze => 1 | FrameSilver => 2 | FrameGold => 3 end.

(** [holdersMap]: [allStudents.forEach] pushing each student's name
    under the title of its matched rule (298-305). *)
Definition add_holder (sortedRules : list TitleRule) (holders : gmap string (list string))
    (s : Student) : gmap string (list string) :=
  match first_rule_at_or_below (cumulative_of s) sortedRules with
  | Some r => <[r_title r := default [] (holders !! r_title r) ++ [s_name s]]> holders
  | None => holders
  end.

Definition holders_map (rules : list TitleRule) (students : list Student)
    : gmap string (list string) :=
  foldl (add_holder (js_sort rule_desc_cmp rules)) ∅ students.

(** What [renderTitles] shows: nothing to show, or one card per rule in
    ascending order with its sorted holders. *)
Inductive titles_view :=
  | NoTitles
  | TitleCards (cards : list (TitleRule * list string)).

(** [renderTitles], with [localeCompare] as a parameter.  It returns the
    view and the title configuration after the in-place
    [rules.sort(...)]. *)
Definition renderTitles (locale_cmp : string → string → Z) (cfg : TitleConfig)
    (students : list Student) : titles_view * TitleConfig :=
  let rules := tc_rules cfg in
  if Nat.eqb (length rules) 0 then (NoTitles, cfg)
  else
    let holders := holders_map rules students in
    let sorted := js_sort rule_asc_cmp rules in
    (TitleCards ((λ r, (r, js_sort locale_cmp (default [] (holders !! r_title r)))) <$> sorted),
     mkTitleConfig (tc_enabled cfg) sorted).

(** ** Reference: a single scan *)

(** The first rule, in input order, of highest threshold at or below the
    score. *)
Fixpoint best_rule (score : Z) (rules : list TitleRule) : option TitleRule :=
  match rules with
  | [] => None
  | r :: rs =>
      let b := best_rule score rs in
      if js_ge score (rule_threshold r) then
        match b with
        | Some b' => if threshold0 r <? threshold0 b' then b else Some r
        | None => Some r
        end
      else b
  end.

End Titles.

(** Concrete rules and students for the witnesses: the spec's rules
    [{50, "X"}, {20, "Y"}] and a second rule at 20. *)
Module TitlesDemo.
Import Titles.
Definition demo_X := mkRule (CNum 50) "X".
Definition demo_Y := mkRule (CNum 20) "Y".
Definition demo_Y2 := mkRule (CStr "20") "Y2".
Definition demo_cfg := mkTitleConfig true [demo_Y; demo_X; demo_Y2].
Definition demo_scored (n : string) (c : Z) : Student :=
  mkStudent n (CStr "g") (CNum 0) (CNum c) (CNum 0) CUndef.
Definition demo_students := [demo_scored "b" 30; demo_scored "a" 25; demo_scored "c" 99].
(** [localeCompare] on ASCII names: code-unit order. *)
Definition demo_locale (a b : string) : Z :=
  match String.compare a b with Lt => -1 | Eq => 0 | Gt => 1 end.
End TitlesDemo.

Module TitlesFacts.
Import Titles.

(** On numeric rules the comparator of [renderStudents] is the
    descending comparator on thresholds. *)
Lemma js_sort_rule_desc rules :
  rules_numeric rules → js_sort rule_desc_cmp rules = js_sort (desc_by threshold0) rules.
Proof.
  intros Hnum. apply js_sort_ext. intros x y Hx Hy.
  unfold rules_numeric in Hnum. rewrite Forall_forall in Hnum.
  destruct (Hnum x Hx) as [zx Hzx], (Hnum y Hy) as [zy Hzy].
  unfold rule_desc_cmp, desc_by, threshold0. by rewrite Hzx, Hzy.
Qed.

Lemma first_rule_cons c r rs :
  first_rule_at_or_below c (r :: rs) =
  if js_ge c (rule_threshold r) then Some r else first_rule_at_or_below c rs.
Proof. done. Qed.

(** The search over a list with one more rule inserted: the new rule
    wins when it qualifies and no qualifying rule has a higher
    threshold. *)
Lemma first_rule_insert c x L :
  StronglySorted (λ u v, desc_by threshold0 u v ≤ 0) L →
  rules_numeric (x :: L) →
  first_rule_at_or_below c (insert_by (desc_by threshold0) x L) =
  if js_ge c (rule_threshold x) then
    match first_rule_at_or_below c L with
    | Some b => if threshold0 x <? threshold0 b then Some b else Some x
    | None => Some x
    end
  else first_rule_at_or_below c L.
Proof.
  induction 1 as [|y L HL IH Hy]; intros Hnum; cbn [insert_by].
  - cbn. by destruct (js_ge c (rule_threshold x)).
  - unfold rules_numeric in Hnum. rewrite !Forall_cons in Hnum. destruct Hnum as (Hx & Hy' & HL').
    unfold desc_by at 1. destruct (Z.leb_spec (threshold0 y - threshold0 x) 0) as [Hyx|Hyx].
    + rewrite (first_rule_cons c x). destruct (js_ge c (rule_threshold x)) eqn:Hgx; [|done].
      assert (Hfirst : ∀ b, first_rule_at_or_below c (y :: L) = Some b → threshold0 b ≤ threshold0 x).
      { intros b Hb. assert (Hin : b ∈ y :: L).
        { clear -Hb. induction (y :: L) as [|u l IHl]; cbn in Hb; [done|].
          case_match; simplify_eq; [left|right; auto]. }
        apply elem_of_cons in Hin as [->|Hin]; [lia|].
        rewrite Forall_forall in Hy. specialize (Hy b Hin). unfold desc_by in Hy. lia. }
      destruct (first_rule_at_or_below c (y :: L)) as [b|] eqn:Hb; [|done].
      specialize (Hfirst b eq_refl). by destruct (Z.ltb_spec (threshold0 x) (threshold0 b)); [lia|].
    + rewrite !first_rule_cons, IH by (constructor; done).
      rewrite !js_ge_threshold0 by done.
      destruct (Z.leb_spec (threshold0 y) c), (Z.leb_spec (threshold0 x) c); try done.
      destruct (Z.ltb_spec (threshold0 x) (threshold0 y)); [done|lia].
Qed.

(** With titles enabled, the pill is the search in the descending sort
    (the length guard only skips the search of an empty list). *)
Lemma student_title_enabled cfg s :
  tc_enabled cfg = true →
  student_title cfg s = first_rule_at_or_below (cumulative_of s) (js_sort rule_desc_cmp (tc_rules cfg)).
Proof. intros Hen. unfold student_title. rewrite Hen. by destruct (tc_rules cfg). Qed.

(** The search in the descending sort is the single scan. *)
Lemma first_rule_sorted_best c rules :
  rules_numeric rules →
  first_rule_at_or_below c (js_sort rule_desc_cmp rules) = best_rule c rules.
Proof.
  intros Hnum. rewrite js_sort_rule_desc by done.
  induction rules as [|x l IH]; [done|].
  cbn [js_sort best_rule]. apply Forall_cons in Hnum as [Hx Hl].
  rewrite first_rule_insert.
  - rewrite IH by done. destruct (js_ge c (rule_threshold x)); [|done].
    destruct (best_rule c l); [|done]. done.
  - apply js_sort_sorted, _.
  - constructor; [done|]. unfold rules_numeric. rewrite Forall_forall. intros y Hy.
    rewrite (elem_of_js_sort (desc_by threshold0)) in Hy. by eapply Forall_forall in Hl.
Qed.

(** C4: on numeric thresholds, the sort-then-search of [renderStudents]
    computes the reference scan: the first rule, in input order, of
    highest threshold at or below the cumulative score. *)
Theorem student_title_best cfg s :
  rules_numeric (tc_rules cfg) → tc_enabled cfg = true →
  student_title cfg s = best_rule (cumulative_of s) (tc_rules cfg).
Proof. intros Hnum Hen. rewrite student_title_enabled by done. by apply first_rule_sorted_best. Qed.

Lemma best_rule_none c rules :
  rules_numeric rules → best_rule c rules = None ↔ ∀ r, r ∈ rules → c < threshold0 r.
Proof.
  induction rules as [|x l IH]; intros Hnum; [split; [set_solver|done]|].
  apply Forall_cons in Hnum as [Hx Hl]. cbn [best_rule].
  rewrite js_ge_threshold0 by done. rewrite Forall_forall in Hl.
  destruct (Z.leb_spec (threshold0 x) c) as [Hxc|Hxc].
  - split; [by destruct (best_rule c l); [case_match|]|]. intros Hall.
    specialize (Hall x ltac:(by left)). lia.
  - rewrite IH by (by apply Forall_forall). split.
    + intros Hall r [->|Hr]%elem_of_cons; [lia|auto].
    + intros Hall r Hr. apply Hall. by right.
Qed.

Lemma best_rule_some c rules r :
  rules_numeric rules → best_rule c rules = Some r →
  r ∈ rules ∧ threshold0 r ≤ c ∧
  ∀ r', r' ∈ rules → threshold0 r' ≤ c → threshold0 r' ≤ threshold0 r.
Proof.
  revert r. induction rules as [|x l IH]; intros r Hnum Hb; [done|].
  apply Forall_cons in Hnum as [Hx Hl]. cbn [best_rule] in Hb.
  rewrite js_ge_threshold0 in Hb by done.
  destruct (Z.leb_spec (threshold0 x) c) as [Hxc|Hxc].
  - destruct (best_rule c l) as [b|] eqn:Hbl.
    + destruct (IH b Hl eq_refl) as (Hbin & Hbc & Hbmax).
      destruct (Z.ltb_spec (threshold0 x) (threshold0 b)); simplify_eq.
      * split_and!; [set_solver|done|]. intros r' [->|Hr']%elem_of_cons Hr'c; [lia|auto].
      * split_and!; [set_solver|done|]. intros r' [->|Hr']%elem_of_cons Hr'c; [lia|].
        specialize (Hbmax r' Hr' Hr'c). lia.
    + simplify_eq. split_and!; [set_solver|done|].
      intros r' [->|Hr']%elem_of_cons Hr'c; [lia|].
      rewrite best_rule_none in Hbl by done. specialize (Hbl r' Hr'). lia.
  - destruct (IH r Hl Hb) as (Hrin & Hrc & Hrmax). split_and!; [set_solver|done|].
    intros r' [->|Hr']%elem_of_cons Hr'c; [lia|auto].
Qed.

(** C5: with titles enabled and numeric thresholds, the title pill of a
    student shows a rule whose threshold the cumulative score meets and
    that no other met threshold exceeds; there is no title exactly when
    the score is below every threshold (in particular for no rules). *)
Theorem student_title_highest cfg s :
  rules_numeric (tc_rules cfg) → tc_enabled cfg = true →
  (∀ r, student_title cfg s = Some r →
     r ∈ tc_rules cfg ∧ threshold0 r ≤ cumulative_of s ∧
     ∀ r', r' ∈ tc_rules cfg → threshold0 r' ≤ cumulative_of s → threshold0 r' ≤ threshold0 r) ∧
  (student_title cfg s = None ↔ ∀ r, r ∈ tc_rules cfg → cumulative_of s < threshold0 r).
Proof.
  intros Hnum Hen. rewrite student_title_enabled, first_rule_sorted_best by done. split.
  - intros r. by apply best_rule_some.
  - by apply best_rule_none.
Qed.

(** On numeric rules the in-place sort of [renderTitles] is the
    ascending sort on thresholds. *)
Lemma js_sort_rule_asc rules :
  rules_numeric rules → js_sort rule_asc_cmp rules = js_sort (asc_by threshold0) rules.
Proof.
  intros Hnum. apply js_sort_ext. intros x y Hx Hy.
  unfold rules_numeric in Hnum. rewrite Forall_forall in Hnum.
  destruct (Hnum x Hx) as [zx Hzx], (Hnum y Hy) as [zy Hzy].
  unfold rule_asc_cmp, asc_by, threshold0, num_or0. unfold rule_threshold in *.
  by rewrite Hzx, Hzy.
Qed.

Lemma rules_numeric_perm rules rules' :
  rules' ≡ₚ rules → rules_numeric rules → rules_numeric rules'.
Proof. intros Hp. unfold rules_numeric. by rewrite Hp. Qed.

(** C6: [renderTitles] sorts [titleConfig.rules] in place; on numeric
    thresholds this changes no student's title in later renders. *)
Theorem renderTitles_keeps_titles locale_cmp cfg students s :
  rules_numeric (tc_rules cfg) →
  student_title (renderTitles locale_cmp cfg students).2 s = student_title cfg s.
Proof.
  intros Hnum. unfold renderTitles.
  destruct (Nat.eqb (length (tc_rules cfg)) 0) eqn:Hlen; [done|]. cbn [snd].
  unfold student_title. cbn [tc_enabled tc_rules]. rewrite length_js_sort, Hlen.
  destruct (tc_enabled cfg); [|done]. cbn [andb negb].
  assert (Hnum' : rules_numeric (js_sort rule_asc_cmp (tc_rules cfg)))
    by (eapply rules_numeric_perm; [apply js_sort_perm|done]).
  rewrite !js_sort_rule_desc, js_sort_rule_asc by done.
  rewrite js_sort_resort; [done|apply _|apply _|].
  intros x y. unfold cmp_equiv, asc_by, desc_by. lia.
Qed.

(** The label of the rule [renderTitles] matches for a student (300). *)
Lemma holders_map_snoc rules l s :
  holders_map rules (l ++ [s]) = add_holder (js_sort rule_desc_cmp rules) (holders_map rules l) s.
Proof. unfold holders_map. by rewrite foldl_app. Qed.

Lemma holders_map_lookup rules students t :
  default [] (holders_map rules students !! t) =
  s_name <$> filter (λ s, option_map r_title
                      (first_rule_at_or_below (cumulative_of s) (js_sort rule_desc_cmp rules)) = Some t)
                    students.
Proof.
  induction students as [|s l IH] using rev_ind; [done|].
  rewrite holders_map_snoc, filter_app, fmap_app, <- IH, filter_cons. unfold add_holder.
  destruct (first_rule_at_or_below (cumulative_of s) _) as [r|]; cbn [option_map].
  - destruct (decide (r_title r = t)) as [<-|Hne].
    + rewrite decide_True by done. by rewrite lookup_insert_eq.
    + rewrite decide_False by congruence. rewrite lookup_insert_ne by done. by rewrite app_nil_r.
  - rewrite decide_False by done. by rewrite app_nil_r.
Qed.

(** C7: each card of [renderTitles] lists, sorted with [localeCompare],
    exactly the names of the students whose matched rule carries the
    card's title label, and the cards follow the thresholds in ascending
    order of the in-place sort. *)
Theorem renderTitles_holders locale_cmp cfg students r hs :
  (∃ cards, (renderTitles locale_cmp cfg students).1 = TitleCards cards ∧ (r, hs) ∈ cards) →
  r ∈ tc_rules cfg ∧
  hs = js_sort locale_cmp
         (s_name <$> filter (λ s, option_map r_title
                         (first_rule_at_or_below (cumulative_of s)
                            (js_sort rule_desc_cmp (tc_rules cfg))) = Some (r_title r))
                       students).
Proof.
  intros (cards & Hv & Hin). unfold renderTitles in Hv.
  destruct (Nat.eqb (length (tc_rules cfg)) 0); [done|]. cbn in Hv. injection Hv as <-.
  apply list_elem_of_fmap in Hin as (r' & Heq & Hr'). injection Heq as -> ->.
  rewrite (elem_of_js_sort rule_asc_cmp) in Hr'. split; [done|].
  by rewrite <- holders_map_lookup.
Qed.

(** The frame of [renderStudents] never drops as the cumulative score
    grows: none, bronze (20), silver (35), gold (80). *)
Theorem frame_of_monotone c c' :
  c ≤ c' → frame_rank (frame_of c) ≤ frame_rank (frame_of c').
Proof. intros Hle. unfold frame_of. zify_bools; cbn; lia. Qed.

(** ** Witnesses *)

Import TitlesDemo.

Lemma demo_cfg_numeric : rules_numeric (tc_rules demo_cfg).
Proof. apply (bool_decide_unpack _). vm_compute. reflexivity. Qed.

Lemma student_title_best_witness :
  student_title demo_cfg (demo_scored "s" 30) = best_rule 30 (tc_rules demo_cfg) ∧
  best_rule 30 (tc_rules demo_cfg) = Some demo_Y.
Proof.
  split; [|vm_compute; reflexivity].
  apply (student_title_best demo_cfg (demo_scored "s" 30)); [apply demo_cfg_numeric|reflexivity].
Defined.

Lemma student_title_highest_witness :
  student_title demo_cfg (demo_scored "s" 10) = None.
Proof.
  apply (proj2 (student_title_highest demo_cfg (demo_scored "s" 10)
                  demo_cfg_numeric eq_refl)).
  intros r Hr. repeat (apply elem_of_cons in Hr as [->|Hr]);
    [vm_compute; reflexivity ..|by apply elem_of_nil in Hr].
Defined.

Lemma renderTitles_keeps_titles_witness :
  student_title (renderTitles demo_locale demo_cfg demo_students).2 (demo_scored "s" 30) =
  student_title demo_cfg (demo_scored "s" 30).
Proof. apply renderTitles_keeps_titles. apply demo_cfg_numeric. Defined.

Lemma renderTitles_holders_witness :
  demo_Y ∈ tc_rules demo_cfg ∧
  ["a"; "b"] = js_sort demo_locale
    (s_name <$> filter (λ s, option_map r_title
                    (first_rule_at_or_below (cumulative_of s)
                       (js_sort rule_desc_cmp (tc_rules demo_cfg))) = Some (r_title demo_Y))
                  demo_students).
Proof.
  apply (renderTitles_holders demo_locale demo_cfg demo_students demo_Y ["a"; "b"]).
  eexists. split; [vm_compute; reflexivity|]. left.
Defined.

(** The spec's examples: with rules [{50, "X"}, {20, "Y"}], the scores
    60, 30 and 10 resolve to X, Y and no title; of two rules at 20 the
    first defined wins. *)
Example demo_titles :
  option_map r_title (student_title demo_cfg (demo_scored "s" 60)) = Some "X" ∧
  option_map r_title (student_title demo_cfg (demo_scored "s" 30)) = Some "Y" ∧
  student_title demo_cfg (demo_scored "s" 10) = None.
Proof. vm_compute. repeat split. Qed.
End TitlesFacts.
