(* ===== verification/Progress.v ===== *)
(** * Level progress: the bar of [updateLevelProgress] (591-613)

    For the student whose modal opens, [updateLevelProgress] returns
    early unless the student exists and titles are enabled with at least
    one rule.  It sorts a copy of the rules by ascending
    [Number(a.score) - Number(b.score)] and walks them: every rule whose
    threshold the cumulative score meets becomes [currentTitleObj]
    (initially the synthetic [{score: 0, title: "無稱號"}]), and the first
    one it does not meet is [nextTitleObj] ([break]).  With a next title
    the bar is [Math.min(100, Math.max(0, (score - cur) / range * 100))]
    wide, [range = next - cur], and the text says [next - score] points are
    missing; without one the bar is full.

    The bar width is a JavaScript number: [jsnum] ([JsNumber]) is [Q]
    extended with the infinities and NaN, and division, [Math.min] and
    [Math.max] act on it as in JavaScript (up to the rounding of
    doubles). *)

From S2P Require Import Prelude JsValue JsNumber JsSort Records Titles.
From Stdlib Require Import QArith Lqa.
Local Open Scope Z_scope.

Module Progress.

(** [a / b] on integers that may be NaN: division by zero gives an
    infinity by the sign of [a], or NaN for [0 / 0]. *)
Definition js_div (a b : option Z) : jsnum :=
  match a, b with
  | Some x, Some y =>
      if y =? 0 then (if 0 <? x then JPosInf else if x <? 0 then JNegInf else JNaN)
      else JFin (inject_Z x / inject_Z y)
  | _, _ => JNaN
  end.

(** [x * 100] *)
Definition js_mul100 (x : jsnum) : jsnum :=
  match x with
  | JFin q => JFin (q * 100)
  | other => other
  end.

(** [Math.max(0, x)] *)
Definition js_max0 (x : jsnum) : jsnum :=
  match x with
  | JFin q => if Qle_bool q 0 then JFin 0 else JFin q
  | JPosInf => JPosInf
  | JNegInf => JFin 0
  | JNaN => JNaN
  end.

(** [Math.min(100, x)] *)
Definition js_min100 (x : jsnum) : jsnum :=
  match x with
  | JFin q => if Qle_bool 100 q then JFin 100 else JFin q
  | JPosInf => JFin 100
  | JNegInf => JNegInf
  | JNaN => JNaN
  end.

(** [a - b] on possibly-NaN integers. *)
Definition js_minus (a b : option Z) : option Z :=
  match a, b with
  | Some x, Some y => Some (x - y)
  | _, _ => None
  end.

(** [(a, b) => Number(a.score) - Number(b.score)] *)
Definition rule_progress_cmp (a b : TitleRule) : Z :=
  js_sub_cmp (rule_threshold a) (rule_threshold b).

(** [{ score: 0, title: "無稱號" }] *)
Definition no_title : TitleRule := mkRule (CNum 0) "無稱號".

(** The [for] loop: the last rule met so far and the first rule not met. *)
Fixpoint progress_walk (score : Z) (rules : list TitleRule) (current : TitleRule)
    : TitleRule * option TitleRule :=
  match rules with
  | [] => (current, None)
  | r :: rs =>
      if js_ge score (rule_threshold r) then progress_walk score rs r
      else (current, Some r)
  end.

(** What the modal shows: the current title, the next one, the bar
    width and the missing points ([Number(next.score) - score]). *)
Record xp_view := mkXp {
  xp_current : TitleRule;
  xp_next : option TitleRule;
  xp_width : jsnum;
  xp_gap : option Z
}.

(** The bar for a cumulative score and a non-empty rule list. *)
Definition progress_of (score : Z) (rules : list TitleRule) : xp_view :=
  let '(cur, next) := progress_walk score (js_sort rule_progress_cmp rules) no_title in
  match next with
  | Some n =>
      let range := js_minus (rule_threshold n) (rule_threshold cur) in
      let width := js_min100 (js_max0 (js_mul100
                     (js_div (js_minus (Some score) (rule_threshold cur)) range))) in
      mkXp cur next width (js_minus (rule_threshold n) (Some score))
  | None => mkXp cur None (JFin 100) None
  end.

(** [updateLevelProgress(studentName)], its bar part, with its early
    return. *)
Definition updateLevelProgress (cfg : TitleConfig) (students : list Student)
    (name : string) : option xp_view :=
  match list_find (λ s, s_name s = name) students with
  | None => None
  | Some (_, st) =>
      if negb (tc_enabled cfg) || Nat.eqb (length (tc_rules cfg)) 0 then None
      else Some (progress_of (cumulative_of st) (tc_rules cfg))
  end.

End Progress.

(** Concrete rules for the witnesses: the spec's [{0, "Novice"},
    {100, "Master"}] and a rule at a negative threshold. *)
Module ProgressDemo.
Import Progress.
Definition demo_novice := mkRule (CNum 0) "Novice".
Definition demo_master := mkRule (CNum 100) "Master".
Definition demo_rules := [demo_master; demo_novice].
Definition demo_cfg := mkTitleConfig true demo_rules.
Definition demo_pupil (c : Z) : Student :=
  mkStudent "P" (CStr "g") (CNum 0) (CNum c) (CNum 0) CUndef.
Definition demo_negative := [mkRule (CNum (-1)) "Rookie"].
End ProgressDemo.

Module ProgressFacts.
Import Progress.
Local Open Scope Q_scope.

(** ** The arithmetic of the bar *)

Lemma js_div_nan a b : js_div (Some a) (Some b) = JNaN → a = 0%Z ∧ b = 0%Z.
Proof. unfold js_div. zify_bools; intros; simplify_eq; lia. Qed.

(** Clamping anything but NaN gives a finite width in [0, 100]. *)
Lemma clamp_bounded x :
  x ≠ JNaN → ∃ q, js_min100 (js_max0 (js_mul100 x)) = JFin q ∧ 0 <= q ∧ q <= 100.
Proof.
  intros Hx. destruct x as [q| | |]; cbn; [|eexists; split; [done|lra]..|done].
  destruct (Qle_bool (q * 100) 0) eqn:H0; cbn.
  - eexists; split; [done|lra].
  - assert (~ q * 100 <= 0) by (rewrite <- Qle_bool_iff; congruence).
    destruct (Qle_bool 100 (q * 100)) eqn:H1; eexists; (split; [done|]); [lra|].
    assert (~ 100 <= q * 100) by (rewrite <- Qle_bool_iff; congruence). lra.
Qed.

(** A fraction [a / b] with [0 <= a < b], scaled and clamped, stays
    below 100. *)
Lemma clamp_fraction (a b : Z) :
  (0 ≤ a < b)%Z →
  ∃ q, js_min100 (js_max0 (js_mul100 (JFin (inject_Z a / inject_Z b)))) = JFin q ∧
       0 <= q ∧ q < 100.
Proof.
  intros Hab. assert (Hb : 0 < inject_Z b) by (change 0 with (inject_Z 0); rewrite <- Zlt_Qlt; lia).
  assert (Hx0 : 0 <= inject_Z a / inject_Z b).
  { apply Qle_shift_div_l; [done|]. rewrite Qmult_0_l.
    change 0 with (inject_Z 0). rewrite <- Zle_Qle. lia. }
  assert (Hx1 : inject_Z a / inject_Z b < 1).
  { apply Qlt_shift_div_r; [done|]. rewrite Qmult_1_l, <- Zlt_Qlt. lia. }
  set (x := inject_Z a / inject_Z b) in *. cbn.
  destruct (Qle_bool (x * 100) 0) eqn:H0; cbn; [eexists; split; [done|lra]|].
  destruct (Qle_bool 100 (x * 100)) eqn:H1.
  - apply Qle_bool_iff in H1. lra.
  - eexists; split; [done|lra].
Qed.

(** ** The walk *)

Lemma progress_walk_spec cs L c0 cur next :
  progress_walk cs L c0 = (cur, next) →
  (cur = c0 ∨ (cur ∈ L ∧ js_ge cs (rule_threshold cur) = true)) ∧
  (∀ n, next = Some n → n ∈ L ∧ js_ge cs (rule_threshold n) = false).
Proof.
  revert c0. induction L as [|r L IH]; intros c0 Hw; cbn in Hw.
  - simplify_eq. split; [by left|done].
  - destruct (js_ge cs (rule_threshold r)) eqn:Hr.
    + destruct (IH r Hw) as [Hcur Hn]. split.
      * right. destruct Hcur as [->|[Hin Hge]]; [split; [left|done]|split; [by right|done]].
      * intros n Hn'. destruct (Hn n Hn'). split; [by right|done].
    + simplify_eq. split; [by left|]. intros n [= <-]. split; [left|done].
Qed.

Lemma progress_walk_none cs L c0 :
  (progress_walk cs L c0).2 = None ↔ Forall (λ r, js_ge cs (rule_threshold r) = true) L.
Proof.
  revert c0. induction L as [|r L IH]; intros c0; cbn; [split; [constructor|done]|].
  rewrite Forall_cons. destruct (js_ge cs (rule_threshold r)); [rewrite IH; naive_solver|].
  split; [done|naive_solver].
Qed.

(** On a list sorted by threshold the rule the walk stops at has the
    least threshold the score does not meet. *)
Lemma progress_walk_least cs L c0 cur n :
  StronglySorted (λ u v, asc_by threshold0 u v ≤ 0)%Z L →
  Forall (λ r, is_Some (rule_threshold r)) L →
  progress_walk cs L c0 = (cur, Some n) →
  ∀ r, r ∈ L → (cs < threshold0 r)%Z → (threshold0 n ≤ threshold0 r)%Z.
Proof.
  intros HS. revert c0. induction HS as [|r0 L HS IH Hr0]; intros c0 Hnum Hw r Hr Hlt; [set_solver|].
  apply Forall_cons in Hnum as [Hn0 Hnum]. cbn in Hw.
  rewrite js_ge_threshold0 in Hw by done.
  destruct (Z.leb_spec (threshold0 r0) cs).
  - apply elem_of_cons in Hr as [->|Hr]; [lia|]. by eapply IH.
  - injection Hw as <- <-. apply elem_of_cons in Hr as [->|Hr]; [lia|].
    rewrite Forall_forall in Hr0. specialize (Hr0 r Hr). unfold asc_by in Hr0. lia.
Qed.

Lemma js_sort_rule_progress rules :
  rules_numeric rules → js_sort rule_progress_cmp rules = js_sort (asc_by threshold0) rules.
Proof.
  intros Hnum. apply js_sort_ext. intros x y Hx Hy.
  destruct (rules_numeric_in _ _ Hnum Hx) as (zx & Hzx & <-),
           (rules_numeric_in _ _ Hnum Hy) as (zy & Hzy & <-).
  unfold rule_progress_cmp, asc_by, threshold0. by rewrite Hzx, Hzy.
Qed.

(** What the walk of [progress_of] returns on numeric rules: a current
    rule met by the score (or the synthetic floor 0) and a next rule not
    met. *)
Lemma progress_walk_numeric cs rules cur next :
  rules_numeric rules →
  progress_walk cs (js_sort rule_progress_cmp rules) no_title = (cur, next) →
  (∃ zc, rule_threshold cur = Some zc ∧ (cur = no_title ∧ zc = 0 ∨ cur ∈ rules ∧ zc ≤ cs))%Z ∧
  (∀ n, next = Some n → n ∈ rules ∧ ∃ zn, rule_threshold n = Some zn ∧ cs < zn)%Z.
Proof.
  intros Hnum Hw. apply progress_walk_spec in Hw as [Hcur Hn]. split.
  - destruct Hcur as [->|[Hin Hge]]; [exists 0%Z; split; [done|by left]|].
    rewrite (elem_of_js_sort rule_progress_cmp) in Hin.
    destruct (rules_numeric_in _ _ Hnum Hin) as (z & Hz & _). exists z. split; [done|right].
    split; [done|]. rewrite Hz in Hge. cbn in Hge. lia.
  - intros n Hn'. destruct (Hn n Hn') as [Hin Hge].
    rewrite (elem_of_js_sort rule_progress_cmp) in Hin. split; [done|].
    destruct (rules_numeric_in _ _ Hnum Hin) as (z & Hz & _). exists z. split; [done|].
    rewrite Hz in Hge. cbn in Hge. lia.
Qed.

(** ** Theorems *)

Lemma progress_width_bounded cs rules :
  rules_numeric rules → ∃ q, xp_width (progress_of cs rules) = JFin q ∧ 0 <= q ∧ q <= 100.
Proof.
  intros Hnum. unfold progress_of.
  destruct (progress_walk cs _ no_title) as [cur next] eqn:Hw.
  destruct (progress_walk_numeric _ _ _ _ Hnum Hw) as [(zc & Hzc & _) Hn].
  destruct next as [n|]; cbn; [|exists 100; split; [done|lra]].
  destruct (Hn n eq_refl) as (_ & zn & Hzn & Hlt).
  rewrite Hzn, Hzc. apply clamp_bounded. intros Hnan. cbn in Hnan.
  apply js_div_nan in Hnan. lia.
Qed.

(** C9: whenever [updateLevelProgress] draws the bar and the rule
    scores are numbers, its width is a finite number between 0 and 100:
    no division by zero or NaN reaches [xpBar.style.width]. *)
Theorem updateLevelProgress_width_bounded cfg students name v :
  rules_numeric (tc_rules cfg) → updateLevelProgress cfg students name = Some v →
  ∃ q, xp_width v = JFin q ∧ 0 <= q ∧ q <= 100.
Proof.
  intros Hnum Hv. unfold updateLevelProgress in Hv.
  destruct (list_find _ _) as [[? st]|]; [|done].
  destruct (_ || _); [done|]. injection Hv as <-. by apply progress_width_bounded.
Qed.

(** The bar is full with no next title exactly when the score meets
    every threshold. *)
Lemma progress_max_tier cs rules :
  rules_numeric rules →
  (xp_next (progress_of cs rules) = None ↔ ∀ r, r ∈ rules → (threshold0 r ≤ cs)%Z) ∧
  (xp_next (progress_of cs rules) = None → xp_width (progress_of cs rules) = JFin 100).
Proof.
  intros Hnum. unfold progress_of.
  pose proof (progress_walk_none cs (js_sort rule_progress_cmp rules) no_title) as Hnone.
  destruct (progress_walk cs _ no_title) as [cur next] eqn:Hw. cbn in Hnone.
  assert (Hall : Forall (λ r, js_ge cs (rule_threshold r) = true) (js_sort rule_progress_cmp rules)
                 ↔ ∀ r, r ∈ rules → (threshold0 r ≤ cs)%Z).
  { rewrite Forall_forall. setoid_rewrite (elem_of_js_sort rule_progress_cmp).
    split; intros H r Hr; specialize (H r Hr);
      destruct (rules_numeric_in _ _ Hnum Hr) as (z & Hz & Hz0); rewrite ?Hz, ?Hz0 in *; cbn in *; lia. }
  destruct next as [n|]; cbn; split; [|done| |done].
  - rewrite <- Hall, <- Hnone. done.
  - rewrite <- Hall, <- Hnone. done.
Qed.

(** For a non-negative score below the top tier the bar is not full:
    its width lies in [0, 100). *)
Lemma progress_below_top cs rules n :
  rules_numeric rules → (0 ≤ cs)%Z → xp_next (progress_of cs rules) = Some n →
  ∃ q, xp_width (progress_of cs rules) = JFin q ∧ 0 <= q ∧ q < 100.
Proof.
  intros Hnum Hcs. unfold progress_of.
  destruct (progress_walk cs _ no_title) as [cur next] eqn:Hw.
  destruct next as [n'|]; cbn; intros Hn; simplify_eq.
  destruct (progress_walk_numeric _ _ _ _ Hnum Hw) as [(zc & Hzc & Hc) Hn].
  destruct (Hn n eq_refl) as (_ & zn & Hzn & Hlt).
  assert (Hczc : (zc ≤ cs)%Z) by (destruct Hc as [[_ ->]|[_ ?]]; lia).
  rewrite Hzn, Hzc. cbn [js_minus js_div].
  destruct (Z.eqb_spec (zn - zc) 0); [lia|]. apply clamp_fraction. lia.
Qed.

(** Below the top tier, the bar of a non-negative score is not full
    (its width lies in [0, 100)), the next title is the rule of least
    threshold above the score, and the text reports the positive gap to
    it. *)
Lemma progress_next_least cs rules n :
  rules_numeric rules → xp_next (progress_of cs rules) = Some n →
  ((0 ≤ cs)%Z → ∃ q, xp_width (progress_of cs rules) = JFin q ∧ 0 <= q ∧ q < 100) ∧
  n ∈ rules ∧ (cs < threshold0 n)%Z ∧ xp_gap (progress_of cs rules) = Some (threshold0 n - cs)%Z ∧
  ∀ r, r ∈ rules → (cs < threshold0 r)%Z → (threshold0 n ≤ threshold0 r)%Z.
Proof.
  intros Hnum Hnext. split; [intros Hcs; by apply (progress_below_top cs rules n)|].
  revert Hnext. unfold progress_of.
  destruct (progress_walk cs _ no_title) as [cur next] eqn:Hw.
  destruct next as [n'|]; cbn; intros Hn; simplify_eq.
  destruct (progress_walk_numeric _ _ _ _ Hnum Hw) as [_ Hn].
  destruct (Hn n eq_refl) as (Hin & zn & Hzn & Hlt).
  assert (Hz : threshold0 n = zn) by (unfold threshold0; by rewrite Hzn).
  split_and!; [done|lia|by rewrite Hzn, Hz|].
  intros r Hr Hrlt. rewrite js_sort_rule_progress in Hw by done.
  eapply progress_walk_least; [apply js_sort_sorted, _| |exact Hw| |done].
  - apply Forall_forall. intros x Hx. rewrite (elem_of_js_sort (asc_by threshold0)) in Hx.
    destruct (rules_numeric_in _ _ Hnum Hx) as (z & Hz' & _). by rewrite Hz'.
  - by rewrite (elem_of_js_sort (asc_by threshold0)).
Qed.



(** On a sorted list the walk's current rule is the met rule of highest
    threshold, or the start when no rule is met. *)
Lemma progress_walk_cur_max cs L c0 cur next :
  StronglySorted (λ u v, asc_by threshold0 u v ≤ 0)%Z L →
  Forall (λ r, is_Some (rule_threshold r)) L →
  progress_walk cs L c0 = (cur, next) →
  (cur = c0 ∧ ∀ r, r ∈ L → (cs < threshold0 r)%Z) ∨
  (cur ∈ L ∧ (threshold0 cur ≤ cs)%Z ∧ ∀ r, r ∈ L → (threshold0 r ≤ cs)%Z → (threshold0 r ≤ threshold0 cur)%Z).
Proof.
  intros HS. revert c0. induction HS as [|r0 L HS IH Hr0]; intros c0 Hnum Hw.
  { injection Hw as <- _. left. set_solver. }
  apply Forall_cons in Hnum as [Hn0 Hnum]. cbn in Hw. rewrite js_ge_threshold0 in Hw by done.
  rewrite Forall_forall in Hr0. unfold asc_by in Hr0.
  destruct (Z.leb_spec (threshold0 r0) cs) as [Hle|Hgt].
  - right. destruct (IH r0 Hnum Hw) as [[-> Hall]|(Hin & Hcs & Hmax)].
    + split_and!; [by left|done|]. intros r [->|Hr]%elem_of_cons Hrc; [lia|].
      specialize (Hall r Hr). lia.
    + split_and!; [by right|done|]. intros r [->|Hr]%elem_of_cons Hrc; [|auto].
      specialize (Hr0 cur Hin). lia.
  - injection Hw as <- _. left. split; [done|].
    intros r [->|Hr]%elem_of_cons; [lia|]. specialize (Hr0 r Hr). lia.
Qed.

Lemma xp_current_progress_of cs rules :
  xp_current (progress_of cs rules) = (progress_walk cs (js_sort rule_progress_cmp rules) no_title).1.
Proof. unfold progress_of. destruct (progress_walk _ _ _) as [? []]; done. Qed.

(** C10: the next title of the progress panel, on numeric thresholds.
    There is none exactly when the score meets every threshold, and then
    the bar is full.  Otherwise the next title is the rule of least
    threshold above the score, the text reports the positive gap to it,
    and the bar of a non-negative score is not full (its width lies in
    [0, 100)). *)
Theorem progress_next_title_spec cs rules :
  rules_numeric rules →
  ((xp_next (progress_of cs rules) = None ↔ ∀ r, r ∈ rules → (threshold0 r ≤ cs)%Z) ∧
   (xp_next (progress_of cs rules) = None → xp_width (progress_of cs rules) = JFin 100)) ∧
  (∀ n, xp_next (progress_of cs rules) = Some n →
   ((0 ≤ cs)%Z → ∃ q, xp_width (progress_of cs rules) = JFin q ∧ 0 <= q ∧ q < 100) ∧
   n ∈ rules ∧ (cs < threshold0 n)%Z ∧ xp_gap (progress_of cs rules) = Some (threshold0 n - cs)%Z ∧
   ∀ r, r ∈ rules → (cs < threshold0 r)%Z → (threshold0 n ≤ threshold0 r)%Z).
Proof.
  intros Hnum. split; [by apply progress_max_tier|]. intros n. by apply progress_next_least.
Qed.

(** C13: when the thresholds are distinct numbers, the current title of
    the progress panel is the title pill of [renderStudents] (or 無稱號
    when the pill is empty). *)
Theorem progress_current_is_title cfg s :
  rules_numeric (tc_rules cfg) → tc_enabled cfg = true → NoDup (threshold0 <$> tc_rules cfg) →
  xp_current (progress_of (cumulative_of s) (tc_rules cfg)) = default no_title (Titles.student_title cfg s).
Proof.
  intros Hnum Hen Hnd. rewrite TitlesFacts.student_title_enabled, TitlesFacts.first_rule_sorted_best by done.
  rewrite xp_current_progress_of, js_sort_rule_progress by done.
  destruct (progress_walk _ _ no_title) as [cur next] eqn:Hw. cbn [fst].
  assert (Hnum' : Forall (λ r, is_Some (rule_threshold r)) (js_sort (asc_by threshold0) (tc_rules cfg))).
  { apply Forall_forall. intros x Hx. rewrite (elem_of_js_sort (asc_by threshold0)) in Hx.
    destruct (rules_numeric_in _ _ Hnum Hx) as (z & Hz & _). by rewrite Hz. }
  destruct (progress_walk_cur_max _ _ _ _ _ (js_sort_sorted _ _) Hnum' Hw)
    as [[-> Hall]|(Hin & Hcs & Hmax)].
  - replace (Titles.best_rule (cumulative_of s) (tc_rules cfg)) with (@None TitleRule); [done|].
    symmetry. apply TitlesFacts.best_rule_none; [done|]. intros r Hr. apply Hall.
    by rewrite (elem_of_js_sort (asc_by threshold0)).
  - rewrite (elem_of_js_sort (asc_by threshold0)) in Hin.
    destruct (Titles.best_rule (cumulative_of s) (tc_rules cfg)) as [b|] eqn:Hb.
    + destruct (TitlesFacts.best_rule_some _ _ _ Hnum Hb) as (Hbin & Hbc & Hbmax).
      cbn. eapply (NoDup_fmap_inj_in threshold0); [done|done|done|].
      specialize (Hbmax cur Hin Hcs). specialize (Hmax b).
      rewrite (elem_of_js_sort (asc_by threshold0)) in Hmax. specialize (Hmax Hbin Hbc). lia.
    + rewrite TitlesFacts.best_rule_none in Hb by done. specialize (Hb cur Hin). lia.
Qed.

(** ** Witnesses *)

Import ProgressDemo.

Lemma demo_rules_numeric : rules_numeric demo_rules.
Proof. apply (bool_decide_unpack _). vm_compute. reflexivity. Qed.

Lemma updateLevelProgress_width_bounded_witness :
  ∃ q, xp_width (progress_of 50 demo_rules) = JFin q ∧ 0 <= q ∧ q <= 100.
Proof.
  apply (updateLevelProgress_width_bounded demo_cfg [demo_pupil 50] "P").
  - apply demo_rules_numeric.
  - reflexivity.
Defined.

Lemma progress_next_title_spec_witness :
  xp_gap (progress_of 50 demo_rules) = Some (threshold0 demo_master - 50)%Z.
Proof.
  apply (proj2 (progress_next_title_spec 50 demo_rules demo_rules_numeric) demo_master).
  vm_compute. reflexivity.
Defined.

Lemma progress_current_is_title_witness :
  xp_current (progress_of (cumulative_of (demo_pupil 50)) (tc_rules demo_cfg)) =
  default no_title (Titles.student_title demo_cfg (demo_pupil 50)).
Proof.
  apply progress_current_is_title.
  - apply demo_rules_numeric.
  - reflexivity.
  - apply (bool_decide_unpack _). vm_compute. reflexivity.
Defined.

(** The spec's examples: with rules [{0, "Novice"}, {100, "Master"}] a
    score of 50 fills half the bar and misses 50 points; a score of 100
    fills it with no next title. *)
Example demo_progress :
  (match xp_width (progress_of 50 demo_rules) with JFin q => Qeq_bool q 50 | _ => false end) = true ∧
  xp_gap (progress_of 50 demo_rules) = Some 50%Z ∧
  xp_width (progress_of 100 demo_rules) = JFin 100 ∧
  xp_next (progress_of 100 demo_rules) = None.
Proof. vm_compute. repeat split. Qed.

(** A fraction [a / b] with [a < b < 0] exceeds 1: scaled and clamped it
    is a full bar. *)
Lemma clamp_full (a b : Z) :
  (a < b < 0)%Z → js_min100 (js_max0 (js_mul100 (JFin (inject_Z a / inject_Z b)))) = JFin 100.
Proof.
  intros Hab.
  assert (Hx : 1 < inject_Z a / inject_Z b).
  { assert (Heq : inject_Z a / inject_Z b == inject_Z (- a) / inject_Z (- b)).
    { assert (Hbq : ~ inject_Z b == 0).
      { change 0 with (inject_Z 0). rewrite inject_Z_injective. lia. }
      rewrite !inject_Z_opp. by field. }
    rewrite Heq. apply Qlt_shift_div_l.
    - change 0 with (inject_Z 0). rewrite <- Zlt_Qlt. lia.
    - rewrite Qmult_1_l, <- Zlt_Qlt. lia. }
  set (x := inject_Z a / inject_Z b) in *. cbn.
  destruct (Qle_bool (x * 100) 0) eqn:H0; [apply Qle_bool_iff in H0; lra|]. cbn.
  destruct (Qle_bool 100 (x * 100)) eqn:H1; [done|].
  assert (~ 100 <= x * 100) by (rewrite <- Qle_bool_iff; congruence). lra.
Qed.

(** When the score meets no threshold, the current title is the
    synthetic floor 0 and the bar is [score / next]. *)
Lemma progress_nothing_met cs rules n :
  rules_numeric rules → (∀ r, r ∈ rules → (cs < threshold0 r)%Z) → xp_next (progress_of cs rules) = Some n →
  xp_current (progress_of cs rules) = no_title ∧
  xp_width (progress_of cs rules) = js_min100 (js_max0 (js_mul100 (js_div (Some cs) (Some (threshold0 n))))).
Proof.
  intros Hnum Habove. unfold progress_of.
  destruct (progress_walk cs _ no_title) as [cur next] eqn:Hw.
  destruct next as [n'|]; cbn; intros Hx; simplify_eq.
  destruct (progress_walk_numeric _ _ _ _ Hnum Hw) as [(zc & Hzc & [[-> ->]|[Hin Hle]]) Hnx].
  - destruct (Hnx n eq_refl) as (_ & zn & Hzn & _).
    assert (Hz : threshold0 n = zn) by (unfold threshold0; by rewrite Hzn).
    rewrite Hzn, Hz. rewrite Hzc. cbn [js_minus]. by rewrite !Z.sub_0_r.
  - specialize (Habove cur Hin). unfold threshold0 in Habove. rewrite Hzc in Habove. cbn in Habove. lia.
Qed.

(** C14: the bar is drawn full while points are still missing.  When
    the cumulative score meets no threshold and some threshold is
    negative, the panel names the rule of least threshold as the next
    title with a positive gap, but the current title is the synthetic
    {score: 0, title: "無稱號"}, which lies above that next threshold:
    the range [next - 0] is negative, [score / range] exceeds 1 and the
    width is clamped to 100%. *)
Theorem progress_panel_defects cs rules r0 :
  rules_numeric rules → (∀ r, r ∈ rules → (cs < threshold0 r)%Z) → r0 ∈ rules → (threshold0 r0 < 0)%Z →
  ∃ n, xp_next (progress_of cs rules) = Some n ∧ (cs < threshold0 n < 0)%Z ∧
    xp_gap (progress_of cs rules) = Some (threshold0 n - cs)%Z ∧
    xp_current (progress_of cs rules) = no_title ∧ xp_width (progress_of cs rules) = JFin 100.
Proof.
  intros Hnum Habove Hr0 Hneg.
  destruct (xp_next (progress_of cs rules)) as [n|] eqn:Hnext.
  2: { pose proof (proj1 (proj1 (progress_max_tier cs rules Hnum)) Hnext) as Hall. specialize (Hall r0 Hr0).
       specialize (Habove r0 Hr0). lia. }
  destruct (progress_next_least cs rules n Hnum Hnext) as (_ & _ & Hlt & Hgap & Hleast).
  specialize (Hleast r0 Hr0 (Habove r0 Hr0)).
  destruct (progress_nothing_met cs rules n Hnum Habove Hnext) as [Hcur Hw].
  exists n. split_and!; [done|lia|lia|done|done|]. rewrite Hw. unfold js_div.
  destruct (Z.eqb_spec (threshold0 n) 0); [lia|]. apply clamp_full. lia.
Qed.

(** C14 at a score of -5 under a single rule at -1: 4 points are missing
    and the bar is full. *)
Lemma progress_panel_defects_witness :
  xp_width (progress_of (-5) demo_negative) = JFin 100.
Proof.
  destruct (progress_panel_defects (-5) demo_negative (mkRule (CNum (-1)) "Rookie"))
    as (n & _ & _ & _ & _ & Hw).
  - apply (bool_decide_unpack _). vm_compute. reflexivity.
  - apply Forall_forall, (bool_decide_unpack _). vm_compute. reflexivity.
  - by left.
  - vm_compute. reflexivity.
  - exact Hw.
Defined.
End ProgressFacts.
