(* ===== verification/Monthly.v ===== *)
(** * The monthly leader of [updateLevelProgress] (614-628)

    After the bar, [updateLevelProgress] scans [allStudents] for the
    students of the opened student's group ([String(s["分組"]).trim()],
    without the 未分組 default), keeping [maxInGroup] (initially -1) and
    [leaderName] (initially ""), replaced only on a strictly higher
    monthly score.  It then writes one of three texts: the month has
    just begun ([maxInGroup <= 0]), first in the group ([monthScore >=
    maxInGroup]), or behind [leaderName] by [maxInGroup - monthScore].

    The text is reached only past the early return of the function, so
    it is shown only when titles are enabled with at least one rule. *)

From S2P Require Import Prelude JsValue Records.
Local Open Scope Z_scope.

Module Monthly.

(** [allStudents.forEach(s => { if (group matches) { if (m > maxInGroup)
    { maxInGroup = m; leaderName = s["姓名"]; } } })] *)
Fixpoint leader_scan (g : string) (students : list Student) (maxInGroup : Z)
    (leaderName : string) : Z * string :=
  match students with
  | [] => (maxInGroup, leaderName)
  | s :: rest =>
      if String.eqb (group_of s) g then
        if maxInGroup <? month_of s then leader_scan g rest (month_of s) (s_name s)
        else leader_scan g rest maxInGroup leaderName
      else leader_scan g rest maxInGroup leaderName
  end.

(** The three texts of [monthlyScoreText]. *)
Inductive monthly_status :=
  | NoActivity
  | Leading
  | Trailing (leader : string) (gap : Z).

Definition monthly_status_of (students : list Student) (st : Student) : monthly_status :=
  let monthScore := month_of st in
  let '(maxInGroup, leaderName) := leader_scan (group_of st) students (-1) "" in
  if maxInGroup <=? 0 then NoActivity
  else if maxInGroup <=? monthScore then Leading
  else Trailing leaderName (maxInGroup - monthScore).

(** The monthly text of [updateLevelProgress(name)], behind the same
    early return as the bar. *)
Definition monthly_text (cfg : TitleConfig) (students : list Student) (name : string)
    : option monthly_status :=
  match list_find (λ s, s_name s = name) students with
  | None => None
  | Some (_, st) =>
      if negb (tc_enabled cfg) || Nat.eqb (length (tc_rules cfg)) 0 then None
      else Some (monthly_status_of students st)
  end.

(** The members of a group, in input order. *)
Definition month_group (students : list Student) (g : string) : list Student :=
  filter (λ s, group_of s = g) students.

End Monthly.

(** Concrete rows for the witnesses: the spec's groups [{A: 0, B: 0}] and
    [{A: 10, B: 10}], and a third student behind. *)
Module MonthlyDemo.
Definition demo_month (n : string) (g : string) (m : Z) : Student :=
  mkStudent n (CStr g) (CNum 0) (CNum 0) (CNum m) CUndef.
Definition demo_quiet := [demo_month "A" "g" 0; demo_month "B" "g" 0].
Definition demo_tied := [demo_month "A" "g" 10; demo_month "B" "g" 10; demo_month "C" "g" 4;
                         demo_month "Z" "h" 50].
End MonthlyDemo.

Module MonthlyFacts.
Import Monthly.

Lemma month_group_cons s l g :
  month_group (s :: l) g = if decide (group_of s = g) then s :: month_group l g else month_group l g.
Proof. unfold month_group. by rewrite filter_cons. Qed.

(** The scan from any state: the result bounds every member, and it is
    either the start or the first member reaching it, after members all
    below it. *)
Lemma leader_scan_spec g l b ld :
  let '(mx, ld') := leader_scan g l b ld in
  b ≤ mx ∧ (∀ t, t ∈ month_group l g → month_of t ≤ mx) ∧
  ((mx = b ∧ ld' = ld) ∨
   (b < mx ∧ ∃ pre t post, month_group l g = pre ++ t :: post ∧ month_of t = mx ∧
      s_name t = ld' ∧ ∀ u, u ∈ pre → month_of u < mx)).
Proof.
  revert b ld. induction l as [|s l IH]; intros b ld; cbn [leader_scan].
  { split_and!; [lia|set_solver|by left]. }
  rewrite month_group_cons.
  destruct (String.eqb_spec (group_of s) g) as [Hg|Hg];
    [rewrite decide_True by done|rewrite decide_False by done; apply IH].
  destruct (Z.ltb_spec b (month_of s)) as [Hlt|Hge].
  - specialize (IH (month_of s) (s_name s)).
    destruct (leader_scan g l (month_of s) (s_name s)) as [mx ld'].
    destruct IH as (Hb & Hall & [[-> ->]|(Hlt' & pre & t & post & Hl & Ht & Hn & Hpre)]).
    + split_and!; [lia| |right; split; [lia|]].
      * intros t [->|Ht]%elem_of_cons; [lia|auto].
      * exists [], s, (month_group l g). split_and!; [done..|set_solver].
    + split_and!; [lia| |right; split; [lia|]].
      * intros u [->|Hu]%elem_of_cons; [lia|auto].
      * exists (s :: pre), t, post. rewrite Hl. split_and!; [done..|].
        intros u [->|Hu]%elem_of_cons; [lia|auto].
  - specialize (IH b ld). destruct (leader_scan g l b ld) as [mx ld'].
    destruct IH as (Hb & Hall & [[-> ->]|(Hlt' & pre & t & post & Hl & Ht & Hn & Hpre)]).
    + split_and!; [lia| |by left]. intros t [->|Ht]%elem_of_cons; [lia|auto].
    + split_and!; [lia| |right; split; [lia|]].
      * intros u [->|Hu]%elem_of_cons; [lia|auto].
      * exists (s :: pre), t, post. rewrite Hl. split_and!; [done..|].
        intros u [->|Hu]%elem_of_cons; [lia|auto].
Qed.

(** The scan from the start finds the group's highest monthly score (at least the
    initial -1) and, when some member is above -1, the first member in
    input order who has it: earlier members are strictly below. *)
Theorem leader_scan_first_max g students :
  let '(mx, ld) := leader_scan g students (-1) "" in
  (∀ t, t ∈ month_group students g → month_of t ≤ mx) ∧
  ((mx = -1 ∧ ld = "") ∨
   ∃ pre t post, month_group students g = pre ++ t :: post ∧ month_of t = mx ∧
     s_name t = ld ∧ ∀ u, u ∈ pre → month_of u < mx).
Proof.
  pose proof (leader_scan_spec g students (-1) "") as H.
  destruct (leader_scan g students (-1) "") as [mx ld].
  destruct H as (_ & Hall & [Hst|(_ & Hex)]); split; auto.
Qed.

(** C17: the status the modal shows for a student of the list: no
    activity when no one of its group scored above 0 this month; leading
    exactly when its monthly score is the group maximum (ties lead
    together); otherwise trailing, by the positive difference, the
    leader: the first member of its group in list order whose monthly
    score is the group maximum (every earlier member is strictly
    below it). *)
Theorem monthly_status_spec students st :
  st ∈ students →
  (monthly_status_of students st = NoActivity ↔
     ∀ t, t ∈ month_group students (group_of st) → month_of t ≤ 0) ∧
  (monthly_status_of students st = Leading ↔
     0 < month_of st ∧ ∀ t, t ∈ month_group students (group_of st) → month_of t ≤ month_of st) ∧
  (∀ ld gap, monthly_status_of students st = Trailing ld gap →
     0 < gap ∧ ∃ pre t post, month_group students (group_of st) = pre ++ t :: post ∧
       s_name t = ld ∧ month_of t = month_of st + gap ∧
       (∀ u, u ∈ month_group students (group_of st) → month_of u ≤ month_of t) ∧
       ∀ u, u ∈ pre → month_of u < month_of t).
Proof.
  intros Hst. unfold monthly_status_of.
  pose proof (leader_scan_spec (group_of st) students (-1) "") as H.
  destruct (leader_scan (group_of st) students (-1) "") as [mx ld].
  destruct H as (_ & Hall & Hcase).
  assert (Hin : st ∈ month_group students (group_of st)) by (by apply list_elem_of_filter).
  assert (Hmx : ∀ t, t ∈ month_group students (group_of st) → month_of t ≤ mx) by done.
  pose proof (Hall st Hin) as Hstmx.
  assert (Hatt : mx = -1 ∨ ∃ t, t ∈ month_group students (group_of st) ∧ month_of t = mx ∧ s_name t = ld).
  { destruct Hcase as [[-> _]|(_ & pre & t & post & Hl & Ht & Hn & _)]; [by left|right].
    exists t. rewrite Hl. split_and!; [set_solver|done..]. }
  split_and!.
  - destruct (Z.leb_spec mx 0); split; [intros _ t Ht; specialize (Hmx t Ht); lia|done|by case_match|].
    intros Hle. destruct Hatt as [->|(t & Ht & <- & _)]; [lia|]. specialize (Hle t Ht). lia.
  - destruct (Z.leb_spec mx 0); [split; [done|]|].
    + intros [Hpos _]. lia.
    + destruct (Z.leb_spec mx (month_of st)); split; [|done| done|].
      * intros _. split; [lia|]. intros t Ht. specialize (Hmx t Ht). lia.
      * intros [_ Hmax]. destruct Hatt as [->|(t & Ht & <- & _)]; [lia|].
        specialize (Hmax t Ht). lia.
  - intros ld' gap. destruct (Z.leb_spec mx 0); [done|].
    destruct (Z.leb_spec mx (month_of st)); [done|]. intros [= <- <-].
    split; [lia|]. destruct Hcase as [[-> _]|(_ & pre & t & post & Hl & Ht & Hn & Hpre)]; [lia|].
    exists pre, t, post. rewrite Ht. split_and!; [done|done|lia|done|done].
Qed.

(** ** Witnesses *)

Import MonthlyDemo.

Lemma monthly_status_spec_witness :
  monthly_status_of demo_tied (demo_month "B" "g" 10) = Leading ↔
  0 < month_of (demo_month "B" "g" 10) ∧
  ∀ t, t ∈ month_group demo_tied (group_of (demo_month "B" "g" 10)) →
       month_of t ≤ month_of (demo_month "B" "g" 10).
Proof. apply (monthly_status_spec demo_tied (demo_month "B" "g" 10)). right. left. Defined.

(** The spec's examples: in [{A: 0, B: 0}] both see no activity; in
    [{A: 10, B: 10}] both lead; a third member trails A, the first
    leader, by 6; the other group's 50 does not count. *)
Example demo_monthly :
  monthly_status_of demo_quiet (demo_month "A" "g" 0) = NoActivity ∧
  monthly_status_of demo_quiet (demo_month "B" "g" 0) = NoActivity ∧
  monthly_status_of demo_tied (demo_month "A" "g" 10) = Leading ∧
  monthly_status_of demo_tied (demo_month "B" "g" 10) = Leading ∧
  monthly_status_of demo_tied (demo_month "C" "g" 4) = Trailing "A" 6.
Proof. vm_compute. repeat split. Qed.
End MonthlyFacts.
