(* ===== verification/History.v ===== *)
(** * The history pages of the score modal (1115-1148)

    [renderStudentHistory(name)] filters [allLogs] to the student's logs
    (in the order of [allLogs]), hides the history when there are none,
    and otherwise clamps the global cursor [currentHistoryPage] into
    [1, totalPages] with [totalPages = Math.ceil(n / HISTORY_PER_PAGE)]
    and shows the slice [(page - 1) * 5, page * 5).  [openScoreModal]
    for a student sets [currentModalStudent] and resets the cursor to 1
    (562-564); the arrows call [changeHistoryPage(d)], which moves the
    cursor by [d] and renders again.

    The cursor and the modal's student are the state of a small machine,
    [hist_step]; the logs are fixed while the modal is open (no handler
    re-renders the history after [allLogs] changes). *)

From S2P Require Import Prelude JsValue Records.
Local Open Scope Z_scope.

Module History.

(** [const HISTORY_PER_PAGE = 5] *)
Definition HISTORY_PER_PAGE : Z := 5.

(** [allLogs.filter(log => log.student === name)]; [name] is [null]
    before any student modal opened, and matches no log. *)
Definition my_logs (allLogs : list LogEntry) (name : option string) : list LogEntry :=
  filter (λ l, Some (l_student l) = name) allLogs.

(** [Math.ceil(n / HISTORY_PER_PAGE)] *)
Definition total_pages (n : nat) : Z := (Z.of_nat n + HISTORY_PER_PAGE - 1) / HISTORY_PER_PAGE.

(** The two [if]s that clamp the cursor. *)
Definition clamp_page (page total : Z) : Z :=
  let p := if total <? page then total else page in
  if p <? 1 then 1 else p.

(** [myLogs.slice(startIndex, startIndex + HISTORY_PER_PAGE)] *)
Definition page_rows (logs : list LogEntry) (page : Z) : list LogEntry :=
  let startIndex := (page - 1) * HISTORY_PER_PAGE in
  firstn (Z.to_nat HISTORY_PER_PAGE) (skipn (Z.to_nat startIndex) logs).

(** The visible history: its rows, the label [page / total] and the
    disabled state of the two arrows. *)
Record history_view := mkHistory {
  hv_rows : list LogEntry;
  hv_page : Z;
  hv_total : Z;
  hv_prev_disabled : bool;
  hv_next_disabled : bool
}.

(** [renderStudentHistory(name)]: the view ([None] when hidden) and the
    cursor after it. *)
Definition renderStudentHistory (allLogs : list LogEntry) (name : option string)
    (currentHistoryPage : Z) : option history_view * Z :=
  let myLogs := my_logs allLogs name in
  match myLogs with
  | [] => (None, currentHistoryPage)
  | _ =>
      let totalPages := total_pages (length myLogs) in
      let page := clamp_page currentHistoryPage totalPages in
      (Some (mkHistory (page_rows myLogs page) page totalPages
               (bool_decide (page = 1)) (bool_decide (page = totalPages))), page)
  end.

(** The state the history keeps between events. *)
Record hist_state := mkHistState {
  currentHistoryPage : Z;
  currentModalStudent : option string
}.

Definition hist_init : hist_state := mkHistState 1 None.

(** What the user does: open a student's modal, or press an arrow. *)
Inductive hist_event :=
  | OpenStudent (name : string)
  | ChangePage (d : Z).

(** The history part of [openScoreModal("學生", name)] (560-564): the
    cursor is reset to 1 before the render. *)
Definition openStudentHistory (allLogs : list LogEntry) (name : string)
    : option history_view * hist_state :=
  let '(v, p) := renderStudentHistory allLogs (Some name) 1 in
  (v, mkHistState p (Some name)).

(** [changeHistoryPage(d)]: move the cursor, then render the history of
    [currentModalStudent]. *)
Definition changeHistoryPage (allLogs : list LogEntry) (st : hist_state) (d : Z)
    : option history_view * hist_state :=
  let '(v, p) := renderStudentHistory allLogs (currentModalStudent st)
                   (currentHistoryPage st + d) in
  (v, mkHistState p (currentModalStudent st)).

Definition hist_handle (allLogs : list LogEntry) (st : hist_state) (ev : hist_event)
    : option history_view * hist_state :=
  match ev with
  | OpenStudent name => openStudentHistory allLogs name
  | ChangePage d => changeHistoryPage allLogs st d
  end.

(** The states reachable from the initial one by a sequence of events. *)
Inductive hist_reachable (allLogs : list LogEntry) : hist_state → Prop :=
  | hist_reach_init : hist_reachable allLogs hist_init
  | hist_reach_step st ev :
      hist_reachable allLogs st →
      hist_reachable allLogs (hist_handle allLogs st ev).2.

End History.

(** Concrete logs for the witnesses: the spec's seven logs of one
    student, and one log of another. *)
Module HistoryDemo.
Definition demo_log (n : string) (k : Z) : LogEntry := mkLog n (CNum k) "item" CUndef "t" k.
Definition demo_logs : list LogEntry :=
  ((λ k, demo_log "A" k) <$> [1; 2; 3; 4; 5; 6; 7]) ++ [demo_log "B" 8].
End HistoryDemo.

Module HistoryFacts.
Import History.

Lemma total_pages_bounds n :
  (0 < n)%nat → 1 ≤ total_pages n ∧ (total_pages n - 1) * HISTORY_PER_PAGE < Z.of_nat n ∧
  Z.of_nat n ≤ total_pages n * HISTORY_PER_PAGE.
Proof.
  intros Hn. unfold total_pages, HISTORY_PER_PAGE.
  pose proof (Z.div_mod (Z.of_nat n + 5 - 1) 5 ltac:(lia)).
  pose proof (Z.mod_pos_bound (Z.of_nat n + 5 - 1) 5 ltac:(lia)). lia.
Qed.

Lemma clamp_page_range p t : 1 ≤ t → 1 ≤ clamp_page p t ≤ t.
Proof. intros Ht. unfold clamp_page. zify_bools; lia. Qed.

Lemma clamp_page_id p t : 1 ≤ p ≤ t → clamp_page p t = p.
Proof. intros Hp. unfold clamp_page. zify_bools; lia. Qed.

(** After a render with logs, the cursor is a page of the history. *)
Lemma render_page_range allLogs name p :
  my_logs allLogs name ≠ [] →
  1 ≤ (renderStudentHistory allLogs name p).2 ≤ total_pages (length (my_logs allLogs name)).
Proof.
  intros Hne. unfold renderStudentHistory.
  destruct (my_logs allLogs name) as [|l ls] eqn:E; [done|]. cbn [snd].
  apply clamp_page_range. apply total_pages_bounds. cbn. lia.
Qed.

(** C18: in every state the history can reach, the cursor of a student
    with logs lies in [1, totalPages]: the clamp of each render keeps the
    arrows inside the history. *)
Theorem hist_cursor_in_range allLogs st n :
  hist_reachable allLogs st → currentModalStudent st = Some n →
  my_logs allLogs (Some n) ≠ [] →
  1 ≤ currentHistoryPage st ≤ total_pages (length (my_logs allLogs (Some n))).
Proof.
  intros Hr. revert n. induction Hr as [|st ev Hr IH]; intros n Hn Hne; [done|].
  destruct ev as [name|d]; cbn [hist_handle] in Hn |- *;
    unfold openStudentHistory, changeHistoryPage in Hn |- *.
  - destruct (renderStudentHistory _ _ _) as [v p] eqn:E. cbn in Hn |- *. injection Hn as ->.
    pose proof (render_page_range allLogs (Some n) 1 Hne) as Hrange. by rewrite E in Hrange.
  - destruct (renderStudentHistory _ _ _) as [v p] eqn:E. cbn in Hn |- *. rewrite Hn in E.
    pose proof (render_page_range allLogs (Some n) (currentHistoryPage st + d) Hne) as Hrange.
    by rewrite E in Hrange.
Qed.

Lemma page_rows_nonempty logs q :
  1 ≤ q → (q - 1) * HISTORY_PER_PAGE < Z.of_nat (length logs) → page_rows logs q ≠ [].
Proof.
  intros Hq Hlt Hnil. unfold page_rows in Hnil.
  apply (f_equal length) in Hnil. rewrite length_firstn, length_skipn in Hnil.
  unfold HISTORY_PER_PAGE in *. cbn in Hnil. lia.
Qed.

(** A visible history shows the slice of the clamped page. *)
Lemma render_history_slice allLogs name p v q :
  renderStudentHistory allLogs name p = (Some v, q) →
  hv_rows v = page_rows (my_logs allLogs name) q ∧ hv_page v = q ∧
  (1 ≤ length (hv_rows v) ≤ 5)%nat ∧
  hv_total v = total_pages (length (my_logs allLogs name)) ∧
  (hv_prev_disabled v = true ↔ q = 1) ∧ (hv_next_disabled v = true ↔ q = hv_total v).
Proof.
  intros Hr. pose proof (render_page_range allLogs name p) as Hrange.
  unfold renderStudentHistory in Hr, Hrange.
  destruct (my_logs allLogs name) as [|l ls] eqn:E; [done|].
  injection Hr as <- <-. cbn [hv_rows hv_page hv_total hv_prev_disabled hv_next_disabled snd] in *.
  specialize (Hrange ltac:(done)).
  destruct (total_pages_bounds (length (l :: ls)) ltac:(cbn; lia)) as (_ & Hlast & _).
  split_and!; [done|done| | |done|by rewrite bool_decide_eq_true|by rewrite bool_decide_eq_true].
  - assert (page_rows (l :: ls) (clamp_page p (total_pages (length (l :: ls)))) ≠ []).
    { apply page_rows_nonempty; unfold HISTORY_PER_PAGE in *; lia. }
    destruct (page_rows _ _) eqn:Hp; [done|]. cbn. lia.
  - unfold page_rows. rewrite length_firstn. unfold HISTORY_PER_PAGE. cbn. lia.
Qed.

Lemma chunks_cover (logs : list LogEntry) (k m : nat) :
  (0 < k)%nat → (length logs ≤ m * k)%nat →
  concat ((λ i, firstn k (skipn (k * i) logs)) <$> seq 0 m) = logs.
Proof.
  intros Hk. revert logs. induction m as [|m IH]; intros logs Hlen.
  { destruct logs; cbn in *; [done|lia]. }
  rewrite <- cons_seq, fmap_cons, <- seq_shift, <- list_fmap_compose. cbn [concat].
  rewrite Nat.mul_0_r, skipn_O.
  rewrite (list_fmap_ext _ (λ i, firstn k (skipn (k * i) (skipn k logs)))).
  - rewrite IH; [apply firstn_skipn|]. rewrite length_skipn. lia.
  - intros i x _. cbn. rewrite skipn_skipn. do 2 f_equal. lia.
Qed.

(** The pages 1 to totalPages, put end to end, give back the filtered
    logs in their order. *)
Lemma history_pages_partition allLogs name :
  concat ((λ i, page_rows (my_logs allLogs name) (Z.of_nat (S i))) <$>
            seq 0 (Z.to_nat (total_pages (length (my_logs allLogs name))))) =
  my_logs allLogs name.
Proof.
  set (my := my_logs allLogs name).
  rewrite <- (chunks_cover my 5 (Z.to_nat (total_pages (length my)))) at 2; [|lia|].
  - f_equal. apply list_fmap_ext. intros i x _. unfold page_rows, HISTORY_PER_PAGE.
    do 2 f_equal. lia.
  - destruct (length my) as [|n] eqn:En; [lia|].
    destruct (total_pages_bounds (S n) ltac:(lia)) as (? & _ & ?). unfold HISTORY_PER_PAGE in *. lia.
Qed.

(** C19: a visible history shows the slice of the clamped page: between
    one and five of the student's logs, with the arrows disabled exactly
    on the first and on the last page; and the pages partition the
    student's logs: pages 1 to totalPages, put end to end, give back the
    filtered logs in their order, so paging shows each log once. *)
Theorem render_history_view allLogs name p v q :
  renderStudentHistory allLogs name p = (Some v, q) →
  (hv_rows v = page_rows (my_logs allLogs name) q ∧ hv_page v = q ∧
   (1 ≤ length (hv_rows v) ≤ 5)%nat ∧
   hv_total v = total_pages (length (my_logs allLogs name)) ∧
   (hv_prev_disabled v = true ↔ q = 1) ∧ (hv_next_disabled v = true ↔ q = hv_total v)) ∧
  concat ((λ i, page_rows (my_logs allLogs name) (Z.of_nat (S i))) <$>
            seq 0 (Z.to_nat (total_pages (length (my_logs allLogs name))))) =
  my_logs allLogs name.
Proof. intros Hr. split; [by eapply render_history_slice|apply history_pages_partition]. Qed.

(** C21: every page of a student's history is reachable: opening the
    student and pressing "next" [p - 1] times leaves the cursor on page
    [p]. *)
Theorem hist_every_page_reachable allLogs n p :
  my_logs allLogs (Some n) ≠ [] → 1 ≤ p ≤ total_pages (length (my_logs allLogs (Some n))) →
  ∃ st, hist_reachable allLogs st ∧ currentModalStudent st = Some n ∧ currentHistoryPage st = p.
Proof.
  intros Hne Hp.
  assert (Hrender : ∀ q, 1 ≤ q ≤ total_pages (length (my_logs allLogs (Some n))) →
            (renderStudentHistory allLogs (Some n) q).2 = q).
  { intros q Hq. unfold renderStudentHistory.
    destruct (my_logs allLogs (Some n)) eqn:E; [done|]. by apply clamp_page_id. }
  replace p with (1 + Z.of_nat (Z.to_nat (p - 1))) by lia.
  assert (Hk : (Z.to_nat (p - 1) < Z.to_nat (total_pages (length (my_logs allLogs (Some n)))))%nat) by lia.
  clear Hp. induction (Z.to_nat (p - 1)) as [|k IH].
  - exists (hist_handle allLogs hist_init (OpenStudent n)).2. split; [by constructor; constructor|].
    cbn [hist_handle]. unfold openStudentHistory. destruct (renderStudentHistory _ _ _) as [v q] eqn:E. cbn.
    split; [done|]. pose proof (Hrender 1) as H1. rewrite E in H1. cbn in H1. apply H1.
    split; [lia|]. lia.
  - destruct IH as (st & Hst & Hn & Hpg); [lia|].
    exists (hist_handle allLogs st (ChangePage 1)).2. split; [by constructor|].
    cbn [hist_handle]. unfold changeHistoryPage. rewrite Hn, Hpg. destruct (renderStudentHistory _ _ _) as [v q] eqn:E. cbn.
    split; [done|]. pose proof (Hrender (1 + Z.of_nat k + 1)) as H1. rewrite E in H1. cbn in H1.
    rewrite H1; lia.
Qed.

(** ** Witnesses *)

Import HistoryDemo.

Lemma hist_cursor_in_range_witness :
  1 ≤ currentHistoryPage (hist_handle demo_logs hist_init (OpenStudent "A")).2 ≤
  total_pages (length (my_logs demo_logs (Some "A"))).
Proof.
  apply (hist_cursor_in_range demo_logs _ "A").
  - constructor. constructor.
  - reflexivity.
  - vm_compute. discriminate.
Defined.

Lemma render_history_view_witness :
  (1 ≤ length (hv_rows (mkHistory (page_rows (my_logs demo_logs (Some "A")) 2) 2 2 false true)) ≤ 5)%nat.
Proof.
  apply (render_history_view demo_logs (Some "A") 3 _ 2). vm_compute. reflexivity.
Defined.

Lemma hist_every_page_reachable_witness :
  ∃ st, hist_reachable demo_logs st ∧ currentModalStudent st = Some "A" ∧ currentHistoryPage st = 2.
Proof.
  apply hist_every_page_reachable.
  - vm_compute. discriminate.
  - vm_compute. split; discriminate.
Defined.

(** The spec's example: seven logs make two pages; page 1 shows five,
    page 2 the remaining two, and asking for page 3 shows page 2. *)
Example demo_history :
  total_pages (length (my_logs demo_logs (Some "A"))) = 2 ∧
  length (page_rows (my_logs demo_logs (Some "A")) 1) = 5%nat ∧
  (renderStudentHistory demo_logs (Some "A") 3).2 = 2 ∧
  length (page_rows (my_logs demo_logs (Some "A")) 2) = 2%nat ∧
  (renderStudentHistory demo_logs (Some "B") 1).2 = 1.
Proof. vm_compute. repeat split. Qed.
End HistoryFacts.
