(* ===== verification/Gifts.v ===== *)
(** * The gift shelf of [renderGifts] (235-284)

    [renderGifts] walks five static tiers [{name, range, min, max}].  For
    each it keeps the gifts whose [Number(g["所需分數"]) || 0] lies in
    [min, max], sorts them with a comparator that puts a quantity of
    exactly 0 last and orders the rest by required score, and marks a
    gift sold out when its quantity is 0.  A quantity that is [""] or
    missing counts as 999; any other value goes through [Number], so
    [null] becomes 0 (sold out) and a text becomes NaN (in stock). *)

From S2P Require Import Prelude JsValue JsSort Records.
Local Open Scope Z_scope.

Module Gifts.

(** A tier of the shelf. *)
Record GiftTier := mkTier {
  tier_name : string;
  tier_range : string;
  tier_min : Z;
  tier_max : Z
}.

(** The five tiers of [renderGifts] (239-245). *)
Definition gift_tiers : list GiftTier := [
  mkTier "秀才賞" "5分或以下" (-9999) 5;
  mkTier "探花賞" "6至25分" 6 25;
  mkTier "榜眼賞" "26至40分" 26 40;
  mkTier "狀元賞" "41至85分" 41 85;
  mkTier "金榜之首" "86分以上" 86 99999
].

(** [Number(g["所需分數"]) || 0] *)
Definition gift_score (g : Gift) : Z := ⟦g_score g⟧%cps.

(** [(g["數量"] === "" || g["數量"] === undefined) ? 999 : Number(g["數量"])] *)
Definition gift_qty (g : Gift) : option Z :=
  if is_empty_or_undef (g_qty g) then Some 999 else js_Number (g_qty g).

(** [qty === 0] *)
Definition sold_out (g : Gift) : bool :=
  match gift_qty g with Some 0 => true | _ => false end.

(** [s >= tier.min && s <= tier.max] *)
Definition in_tier (t : GiftTier) (g : Gift) : bool :=
  (tier_min t <=? gift_score g) && (gift_score g <=? tier_max t).

(** The comparator of [tierGifts.sort] (249-255). *)
Definition gift_cmp (a b : Gift) : Z :=
  if sold_out a && negb (sold_out b) then 1
  else if negb (sold_out a) && sold_out b then -1
  else gift_score a - gift_score b.

(** One row of the shelf: its gifts in display order, each with its
    sold-out stamp. *)
Definition tier_gifts (allGifts : list Gift) (t : GiftTier) : list Gift :=
  js_sort gift_cmp (filter (λ g, in_tier t g = true) allGifts).

Definition renderGifts (allGifts : list Gift) : list (GiftTier * list (Gift * bool)) :=
  (λ t, (t, (λ g, (g, sold_out g)) <$> tier_gifts allGifts t)) <$> gift_tiers.

End Gifts.

(** Concrete gifts for the witnesses: the spec's [{10, 0}, {5, 3},
    {8, ""}] and a gift whose quantity cell is [null]. *)
Module GiftsDemo.
Definition demo_gift (n : string) (s : Z) (q : cell) : Gift := mkGift n (CNum s) q CUndef.
Definition demo_gifts :=
  [demo_gift "ten" 10 (CNum 0); demo_gift "five" 5 (CNum 3); demo_gift "eight" 8 (CStr "")].
Definition demo_null_qty := demo_gift "null" 12 CNull.
End GiftsDemo.

Module GiftsFacts.
Import Gifts.

(** The gift comparator is consistent: sold-out last, then by score. *)
#[export] Instance gift_cmp_consistent : ConsistentCmp gift_cmp.
Proof.
  split; intros *; unfold gift_cmp;
    repeat match goal with |- context [sold_out ?g] => destruct (sold_out g) end; cbn; lia.
Qed.

(** The order of the shelf, as a relation: an available gift may precede
    a sold-out one, and among gifts of the same stock the required
    scores ascend. *)
Lemma gift_cmp_le a b :
  gift_cmp a b ≤ 0 ↔
  (sold_out a = true → sold_out b = true) ∧
  (sold_out a = sold_out b → gift_score a ≤ gift_score b).
Proof.
  unfold gift_cmp. destruct (sold_out a), (sold_out b); cbn; intuition (try lia; try done).
Qed.

(** Each row of the shelf holds exactly the gifts of its score range,
    each once; every available gift comes before every sold-out gift,
    and within each of the two parts the required scores ascend. *)
Lemma tier_gifts_order allGifts t :
  tier_gifts allGifts t ≡ₚ filter (λ g, in_tier t g = true) allGifts ∧
  StronglySorted (λ a b, (sold_out a = true → sold_out b = true) ∧
                         (sold_out a = sold_out b → gift_score a ≤ gift_score b))
                 (tier_gifts allGifts t).
Proof.
  split; [apply js_sort_perm|].
  eapply StronglySorted_weaken; [|apply js_sort_sorted, _].
  intros a b H. by apply gift_cmp_le.
Qed.

(** A gift whose required score lies in [-9999, 99999] falls in exactly
    one tier; a gift outside that range falls in none. *)
Lemma gift_tiers_partition g :
  (-9999 ≤ gift_score g ≤ 99999 → length (filter (λ t, in_tier t g = true) gift_tiers) = 1%nat) ∧
  (gift_score g < -9999 ∨ 99999 < gift_score g → filter (λ t, in_tier t g = true) gift_tiers = []).
Proof.
  unfold gift_tiers, in_tier. cbn [tier_min tier_max].
  generalize (gift_score g) as s. intros s.
  split; intros Hs; rewrite !filter_cons, filter_nil; cbn [tier_min tier_max];
    repeat match goal with
    | |- context [?a <=? ?b] => destruct (Z.leb_spec a b)
    end; cbn; first [done | lia].
Qed.

(** C22: the gift shelf of [renderGifts].  Each row holds exactly the
    gifts of its score range, each once, every available gift before
    every sold-out gift and the required scores ascending within each
    part; a gift whose required score lies in [-9999, 99999] falls in
    exactly one row, and a gift outside that range in none, so it is
    never displayed. *)
Theorem gift_shelf_spec allGifts :
  (∀ t, tier_gifts allGifts t ≡ₚ filter (λ g, in_tier t g = true) allGifts ∧
        StronglySorted (λ a b, (sold_out a = true → sold_out b = true) ∧
                               (sold_out a = sold_out b → gift_score a ≤ gift_score b))
                       (tier_gifts allGifts t)) ∧
  (∀ g, g ∈ allGifts →
   (-9999 ≤ gift_score g ≤ 99999 → length (filter (λ t, in_tier t g = true) gift_tiers) = 1%nat) ∧
   (gift_score g < -9999 ∨ 99999 < gift_score g →
    ∀ t, t ∈ gift_tiers → g ∉ tier_gifts allGifts t)).
Proof.
  split; [intros t; apply tier_gifts_order|]. intros g _.
  destruct (gift_tiers_partition g) as [Hin Hout]. split; [done|].
  intros Hs t Ht Hg. rewrite (proj1 (tier_gifts_order allGifts t)), list_elem_of_filter in Hg.
  assert (t ∈ filter (λ t, in_tier t g = true) gift_tiers) as Hf
    by (apply list_elem_of_filter; split; [apply Hg|done]).
  rewrite (Hout Hs) in Hf. set_solver.
Qed.

(** ** Witnesses *)

Import GiftsDemo.

Lemma gift_shelf_spec_witness :
  length (filter (λ t, in_tier t (demo_gift "eight" 8 (CStr "")) = true) gift_tiers) = 1%nat.
Proof.
  apply (proj1 (proj2 (gift_shelf_spec demo_gifts) _ ltac:(vm_compute; by do 2 right; left))).
  split; vm_compute; discriminate.
Defined.

(** The spec's example: in the 6-25 tier the shelf shows 8 then 10 (sold
    out), and 5 goes to the first tier; a [null] quantity is sold out; a
    gift asking 100000 points appears in no tier. *)
Example demo_gifts_shelf :
  (g_name <$> tier_gifts demo_gifts (mkTier "探花賞" "6至25分" 6 25)) = ["eight"; "ten"] ∧
  (g_name <$> tier_gifts demo_gifts (mkTier "秀才賞" "5分或以下" (-9999) 5)) = ["five"] ∧
  sold_out demo_null_qty = true ∧
  sold_out (demo_gift "eight" 8 (CStr "")) = false ∧
  filter (λ t, in_tier t (demo_gift "far" 100000 (CNum 1)) = true) gift_tiers = [].
Proof. vm_compute. repeat split. Qed.
End GiftsFacts.
