(* ===== verification/Store.v ===== *)
(** * The student list and the page-wide store

    The script keeps the data it fetched in globals (33-36):
    [allStudents], [originalStudents], [allLogs], [monthlyKings],
    [titleConfig], [isSorted] and [currentFilter].  [window.onload]
    (55-88) fills them, copying [allStudents] into [originalStudents];
    [toggleSort] (1049-1055) sorts [allStudents] in place or restores it
    from [originalStudents]; [filterStudents] (133-138) sets the filter;
    the replies of [updateScores] (423-443), [sendScoreRecord] (445-491)
    and [doEditLog] (640-666) replace the lists; [logoutTeacher]
    (510-515) clears [isSorted].  [renderPage] (90-108) renders every
    section, and two of its renderers mutate the store: [renderTitles]
    sorts [titleConfig.rules] in place, and [initLogFilter] calls
    [updateLogStudentOptions('all')] (348-360), whose
    [targetStudents.sort(...)] sorts the very array [allStudents] by
    name.

    [store] is the record of these globals, each handler a function on
    it, and [store_step] the handler of one user event with the student
    cards the page shows after it.  [renderStudents] (140-211) is the
    list of cards, each with the fields the template fills. *)

From S2P Require Import Prelude JsValue JsSort Records Ranking Titles.
Local Open Scope Z_scope.

Module Store.
Import Ranking Titles.

(** [(x || 0)], read as a number by the subtraction of the comparator. *)
Definition raw_cumulative (s : Student) : option Z :=
  if js_truthy (s_cumulative s) then js_Number (s_cumulative s) else Some 0.

(** [(a, b) => (b["累積分數"] || 0) - (a["累積分數"] || 0)], the sort of
    [toggleSort], [updateScores] and [sendScoreRecord]. *)
Definition score_sort_cmp (a b : Student) : Z :=
  js_sub_cmp (raw_cumulative b) (raw_cumulative a).

(** The globals of the page that the student list reads or writes. *)
Record store := mkStore {
  allStudents : list Student;
  originalStudents : list Student;
  allLogs : list LogEntry;
  monthlyKings : list string;
  titleConfig : TitleConfig;
  isSorted : bool;
  currentFilter : string
}.

(** A reply of the API: each list may be missing. *)
Record api_data := mkData {
  d_students : option (list Student);
  d_logs : option (list LogEntry);
  d_kings : option (list string);
  d_titles : option TitleConfig
}.

Definition set_students (st : store) (l : list Student) : store :=
  mkStore l (originalStudents st) (allLogs st) (monthlyKings st) (titleConfig st)
    (isSorted st) (currentFilter st).

(** The assignments of [window.onload] (63-73) on the initial globals
    ([isSorted = false], [currentFilter = "all"]). *)
Definition onload (d : api_data) : store :=
  let students := default [] (d_students d) in
  mkStore students students (default [] (d_logs d)) (default [] (d_kings d))
    (default (mkTitleConfig false []) (d_titles d)) false "all".

(** The reply handler of [updateScores] (431-435), the same lines as in
    [sendScoreRecord] (479-483): replace what the reply carries, then
    re-sort when sorted.  [originalStudents] is left alone. *)
Definition apply_refresh (st : store) (d : api_data) : store :=
  let st1 := mkStore (default (allStudents st) (d_students d)) (originalStudents st)
               (default (allLogs st) (d_logs d)) (default (monthlyKings st) (d_kings d))
               (titleConfig st) (isSorted st) (currentFilter st) in
  if isSorted st1 then set_students st1 (js_sort score_sort_cmp (allStudents st1)) else st1.

(** The reply handler of [doEditLog] (651-653): the lists are replaced
    (by [[]] when missing) and not re-sorted. *)
Definition apply_edit (st : store) (d : api_data) : store :=
  mkStore (default [] (d_students d)) (originalStudents st) (default [] (d_logs d))
    (default [] (d_kings d)) (titleConfig st) (isSorted st) (currentFilter st).

(** [toggleSort] (1050-1053). *)
Definition toggleSort (st : store) : store :=
  let s := negb (isSorted st) in
  let l := if s then js_sort score_sort_cmp (allStudents st) else originalStudents st in
  mkStore l (originalStudents st) (allLogs st) (monthlyKings st) (titleConfig st) s
    (currentFilter st).

(** The buttons of [generateFilterButtons] (113-131): their label and
    the group their click passes to [filterStudents]. *)
Definition generateFilterButtons (allGroups : list string) : list (string * string) :=
  ("全部", "all") :: ((λ g, (g, g)) <$> allGroups).

(** [filterStudents(groupName)] (134). *)
Definition filterStudents (st : store) (g : string) : store :=
  mkStore (allStudents st) (originalStudents st) (allLogs st) (monthlyKings st)
    (titleConfig st) (isSorted st) g.

(** [logoutTeacher] (511-512). *)
Definition logoutTeacher (st : store) : store :=
  mkStore (allStudents st) (originalStudents st) (allLogs st) (monthlyKings st)
    (titleConfig st) false (currentFilter st).

(** A student card of [renderStudents]: name, 總得分, 累積分數, group
    label, title pill, king pill, frame and medal. *)
Record card := mkCard {
  c_name : string;
  c_score : Z;
  c_cumulative : Z;
  c_group : string;
  c_title : option TitleRule;
  c_king : bool;
  c_frame : frame;
  c_medal : option medal
}.

(** [studentsToRender] (146-149). *)
Definition students_to_render (st : store) : list Student :=
  let base := if isSorted st then allStudents st else originalStudents st in
  if String.eqb (currentFilter st) "all" then base
  else filter (λ s, group_of s = currentFilter st) base.

(** The card of one student (152-182), with the rank map of
    [allStudents]. *)
Definition student_card (st : store) (rankMap : gmap string nat) (stu : Student) : card :=
  mkCard (s_name stu) (total_of stu) (cumulative_of stu) (rank_group_of stu)
    (student_title (titleConfig st) stu) (bool_decide (s_name stu ∈ monthlyKings st))
    (frame_of (cumulative_of stu)) (medal_of (rankMap !! s_name stu)).

(** [renderStudents] (140-211). *)
Definition renderStudents (st : store) : list card :=
  student_card st (getGroupRankings (allStudents st)) <$> students_to_render st.

(** [updateLogStudentOptions('all')] (351-353): [targetStudents] is the
    array [allStudents] itself, sorted in place by name. *)
Definition updateLogStudentOptions_all (locale : string → string → Z) (students : list Student)
    : list Student :=
  js_sort (λ a b, locale (s_name a) (s_name b)) students.

(** [renderPage] (90-96): the cards it shows, and the store after
    [renderTitles] and [initLogFilter] sorted their arrays in place.
    [localeCompare] is the parameter [locale]. *)
Definition renderPage (locale : string → string → Z) (st : store) : list card * store :=
  let cards := renderStudents st in
  let cfg := (renderTitles locale (titleConfig st) (allStudents st)).2 in
  let byName := updateLogStudentOptions_all locale (allStudents st) in
  (cards, mkStore byName (originalStudents st) (allLogs st) (monthlyKings st) cfg
            (isSorted st) (currentFilter st)).

(** The events that reach the student list. *)
Inductive store_event :=
  | EToggleSort
  | EFilter (g : string)
  | EUpdateScores (d : api_data)
  | ESendScore (d : api_data)
  | EEditLog (d : api_data)
  | ELogin
  | ELogout
  | EShowStudents.

(** One event and the cards on screen after it.  [loginTeacher] (500)
    and [switchCategory('student')] (529) only render. *)
Definition store_step (locale : string → string → Z) (st : store) (ev : store_event)
    : list card * store :=
  match ev with
  | EToggleSort => let st' := toggleSort st in (renderStudents st', st')
  | EFilter g => let st' := filterStudents st g in (renderStudents st', st')
  | EUpdateScores d | ESendScore d => renderPage locale (apply_refresh st d)
  | EEditLog d => let st' := (renderPage locale (apply_edit st d)).2 in (renderStudents st', st')
  | ELogin => renderPage locale st
  | ELogout => renderPage locale (logoutTeacher st)
  | EShowStudents => (renderStudents st, st)
  end.

(** The stores reachable after loading [d0]. *)
Inductive store_reachable (locale : string → string → Z) (d0 : api_data) : store → Prop :=
  | store_reach_load : store_reachable locale d0 (renderPage locale (onload d0)).2
  | store_reach_step st ev :
      store_reachable locale d0 st → store_reachable locale d0 (store_step locale st ev).2.

End Store.

(** Concrete data for the witnesses: two students of one group loaded
    with 10 (Amy) and 50 (Zed) points, and a reply in which Amy has 90. *)
Module StoreDemo.
Import Store.
Definition demo_pupil (n : string) (c : Z) : Student :=
  mkStudent n (CStr "g") (CNum 0) (CNum c) (CNum 0) CUndef.
Definition demo_load : api_data :=
  mkData (Some [demo_pupil "Amy" 10; demo_pupil "Zed" 50]) (Some []) (Some []) None.
Definition demo_fresh : api_data :=
  mkData (Some [demo_pupil "Amy" 90; demo_pupil "Zed" 50]) None None None.
(** [localeCompare] on ASCII names: code-unit order. *)
Definition demo_locale (a b : string) : Z :=
  match String.compare a b with Lt => -1 | Eq => 0 | Gt => 1 end.
(** A consistent stand-in for [localeCompare]: by length. *)
Definition length_locale (a b : string) : Z :=
  Z.of_nat (String.length a) - Z.of_nat (String.length b).
End StoreDemo.

Module StoreFacts.
Import Ranking Titles Store.

(** [renderTitles] only permutes the rules and keeps the flag. *)
Lemma renderTitles_cfg locale cfg students :
  tc_enabled (renderTitles locale cfg students).2 = tc_enabled cfg ∧
  tc_rules (renderTitles locale cfg students).2 ≡ₚ tc_rules cfg.
Proof. unfold renderTitles. case_match; cbn; [done|]. split; [done|apply js_sort_perm]. Qed.

(** What unsorted mode shows depends only on [originalStudents] and the
    filter. *)
Lemma students_to_render_unsorted st :
  isSorted st = false →
  students_to_render st =
    if String.eqb (currentFilter st) "all" then originalStudents st
    else filter (λ s, group_of s = currentFilter st) (originalStudents st).
Proof. intros Hs. unfold students_to_render. by rewrite Hs. Qed.

(** On numeric cumulative cells the comparator of [toggleSort] is the
    descending order of [Number(x) || 0]. *)
Lemma raw_cumulative_numeric s :
  is_Some (js_Number (s_cumulative s)) → raw_cumulative s = Some (cumulative_of s).
Proof.
  unfold raw_cumulative, cumulative_of, num_or0. intros [z Hz]. rewrite Hz.
  destruct (s_cumulative s) as [n|str|[]| |]; cbn in Hz |- *; try congruence.
  - destruct (Z.eqb_spec n 0); cbn; congruence.
  - destruct (String.eqb_spec str ""); cbn; [|done]. subst. by injection Hz as <-.
Qed.

Lemma js_sort_score_numeric l :
  (∀ s, s ∈ l → is_Some (js_Number (s_cumulative s))) →
  js_sort score_sort_cmp l = js_sort (desc_by cumulative_of) l.
Proof.
  intros Hnum. apply js_sort_ext. intros x y Hx Hy.
  unfold score_sort_cmp, desc_by. by rewrite !raw_cumulative_numeric by auto.
Qed.

(** The cards of a list of students sorted by descending cumulative
    score are in descending order of their 累積分數 pill. *)
Lemma renderStudents_sorted st :
  StronglySorted (λ a b, cumulative_of b ≤ cumulative_of a) (students_to_render st) →
  StronglySorted (λ a b, c_cumulative b ≤ c_cumulative a) (renderStudents st).
Proof. intros Hs. by apply StronglySorted_fmap. Qed.

(** The view of a store sorted by [score_sort_cmp] from [l]: the cards
    descend by 累積分數 and are the students of [l] under the filter. *)
Lemma score_sorted_view st l :
  isSorted st = true → allStudents st = js_sort score_sort_cmp l →
  (∀ s, s ∈ l → is_Some (js_Number (s_cumulative s))) →
  StronglySorted (λ a b, c_cumulative b ≤ c_cumulative a) (renderStudents st) ∧
  c_name <$> renderStudents st ≡ₚ
    s_name <$> (if String.eqb (currentFilter st) "all" then l
                else filter (λ s, group_of s = currentFilter st) l).
Proof.
  intros Hs Hl Hnum. rewrite js_sort_score_numeric in Hl by done.
  assert (Hsorted : StronglySorted (λ a b, cumulative_of b ≤ cumulative_of a) (allStudents st)).
  { rewrite Hl. eapply StronglySorted_weaken; [|apply js_sort_sorted, _]. unfold desc_by. intros; lia. }
  split.
  - apply renderStudents_sorted. unfold students_to_render. rewrite Hs.
    case_match; [done|]. by apply StronglySorted_filter.
  - unfold renderStudents. rewrite <- list_fmap_compose. unfold students_to_render.
    rewrite Hs, Hl. change (c_name ∘ _) with s_name.
    case_match; [by rewrite js_sort_perm|]. by rewrite js_sort_perm.
Qed.

(** [renderPage] keeps [originalStudents] and permutes the rules. *)
Lemma renderPage_keeps locale st :
  originalStudents (renderPage locale st).2 = originalStudents st ∧
  tc_enabled (titleConfig (renderPage locale st).2) = tc_enabled (titleConfig st) ∧
  tc_rules (titleConfig (renderPage locale st).2) ≡ₚ tc_rules (titleConfig st).
Proof. split; [done|]. apply renderTitles_cfg. Qed.

Lemma apply_refresh_keeps st d :
  originalStudents (apply_refresh st d) = originalStudents st ∧
  titleConfig (apply_refresh st d) = titleConfig st.
Proof. unfold apply_refresh. by destruct (isSorted st). Qed.

(** No event writes [originalStudents] or changes the title rules but
    by a permutation. *)
Lemma store_step_keeps locale st ev :
  originalStudents (store_step locale st ev).2 = originalStudents st ∧
  tc_enabled (titleConfig (store_step locale st ev).2) = tc_enabled (titleConfig st) ∧
  tc_rules (titleConfig (store_step locale st ev).2) ≡ₚ tc_rules (titleConfig st).
Proof.
  destruct ev as [| |d|d|d| | |]; cbn [store_step snd]; try done;
    [destruct (apply_refresh_keeps st d) as [Ho Hc]..| | |];
    match goal with |- context [(renderPage locale ?x).2] =>
      destruct (renderPage_keeps locale x) as (H1 & H2 & H3); rewrite H1, H2, H3 end;
    try (rewrite Ho, Hc); done.
Qed.

(** ** Theorems *)

(** C24: in every state reachable after loading, [originalStudents] is
    still the student list of the first load: no reply handler ever
    refreshes it.  The title rules are those loaded, up to the order the
    in-place sort of [renderTitles] gives them, with the same flag. *)
Theorem store_reachable_invariant locale d0 st :
  store_reachable locale d0 st →
  originalStudents st = default [] (d_students d0) ∧
  tc_enabled (titleConfig st) = tc_enabled (default (mkTitleConfig false []) (d_titles d0)) ∧
  tc_rules (titleConfig st) ≡ₚ tc_rules (default (mkTitleConfig false []) (d_titles d0)).
Proof.
  induction 1 as [|st ev _ (Ho & He & Hr)].
  - apply renderPage_keeps.
  - destruct (store_step_keeps locale st ev) as (Ho' & He' & Hr').
    rewrite Ho', He', Hr'. done.
Qed.

(** C25: in unsorted mode, a reply of [updateScores], [sendScoreRecord]
    or [doEditLog] changes none of the names and score pills on screen:
    unsorted mode renders [originalStudents], which no reply updates. *)
Theorem unsorted_reply_keeps_cards locale st ev d :
  isSorted st = false → ev = EUpdateScores d ∨ ev = ESendScore d ∨ ev = EEditLog d →
  (λ c, (c_name c, c_score c, c_cumulative c)) <$> (store_step locale st ev).1 =
  (λ c, (c_name c, c_score c, c_cumulative c)) <$> renderStudents st.
Proof.
  intros Hs Hev.
  assert (Hview : ∀ st', isSorted st' = false → originalStudents st' = originalStudents st →
            currentFilter st' = currentFilter st →
            (λ c, (c_name c, c_score c, c_cumulative c)) <$> renderStudents st' =
            (λ c, (c_name c, c_score c, c_cumulative c)) <$> renderStudents st).
  { intros st' Hs' Ho Hf. unfold renderStudents. rewrite <- !list_fmap_compose.
    rewrite !students_to_render_unsorted, Ho, Hf by done. reflexivity. }
  destruct Hev as [-> | [-> | ->]]; cbn [store_step renderPage fst snd]; apply Hview; try done;
    unfold apply_refresh; rewrite ?Hs; done.
Qed.

(** [toggleSort] from unsorted mode sorts the filtered [allStudents]. *)
Lemma toggleSort_sorted_view locale st :
  isSorted st = false → (∀ s, s ∈ allStudents st → is_Some (js_Number (s_cumulative s))) →
  StronglySorted (λ a b, c_cumulative b ≤ c_cumulative a) (store_step locale st EToggleSort).1 ∧
  c_name <$> (store_step locale st EToggleSort).1 ≡ₚ
    s_name <$> (if String.eqb (currentFilter st) "all" then allStudents st
                else filter (λ s, group_of s = currentFilter st) (allStudents st)).
Proof.
  intros Hs Hnum. cbn [store_step fst].
  destruct (score_sorted_view (toggleSort st) (allStudents st)) as [H1 H2];
    [unfold toggleSort; by rewrite Hs..|done|].
  split; [exact H1|exact H2].
Qed.

(** In sorted mode a score reply sorts the filtered students of the reply. *)
Lemma sorted_reply_shows_fresh locale st ev d l :
  isSorted st = true → ev = EUpdateScores d ∨ ev = ESendScore d → d_students d = Some l →
  (∀ s, s ∈ l → is_Some (js_Number (s_cumulative s))) →
  StronglySorted (λ a b, c_cumulative b ≤ c_cumulative a) (store_step locale st ev).1 ∧
  c_name <$> (store_step locale st ev).1 ≡ₚ
    s_name <$> (if String.eqb (currentFilter st) "all" then l
                else filter (λ s, group_of s = currentFilter st) l).
Proof.
  intros Hs Hev Hd Hnum.
  assert (Hsrt : isSorted (apply_refresh st d) = true) by (unfold apply_refresh; by rewrite Hs).
  destruct (score_sorted_view (apply_refresh st d) l Hsrt) as [H1 H2];
    [unfold apply_refresh; by rewrite Hs, Hd|done|].
  destruct Hev as [Hev|Hev]; subst ev; cbn [store_step renderPage fst];
    (split; [exact H1|]); revert H2; unfold apply_refresh; by rewrite Hs.
Qed.

(** C26: the sorted view shows fresh students in descending order:
    [toggleSort] from unsorted mode shows the students of [allStudents],
    and in sorted mode a reply of [updateScores] or [sendScoreRecord]
    carrying students [l] shows the students of [l]; in both cases those
    under the filter, in descending order of their 累積分數 pill, when
    every cumulative cell is a number. *)
Theorem sorted_view_shows locale st ev d l :
  (isSorted st = false ∧ ev = EToggleSort ∧ l = allStudents st) ∨
  (isSorted st = true ∧ (ev = EUpdateScores d ∨ ev = ESendScore d) ∧ d_students d = Some l) →
  (∀ s, s ∈ l → is_Some (js_Number (s_cumulative s))) →
  StronglySorted (λ a b, c_cumulative b ≤ c_cumulative a) (store_step locale st ev).1 ∧
  c_name <$> (store_step locale st ev).1 ≡ₚ
    s_name <$> (if String.eqb (currentFilter st) "all" then l
                else filter (λ s, group_of s = currentFilter st) l).
Proof.
  intros [(Hs & -> & ->)|(Hs & Hev & Hd)] Hnum; [by apply toggleSort_sorted_view|].
  by eapply sorted_reply_shows_fresh.
Qed.

(** Every [renderPage] leaves [allStudents] sorted by name: the
    student options of the log filter sort the shared array in place,
    keeping its elements. *)
Theorem renderPage_sorts_by_name locale st
    (Hloc : ConsistentCmp (λ a b : Student, locale (s_name a) (s_name b))) :
  StronglySorted (λ a b, locale (s_name a) (s_name b) ≤ 0) (allStudents (renderPage locale st).2) ∧
  allStudents (renderPage locale st).2 ≡ₚ allStudents st.
Proof. split; [by apply js_sort_sorted|apply js_sort_perm]. Qed.

Import StoreDemo.

(** The cards of a store in sorted mode whose [allStudents] is in name
    order are in name order. *)
Lemma renderStudents_name_sorted locale st :
  isSorted st = true → StronglySorted (λ a b, locale (s_name a) (s_name b) ≤ 0) (allStudents st) →
  StronglySorted (λ a b, locale (c_name a) (c_name b) ≤ 0) (renderStudents st).
Proof.
  intros Hs Hl. apply StronglySorted_fmap. unfold students_to_render. rewrite Hs.
  case_match; [done|]. by apply StronglySorted_filter.
Qed.

(** C29: the sorted view does not survive a render.  In sorted mode
    (1) an edit reply of [doEditLog], which calls [renderPage] before
    [renderStudents], shows the students of the reply in name order;
    (2) after any handler that calls [renderPage] (a login, a logout, a
    score reply), a click on a filter button shows the students of the
    group in name order; in both cases the page stays in sorted mode.
    [renderPage] sorts the array [allStudents] itself by name
    ([updateLogStudentOptions('all')]), and these handlers draw it
    without sorting it again by score. *)
Theorem store_stale_views locale st d g
    (Hloc : ConsistentCmp (λ a b : Student, locale (s_name a) (s_name b))) :
  isSorted st = true →
  (StronglySorted (λ a b, locale (c_name a) (c_name b) ≤ 0) (store_step locale st (EEditLog d)).1 ∧
   isSorted (store_step locale st (EEditLog d)).2 = true) ∧
  (StronglySorted (λ a b, locale (c_name a) (c_name b) ≤ 0)
     (store_step locale (renderPage locale st).2 (EFilter g)).1 ∧
   c_name <$> (store_step locale (renderPage locale st).2 (EFilter g)).1 ≡ₚ
     s_name <$> (if String.eqb g "all" then allStudents st else filter (λ s, group_of s = g) (allStudents st)) ∧
   isSorted (store_step locale (renderPage locale st).2 (EFilter g)).2 = true).
Proof.
  intros Hs. split_and!.
  - apply renderStudents_name_sorted; [done|]. by apply renderPage_sorts_by_name.
  - done.
  - apply renderStudents_name_sorted; [done|]. by apply renderPage_sorts_by_name.
  - cbn [store_step fst]. unfold renderStudents. rewrite <- list_fmap_compose.
    change (c_name ∘ _) with s_name. unfold students_to_render. cbn [isSorted filterStudents currentFilter].
    assert (Hs' : isSorted (renderPage locale st).2 = true) by exact Hs. rewrite Hs'.
    destruct (renderPage_sorts_by_name locale st Hloc) as [_ Hp].
    cbn [allStudents filterStudents]. case_match; [by rewrite Hp|].
    by rewrite (filter_Permutation _ _ _ Hp).
  - done.
Qed.

(** ** Witnesses *)

Lemma store_stale_views_witness :
  StronglySorted (λ a b, length_locale (c_name a) (c_name b) ≤ 0)
    (store_step length_locale
       (store_step length_locale (renderPage length_locale (onload demo_load)).2 EToggleSort).2
       (EEditLog demo_fresh)).1.
Proof.
  apply (store_stale_views length_locale _ demo_fresh "all"
           (asc_by_consistent (λ s, Z.of_nat (String.length (s_name s))))).
  vm_compute. reflexivity.
Defined.

Lemma store_reachable_invariant_witness :
  originalStudents (store_step demo_locale (renderPage demo_locale (onload demo_load)).2
                      (EUpdateScores demo_fresh)).2 = [demo_pupil "Amy" 10; demo_pupil "Zed" 50].
Proof.
  exact (proj1 (store_reachable_invariant demo_locale demo_load _
                  (store_reach_step _ _ _ _ (store_reach_load _ _)))).
Defined.

Lemma unsorted_reply_keeps_cards_witness :
  (λ c, (c_name c, c_score c, c_cumulative c)) <$>
    (store_step demo_locale (renderPage demo_locale (onload demo_load)).2 (EUpdateScores demo_fresh)).1 =
  (λ c, (c_name c, c_score c, c_cumulative c)) <$> renderStudents (renderPage demo_locale (onload demo_load)).2.
Proof.
  apply (unsorted_reply_keeps_cards demo_locale _ _ demo_fresh); [reflexivity|by left].
Defined.

Lemma sorted_view_shows_witness :
  StronglySorted (λ a b, c_cumulative b ≤ c_cumulative a)
    (store_step demo_locale
       (store_step demo_locale (renderPage demo_locale (onload demo_load)).2 EToggleSort).2
       (EUpdateScores demo_fresh)).1.
Proof.
  apply (sorted_view_shows demo_locale _ _ demo_fresh [demo_pupil "Amy" 90; demo_pupil "Zed" 50]);
    [right; split_and!; [reflexivity|by left|reflexivity]|].
  apply Forall_forall, (bool_decide_unpack _). vm_compute. reflexivity.
Defined.

End StoreFacts.
