(* ===== verification/Timer.v ===== *)
(** * The classroom countdown timer (872-954)

    The timer keeps [totalSeconds] and [isTimerRunning] (48), the alarm
    (the sound and the red box) and the two input fields.  [startTimer]
    installs a one-second interval whose callback decrements the time
    while it is positive and calls [timeIsUp] once it is 0;
    [stopTimer] clears the interval, so a tick arrives exactly when the
    timer runs.  [applyCustomTime] reads the fields with
    [parseInt(x) || 0], [addTime] writes them back with [Math.floor(t /
    60)] and [t % 60], and [updateTimerDisplay] prints [mm:ss].

    [timer] is the record of this state, each handler a function on it,
    [timer_step] one event and [timer_reachable] the states reachable
    from the page load. *)

From S2P Require Import Prelude JsValue.
From stdpp Require Import pretty.
Local Open Scope Z_scope.

Module Timer.

Record timer := mkTimer {
  totalSeconds : Z;
  isTimerRunning : bool;
  alarmOn : bool;
  panelOpen : bool;
  inputMin : string;
  inputSec : string
}.

(** [let timerInterval = null, totalSeconds = 0, isTimerRunning = false]
    (48), the panel hidden and the fields empty. *)
Definition timer_init : timer := mkTimer 0 false false false "" "".

(** [stopTimer] (930-935). *)
Definition stopTimer (st : timer) : timer :=
  mkTimer (totalSeconds st) false (alarmOn st) (panelOpen st) (inputMin st) (inputSec st).

(** [stopAlarm] (950-954). *)
Definition stopAlarm (st : timer) : timer :=
  mkTimer (totalSeconds st) (isTimerRunning st) false (panelOpen st) (inputMin st) (inputSec st).

(** [timeIsUp] (943-948). *)
Definition timeIsUp (st : timer) : timer :=
  let st := stopTimer st in
  mkTimer (totalSeconds st) (isTimerRunning st) true (panelOpen st) (inputMin st) (inputSec st).

(** [applyCustomTime] (884-891). *)
Definition applyCustomTime (st : timer) : timer :=
  let m := parseInt_or0 (inputMin st) in
  let s := parseInt_or0 (inputSec st) in
  let st := stopAlarm (stopTimer st) in
  mkTimer (m * 60 + s) (isTimerRunning st) (alarmOn st) (panelOpen st) (inputMin st) (inputSec st).

(** [addTime(minutes)] (893-900): the fields receive the numbers
    [Math.floor(t / 60)] and [t % 60] (a truncated remainder). *)
Definition addTime (st : timer) (minutes : Z) : timer :=
  let st := stopAlarm st in
  let st := if isTimerRunning st then stopTimer st else st in
  let t := totalSeconds st + minutes * 60 in
  mkTimer t (isTimerRunning st) (alarmOn st) (panelOpen st) (pretty (t / 60)) (pretty (Z.rem t 60)).

(** [resetTimer] (902-909). *)
Definition resetTimer (st : timer) : timer :=
  let st := stopAlarm (stopTimer st) in
  mkTimer 0 (isTimerRunning st) (alarmOn st) (panelOpen st) "" "".

(** [startTimer] (911-928): the state, and whether it alerts. *)
Definition startTimer (st : timer) : timer * bool :=
  let st := if totalSeconds st =? 0 then applyCustomTime st else st in
  if totalSeconds st <=? 0 then (st, true)
  else if isTimerRunning st then (st, false)
  else (mkTimer (totalSeconds st) true (alarmOn st) (panelOpen st) (inputMin st) (inputSec st), false).

(** The interval callback (922-927); no callback arrives when the timer
    is stopped, its interval being cleared. *)
Definition timer_tick (st : timer) : timer :=
  if isTimerRunning st then
    if 0 <? totalSeconds st then
      mkTimer (totalSeconds st - 1) true (alarmOn st) (panelOpen st) (inputMin st) (inputSec st)
    else timeIsUp st
  else st.

(** [toggleTimerPanel] (872-882). *)
Definition toggleTimerPanel (st : timer) : timer :=
  if panelOpen st then
    let st := stopAlarm (stopTimer st) in
    mkTimer (totalSeconds st) (isTimerRunning st) (alarmOn st) false (inputMin st) (inputSec st)
  else
    let st := stopAlarm st in
    mkTimer (totalSeconds st) (isTimerRunning st) (alarmOn st) true (inputMin st) (inputSec st).

(** [m < 10 ? "0" + m : m] *)
Definition pad2 (z : Z) : string := if z <? 10 then "0" +:+ pretty z else pretty z.

(** [updateTimerDisplay] (937-941). *)
Definition timer_display (t : Z) : string := pad2 (t / 60) +:+ ":" +:+ pad2 (Z.rem t 60).

Inductive timer_event :=
  | TTogglePanel
  | TInput (min sec : string)
  | TApply
  | TAdd (minutes : Z)
  | TReset
  | TStart
  | TPause
  | TTick.

Definition timer_step (st : timer) (ev : timer_event) : timer :=
  match ev with
  | TTogglePanel => toggleTimerPanel st
  | TInput m s => mkTimer (totalSeconds st) (isTimerRunning st) (alarmOn st) (panelOpen st) m s
  | TApply => applyCustomTime st
  | TAdd m => addTime st m
  | TReset => resetTimer st
  | TStart => (startTimer st).1
  | TPause => stopTimer st
  | TTick => timer_tick st
  end.

Inductive timer_reachable : timer → Prop :=
  | timer_reach_init : timer_reachable timer_init
  | timer_reach_step st ev : timer_reachable st → timer_reachable (timer_step st ev).

End Timer.

Module TimerFacts.
Import Timer.

(** The timer invariant: a running timer has a non-negative time, and a
    ringing alarm means a stopped timer at 0. *)
Definition timer_inv (st : timer) : Prop :=
  (isTimerRunning st = true → 0 ≤ totalSeconds st) ∧
  (alarmOn st = true → isTimerRunning st = false ∧ totalSeconds st = 0).

Lemma timer_step_inv st ev : timer_inv st → timer_inv (timer_step st ev).
Proof.
  destruct st as [t r a p m s]. unfold timer_inv.
  destruct ev; cbn -[pretty parseInt_or0];
    unfold timer_tick, startTimer, applyCustomTime, addTime, resetTimer, toggleTimerPanel,
      stopTimer, stopAlarm, timeIsUp; cbn -[pretty parseInt_or0];
    destruct r, a, p; cbn -[pretty parseInt_or0]; zify_bools; cbn -[pretty parseInt_or0] in *;
    intuition (try discriminate; try lia).
Qed.

Lemma tick_running st :
  isTimerRunning st = true → 0 < totalSeconds st →
  timer_tick st = mkTimer (totalSeconds st - 1) true (alarmOn st) (panelOpen st) (inputMin st) (inputSec st).
Proof. intros Hr Ht. unfold timer_tick. rewrite Hr. by destruct (Z.ltb_spec 0 (totalSeconds st)); [|lia]. Qed.

(** [k] ticks of a running timer with at least [k] seconds left. *)
Lemma countdown_iter k st :
  isTimerRunning st = true → Z.of_nat k ≤ totalSeconds st →
  Nat.iter k timer_tick st =
    mkTimer (totalSeconds st - Z.of_nat k) true (alarmOn st) (panelOpen st) (inputMin st) (inputSec st).
Proof.
  intros Hr. induction k as [|k IH]; intros Hk.
  - destruct st; cbn in *. subst. f_equal. lia.
  - rewrite Nat.iter_succ, IH by lia. rewrite tick_running by (cbn; lia). cbn. f_equal. lia.
Qed.

Lemma pad2_ok z : 0 ≤ z < 100 → String.length (pad2 z) = 2%nat ∧ parseInt_or0 (pad2 z) = z.
Proof.
  intros Hz. replace z with (Z.of_nat (Z.to_nat z)) by lia.
  assert (Hall : Forall (λ n, String.length (pad2 (Z.of_nat n)) = 2%nat ∧
                               parseInt_or0 (pad2 (Z.of_nat n)) = Z.of_nat n) (seq 0 100)).
  { apply (bool_decide_unpack _). vm_compute. reflexivity. }
  rewrite Forall_forall in Hall. apply Hall, elem_of_seq. lia.
Qed.

Lemma timer_reachable_timer_inv st : timer_reachable st → timer_inv st.
Proof. induction 1 as [|st ev _ IH]; [by split|]. by apply timer_step_inv. Qed.

(** The countdown of a running timer: [n] ticks to 0, one more to ring. *)
Lemma countdown_end st :
  isTimerRunning st = true → 0 ≤ totalSeconds st →
  Nat.iter (Z.to_nat (totalSeconds st)) timer_tick st =
    mkTimer 0 true (alarmOn st) (panelOpen st) (inputMin st) (inputSec st) ∧
  Nat.iter (S (Z.to_nat (totalSeconds st))) timer_tick st =
    mkTimer 0 false true (panelOpen st) (inputMin st) (inputSec st).
Proof.
  intros Hr Ht. rewrite Nat.iter_succ, countdown_iter by (done || lia).
  rewrite Z2Nat.id, Z.sub_diag by done. split; [done|]. unfold timer_tick. cbn. done.
Qed.

(** ** Theorems *)

(** A running timer with [n ≥ 0] seconds left shows 00:00 after [n]
    ticks, still running, and the next tick stops it and rings the
    alarm. *)
Lemma countdown_rings st :
  isTimerRunning st = true → 0 ≤ totalSeconds st →
  let n := Z.to_nat (totalSeconds st) in
  timer_display (totalSeconds (Nat.iter n timer_tick st)) = "00:00" ∧
  isTimerRunning (Nat.iter n timer_tick st) = true ∧
  Nat.iter (S n) timer_tick st = mkTimer 0 false true (panelOpen st) (inputMin st) (inputSec st).
Proof.
  intros Hr Ht n. destruct (countdown_end st Hr Ht) as [Hn HSn].
  subst n. rewrite Hn, HSn. split_and!; [vm_compute; reflexivity|done|done].
Qed.

(** C23: the countdown never runs below zero, terminates and rings on
    time: in every state reachable from the page load a running timer
    has a non-negative time and a ringing alarm means a stopped timer at
    0; at most [totalSeconds + 1] ticks stop the timer; and a running
    one with [n] seconds left shows 00:00 after [n] ticks, still
    running, and the next tick stops it and rings the alarm. *)
Theorem timer_countdown_terminates st :
  timer_reachable st →
  (isTimerRunning st = true → 0 ≤ totalSeconds st) ∧
  (alarmOn st = true → isTimerRunning st = false ∧ totalSeconds st = 0) ∧
  (∃ k, (k ≤ S (Z.to_nat (totalSeconds st)))%nat ∧ isTimerRunning (Nat.iter k timer_tick st) = false) ∧
  (isTimerRunning st = true →
   let n := Z.to_nat (totalSeconds st) in
   timer_display (totalSeconds (Nat.iter n timer_tick st)) = "00:00" ∧
   isTimerRunning (Nat.iter n timer_tick st) = true ∧
   Nat.iter (S n) timer_tick st = mkTimer 0 false true (panelOpen st) (inputMin st) (inputSec st)).
Proof.
  intros Hreach. destruct (timer_reachable_timer_inv st Hreach) as [Hpos Halarm].
  split_and!; [done|done| |intros Hr; exact (countdown_rings st Hr (Hpos Hr))].
  destruct (isTimerRunning st) eqn:Hr; [|exists 0%nat; split; [lia|done]].
  exists (S (Z.to_nat (totalSeconds st))). split; [done|].
  by rewrite (proj2 (countdown_end st Hr (Hpos eq_refl))).
Qed.

(** The fields [addTime] fills read back to its time: for a
    non-negative total, [applyCustomTime] right after [addTime] keeps
    the time. *)
Lemma addTime_apply_roundtrip st minutes :
  0 ≤ totalSeconds (addTime st minutes) →
  totalSeconds (applyCustomTime (addTime st minutes)) = totalSeconds (addTime st minutes).
Proof.
  unfold applyCustomTime, addTime. cbn -[pretty parseInt_or0].
  destruct (isTimerRunning st); cbn -[pretty parseInt_or0];
    set (t := totalSeconds st + minutes * 60); intros Ht;
    unfold parseInt_or0; rewrite !parseInt_String_roundtrip; cbn;
    rewrite Z.rem_mod_nonneg by lia; pose proof (Z.div_mod t 60); lia.
Qed.

(** Below 100 minutes the display is [mm:ss] with two digits each, and
    reading the two parts back with [parseInt] gives the time. *)
Lemma timer_display_roundtrip t :
  0 ≤ t < 6000 →
  ∃ mm ss, timer_display t = mm +:+ ":" +:+ ss ∧
    String.length mm = 2%nat ∧ String.length ss = 2%nat ∧
    parseInt_or0 mm * 60 + parseInt_or0 ss = t.
Proof.
  intros Ht. exists (pad2 (t / 60)), (pad2 (Z.rem t 60)). split; [done|].
  rewrite Z.rem_mod_nonneg by lia.
  destruct (pad2_ok (t / 60)) as [Hl1 Hv1]; [split; [apply Z.div_pos|apply Z.div_lt_upper_bound]; lia|].
  destruct (pad2_ok (t mod 60)) as [Hl2 Hv2]; [pose proof (Z.mod_pos_bound t 60); lia|].
  rewrite Hv1, Hv2. split_and!; [done|done|]. pose proof (Z.div_mod t 60). lia.
Qed.

(** Typed negative fields are taken as they are: the fields "-1" and
    "-30" give -90 seconds, displayed "0-2:0-30"; one more minute gives
    -30, but the fields [addTime] writes back ("-1" and "-30") apply to
    -90 again. *)
Lemma negative_time_roundtrip_fails :
  let st := timer_step (timer_step timer_init (TInput "-1" "-30")) TApply in
  timer_reachable st ∧ totalSeconds st = -90 ∧ timer_display (totalSeconds st) = "0-2:0-30" ∧
  totalSeconds (addTime st 1) = -30 ∧ totalSeconds (applyCustomTime (addTime st 1)) = -90.
Proof.
  split; [repeat constructor|]. vm_compute. split_and!; reflexivity.
Qed.

(** ** Witnesses *)

Lemma timer_countdown_terminates_witness :
  ∃ k, (k ≤ S (Z.to_nat (totalSeconds (timer_step (timer_step timer_init (TInput "0" "3")) TStart))))%nat ∧
    isTimerRunning (Nat.iter k timer_tick (timer_step (timer_step timer_init (TInput "0" "3")) TStart)) = false.
Proof.
  apply (proj1 (proj2 (proj2 (timer_countdown_terminates _
    (timer_reach_step _ _ (timer_reach_step _ _ timer_reach_init)))))).
Defined.
End TimerFacts.
