(* ===== verification/LuckyDraw.v ===== *)
(** * The lucky draw and the dice (669-837)

    The lucky draw keeps the students of the chosen group
    ([currentGroupStudents]), the names excluded by a click
    ([excludedNames], a [Set]), the cached list of the others
    ([activeCandidates]), the id of the animation interval
    ([luckyIntervalId]) and the student last shown
    ([currentLuckyStudent]) (44).  [updateActiveCandidates] (726-732)
    recomputes the cache and enables the two buttons exactly when it is
    not empty; the interval callback (769-773) shows
    [activeCandidates[Math.floor(Math.random() * length)]] every 80 ms;
    [stopAnimation] (776-781) clears the stored interval and opens the
    score modal of the student last shown.  The manual button toggles the
    animation (734-746); the automatic one (748-762) starts it and stops
    it after a random delay.

    [lucky] is the record of these globals together with the two
    [disabled] flags of the buttons and the intervals the page keeps
    alive (the engine's timer list, where [clearInterval] removes one).
    Each handler is a function; [lucky_enabled] says which events the
    page can deliver (a disabled button fires no click, a cleared
    interval no tick, a pending timeout fires once), and
    [lucky_reachable] collects the states reachable from the load.
    [Math.random()] is the rational [q] in [0, 1) an event carries.

    The dice (805-837) keep [currentDiceMax] and [isRolling]; the
    shown result is [Math.floor(Math.random() * currentDiceMax) + 1]. *)

From S2P Require Import Prelude JsValue JsSort Records.
From Stdlib Require Import QArith Qround Lqa.
Local Open Scope Z_scope.

(** [Math.floor(q * n)] for [q = Math.random()]. *)
Definition random_index (q : Q) (n : Z) : Z := Qfloor (q * inject_Z n).

Module LuckyDraw.

Record lucky := mkLucky {
  currentGroupStudents : list Student;
  excludedNames : gset string;
  activeCandidates : list Student;
  luckyIntervalId : option nat;
  currentLuckyStudent : option Student;
  startDisabled : bool;
  autoDisabled : bool;
  liveIntervals : list nat;
  nextIntervalId : nat;
  pendingTimeouts : nat
}.

(** [let luckyIntervalId = null, currentGroupStudents = [],
    activeCandidates = [], excludedNames = new Set(),
    currentLuckyStudent = null] (44); the buttons start enabled. *)
Definition lucky_init : lucky := mkLucky [] ∅ [] None None false false [] 0 0.

(** [updateActiveCandidates] (726-732). *)
Definition updateActiveCandidates (st : lucky) : lucky :=
  let cands := filter (λ s, s_name s ∉ excludedNames st) (currentGroupStudents st) in
  let disabled := Nat.eqb (length cands) 0 in
  mkLucky (currentGroupStudents st) (excludedNames st) cands (luckyIntervalId st)
    (currentLuckyStudent st) disabled disabled (liveIntervals st) (nextIntervalId st)
    (pendingTimeouts st).

(** [resetLuckyCard] (795-802): only [currentLuckyStudent] is state. *)
Definition resetLuckyCard (st : lucky) : lucky :=
  mkLucky (currentGroupStudents st) (excludedNames st) (activeCandidates st)
    (luckyIntervalId st) None (startDisabled st) (autoDisabled st) (liveIntervals st)
    (nextIntervalId st) (pendingTimeouts st).

(** [selectLuckyGroup(groupName)] (682-692). *)
Definition selectLuckyGroup (allStudents : list Student) (st : lucky) (g : string) : lucky :=
  let st := mkLucky (filter (λ s, group_of s = g) allStudents) ∅ (activeCandidates st)
              (luckyIntervalId st) (currentLuckyStudent st) (startDisabled st)
              (autoDisabled st) (liveIntervals st) (nextIntervalId st) (pendingTimeouts st) in
  resetLuckyCard (updateActiveCandidates st).

(** [initLuckyDraw] (669-680): the first group of the sorted names is
    selected. *)
Definition initLuckyDraw (allGroups : list string) (allStudents : list Student) (st : lucky)
    : lucky :=
  match js_sort group_name_cmp allGroups with
  | g :: _ => selectLuckyGroup allStudents st g
  | [] => st
  end.

(** [toggleExclusion(name)] (707-717), ignored while animating. *)
Definition toggleExclusion (st : lucky) (name : string) : lucky :=
  if is_Some_dec (luckyIntervalId st) then st
  else
    let ex := if decide (name ∈ excludedNames st) then excludedNames st ∖ {[name]}
              else excludedNames st ∪ {[name]} in
    updateActiveCandidates
      (mkLucky (currentGroupStudents st) ex (activeCandidates st) (luckyIntervalId st)
         (currentLuckyStudent st) (startDisabled st) (autoDisabled st) (liveIntervals st)
         (nextIntervalId st) (pendingTimeouts st)).

(** [resetExclusion] (719-724), ignored while animating. *)
Definition resetExclusion (st : lucky) : lucky :=
  if is_Some_dec (luckyIntervalId st) then st
  else
    updateActiveCandidates
      (mkLucky (currentGroupStudents st) ∅ (activeCandidates st) (luckyIntervalId st)
         (currentLuckyStudent st) (startDisabled st) (autoDisabled st) (liveIntervals st)
         (nextIntervalId st) (pendingTimeouts st)).

(** [startAnimation] (764-774): a new interval, whose id is stored. *)
Definition startAnimation (st : lucky) : lucky :=
  let id := nextIntervalId st in
  mkLucky (currentGroupStudents st) (excludedNames st) (activeCandidates st) (Some id)
    (currentLuckyStudent st) (startDisabled st) (autoDisabled st) (id :: liveIntervals st)
    (S id) (pendingTimeouts st).

(** What a handler does besides its state: open the score modal of a
    student, or throw a [TypeError]. *)
Inductive lucky_effect :=
  | OpenScoreModal (name : string)
  | TypeErrorThrown.

(** [stopAnimation] (776-781): clears only the stored interval. *)
Definition stopAnimation (st : lucky) : lucky * option lucky_effect :=
  let live := match luckyIntervalId st with
              | Some id => filter (λ i, i ≠ id) (liveIntervals st)
              | None => liveIntervals st
              end in
  (mkLucky (currentGroupStudents st) (excludedNames st) (activeCandidates st) None
     (currentLuckyStudent st) (startDisabled st) (autoDisabled st) live
     (nextIntervalId st) (pendingTimeouts st),
   option_map (λ s, OpenScoreModal (s_name s)) (currentLuckyStudent st)).

Definition set_buttons (st : lucky) (start auto : bool) : lucky :=
  mkLucky (currentGroupStudents st) (excludedNames st) (activeCandidates st)
    (luckyIntervalId st) (currentLuckyStudent st) start auto (liveIntervals st)
    (nextIntervalId st) (pendingTimeouts st).

(** [toggleLuckyDrawManual] (734-746). *)
Definition toggleLuckyDrawManual (st : lucky) : lucky * option lucky_effect :=
  if is_Some_dec (luckyIntervalId st) then
    let '(st', eff) := stopAnimation st in (set_buttons st' (startDisabled st') false, eff)
  else if Nat.eqb (length (activeCandidates st)) 0 then (st, None)
  else let st' := startAnimation st in (set_buttons st' (startDisabled st') true, None).

(** [startAutoLuckyDraw] (748-754): both buttons disabled, the animation
    started and a timeout pending. *)
Definition startAutoLuckyDraw (st : lucky) : lucky :=
  if Nat.eqb (length (activeCandidates st)) 0 then st
  else
    let st' := startAnimation (set_buttons st true true) in
    mkLucky (currentGroupStudents st') (excludedNames st') (activeCandidates st')
      (luckyIntervalId st') (currentLuckyStudent st') (startDisabled st') (autoDisabled st')
      (liveIntervals st') (nextIntervalId st') (S (pendingTimeouts st')).

(** The timeout of [startAutoLuckyDraw] (755-761). *)
Definition autoTimeout (st : lucky) : lucky * option lucky_effect :=
  let '(st', eff) := stopAnimation st in
  let st' := set_buttons st' false false in
  (mkLucky (currentGroupStudents st') (excludedNames st') (activeCandidates st')
     (luckyIntervalId st') (currentLuckyStudent st') (startDisabled st') (autoDisabled st')
     (liveIntervals st') (nextIntervalId st') (pred (pendingTimeouts st')), eff).

(** The interval callback (769-773): [activeCandidates[i]] is
    [undefined] out of range, and [updateLuckyCardDisplay(undefined)]
    throws after the assignment. *)
Definition luckyTick (st : lucky) (q : Q) : lucky * option lucky_effect :=
  let i := random_index q (Z.of_nat (length (activeCandidates st))) in
  let student := activeCandidates st !! Z.to_nat i in
  (mkLucky (currentGroupStudents st) (excludedNames st) (activeCandidates st)
     (luckyIntervalId st) student (startDisabled st) (autoDisabled st) (liveIntervals st)
     (nextIntervalId st) (pendingTimeouts st),
   match student with Some _ => None | None => Some TypeErrorThrown end).

Inductive lucky_event :=
  | LInit (allGroups : list string) (allStudents : list Student)
  | LSelectGroup (allStudents : list Student) (g : string)
  | LToggleExclusion (name : string)
  | LResetExclusion
  | LClickStart
  | LClickAuto
  | LAutoTimeout
  | LTick (id : nat) (q : Q).

(** The events the page can deliver in a state. *)
Definition lucky_enabled (st : lucky) (ev : lucky_event) : Prop :=
  match ev with
  | LClickStart => startDisabled st = false
  | LClickAuto => autoDisabled st = false
  | LAutoTimeout => (0 < pendingTimeouts st)%nat
  | LTick id q => id ∈ liveIntervals st ∧ (0 <= q)%Q ∧ (q < 1)%Q
  | _ => True
  end.

Definition lucky_step (st : lucky) (ev : lucky_event) : lucky * option lucky_effect :=
  match ev with
  | LInit gs students => (initLuckyDraw gs students st, None)
  | LSelectGroup students g => (selectLuckyGroup students st g, None)
  | LToggleExclusion n => (toggleExclusion st n, None)
  | LResetExclusion => (resetExclusion st, None)
  | LClickStart => toggleLuckyDrawManual st
  | LClickAuto => (startAutoLuckyDraw st, None)
  | LAutoTimeout => autoTimeout st
  | LTick _ q => luckyTick st q
  end.

Inductive lucky_reachable : lucky → Prop :=
  | lucky_reach_init : lucky_reachable lucky_init
  | lucky_reach_step st ev :
      lucky_reachable st → lucky_enabled st ev → lucky_reachable (lucky_step st ev).1.

(** ** The abstract draw

    What the draw promises: a group's members, a set of excluded names
    that only changes while no animation runs, and the candidates as the
    members whose name is not excluded. *)

Record draw_spec := mkDrawSpec {
  spec_members : list Student;
  spec_excluded : gset string
}.

Definition spec_candidates (d : draw_spec) : list Student :=
  filter (λ s, s_name s ∉ spec_excluded d) (spec_members d).

Inductive spec_event :=
  | SpecSelect (members : list Student)
  | SpecToggle (name : string)
  | SpecReset.

Definition spec_step (d : draw_spec) (e : spec_event) : draw_spec :=
  match e with
  | SpecSelect ms => mkDrawSpec ms ∅
  | SpecToggle n =>
      mkDrawSpec (spec_members d)
        (if decide (n ∈ spec_excluded d) then spec_excluded d ∖ {[n]} else spec_excluded d ∪ {[n]})
  | SpecReset => mkDrawSpec (spec_members d) ∅
  end.

(** The abstraction of a state and the abstract event of a concrete one
    ([None] is a stutter). *)
Definition abs_lucky (st : lucky) : draw_spec :=
  mkDrawSpec (currentGroupStudents st) (excludedNames st).

Definition abs_event (st : lucky) (ev : lucky_event) : option spec_event :=
  match ev with
  | LInit gs students =>
      match js_sort group_name_cmp gs with
      | g :: _ => Some (SpecSelect (filter (λ s, group_of s = g) students))
      | [] => None
      end
  | LSelectGroup students g => Some (SpecSelect (filter (λ s, group_of s = g) students))
  | LToggleExclusion n => if is_Some_dec (luckyIntervalId st) then None else Some (SpecToggle n)
  | LResetExclusion => if is_Some_dec (luckyIntervalId st) then None else Some SpecReset
  | _ => None
  end.

(** Sequences of deliverable events. *)
Inductive lucky_steps : lucky → lucky → Prop :=
  | lucky_steps_refl st : lucky_steps st st
  | lucky_steps_cons st ev st' :
      lucky_enabled st ev → lucky_steps (lucky_step st ev).1 st' → lucky_steps st st'.

End LuckyDraw.

Module Dice.

Record dice := mkDice {
  currentDiceMax : Z;
  isRolling : bool;
  diceResult : option Z   (** [None] is the "?" face *)
}.

(** [let currentDiceMax = 6, isRolling = false] (47). *)
Definition dice_init : dice := mkDice 6 false None.

(** [selectDiceType(sides)] (805-819). *)
Definition selectDiceType (st : dice) (sides : Z) : dice :=
  if isRolling st then st else mkDice sides false None.

(** [rollDice] (821-826). *)
Definition rollDice (st : dice) : dice :=
  if isRolling st then st else mkDice (currentDiceMax st) true (diceResult st).

(** The shuffle interval (827-829) and the final timeout (830-836). *)
Definition diceShuffle (st : dice) (q : Q) : dice :=
  mkDice (currentDiceMax st) (isRolling st) (Some (random_index q (currentDiceMax st) + 1)).

Definition diceSettle (st : dice) (q : Q) : dice :=
  mkDice (currentDiceMax st) false (Some (random_index q (currentDiceMax st) + 1)).

Inductive dice_event :=
  | DSelect (sides : Z)
  | DRoll
  | DShuffle (q : Q)
  | DSettle (q : Q).

(** The two buttons pass 6 and 20; the shuffle and the timeout fire
    only during a roll, with [Math.random()] in [0, 1). *)
Definition dice_enabled (st : dice) (ev : dice_event) : Prop :=
  match ev with
  | DSelect sides => sides = 6 ∨ sides = 20
  | DRoll => True
  | DShuffle q | DSettle q => isRolling st = true ∧ (0 <= q)%Q ∧ (q < 1)%Q
  end.

Definition dice_step (st : dice) (ev : dice_event) : dice :=
  match ev with
  | DSelect sides => selectDiceType st sides
  | DRoll => rollDice st
  | DShuffle q => diceShuffle st q
  | DSettle q => diceSettle st q
  end.

Inductive dice_reachable : dice → Prop :=
  | dice_reach_init : dice_reachable dice_init
  | dice_reach_step st ev :
      dice_reachable st → dice_enabled st ev → dice_reachable (dice_step st ev).

End Dice.

(** Concrete groups for the witnesses: a group g with Amy and Bob, and an
    empty group h. *)
Module LuckyDemo.
Definition demo_pupil (n g : string) : Student :=
  mkStudent n (CStr g) (CNum 0) (CNum 0) (CNum 0) CUndef.
Definition demo_students := [demo_pupil "Amy" "g"; demo_pupil "Bob" "g"].
End LuckyDemo.

Module LuckyFacts.
Import LuckyDraw Dice LuckyDemo.

(** [Math.floor(Math.random() * n)] is an index below [n]. *)
Lemma random_index_bound q n :
  (0 <= q)%Q → (q < 1)%Q → 0 < n → 0 ≤ random_index q n < n.
Proof.
  intros Hq0 Hq1 Hn. unfold random_index.
  assert (Hn' : (0 < inject_Z n)%Q) by (change 0%Q with (inject_Z 0); by rewrite <- Zlt_Qlt).
  split.
  - change 0 with (Qfloor 0). apply Qfloor_resp_le. apply Qmult_le_0_compat; lra.
  - assert (Hlt : (inject_Z (Qfloor (q * inject_Z n)) < inject_Z n)%Q).
    { eapply Qle_lt_trans; [apply Qfloor_le|]. nra. }
    by rewrite <- Zlt_Qlt in Hlt.
Qed.

(** The cache of [activeCandidates] is right after every handler. *)
Definition cache_ok (st : lucky) : Prop :=
  activeCandidates st = spec_candidates (abs_lucky st).

Lemma updateActiveCandidates_ok st : cache_ok (updateActiveCandidates st).
Proof. done. Qed.

(** Unfold one handler and close each case by computation. *)
Ltac lucky_handler :=
  unfold initLuckyDraw, selectLuckyGroup, toggleExclusion, resetExclusion,
    toggleLuckyDrawManual, startAutoLuckyDraw, autoTimeout, luckyTick, stopAnimation,
    startAnimation, set_buttons, resetLuckyCard, updateActiveCandidates, spec_step, abs_lucky;
  repeat case_match; simplify_eq/=; done.

Lemma lucky_step_cache st ev : cache_ok st → cache_ok (lucky_step st ev).1.
Proof. unfold cache_ok. intros Hc. destruct ev; cbn [lucky_step]; lucky_handler. Qed.

(** Each handler moves the abstraction by its abstract event. *)
Lemma lucky_step_abs st ev :
  abs_lucky (lucky_step st ev).1 =
    match abs_event st ev with Some e => spec_step (abs_lucky st) e | None => abs_lucky st end.
Proof. destruct ev; cbn [lucky_step abs_event]; lucky_handler. Qed.

(** A stray interval: interval 0 is alive but not the stored one, and
    every new id is above it. *)
Definition stray_interval (st : lucky) : Prop :=
  0%nat ∈ liveIntervals st ∧ luckyIntervalId st ≠ Some 0%nat ∧ (0 < nextIntervalId st)%nat.

Lemma stray_interval_step st ev : stray_interval st → stray_interval (lucky_step st ev).1.
Proof.
  unfold stray_interval. intros (Hin & Hid & Hnext).
  destruct ev; cbn [lucky_step];
    unfold initLuckyDraw, selectLuckyGroup, toggleExclusion, resetExclusion,
      toggleLuckyDrawManual, startAutoLuckyDraw, autoTimeout, luckyTick, stopAnimation,
      startAnimation, set_buttons, resetLuckyCard, updateActiveCandidates;
    repeat case_match; simplify_eq/=; split_and!; try done; try lia;
    try (by apply elem_of_cons; right); try congruence; try (intros [=]; lia);
    try (apply list_elem_of_filter; split; [congruence|done]).
Qed.

Lemma dice_step_bounds st ev :
  dice_enabled st ev →
  (currentDiceMax st = 6 ∨ currentDiceMax st = 20) ∧
  (∀ r, diceResult st = Some r → 1 ≤ r ≤ currentDiceMax st) →
  (currentDiceMax (dice_step st ev) = 6 ∨ currentDiceMax (dice_step st ev) = 20) ∧
  (∀ r, diceResult (dice_step st ev) = Some r → 1 ≤ r ≤ currentDiceMax (dice_step st ev)).
Proof.
  intros Hen [Hmax Hr].
  destruct ev as [sides| |q|q]; cbn [dice_enabled] in Hen; cbn [dice_step];
    unfold diceShuffle, diceSettle; cbn [currentDiceMax diceResult].
  - unfold selectDiceType. case_match; cbn; [done|]. split; [done|by intros].
  - unfold rollDice. by case_match.
  - destruct Hen as (_ & Hq0 & Hq1). split; [done|]. intros r [= <-].
    assert (0 < currentDiceMax st) as Hpos by (destruct Hmax; lia).
    pose proof (random_index_bound q _ Hq0 Hq1 Hpos). lia.
  - destruct Hen as (_ & Hq0 & Hq1). split; [done|]. intros r [= <-].
    assert (0 < currentDiceMax st) as Hpos by (destruct Hmax; lia).
    pose proof (random_index_bound q _ Hq0 Hq1 Hpos). lia.
Qed.

(** ** Theorems *)

(** C8: the lucky draw refines its abstract draw.  In every reachable
    state the cached [activeCandidates] are the members of the group
    whose name is not excluded; every handler moves the abstraction by
    its abstract event (selecting a group, toggling or clearing an
    exclusion, the latter two only while no animation runs) or leaves it
    alone; and the student a tick shows is an abstract candidate. *)
Theorem lucky_refines_spec st ev :
  lucky_reachable st →
  activeCandidates st = spec_candidates (abs_lucky st) ∧
  abs_lucky (lucky_step st ev).1 =
    match abs_event st ev with Some e => spec_step (abs_lucky st) e | None => abs_lucky st end ∧
  (∀ id q s, ev = LTick id q → currentLuckyStudent (lucky_step st ev).1 = Some s →
     s ∈ spec_candidates (abs_lucky st)).
Proof.
  intros Hr.
  assert (Hc : cache_ok st).
  { induction Hr as [|st' ev' _ IH _]; [done|]. by apply lucky_step_cache. }
  split_and!; [done|apply lucky_step_abs|].
  intros id q s -> Hs. cbn in Hs. rewrite <- Hc. by eapply list_elem_of_lookup_2.
Qed.

(** C12: switching the group during an automatic draw re-enables the
    buttons, and a second automatic draw overwrites [luckyIntervalId]:
    after both timeouts no draw is stored or pending, yet interval 0 is
    alive, and no sequence of events ever clears it, so the card keeps
    changing forever. *)
Theorem lucky_interval_leak :
  let st := (lucky_step (lucky_step (lucky_step (lucky_step (lucky_step (lucky_step lucky_init
               (LSelectGroup demo_students "g")).1 LClickAuto).1
               (LSelectGroup demo_students "g")).1 LClickAuto).1 LAutoTimeout).1 LAutoTimeout).1 in
  lucky_reachable st ∧ luckyIntervalId st = None ∧ pendingTimeouts st = 0%nat ∧
  ∀ st', lucky_steps st st' → 0%nat ∈ liveIntervals st'.
Proof.
  split_and!.
  - repeat (apply lucky_reach_step; [|vm_compute; try done; lia]). constructor.
  - done.
  - done.
  - intros st' Hsteps.
    match goal with H : lucky_steps ?s _ |- _ =>
      assert (Hs0 : stray_interval s) by (vm_compute; split_and!; [by left|done|lia]) end.
    revert Hs0. induction Hsteps as [s|s ev s' _ _ IH]; intros Hs; [by destruct Hs|].
    apply IH, stray_interval_step, Hs.
Qed.

(** C16: in every reachable state the die has 6 or 20 faces and shows
    "?" or a face between 1 and the number of faces. *)
Theorem dice_result_bounds st :
  dice_reachable st →
  (currentDiceMax st = 6 ∨ currentDiceMax st = 20) ∧
  (∀ r, diceResult st = Some r → 1 ≤ r ≤ currentDiceMax st).
Proof.
  induction 1 as [|st ev _ IH Hen]; [by split; [left|]|]. by apply dice_step_bounds.
Qed.

(** C28: stopping a draw before its first tick opens the score modal of
    the previous winner.  From any state with no animation running, the
    start button enabled, candidates to draw from and a student [w] on
    the card, a start followed by a stop (a double click, before the
    first interval callback) is enabled and opens the score modal of
    [w], whatever the candidates and the excluded names are now: [w] may
    have been excluded or left the group since it was drawn. *)
Theorem lucky_stale_winner st w :
  luckyIntervalId st = None → startDisabled st = false → activeCandidates st ≠ [] →
  currentLuckyStudent st = Some w →
  lucky_enabled st LClickStart ∧ lucky_enabled (lucky_step st LClickStart).1 LClickStart ∧
  (lucky_step (lucky_step st LClickStart).1 LClickStart).2 = Some (OpenScoreModal (s_name w)) ∧
  luckyIntervalId (lucky_step (lucky_step st LClickStart).1 LClickStart).1 = None.
Proof.
  intros Hid Hsd Hne Hw. cbn [lucky_step lucky_enabled]. unfold toggleLuckyDrawManual.
  rewrite Hid. cbn [is_Some_dec]. destruct (activeCandidates st) eqn:Hc; [done|]. cbn.
  by rewrite Hw, Hsd.
Qed.

(** ** Witnesses *)

(** C28 after Amy was drawn and then excluded. *)
Lemma lucky_stale_winner_witness :
  let st := (lucky_step (lucky_step (lucky_step (lucky_step (lucky_step lucky_init
               (LSelectGroup demo_students "g")).1 LClickStart).1 (LTick 0 0)).1 LClickStart).1
               (LToggleExclusion "Amy")).1 in
  (lucky_step (lucky_step st LClickStart).1 LClickStart).2 = Some (OpenScoreModal "Amy").
Proof.
  intros st. apply (lucky_stale_winner st (demo_pupil "Amy" "g")); vm_compute; [reflexivity|reflexivity|discriminate|reflexivity].
Defined.

Lemma lucky_refines_spec_witness :
  activeCandidates (lucky_step lucky_init (LSelectGroup demo_students "g")).1 =
  spec_candidates (abs_lucky (lucky_step lucky_init (LSelectGroup demo_students "g")).1).
Proof.
  apply (lucky_refines_spec _ LResetExclusion).
  apply lucky_reach_step; [constructor|done].
Defined.

Lemma dice_result_bounds_witness :
  currentDiceMax (dice_step (dice_step dice_init (DSelect 20)) DRoll) = 6 ∨
  currentDiceMax (dice_step (dice_step dice_init (DSelect 20)) DRoll) = 20.
Proof.
  apply (dice_result_bounds (dice_step (dice_step dice_init (DSelect 20)) DRoll)).
  apply dice_reach_step; [apply dice_reach_step; [constructor|by right]|done].
Defined.
End LuckyFacts.
