(* ===== verification/Loading.v ===== *)
(** * The loading bar (999-1026) and the pastel colours (995-997)

    While the first request runs, [startLoadingSimulation] (999-1008)
    keeps a local [p] and an interval that, every 500 ms and while
    [p < 95], adds [Math.floor(Math.random() * 5) + 1] to [p], caps it
    at 95 and draws the bar ([updateProgressBar], 1010-1012).
    [finishLoading] (1014-1026) clears the interval and draws 100%.
    [generateRandomPastelColor] picks the hue
    [Math.floor(Math.random() * 360)].

    [loading] is the local [p], whether the interval is alive and the
    width the bar shows ([None] before the first draw); [Math.random()]
    is the rational [q] in [0, 1) of a tick, as in [LuckyDraw]. *)

From S2P Require Import Prelude LuckyDraw.
From Stdlib Require Import QArith.
Local Open Scope Z_scope.

Module Loading.

Record loading := mkLoading {
  progress : Z;
  progressLive : bool;
  barWidth : option Z
}.

(** [startLoadingSimulation] (1000-1001): [p = 0], the interval set. *)
Definition startLoadingSimulation : loading := mkLoading 0 true None.

(** The interval callback (1002-1006). *)
Definition loading_tick (st : loading) (q : Q) : loading :=
  if progressLive st && (progress st <? 95) then
    let p := progress st + (random_index q 5 + 1) in
    let p := if 95 <? p then 95 else p in
    mkLoading p true (Some p)
  else st.

(** [finishLoading] (1014-1016), also reached from the [catch] branch
    of [window.onload] (83-86): the interval cleared, the bar full. *)
Definition finishLoading (st : loading) : loading := mkLoading (progress st) false (Some 100).

(** The hue of [generateRandomPastelColor] (995-997). *)
Definition pastel_hue (q : Q) : Z := random_index q 360.

(** [n] ticks with the random numbers [qs]. *)
Definition loading_run (st : loading) (qs : list Q) : loading := foldl loading_tick st qs.

End Loading.

Module LoadingFacts.
Import Loading.

(** The numbers [Math.random()] may return. *)
Definition unit_interval (q : Q) : Prop := (0 <= q)%Q ∧ (q < 1)%Q.

(** The invariant of the bar: [p] lies in [0, 95] and the bar, once
    drawn, shows [p] while the interval lives. *)
Definition loading_ok (st : loading) : Prop :=
  0 ≤ progress st ≤ 95 ∧
  (progressLive st = true → barWidth st = None ∨ barWidth st = Some (progress st)).

Lemma loading_tick_ok st q :
  unit_interval q → loading_ok st → loading_ok (loading_tick st q) ∧
    (progressLive st = true → progress st < 95 →
     progress st < progress (loading_tick st q)).
Proof.
  intros [Hq0 Hq1] [Hp Hbar]. unfold loading_tick.
  pose proof (LuckyFacts.random_index_bound q 5 Hq0 Hq1 ltac:(lia)) as Hr.
  destruct (progressLive st) eqn:Hl; cbn [andb]; [|split; [split; [exact Hp|rewrite Hl; exact Hbar]|intros [=]]].
  destruct (Z.ltb_spec (progress st) 95) as [Hlt|Hge]; cbn [negb].
  - destruct (Z.ltb_spec 95 (progress st + (random_index q 5 + 1)));
      unfold loading_ok; cbn -[random_index];
      (split; [split; [lia|intros _; by right]|intros; lia]).
  - split; [split; [exact Hp|rewrite Hl; exact Hbar]|intros; lia].
Qed.

(** Every run of ticks keeps the invariant, and a run of [n] ticks
    raises [p] to at least [min 95 (p + n)]. *)
Lemma loading_run_ok st qs :
  Forall unit_interval qs → loading_ok st → progressLive st = true →
  loading_ok (loading_run st qs) ∧ progressLive (loading_run st qs) = true ∧
  Z.min 95 (progress st + Z.of_nat (length qs)) ≤ progress (loading_run st qs).
Proof.
  intros Hqs. revert st. induction Hqs as [|q qs Hq _ IH]; intros st Hok Hl.
  { cbn. split_and!; [done|done|]. destruct Hok as [Hp _]. lia. }
  change (loading_run st (q :: qs)) with (loading_run (loading_tick st q) qs). cbn [length].
  destruct (loading_tick_ok st q Hq Hok) as [Hok' Hinc].
  assert (Hl' : progressLive (loading_tick st q) = true).
  { unfold loading_tick. rewrite Hl. cbn. by case_match. }
  destruct (IH _ Hok' Hl') as (Hok'' & Hl'' & Hmin). split_and!; [done|done|].
  destruct (Z.ltb_spec (progress st) 95) as [Hlt|Hge].
  - specialize (Hinc Hl Hlt). lia.
  - assert (progress (loading_tick st q) = progress st) as Heq.
    { unfold loading_tick. rewrite Hl. cbn. destruct (Z.ltb_spec (progress st) 95); [lia|done]. }
    destruct Hok as [Hp _]. lia.
Qed.

End LoadingFacts.
