(* ===== verification/LogView.v ===== *)
(** * The log view, the marquee and the teacher login (328-418, 493-508)

    The log tab has two selects: the groups ([initLogFilter], 328-341,
    fills them from [[...allGroups].sort()]) and the students of the
    chosen group ([updateLogStudentOptions], 348-360, sorted by
    [localeCompare]).  A change of group rebuilds the student select
    ([onLogGroupChange], 343-346), which then shows its first option,
    "all".  [filterLogs] (362-364) renders the table of [renderLogs]
    (366-398) for the two selected values: a log is shown when the group
    of the first student with its author's name (未分組 when there is
    none) and its author pass the two filters.  [renderMarquee] (400-418)
    shows the first 15 logs.  [loginTeacher] (493-508) looks the trimmed
    account and password up in [teacherList].

    [updateLogStudentOptions('all')] sorts the array [allStudents] itself
    in place: the step of the log view returns the store of [Store] it
    changes.  [log_reachable] collects the selections reachable from
    [initLogFilter]. *)

From S2P Require Import Prelude JsValue JsSort Records Ranking Titles Store.
From stdpp Require Import pretty.
Local Open Scope string_scope.
Local Open Scope Z_scope.

Module LogView.
Import Store.

(** [loginTeacher] (494-496): the first teacher whose account and
    password, as strings, are the trimmed inputs; [None] is the alert
    "帳號或密碼錯誤". *)
Definition loginTeacher (teacherList : list Teacher) (acc pwd : string) : option Teacher :=
  let acc := js_trim acc in
  let pwd := js_trim pwd in
  snd <$> list_find (λ x, js_String (t_account x) = acc ∧ js_String (t_password x) = pwd)
            teacherList.

(** The group of the author of a log (370-371): the group of the first
    student with that name, 未分組 when there is none. *)
Definition log_group (allStudents : list Student) (log : LogEntry) : string :=
  match list_find (λ s, s_name s = l_student log) allStudents with
  | Some (_, s) => group_of s
  | None => unassigned_group
  end.

(** [logsToShow] of [renderLogs] (369-373). *)
Definition logsToShow (allStudents : list Student) (allLogs : list LogEntry)
    (groupFilter studentFilter : string) : list LogEntry :=
  filter (λ log, (groupFilter = "all" ∨ log_group allStudents log = groupFilter) ∧
                 (studentFilter = "all" ∨ l_student log = studentFilter)) allLogs.

(** [${scoreNum}] for [Number(log.score)]; NaN prints as "NaN". *)
Definition number_text (n : option Z) : string :=
  match n with Some z => pretty z | None => "NaN" end.

(** [scoreNum > 0] and [scoreNum >= 0], false on NaN. *)
Definition js_gt0 (n : option Z) : bool := match n with Some z => 0 <? z | None => false end.
Definition js_ge0 (n : option Z) : bool := match n with Some z => 0 <=? z | None => false end.

(** A row of the table: time cell, author, teacher, item, the class
    [positive], the score text, and the arguments of [openEditLogModal]
    when the edit button is drawn. *)
Record log_row := mkRow {
  row_time : cell;
  row_student : string;
  row_teacher : string;
  row_item : string;
  row_positive : bool;
  row_score : string;
  row_edit : option (Z * string * option Z * string)
}.

(** The teacher column (385-386): [t['帳號'] === log.teacherAcc], a
    strict comparison of the cell with the string. *)
Definition teacher_name (teacherList : list Teacher) (log : LogEntry) : string :=
  match list_find (λ t, t_account t = CStr (l_teacher log)) teacherList with
  | Some (_, t) => js_String (t_name t)
  | None => l_teacher log
  end.

(** One row of the [forEach] of [renderLogs] (381-397). *)
Definition log_row_of (teacherList : list Teacher) (currentTeacher : option Teacher)
    (log : LogEntry) : log_row :=
  let scoreNum := js_Number (l_score log) in
  mkRow (l_time log) (l_student log) (teacher_name teacherList log) (l_item log)
    (js_gt0 scoreNum) ((if js_gt0 scoreNum then "+" else "") +:+ number_text scoreNum)
    (match currentTeacher with
     | Some _ => Some (l_row log, l_student log, scoreNum, l_item log)
     | None => None
     end).

(** The table: the message "沒有符合條件的記錄" or the rows. *)
Inductive log_table :=
  | NoMatchingLogs
  | LogRows (rows : list log_row).

(** [renderLogs(groupFilter, studentFilter)] (366-398). *)
Definition renderLogs (teacherList : list Teacher) (currentTeacher : option Teacher)
    (allStudents : list Student) (allLogs : list LogEntry) (groupFilter studentFilter : string)
    : log_table :=
  match logsToShow allStudents allLogs groupFilter studentFilter with
  | [] => NoMatchingLogs
  | l => LogRows (log_row_of teacherList currentTeacher <$> l)
  end.

(** An item of the marquee: time cell, author, the class [text-success],
    the score text, item. *)
Record marquee_item := mkItem {
  m_time : cell;
  m_student : string;
  m_success : bool;
  m_score : string;
  m_item : string
}.

(** [renderMarquee] (400-418): hidden ([None]) when there is no log. *)
Definition renderMarquee (allLogs : list LogEntry) : option (list marquee_item) :=
  match allLogs with
  | [] => None
  | _ => Some ((λ log, let scoreNum := js_Number (l_score log) in
                       mkItem (l_time log) (l_student log) (js_ge0 scoreNum)
                         ((if js_ge0 scoreNum then "+" else "") +:+ number_text scoreNum)
                         (l_item log)) <$> take 15 allLogs)
  end.

(** [updateLogStudentOptions(groupName)] (348-360): the names of the
    options after "all", and the store; for "all" the array [allStudents]
    itself is sorted, otherwise a filtered copy. *)
Definition updateLogStudentOptions (locale : string → string → Z) (st : store)
    (groupName : string) : list string * store :=
  if String.eqb groupName "all" then
    let sorted := updateLogStudentOptions_all locale (allStudents st) in
    (s_name <$> sorted, set_students st sorted)
  else
    (s_name <$> js_sort (λ a b, locale (s_name a) (s_name b))
                  (filter (λ s, group_of s = groupName) (allStudents st)), st).

(** The two selects: their option values and their selected values. *)
Record log_view := mkLogView {
  lv_groupOptions : list string;
  lv_studentOptions : list string;
  lv_group : string;
  lv_student : string
}.

(** [initLogFilter] (328-341): both selects rebuilt, both on "all". *)
Definition initLogFilter (locale : string → string → Z) (allGroups : list string) (st : store)
    : log_view * store :=
  let '(names, st') := updateLogStudentOptions locale st "all" in
  (mkLogView ("all" :: js_sort group_name_cmp allGroups) ("all" :: names) "all" "all", st').

(** The events of the log tab: [initLogFilter], a choice in the group
    select ([onLogGroupChange]), a choice in the student select. *)
Inductive log_event :=
  | LVInit
  | LVGroupChange (g : string)
  | LVStudentChange (n : string).

(** A select delivers one of its options. *)
Definition log_enabled (lv : log_view) (ev : log_event) : Prop :=
  match ev with
  | LVInit => True
  | LVGroupChange g => g ∈ lv_groupOptions lv
  | LVStudentChange n => n ∈ lv_studentOptions lv
  end.

#[export] Instance log_enabled_dec lv ev : Decision (log_enabled lv ev).
Proof. destruct ev; cbn; apply _. Defined.

Definition log_step (locale : string → string → Z) (allGroups : list string) (lv : log_view)
    (st : store) (ev : log_event) : log_view * store :=
  match ev with
  | LVInit => initLogFilter locale allGroups st
  | LVGroupChange g =>
      let '(names, st') := updateLogStudentOptions locale st g in
      (mkLogView (lv_groupOptions lv) ("all" :: names) g "all", st')
  | LVStudentChange n => (mkLogView (lv_groupOptions lv) (lv_studentOptions lv) (lv_group lv) n, st)
  end.

(** [filterLogs] (362-364): the table for the selected values. *)
Definition filterLogs (teacherList : list Teacher) (currentTeacher : option Teacher)
    (lv : log_view) (st : store) : log_table :=
  renderLogs teacherList currentTeacher (allStudents st) (allLogs st) (lv_group lv) (lv_student lv).

(** The selections and stores reachable from [initLogFilter] on [st0]. *)
Inductive log_reachable (locale : string → string → Z) (allGroups : list string) (st0 : store)
    : log_view → store → Prop :=
  | log_reach_init : log_reachable locale allGroups st0 (initLogFilter locale allGroups st0).1
                                   (initLogFilter locale allGroups st0).2
  | log_reach_step lv st ev :
      log_reachable locale allGroups st0 lv st → log_enabled lv ev →
      log_reachable locale allGroups st0 (log_step locale allGroups lv st ev).1
                    (log_step locale allGroups lv st ev).2.

(** The fields of the edit modal: 行 (editLogRowIndex), 姓名, 分數, 項目. *)
Record edit_form := mkEditForm {
  editLogRowIndex : string;
  editLogName : string;
  editLogScore : string;
  editLogItem : string
}.

(** [openEditLogModal(rowIndex, name, score, item)] (632-638): each
    field's [value] is the string of its argument; a NaN score is the
    text "NaN". *)
Definition openEditLogModal (rowIndex : Z) (name : string) (score : option Z) (item : string)
    : edit_form :=
  mkEditForm (pretty rowIndex) name (number_text score) item.

(** What [doEditLog] does: the alert "請填寫完整", or the payload of
    [editLogRecord]. *)
Inductive edit_outcome :=
  | EditAlert
  | EditPayload (rowIndex newName newScore newItem : string).

(** [doEditLog] (640-649): the three text fields must not be empty. *)
Definition doEditLog (f : edit_form) : edit_outcome :=
  if String.eqb (editLogName f) "" || String.eqb (editLogScore f) "" || String.eqb (editLogItem f) ""
  then EditAlert
  else EditPayload (editLogRowIndex f) (editLogName f) (editLogScore f) (editLogItem f).

(** The edit button of a row (391-393) opens the modal on its arguments;
    the handler text quotes the author and the item, which the model
    takes to hold no quote or backslash. *)
Definition edit_row (row : log_row) : option edit_form :=
  (λ '(r, n, sc, it), openEditLogModal r n sc it) <$> row_edit row.

End LogView.

(** Two groups: Amy in g1, Bob in g2, with three logs. *)
Module LogViewDemo.
Import Store.
Definition demo_member (n g : string) : Student :=
  mkStudent n (CStr g) (CNum 0) (CNum 0) (CNum 0) CUndef.
Definition demo_log (n : string) (z : Z) (row : Z) : LogEntry :=
  mkLog n (CNum z) "作業" CUndef "t1" row.
Definition demo_store : store :=
  onload (mkData (Some [demo_member "Bob" "g2"; demo_member "Amy" "g1"])
            (Some [demo_log "Amy" 3 2; demo_log "Bob" 2 3; demo_log "Amy" (-1) 4]) None None).
Definition demo_groups : list string := ["g2"; "g1"].
End LogViewDemo.

Module LogViewFacts.
Import Store LogView.

(** The option [n] of the student select is "all" or the name of a
    student of the selected group [g]. *)
Definition option_ok (students : list Student) (g n : string) : Prop :=
  n = "all" ∨ ∃ s, s ∈ students ∧ s_name s = n ∧ (g = "all" ∨ group_of s = g).

(** What the log view keeps of the store it started from, and its
    selects. *)
Definition log_inv (st0 : store) (lv : log_view) (st : store) : Prop :=
  allStudents st ≡ₚ allStudents st0 ∧ allLogs st = allLogs st0 ∧
  Forall (option_ok (allStudents st) (lv_group lv)) (lv_studentOptions lv) ∧
  option_ok (allStudents st) (lv_group lv) (lv_student lv).

Lemma option_ok_perm students students' g n :
  students ≡ₚ students' → option_ok students g n → option_ok students' g n.
Proof. intros Hp [->|(s & Hs & ?)]; [by left|right]. exists s. by rewrite <- Hp. Qed.

(** The options [updateLogStudentOptions] builds are names of the group,
    and it only permutes [allStudents]. *)
Lemma updateLogStudentOptions_ok locale st g :
  let r := updateLogStudentOptions locale st g in
  allStudents r.2 ≡ₚ allStudents st ∧ allLogs r.2 = allLogs st ∧
  Forall (option_ok (allStudents r.2) g) ("all" :: r.1).
Proof.
  unfold updateLogStudentOptions. destruct (String.eqb_spec g "all") as [->|Hg]; cbn.
  - split_and!; [apply js_sort_perm|done|]. constructor; [by left|].
    apply Forall_forall. intros n (s & -> & Hs)%list_elem_of_fmap. right.
    exists s. naive_solver.
  - split_and!; [done|done|]. constructor; [by left|].
    apply Forall_forall. intros n (s & -> & Hs)%list_elem_of_fmap. right.
    rewrite elem_of_js_sort, list_elem_of_filter in Hs. exists s. naive_solver.
Qed.

Lemma log_step_inv locale allGroups st0 lv st ev :
  log_inv st0 lv st → log_enabled lv ev →
  log_inv st0 (log_step locale allGroups lv st ev).1 (log_step locale allGroups lv st ev).2.
Proof.
  intros (Hp & Hl & Hopts & Hsel) Hen. destruct ev as [|g|n]; cbn [log_step].
  - unfold initLogFilter.
    pose proof (updateLogStudentOptions_ok locale st "all") as (Hp' & Hl' & Hf).
    destruct (updateLogStudentOptions _ _ _) as [names st']. cbn in *.
    split_and!; [by rewrite Hp'|congruence|done|by left].
  - pose proof (updateLogStudentOptions_ok locale st g) as (Hp' & Hl' & Hf).
    destruct (updateLogStudentOptions _ _ _) as [names st']. cbn in *.
    split_and!; [by rewrite Hp'|congruence|done|by left].
  - split_and!; [done|done|done|]. cbn in *. by eapply Forall_forall.
Qed.

Lemma log_reachable_inv locale allGroups st0 lv st :
  log_reachable locale allGroups st0 lv st → log_inv st0 lv st.
Proof.
  induction 1 as [|lv st ev _ IH Hen]; [|by apply log_step_inv].
  apply (log_step_inv locale allGroups st0 (mkLogView [] ["all"] "all" "all") st0 LVInit).
  - split_and!; [done|done|by repeat constructor; left|by left].
  - done.
Qed.

(** With distinct names the group of a log is the group of its author,
    whatever the order of [allStudents]. *)
Lemma log_group_author students log s :
  NoDup (s_name <$> students) → s ∈ students → s_name s = l_student log →
  log_group students log = group_of s.
Proof.
  intros Hnd Hs Hn. unfold log_group.
  pose proof (list_find_key_unique s_name students (l_student log) s Hnd Hs Hn) as Hf.
  destruct (list_find _ _) as [[i s']|]; by simplify_eq/=.
Qed.

(** The group filter with no student selected: with distinct names a
    log is shown when its author is a student of the group, or when the
    group is 未分組 and no student has the author's name. *)
Lemma logsToShow_group students logs g log :
  NoDup (s_name <$> students) →
  log ∈ logsToShow students logs g "all" ↔
    log ∈ logs ∧ (g = "all" ∨ (∃ s, s ∈ students ∧ s_name s = l_student log ∧ group_of s = g) ∨
                  (g = unassigned_group ∧ ∀ s, s ∈ students → s_name s ≠ l_student log)).
Proof.
  intros Hnd. unfold logsToShow. rewrite list_elem_of_filter.
  destruct (list_find (λ s, s_name s = l_student log) students) as [[i s]|] eqn:Hf.
  - apply list_find_Some in Hf as (Hs%list_elem_of_lookup_2 & Hn & _).
    rewrite (log_group_author _ _ s) by done.
    split; [intros [[Hg _] Hl]; split; [done|]; destruct Hg; naive_solver|].
    intros [Hl [Hg|[(s' & Hs' & Hn' & Hg)|[_ Hno]]]]; split_and!; auto.
    + right. rewrite <- Hg. f_equal. apply (NoDup_fmap_inj_in s_name students); congruence.
    + by destruct (Hno s).
  - assert (log_group students log = unassigned_group) as Hg' by (unfold log_group; by rewrite Hf).
    apply list_find_None in Hf. rewrite Forall_forall in Hf. rewrite Hg'.
    split; [intros [[[Hg|Hg] _] Hl]; naive_solver|].
    intros [Hl [Hg|[(s & Hs & Hn & _)|[Hg _]]]]; split_and!; auto.
    by destruct (Hf s).
Qed.

(** [loginTeacher] sets a teacher of the list whose account and password
    are the trimmed inputs, and alerts exactly when there is none. *)
Lemma loginTeacher_spec teacherList acc pwd :
  (∀ t, loginTeacher teacherList acc pwd = Some t →
        t ∈ teacherList ∧ js_String (t_account t) = js_trim acc ∧
        js_String (t_password t) = js_trim pwd) ∧
  (loginTeacher teacherList acc pwd = None ↔
     ∀ t, t ∈ teacherList →
          ¬ (js_String (t_account t) = js_trim acc ∧ js_String (t_password t) = js_trim pwd)).
Proof.
  unfold loginTeacher. split.
  - intros t Ht. destruct (list_find _ _) as [[i t']|] eqn:Hf; simplify_eq/=.
    apply list_find_Some in Hf as (Ht & Hm & _). split; [by eapply list_elem_of_lookup_2|done].
  - destruct (list_find _ _) as [[i t]|] eqn:Hf; cbn.
    + apply list_find_Some in Hf as (Ht & Hm & _).
      split; [done|]. intros Hno. by destruct (Hno t); [eapply list_elem_of_lookup_2|].
    + apply list_find_None in Hf. rewrite Forall_forall in Hf. naive_solver.
Qed.

(** Saving a log from the edit button without touching the fields sends
    back the row, the author and the item, and a score text that
    [Number] reads back as the log's score; a score that is not a number
    goes out as the text "NaN".  The alert fires only for an empty
    author or item. *)
Lemma edit_unchanged_roundtrip teacherList t log :
  edit_row (log_row_of teacherList (Some t) log) =
    Some (openEditLogModal (l_row log) (l_student log) (js_Number (l_score log)) (l_item log)) ∧
  doEditLog (openEditLogModal (l_row log) (l_student log) (js_Number (l_score log)) (l_item log)) =
    (if String.eqb (l_student log) "" || String.eqb (l_item log) "" then EditAlert
     else EditPayload (pretty (l_row log)) (l_student log) (number_text (js_Number (l_score log)))
            (l_item log)) ∧
  js_Number (CStr (number_text (js_Number (l_score log)))) = js_Number (l_score log).
Proof.
  split; [done|]. split.
  - unfold doEditLog, openEditLogModal. cbn [editLogName editLogScore editLogItem editLogRowIndex].
    assert (String.eqb (number_text (js_Number (l_score log))) "" = false) as ->.
    { apply String.eqb_neq. destruct (js_Number _) as [z|]; [|done]. cbn [number_text].
      intros Hz. pose proof (Number_String_roundtrip z) as Hr. cbn [js_String] in Hr.
      rewrite Hz in Hr. injection Hr as <-. vm_compute in Hz. discriminate Hz. }
    by rewrite orb_false_r.
  - destruct (js_Number (l_score log)) as [z|]; [apply (Number_String_roundtrip z)|done].
Qed.

(** ** Theorems *)

(** C35: in the log tab, whatever groups and students were chosen since
    [initLogFilter], once a student is selected the table shows exactly
    that student's logs, in the order of [allLogs], when the names of the
    students are distinct: the group filter never hides one of them,
    although the group of a log is looked up by name in an array the
    view sorts in place. *)
Theorem log_filter_student_logs locale allGroups st0 lv st :
  log_reachable locale allGroups st0 lv st → NoDup (s_name <$> allStudents st0) →
  lv_student lv ≠ "all" →
  logsToShow (allStudents st) (allLogs st) (lv_group lv) (lv_student lv) =
    filter (λ log, l_student log = lv_student lv) (allLogs st0).
Proof.
  intros Hr Hnd Hall. destruct (log_reachable_inv _ _ _ _ _ Hr) as (Hp & -> & _ & Hsel).
  destruct Hsel as [|(s & Hs & Hn & Hg)]; [done|].
  assert (Hnd' : NoDup (s_name <$> allStudents st)) by (by rewrite Hp).
  unfold logsToShow. apply Prelude.filter_ext_in. intros log _.
  split; [naive_solver|]. intros Hl. split; [|by right].
  destruct Hg as [->|Hg]; [by left|right].
  rewrite (log_group_author _ _ s); congruence.
Qed.

(** A teacher whose account cell holds the number 7 logs in with "7"
    (the login compares [String(x['帳號'])]), but the log column compares
    the cell itself with [log.teacherAcc] and shows "7" instead of the
    teacher's name. *)
Lemma numeric_account_name_lost :
  let t := mkTeacher (CNum 7) (CStr "pw") (CStr "Lin") in
  loginTeacher [t] " 7 " "pw" = Some t ∧
  teacher_name [t] (mkLog "Amy" (CNum 1) "作業" CUndef "7" 2) = "7".
Proof. split; reflexivity. Qed.

(** ** Witnesses *)

Import StoreDemo LogViewDemo.

Lemma log_filter_student_logs_witness :
  let r1 := initLogFilter demo_locale demo_groups demo_store in
  let r2 := log_step demo_locale demo_groups r1.1 r1.2 (LVGroupChange "g1") in
  let r3 := log_step demo_locale demo_groups r2.1 r2.2 (LVStudentChange "Amy") in
  logsToShow (allStudents r3.2) (allLogs r3.2) (lv_group r3.1) (lv_student r3.1) =
    filter (λ log, l_student log = lv_student r3.1) (allLogs demo_store).
Proof.
  intros r1 r2 r3. apply (log_filter_student_logs demo_locale demo_groups).
  - apply log_reach_step; [apply log_reach_step; [apply log_reach_init|]|];
      apply (bool_decide_unpack _); vm_compute; reflexivity.
  - apply (bool_decide_unpack _). vm_compute. reflexivity.
  - vm_compute. discriminate.
Defined.

End LogViewFacts.
