(* ===== verification/Bible.v ===== *)
(** * The verse of the week: [renderBibleVerses] (840-871)

    The verses of the sheet ([allVerses], 34) have a start date, an end
    date, a text, a reference and a highlight column.  The page sorts a
    copy by descending start date ([new Date(b) - new Date(a)]), then
    walks it: a verse with an invalid date is skipped ([continue]); the
    first verse whose day range contains today, or whose highlight cell
    is not blank, becomes [currentVerse]; every other verse is pushed to
    [otherVerses], shown below it.

    [new Date(x)] and the local-time [setHours] depend on the engine and
    the time zone: they are the parameters [parse_date] (the time value,
    [None] for an invalid date), [start_of_day] and [end_of_day] of the
    section, and [today] is [new Date()] after [setHours(0, 0, 0, 0)]. *)

From S2P Require Import Prelude JsValue JsSort.
Local Open Scope string_scope.
Local Open Scope Z_scope.

(** A row of [allVerses]: 開始日期 (start), 結束日期 (end), 經文 (text),
    出處 (reference), 高亮提示本週金句 (highlight as the verse of the
    week). *)
Record Verse := mkVerse {
  v_start : cell;
  v_end : cell;
  v_text : cell;
  v_ref : cell;
  v_highlight : cell
}.

#[export] Instance Verse_eq_dec : EqDecision Verse.
Proof. solve_decision. Defined.

Module Bible.

Section Dates.
(** [new Date(x)]: its time value, [None] for an invalid date. *)
Context (parse_date : cell → option Z).
(** [d.setHours(0, 0, 0, 0)] and [d.setHours(23, 59, 59, 999)]. *)
Context (start_of_day end_of_day : Z → Z).
(** [now] after [now.setHours(0, 0, 0, 0)] (845-846). *)
Context (today : Z).

(** [String(v["高亮提示本週金句"] || "").trim() !== ""] (855). *)
Definition highlighted (v : Verse) : bool :=
  let c := v_highlight v in
  negb (String.eqb (js_trim (if js_truthy c then js_String c else "")) "").

(** [(a, b) => new Date(b["開始日期"]) - new Date(a["開始日期"])] (848). *)
Definition verse_cmp (a b : Verse) : Z :=
  js_sub_cmp (parse_date (v_start b)) (parse_date (v_start a)).

(** The test of 855 for a verse whose dates [s] and [e] are valid: today
    lies in its days, or it is highlighted. *)
Definition verse_current (v : Verse) (s e : Z) : bool :=
  ((start_of_day s <=? today) && (today <=? end_of_day e)) || highlighted v.

(** The [for] loop (849-857). *)
Fixpoint bible_walk (vs : list Verse) (currentVerse : option Verse) (otherVerses : list Verse)
    : option Verse * list Verse :=
  match vs with
  | [] => (currentVerse, otherVerses)
  | v :: vs' =>
      match parse_date (v_start v), parse_date (v_end v) with
      | Some s, Some e =>
          let free := match currentVerse with Some _ => false | None => true end in
          if free && verse_current v s e then bible_walk vs' (Some v) otherVerses
          else bible_walk vs' currentVerse (otherVerses ++ [v])
      | _, _ => bible_walk vs' currentVerse otherVerses
      end
  end.

(** [renderBibleVerses] (840-871): the verse of the main card, [None]
    for "本週暫無指定金句", and the verses of the list, [[]] for
    "暫無歷史金句". *)
Definition renderBibleVerses (allVerses : list Verse) : option Verse * list Verse :=
  bible_walk (js_sort verse_cmp allVerses) None [].

(** Both dates of the verse are valid. *)
Definition verse_valid (v : Verse) : bool :=
  bool_decide (is_Some (parse_date (v_start v))) && bool_decide (is_Some (parse_date (v_end v))).

(** A verse with valid dates that passes the test of 855. *)
Definition verse_eligible (v : Verse) : bool :=
  match parse_date (v_start v), parse_date (v_end v) with
  | Some s, Some e => verse_current v s e
  | _, _ => false
  end.

End Dates.
End Bible.

(** Two verses of 2025 dated by day numbers, the older one highlighted,
    and a verse whose start date does not parse. *)
Module BibleDemo.
Definition day : Z := 86400000.
(** Dates as time values; a text is an invalid date. *)
Definition demo_parse (c : cell) : option Z :=
  match c with CNum z => Some z | _ => None end.
Definition demo_start (t : Z) : Z := t - t mod day.
Definition demo_end (t : Z) : Z := t - t mod day + day - 1.
Definition demo_verse (s e : Z) (hl : cell) : Verse :=
  mkVerse (CNum (s * day)) (CNum (e * day)) (CStr "text") (CStr "ref") hl.
Definition demo_verses : list Verse :=
  [demo_verse 10 16 (CStr "★"); demo_verse 17 23 CUndef;
   mkVerse (CStr "soon") (CNum 0) (CStr "text") (CStr "ref") CUndef].
End BibleDemo.

Module BibleFacts.
Import Bible.
Local Open Scope list_scope.

Section Facts.
Context (parse_date : cell → option Z) (start_of_day end_of_day : Z → Z) (today : Z).

Abbreviation valid := (λ v, verse_valid parse_date v = true).
Abbreviation eligible := (λ v, verse_eligible parse_date start_of_day end_of_day today v = true).
Abbreviation walk := (bible_walk parse_date start_of_day end_of_day today).

Lemma verse_valid_cases v :
  verse_valid parse_date v =
    match parse_date (v_start v), parse_date (v_end v) with Some _, Some _ => true | _, _ => false end.
Proof. unfold verse_valid. by destruct (parse_date (v_start v)), (parse_date (v_end v)). Qed.

Lemma verse_eligible_cases v :
  verse_eligible parse_date start_of_day end_of_day today v =
    match parse_date (v_start v), parse_date (v_end v) with
    | Some s, Some e => verse_current start_of_day end_of_day today v s e
    | _, _ => false
    end.
Proof. done. Qed.

(** Once a verse is chosen, the walk lists every other valid verse. *)
Lemma bible_walk_taken vs c others :
  walk vs (Some c) others = (Some c, others ++ filter valid vs).
Proof.
  revert others. induction vs as [|v vs IH]; intros others; cbn [bible_walk].
  { by rewrite filter_nil, app_nil_r. }
  rewrite filter_cons. pose proof (verse_valid_cases v) as Hv.
  destruct (parse_date (v_start v)), (parse_date (v_end v)); cbn -[filter];
    case_decide; rewrite IH; try congruence. by rewrite <- app_assoc.
Qed.

(** The walk from no verse: the first eligible verse of the valid ones
    is the main card, the other valid verses are listed in order. *)
Lemma bible_walk_free vs others :
  walk vs None others =
    match list_find eligible (filter valid vs) with
    | Some (i, v) => (Some v, others ++ delete i (filter valid vs))
    | None => (None, others ++ filter valid vs)
    end.
Proof.
  revert others. induction vs as [|v vs IH]; intros others; cbn [bible_walk].
  { by rewrite filter_nil, app_nil_r. }
  rewrite filter_cons. pose proof (verse_valid_cases v) as Hv.
  pose proof (verse_eligible_cases v) as He.
  destruct (parse_date (v_start v)) as [s|], (parse_date (v_end v)) as [e|];
    cbn -[filter list_find]; case_decide; try congruence; try apply IH.
  cbn [list_find]. rewrite He.
  destruct (verse_current _ _ _ v s e) eqn:Hc; cbn -[filter list_find].
  - by rewrite bible_walk_taken.
  - rewrite IH. destruct (list_find _ _) as [[i w]|]; cbn; by rewrite <- app_assoc.
Qed.

(** The page in terms of the sorted verses. *)
Lemma renderBibleVerses_find allVerses :
  let sorted := filter valid (js_sort (verse_cmp parse_date) allVerses) in
  renderBibleVerses parse_date start_of_day end_of_day today allVerses =
    match list_find eligible sorted with
    | Some (i, v) => (Some v, delete i sorted)
    | None => (None, sorted)
    end.
Proof. cbn. unfold renderBibleVerses. by rewrite bible_walk_free. Qed.

(** The start date a verse is sorted by. *)
Definition start_of (v : Verse) : Z := default 0 (parse_date (v_start v)).

Lemma eligible_valid v :
  verse_eligible parse_date start_of_day end_of_day today v = true → verse_valid parse_date v = true.
Proof. rewrite verse_eligible_cases, verse_valid_cases. by repeat case_match. Qed.

(** With valid start dates the comparator is [desc_by start_of]: the
    sorted copy is in descending start order. *)
Lemma verses_sorted allVerses :
  Forall (λ v, is_Some (parse_date (v_start v))) allVerses →
  StronglySorted (λ a b, start_of b ≤ start_of a)
    (filter valid (js_sort (verse_cmp parse_date) allVerses)).
Proof.
  intros Hall. apply StronglySorted_filter.
  rewrite (js_sort_ext _ (desc_by start_of)).
  - eapply StronglySorted_weaken; [|apply (js_sort_sorted (desc_by start_of))].
    unfold desc_by. intros a b; lia.
  - intros x y Hx Hy. rewrite Forall_forall in Hall.
    destruct (Hall x Hx) as [sx Hsx], (Hall y Hy) as [sy Hsy].
    unfold verse_cmp, desc_by, start_of. by rewrite Hsx, Hsy.
Qed.

Lemma verses_filter_perm allVerses :
  filter valid (js_sort (verse_cmp parse_date) allVerses) ≡ₚ filter valid allVerses.
Proof. apply filter_Permutation, js_sort_perm. Qed.

(** ** Theorems *)

(** C11: the verse of the week.  The main card and the list hold every
    verse whose two dates parse, once, and nothing else: a verse with an
    invalid date is dropped from the page.  When the start dates parse,
    the main card is the newest verse (by start date) whose days contain
    today or that is highlighted, there is none exactly when no verse is
    so, and the list is in descending start order. *)
Theorem bible_current_newest allVerses :
  let r := renderBibleVerses parse_date start_of_day end_of_day today allVerses in
  from_option (λ v, [v]) [] r.1 ++ r.2 ≡ₚ filter valid allVerses ∧
  (Forall (λ v, is_Some (parse_date (v_start v))) allVerses →
   (∀ v, r.1 = Some v → eligible v ∧ ∀ w, w ∈ allVerses → eligible w → start_of w ≤ start_of v) ∧
   (r.1 = None ↔ ∀ w, w ∈ allVerses → ¬ eligible w) ∧
   StronglySorted (λ a b, start_of b ≤ start_of a) r.2).
Proof.
  cbn zeta. rewrite renderBibleVerses_find.
  pose proof (verses_filter_perm allVerses) as Hperm.
  set (F := filter valid (js_sort (verse_cmp parse_date) allVerses)) in *.
  assert (HF : ∀ w, w ∈ allVerses → eligible w → w ∈ F).
  { intros w Hw He. rewrite Hperm. apply list_elem_of_filter. split; [|done].
    by apply eligible_valid. }
  destruct (list_find eligible F) as [[i v]|] eqn:Hf; cbn.
  - apply list_find_Some in Hf as (Hv & He & Hfirst).
    split; [rewrite <- Hperm; symmetry; by apply delete_Permutation|].
    intros Hall. pose proof (verses_sorted allVerses Hall) as Hs. split_and!.
    + intros ? [= <-]. split; [done|]. intros w Hw Hew.
      destruct (proj1 (list_elem_of_lookup _ _) (HF w Hw Hew)) as [j Hj].
      destruct (lt_eq_lt_dec j i) as [[Hji|Hji]|Hij].
      * by destruct (Hfirst j w Hj Hji).
      * subst j. simplify_eq. lia.
      * exact (StronglySorted_lookup _ F i j v w Hs Hv Hj Hij).
    + split; [done|]. intros Hno. destruct (Hno v); [|done].
      assert (Hin : v ∈ filter valid allVerses)
        by (rewrite <- Hperm; by eapply list_elem_of_lookup_2).
      apply list_elem_of_filter in Hin. apply Hin.
    + eapply StronglySorted_sublist; [apply sublist_delete|exact Hs].
  - apply list_find_None in Hf. rewrite Forall_forall in Hf.
    split; [done|]. intros Hall. split_and!.
    + done.
    + split; [|done]. intros _ w Hw Hew. by apply (Hf w (HF w Hw Hew)).
    + by apply verses_sorted.
Qed.

End Facts.

Import BibleDemo.

(** An older verse flagged as the verse of the week does not replace a
    newer verse whose days contain today, and a verse whose start date
    does not parse is on neither the card nor the list. *)
Lemma bible_highlight_loses :
  renderBibleVerses demo_parse demo_start demo_end (18 * day) demo_verses =
    (Some (demo_verse 17 23 CUndef), [demo_verse 10 16 (CStr "★")]).
Proof. vm_compute. reflexivity. Qed.

(** ** Witnesses *)

Lemma bible_current_newest_witness :
  let vs := [demo_verse 10 16 (CStr "★"); demo_verse 17 23 CUndef] in
  (renderBibleVerses demo_parse demo_start demo_end (18 * day) vs).1 = None ↔
    ∀ w, w ∈ vs → ¬ verse_eligible demo_parse demo_start demo_end (18 * day) w = true.
Proof.
  intros vs. refine (proj1 (proj2 (proj2 (bible_current_newest demo_parse demo_start demo_end
    (18 * day) vs) _))).
  apply (bool_decide_unpack _). vm_compute. reflexivity.
Defined.
End BibleFacts.
