(* ===== verification/Page.v ===== *)
(** * The page: tabs, teacher session and the log table (55-108, 493-543)

    The components meet in the handlers of the page.  [window.onload]
    (55-88) loads the store and calls [renderPage] (90-108), which
    renders every tab and calls [initLogFilter]: the two selects of the
    log tab are rebuilt on "all", but the table below them is only
    drawn by [filterLogs], which [switchCategory('log')] (517-543), a
    change of a select, and [loginTeacher] on the log tab (493-508)
    call.  [logoutTeacher] (510-515) and the replies of [doEditLog]
    (650-660) and [sendScoreRecord] (474-484) call [renderPage] only.

    [page] holds the store of [Store], the teacher of the session, the
    active tab, the selects of [LogView] and the rows the table shows.
    [teacherList], [allGroups] and [localeCompare] are fixed by the load
    and are the parameters of the section. *)

From S2P Require Import Prelude JsValue JsSort Records Ranking Titles Store LogView.
Local Open Scope string_scope.
Local Open Scope Z_scope.

Module Page.
Import Store LogView.

(** The globals of the page that the log tab reads. *)
Record page := mkPage {
  pg_store : store;
  pg_teacher : option Teacher;
  pg_tab : string;
  pg_view : log_view;
  pg_table : log_table
}.

(** The tabs of [switchCategory] (522). *)
Definition tabs : list string :=
  ["student"; "group"; "gift"; "title"; "log"; "luckydraw"; "dice"; "bible"].

(** The events of the page. *)
Inductive page_event :=
  | PSwitch (tab : string)
  | PLogin (acc pwd : string)
  | PLogout
  | PLogSelect (ev : log_event)
  | PEditReply (d : api_data)
  | PScoreReply (d : api_data)
  | PToggleSort
  | PFilter (g : string).

Section Page.
Context (locale : string → string → Z) (teacherList : list Teacher) (allGroups : list string).

(** [filterLogs] on the page. *)
Definition page_table (p : page) : log_table :=
  filterLogs teacherList (pg_teacher p) (pg_view p) (pg_store p).

Definition set_table (p : page) (t : log_table) : page :=
  mkPage (pg_store p) (pg_teacher p) (pg_tab p) (pg_view p) t.

(** [renderPage] (90-108) on the store [st]: the store after the in-place
    sorts, and the selects [initLogFilter] rebuilds from the same sort of
    [allStudents]; the table is left as it is. *)
Definition page_render (p : page) (teacher : option Teacher) (st : store) : page :=
  mkPage (renderPage locale st).2 teacher (pg_tab p) (initLogFilter locale allGroups st).1
    (pg_table p).

(** [window.onload] (63-77) on the data [d0], with the student tab shown
    and the table body empty. *)
Definition page_load (d0 : api_data) : page :=
  page_render (mkPage (onload d0) None "student" (mkLogView [] [] "all" "all") (LogRows []))
    None (onload d0).

(** [switchCategory(type)] (517-543): the table is drawn for "log". *)
Definition switchCategory (p : page) (tab : string) : page :=
  let p1 := mkPage (pg_store p) (pg_teacher p) tab (pg_view p) (pg_table p) in
  if String.eqb tab "log" then set_table p1 (page_table p1) else p1.

(** [loginTeacher] (493-508). *)
Definition page_login (p : page) (acc pwd : string) : page :=
  match loginTeacher teacherList acc pwd with
  | Some t =>
      let p1 := page_render p (Some t) (pg_store p) in
      if String.eqb (pg_tab p1) "log" then set_table p1 (page_table p1) else p1
  | None => p
  end.

(** One event. *)
Definition page_step (p : page) (ev : page_event) : page :=
  match ev with
  | PSwitch tab => switchCategory p tab
  | PLogin acc pwd => page_login p acc pwd
  | PLogout => page_render p None (logoutTeacher (pg_store p))
  | PLogSelect e =>
      let '(lv, st) := log_step locale allGroups (pg_view p) (pg_store p) e in
      let p1 := mkPage st (pg_teacher p) (pg_tab p) lv (pg_table p) in
      set_table p1 (page_table p1)
  | PEditReply d => page_render p (pg_teacher p) (apply_edit (pg_store p) d)
  | PScoreReply d => page_render p (pg_teacher p) (apply_refresh (pg_store p) d)
  | PToggleSort => mkPage (toggleSort (pg_store p)) (pg_teacher p) (pg_tab p) (pg_view p) (pg_table p)
  | PFilter g =>
      mkPage (filterStudents (pg_store p) g) (pg_teacher p) (pg_tab p) (pg_view p) (pg_table p)
  end.

(** What the page offers: a tab of the menu, the selects on the log tab
    only, the sort button on the student and group tabs, the filter
    buttons on the student tab. *)
Definition page_enabled (p : page) (ev : page_event) : Prop :=
  match ev with
  | PSwitch tab => tab ∈ tabs
  | PLogSelect e => pg_tab p = "log" ∧ log_enabled (pg_view p) e ∧ e ≠ LVInit
  | PToggleSort => pg_tab p = "student" ∨ pg_tab p = "group"
  | PFilter g => pg_tab p = "student" ∧ (g = "all" ∨ g ∈ allGroups)
  | _ => True
  end.

(** The pages reachable from the load of [d0]. *)
Inductive page_reachable (d0 : api_data) : page → Prop :=
  | page_reach_load : page_reachable d0 (page_load d0)
  | page_reach_step p ev :
      page_reachable d0 p → page_enabled p ev → page_reachable d0 (page_step p ev).

(** On the log tab, the table shows [filterLogs] of the current state. *)
Definition table_fresh (p : page) : Prop :=
  pg_tab p = "log" → pg_table p = page_table p.

End Page.
End Page.

(** A teacher, two students in two groups and two logs; the edit reply
    changes Amy's 3 points into 5. *)
Module PageDemo.
Import Store LogView LogViewDemo.
Definition demo_teachers : list Teacher := [mkTeacher (CStr "t1") (CStr "pw") (CStr "Lin")].
Definition demo_data : api_data :=
  mkData (Some [demo_member "Bob" "g2"; demo_member "Amy" "g1"])
    (Some [demo_log "Amy" 3 2; demo_log "Bob" 2 3]) None None.
Definition demo_edit : api_data :=
  mkData (Some [demo_member "Bob" "g2"; demo_member "Amy" "g1"])
    (Some [demo_log "Amy" 5 2; demo_log "Bob" 2 3]) None None.
(** The score texts of a table, and whether every row has an edit
    button. *)
Definition table_scores (t : log_table) : list string :=
  match t with LogRows rs => row_score <$> rs | NoMatchingLogs => [] end.
Definition table_editable (t : log_table) : bool :=
  match t with LogRows rs => forallb (λ r, bool_decide (is_Some (row_edit r))) rs | NoMatchingLogs => false end.
End PageDemo.

Module PageFacts.
Import Store LogView Page.

Section Facts.
Context (locale : string → string → Z) (teacherList : list Teacher) (allGroups : list string).

(** A page whose table was just drawn is fresh. *)
Lemma set_table_fresh p : table_fresh teacherList (set_table p (page_table teacherList p)).
Proof. done. Qed.

(** A page off the log tab is fresh. *)
Lemma off_log_fresh p : pg_tab p ≠ "log" → table_fresh teacherList p.
Proof. intros Htab Hlog. by destruct Htab. Qed.

(** ** Theorems *)

(** C30: the log table stays in step with its selects: on a page where
    it shows [filterLogs], every event the page offers other than a
    logout and the replies of [doEditLog] and [sendScoreRecord] leaves
    it showing [filterLogs] of the new state whenever the log tab is
    active. *)
Theorem page_fresh_step p ev :
  table_fresh teacherList p → page_enabled allGroups p ev →
  ev ≠ PLogout → (∀ d, ev ≠ PEditReply d) → (∀ d, ev ≠ PScoreReply d) →
  table_fresh teacherList (page_step locale teacherList allGroups p ev).
Proof.
  intros Hf Hen Hlo Hed Hsc. destruct ev as [tab|acc pwd| |e|d|d| |g]; cbn [page_step].
  - unfold switchCategory. destruct (String.eqb_spec tab "log"); [apply set_table_fresh|].
    by apply off_log_fresh.
  - unfold page_login. destruct (loginTeacher _ _ _); [|done].
    case_match; [apply set_table_fresh|]. apply off_log_fresh. by apply String.eqb_neq.
  - done.
  - destruct (log_step _ _ _ _ _). apply set_table_fresh.
  - by destruct (Hed d).
  - by destruct (Hsc d).
  - apply off_log_fresh. cbn in Hen |- *. destruct Hen as [-> | ->]; discriminate.
  - apply off_log_fresh. cbn in Hen |- *. destruct Hen as [-> _]. discriminate.
Qed.

(** The rows [renderLogs] draws carry an edit button exactly when a
    teacher is logged in. *)
Lemma renderLogs_edit_buttons tl t sts logs g n rs :
  renderLogs tl t sts logs g n = LogRows rs →
  Forall (λ r, is_Some (row_edit r) ↔ is_Some t) rs ∧ rs ≠ [].
Proof.
  unfold renderLogs. destruct (logsToShow _ _ _ _) as [|l ls]; [done|]. intros [= <-].
  split; [|done]. apply Forall_forall. intros r Hr.
  apply (list_elem_of_fmap_1 (log_row_of tl t) (l :: ls)) in Hr as (x & -> & _). cbn. by destruct t.
Qed.

(** C32: a logout and the replies of [doEditLog] and [sendScoreRecord]
    redraw everything but the log table.  On a page whose log tab shows
    [filterLogs] with a teacher logged in, a logout keeps the very rows,
    each with its edit button, on the log tab although no teacher is
    logged in, so the table no longer shows [filterLogs]; and after an
    edit or score reply the log tab shows [filterLogs] exactly when the
    reply changed nothing the table shows. *)
Theorem page_stale_after_logout_and_edit p rs :
  table_fresh teacherList p → pg_tab p = "log" → is_Some (pg_teacher p) → pg_table p = LogRows rs →
  (pg_tab (page_step locale teacherList allGroups p PLogout) = "log" ∧
   pg_teacher (page_step locale teacherList allGroups p PLogout) = None ∧
   pg_table (page_step locale teacherList allGroups p PLogout) = LogRows rs ∧
   Forall (λ r, is_Some (row_edit r)) rs ∧
   ¬ table_fresh teacherList (page_step locale teacherList allGroups p PLogout)) ∧
  ∀ ev d, ev = PEditReply d ∨ ev = PScoreReply d →
    pg_tab (page_step locale teacherList allGroups p ev) = "log" ∧
    (table_fresh teacherList (page_step locale teacherList allGroups p ev) ↔
     page_table teacherList (page_step locale teacherList allGroups p ev) = page_table teacherList p).
Proof.
  intros Hf Htab Ht Hrs. pose proof (Hf Htab) as Hfresh. rewrite Hrs in Hfresh.
  destruct (renderLogs_edit_buttons _ _ _ _ _ _ _ (eq_sym Hfresh)) as [Hed Hne].
  split.
  - split_and!; [done|done|done| |].
    + eapply Forall_impl; [exact Hed|]. intros r Hr. by apply Hr.
    + unfold table_fresh. cbn [page_step page_render pg_tab pg_table]. intros Hf'.
      specialize (Hf' Htab). rewrite Hrs in Hf'. symmetry in Hf'.
      destruct (renderLogs_edit_buttons _ _ _ _ _ _ _ Hf') as [Hed' _].
      destruct rs as [|r rs]; [done|]. apply Forall_cons in Hed as [[_ Hr] _].
      apply Forall_cons in Hed' as [[Hr' _] _]. cbn in Hr'. by destruct (Hr' (Hr Ht)).
  - intros ev d [-> | ->]; cbn [page_step page_render pg_tab pg_table];
      (split; [done|]); unfold table_fresh, page_render; cbn [pg_tab pg_table];
      rewrite Hrs, Hfresh; (split; [intros H; symmetry; by apply H|intros H _; by rewrite H]).
Qed.

End Facts.

Import StoreDemo PageDemo.


(** ** Witnesses *)

Lemma page_stale_after_logout_and_edit_witness :
  let p2 := page_step demo_locale demo_teachers ["g1"; "g2"]
              (page_step demo_locale demo_teachers ["g1"; "g2"]
                 (page_load demo_locale ["g1"; "g2"] demo_data) (PLogin "t1" "pw")) (PSwitch "log") in
  ¬ table_fresh demo_teachers (page_step demo_locale demo_teachers ["g1"; "g2"] p2 PLogout).
Proof.
  intros p2. apply (page_stale_after_logout_and_edit demo_locale demo_teachers ["g1"; "g2"] p2
                      (match pg_table p2 with LogRows rs => rs | NoMatchingLogs => [] end)).
  - intros _. vm_compute. reflexivity.
  - vm_compute. reflexivity.
  - vm_compute. by eexists.
  - vm_compute. reflexivity.
Defined.

Lemma page_fresh_step_witness :
  let p1 := page_step demo_locale demo_teachers ["g1"; "g2"]
              (page_load demo_locale ["g1"; "g2"] demo_data) (PLogin "t1" "pw") in
  table_fresh demo_teachers (page_step demo_locale demo_teachers ["g1"; "g2"] p1 (PSwitch "log")).
Proof.
  intros p1. apply page_fresh_step.
  - apply off_log_fresh. vm_compute. discriminate.
  - cbn [page_enabled]. apply (bool_decide_unpack _). vm_compute. reflexivity.
  - discriminate.
  - intros d. discriminate.
  - intros d. discriminate.
Defined.
End PageFacts.
