(* ===== verification/Medal.v ===== *)
(** * The medals and the ranking modal (177-182, 981-985, 1057-1065)

    [renderStudents] draws, for a student ranked 1, 2 or 3 in the group,
    the HTML [getMedalHtml] writes (981-985).  Its [onclick] attribute
    holds JavaScript code, [showRankingModal('name', 'group', '第一',
    score, 'img', event)], written with the name, the group and the
    picture pasted between single quotes; a click runs that code, and
    [showRankingModal] (1057-1065) fills the modal with a medal emoji
    chosen by the rank text, the picture, the name, the group and the
    score.

    The HTML is a string, as the code has it.  A click is modelled as
    the browser performs it: the attribute value is read up to the next
    double quote, and the code is read by [read_call], a reader of
    argument lists of string literals, integer literals and identifiers,
    which reports a [SyntaxError] where JavaScript does and [RUnread]
    where the text leaves the grammar of this reader (escapes, character
    references, operators).  The modal is the record of the values its
    template prints. *)

From S2P Require Import Prelude JsValue Text Records Ranking.
From Stdlib Require Import Ascii.
From stdpp Require Import pretty.
Local Open Scope string_scope.
Local Open Scope Z_scope.

Module Medal.
Import Ranking.

(** ** The HTML of a medal *)

(** The name [renderStudents] passes for a medal (180-182). *)
Definition medal_type (m : medal) : string :=
  match m with Gold => "gold" | Silver => "silver" | Bronze => "bronze" end.

(** The three conditionals of [getMedalHtml] on [type] (982, 984). *)
Definition medal_color (type : string) : string :=
  if String.eqb type "gold" then "#FFD700"
  else if String.eqb type "silver" then "#C0C0C0" else "#CD7F32".

Definition medal_rank_text (type : string) : string :=
  if String.eqb type "gold" then "第一"
  else if String.eqb type "silver" then "第二" else "第三".

Definition medal_digit (type : string) : string :=
  if String.eqb type "gold" then "1"
  else if String.eqb type "silver" then "2" else "3".

(** [safeImg] (983), printed by the template. *)
Definition safe_img (imgUrl : cell) : string :=
  if js_truthy imgUrl then js_String imgUrl else "".

(** An HTML attribute [ name="value"]. *)
Definition attr (name value : string) : string :=
  " " +:+ name +:+ "=" +:+ String dq value +:+ String dq "".

(** The JavaScript of the [onclick] attribute (984). *)
Definition medal_onclick (type name group : string) (score : Z) (imgUrl : cell) : string :=
  "showRankingModal('" +:+ name +:+ "', '" +:+ group +:+ "', '" +:+ medal_rank_text type
  +:+ "', " +:+ js_String (CNum score) +:+ ", '" +:+ safe_img imgUrl +:+ "', event)".

(** [getMedalHtml(type, name, group, score, imgUrl)] (981-985). *)
Definition getMedalHtml (type name group : string) (score : Z) (imgUrl : cell) : string :=
  "<div" +:+ attr "class" "medal-wrapper" +:+ attr "onclick" (medal_onclick type name group score imgUrl)
  +:+ "><svg" +:+ attr "viewBox" "0 0 24 30" +:+ attr "width" "100%" +:+ attr "height" "100%"
  +:+ "><path" +:+ attr "d" "M2 0h20v20l-10 10-10-10z" +:+ attr "fill" (medal_color type)
  +:+ attr "stroke" "#fff" +:+ attr "stroke-width" "1.5"
  +:+ " /><circle" +:+ attr "cx" "12" +:+ attr "cy" "10" +:+ attr "r" "6" +:+ attr "fill" "#FFF"
  +:+ attr "fill-opacity" "0.3"
  +:+ " /><text" +:+ attr "x" "12" +:+ attr "y" "14" +:+ attr "font-size" "10"
  +:+ attr "text-anchor" "middle" +:+ attr "fill" "#FFF" +:+ attr "font-weight" "bold"
  +:+ ">" +:+ medal_digit type +:+ "</text></svg></div>".

(** [imgUrl] of [renderStudents] (154): the picture when it is truthy
    and not blank, else the empty string. *)
Definition card_img (stu : Student) : cell :=
  if js_truthy (s_image stu) && negb (String.eqb (js_trim (js_String (s_image stu))) "")
  then s_image stu else CStr "".

(** [medalHtml] of a card (177-182), with the rank map of [allStudents]
    and [groupName = String(stu["分組"]).trim() || "未分組"]. *)
Definition student_medal_html (rankMap : gmap string nat) (stu : Student) : option string :=
  match medal_of (rankMap !! s_name stu) with
  | Some m => Some (getMedalHtml (medal_type m) (s_name stu) (rank_group_of stu)
                      (cumulative_of stu) (card_img stu))
  | None => None
  end.

(** ** The ranking modal *)

(** The values the template of [showRankingModal] prints (1063): the
    emoji chosen by [rank], the picture if [img] is truthy (else the
    user icon), the name, the group, the rank text and the score. *)
Record ranking_view := mkView {
  rv_emoji : string;
  rv_img : option string;
  rv_name : string;
  rv_group : string;
  rv_rank : string;
  rv_score : string
}.

(** [showRankingModal(name, group, rank, score, img, e)] (1057-1065);
    the event only stops its propagation. *)
Definition showRankingModal (name group rank score img : cell) : ranking_view :=
  mkView (if decide (rank = CStr "第一") then "🥇"
          else if decide (rank = CStr "第二") then "🥈" else "🥉")
    (if js_truthy img then Some (js_String img) else None)
    (js_String name) (js_String group) (js_String rank) (js_String score).

(** ** What a click runs *)

(** The outcome of reading or running code: a value, a [SyntaxError],
    or text outside the grammar the reader covers. *)
Inductive rd (A : Type) := ROk (a : A) | RSyntaxError | RUnread.
Arguments ROk {A} a.
Arguments RSyntaxError {A}.
Arguments RUnread {A}.

Definition rd_bind {A B} (x : rd A) (f : A → rd B) : rd B :=
  match x with ROk a => f a | RSyntaxError => RSyntaxError | RUnread => RUnread end.

(** An argument as written: a string literal, an integer literal (with
    its unary minus) or an identifier. *)
Inductive js_arg := AStr (s : string) | ANum (z : Z) | AIdent (x : string).

Definition is_ident_char (c : ascii) : bool :=
  in_range 65 90 c || in_range 97 122 c || is_digit c || Ascii.eqb c "_" || Ascii.eqb c "$".
Definition is_line_term (c : ascii) : bool := Ascii.eqb c "010" || Ascii.eqb c "013".




(** The body of a single-quoted literal up to its closing quote: a line
    break or the end of the text is a [SyntaxError]. *)
Fixpoint read_sq (cs : list ascii) : rd (string * list ascii) :=
  match cs with
  | [] => RSyntaxError
  | c :: r =>
      if Ascii.eqb c "'" then ROk ("", r)
      else if Ascii.eqb c "\" then RUnread
      else if is_line_term c then RSyntaxError
      else rd_bind (read_sq r) (λ '(s, r'), ROk (String c s, r'))
  end.

(** One argument; an integer literal is the longest run of digits and
    minus signs, valued by [Number]. *)
Definition read_arg (cs : list ascii) : rd (js_arg * list ascii) :=
  match cs with
  | [] => RSyntaxError
  | c :: r =>
      if Ascii.eqb c "'" then rd_bind (read_sq r) (λ '(s, r'), ROk (AStr s, r'))
      else if is_num_char c then
        let '(tok, r') := span is_num_char cs in
        match string_to_number (String.string_of_list_ascii tok) with
        | Some z => ROk (ANum z, r')
        | None => RUnread
        end
      else if is_ident_char c then
        let '(tok, r') := span is_ident_char cs in ROk (AIdent (String.string_of_list_ascii tok), r')
      else if Ascii.eqb c "," then RSyntaxError
      else RUnread
  end.

(** The arguments up to the closing parenthesis.  After an argument, an
    identifier character or a quote is a [SyntaxError]; every argument
    consumes a character, so [length cs] is enough fuel. *)
Fixpoint read_args (fuel : nat) (cs : list ascii) : rd (list js_arg * list ascii) :=
  match fuel with
  | O => RUnread
  | S fuel =>
      match skip_sp cs with
      | [] => RSyntaxError
      | c :: r =>
          if Ascii.eqb c ")" then ROk ([], r) else
          rd_bind (read_arg (c :: r)) (λ '(a, r1),
            match skip_sp r1 with
            | [] => RSyntaxError
            | d :: r2 =>
                if Ascii.eqb d "," then rd_bind (read_args fuel r2) (λ '(args, r3), ROk (a :: args, r3))
                else if Ascii.eqb d ")" then ROk ([a], r2)
                else if is_ident_char d || Ascii.eqb d "'" || Ascii.eqb d dq then RSyntaxError
                else RUnread
            end)
      end
  end.

(** The code of the attribute as a call of [showRankingModal]. *)
Definition read_call (code : string) : rd (list js_arg) :=
  match drop_prefix (String.list_ascii_of_string "showRankingModal(") (String.list_ascii_of_string code) with
  | None => RUnread
  | Some cs =>
      rd_bind (read_args (length cs) cs) (λ '(args, r),
        if forallb is_space r then ROk args else RUnread)
  end.

(** The value of an argument: [None] for the event object, which the
    handler of an attribute names [event]. *)
Definition arg_value (a : js_arg) : rd (option cell) :=
  match a with
  | AStr s => ROk (Some (CStr s))
  | ANum z => ROk (Some (CNum z))
  | AIdent x => if String.eqb x "event" then ROk None else RUnread
  end.

Fixpoint arg_values (args : list js_arg) : rd (list (option cell)) :=
  match args with
  | [] => ROk []
  | a :: rest => rd_bind (arg_value a) (λ v, rd_bind (arg_values rest) (λ vs, ROk (v :: vs)))
  end.

(** The parameter [i]: [undefined] when missing. *)
Definition param (vs : list (option cell)) (i : nat) : rd cell :=
  match vs !! i with Some (Some v) => ROk v | Some None => RUnread | None => ROk CUndef end.

(** The value of [onclick] in the HTML of a medal: up to the next double
    quote; a character reference is not decoded. *)
Definition onclick_attr (html : string) : rd string :=
  match drop_prefix (String.list_ascii_of_string ("<div" +:+ attr "class" "medal-wrapper" +:+ " onclick="))
          (String.list_ascii_of_string html) with
  | Some (c :: cs) =>
      if Ascii.eqb c dq then
        let '(v, _) := span (λ c, negb (Ascii.eqb c dq)) cs in
        if existsb (Ascii.eqb "&") v then RUnread else ROk (String.string_of_list_ascii v)
      else RUnread
  | _ => RUnread
  end.

(** A click on the medal: the modal it shows. *)
Definition medal_click (html : string) : rd ranking_view :=
  rd_bind (onclick_attr html) (λ code,
  rd_bind (read_call code) (λ args,
  rd_bind (arg_values args) (λ vs,
  rd_bind (param vs 0) (λ name, rd_bind (param vs 1) (λ group, rd_bind (param vs 2) (λ rank,
  rd_bind (param vs 3) (λ score, rd_bind (param vs 4) (λ img,
  ROk (showRankingModal name group rank score img))))))))).

(** The emoji of a medal. *)
Definition medal_emoji (m : medal) : string :=
  match m with Gold => "🥇" | Silver => "🥈" | Bronze => "🥉" end.

(** The characters a literal between single quotes inside a
    double-quoted attribute carries unchanged. *)
Definition plain_char (c : ascii) : bool :=
  negb (Ascii.eqb c "'" || Ascii.eqb c "\" || Ascii.eqb c dq || Ascii.eqb c "&" || is_line_term c).
Definition plain (s : string) : bool := forallb plain_char (String.list_ascii_of_string s).

(** The code of the attribute holds no double quote and no [&]. *)
Definition attr_char (c : ascii) : bool := negb (Ascii.eqb c dq) && negb (Ascii.eqb "&" c).
Definition attr_safe (s : string) : bool := forallb attr_char (String.list_ascii_of_string s).

End Medal.

(** A gold medal of Amy in g1. *)
Module MedalDemo.
Import Ranking.
Definition demo_student (n g : string) (c : Z) : Student :=
  mkStudent n (CStr g) (CNum c) (CNum c) (CNum 0) (CStr "").
Definition demo_amy := demo_student "Amy" "g1" 80.
End MedalDemo.

Module MedalFacts.
Import Ranking Medal.
Local Open Scope list_scope.



Lemma plain_Forall s : plain s = true → Forall (λ c, plain_char c = true) (String.list_ascii_of_string s).
Proof. apply Forall_forallb_true. Qed.

(** The body of a plain literal is read up to the closing quote. *)
Lemma read_sq_plain s r : plain s = true → read_sq (String.list_ascii_of_string s ++ "'"%char :: r) = ROk (s, r).
Proof.
  induction s as [|c s IH]; [done|]. unfold plain. cbn -[plain_char]. intros [Hc Hs]%andb_prop.
  unfold plain_char in Hc. destruct (Ascii.eqb c "'"), (Ascii.eqb c "\"), (is_line_term c);
    rewrite ?orb_true_r in Hc; cbn in Hc; try discriminate. by rewrite IH.
Qed.

Lemma read_arg_str s r : plain s = true → read_arg ("'"%char :: String.list_ascii_of_string s ++ "'"%char :: r) = ROk (AStr s, r).
Proof. intros Hs. cbn [read_arg]. rewrite Ascii.eqb_refl, read_sq_plain by done. done. Qed.



Lemma read_arg_num z d r :
  is_num_char d = false → read_arg (String.list_ascii_of_string (pretty z) ++ d :: r) = ROk (ANum z, d :: r).
Proof.
  intros Hd. destruct (pretty_shape z) as (c & l & E & Hf). rewrite E.
  pose proof Hf as [Hc _]%Forall_cons.
  assert (Ascii.eqb c "'" = false) as Hq by (destruct (Ascii.eqb_spec c "'"); by subst).
  change ((c :: l) ++ d :: r) with (c :: l ++ d :: r). cbn [read_arg]. rewrite Hq, Hc.
  change (c :: l ++ d :: r) with ((c :: l) ++ d :: r).
  rewrite span_app by (done || by intros ? ? [= -> _]).
  rewrite <- E, String.string_of_list_ascii_of_string.
  pose proof (Number_String_roundtrip z) as Hz. cbn [js_Number js_String] in Hz. by rewrite Hz.
Qed.

Lemma plain_rank_text type : plain (medal_rank_text type) = true.
Proof. unfold medal_rank_text. by repeat case_match. Qed.

(** An argument followed by a comma, and the last argument. *)
Lemma read_args_cons fuel cs a r :
  skip_sp cs = cs → hd_error cs ≠ Some ")"%char → read_arg cs = ROk (a, ","%char :: r) →
  read_args (S fuel) cs = rd_bind (read_args fuel r) (λ '(args, r3), ROk (a :: args, r3)).
Proof.
  intros Hs Hh Ha. destruct cs as [|c cs]; [discriminate|]. cbn [read_args]. rewrite Hs.
  destruct (Ascii.eqb_spec c ")"); [by subst|]. rewrite Ha. reflexivity.
Qed.

(** A string argument, and the space after a comma. *)
Lemma read_args_str fuel s r :
  plain s = true →
  read_args (S fuel) ("'"%char :: String.list_ascii_of_string s ++ "'"%char :: ","%char :: r) =
  rd_bind (read_args fuel r) (λ '(args, r3), ROk (AStr s :: args, r3)).
Proof. intros Hs. apply read_args_cons; [done|done|by apply read_arg_str]. Qed.

Lemma read_args_space fuel cs : read_args fuel (" "%char :: cs) = read_args fuel cs.
Proof. by destruct fuel. Qed.

(** A number argument: its text starts with neither a space nor [)]. *)
Lemma read_args_num fuel z r :
  read_args (S fuel) (String.list_ascii_of_string (pretty z) ++ ","%char :: r) =
  rd_bind (read_args fuel r) (λ '(args, r3), ROk (ANum z :: args, r3)).
Proof.
  apply read_args_cons; [|..|by apply read_arg_num];
    destruct (pretty_shape z) as (c & l & E & [Hc _]%Forall_cons); rewrite E; cbn.
  - by rewrite num_char_not_space.
  - intros [= ->]. discriminate.
Qed.

Lemma read_call_onclick type name group score img :
  plain name = true → plain group = true → plain (safe_img img) = true →
  read_call (medal_onclick type name group score img) =
  ROk [AStr name; AStr group; AStr (medal_rank_text type); ANum score; AStr (safe_img img); AIdent "event"].
Proof.
  intros Hn Hg Hi. unfold read_call, medal_onclick. rewrite !chars_app. cbn -[read_args].
  match goal with |- context [read_args (S ?n) _] =>
    assert (Hk : ∃ k, n = S (S (S (S (S k))))) by (exists (n - 5)%nat; repeat (rewrite length_app; cbn [length]); lia);
    destruct Hk as [k Hk]; rewrite Hk
  end.
  clear Hk. rewrite read_args_str by done. rewrite read_args_space, read_args_str by done.
  rewrite read_args_space, read_args_str by apply plain_rank_text.
  rewrite read_args_space, read_args_num, read_args_space, read_args_str by done.
  reflexivity.
Qed.


Lemma plain_attr_chars s : plain s = true → Forall (λ c, attr_char c = true) (String.list_ascii_of_string s).
Proof.
  intros Hs%plain_Forall. eapply Forall_impl; [exact Hs|]. intros c.
  unfold plain_char, attr_char. rewrite (Ascii.eqb_sym "&"). intros Hc.
  destruct (Ascii.eqb c dq), (Ascii.eqb c "&"); rewrite ?orb_true_r in Hc; cbn in Hc |- *; congruence.
Qed.

Lemma plain_attr_safe s : plain s = true → attr_safe s = true.
Proof.
  intros Hs%plain_attr_chars. unfold attr_safe. induction Hs as [|c l Hc _ IH]; [done|].
  cbn. by rewrite Hc, IH.
Qed.

Lemma onclick_attr_chars type name group score img :
  attr_safe name = true → plain group = true → plain (safe_img img) = true →
  Forall (λ c, attr_char c = true) (String.list_ascii_of_string (medal_onclick type name group score img)).
Proof.
  intros Hn Hg Hi. unfold medal_onclick. rewrite !chars_app.
  destruct (pretty_shape score) as (c & l & E & Hf). cbn [js_String]. rewrite E.
  repeat apply Forall_app_2; try (by apply Forall_forallb_true);
    try (apply plain_attr_chars; (done || apply plain_rank_text)); try by repeat constructor.
  eapply Forall_impl; [exact Hf|]. intros d Hd. unfold attr_char.
  destruct (Ascii.eqb_spec d dq), (Ascii.eqb_spec "&" d); by subst.
Qed.

Lemma existsb_amp_free l : Forall (λ c, attr_char c = true) l → existsb (Ascii.eqb "&") l = false.
Proof.
  induction 1 as [|c l Hc _ IH]; [done|]. cbn [existsb]. rewrite IH, orb_false_r.
  unfold attr_char in Hc. destruct (Ascii.eqb "&" c); [|done].
  rewrite andb_false_r in Hc. discriminate.
Qed.

(** The browser reads the attribute back as the code [getMedalHtml]
    wrote into it. *)
Lemma onclick_attr_medal type name group score img :
  attr_safe name = true → plain group = true → plain (safe_img img) = true →
  onclick_attr (getMedalHtml type name group score img) = ROk (medal_onclick type name group score img).
Proof.
  intros Hn Hg Hi. pose proof (onclick_attr_chars type name group score img Hn Hg Hi) as Hc.
  unfold onclick_attr, getMedalHtml, attr. rewrite !chars_app.
  cbn -[medal_onclick span existsb medal_color medal_digit].
  rewrite <- app_assoc, span_app.
  - by rewrite existsb_amp_free, String.string_of_list_ascii_of_string.
  - eapply Forall_impl; [exact Hc|]. intros c [? _]%andb_prop. done.
  - by intros ? ? [= <- _].
Qed.

(** A click on a medal whose texts are plain shows the modal of the
    values [getMedalHtml] was given. *)
Lemma medal_click_html type name group score img :
  plain name = true → plain group = true → plain (safe_img img) = true →
  medal_click (getMedalHtml type name group score img) =
  ROk (showRankingModal (CStr name) (CStr group) (CStr (medal_rank_text type)) (CNum score)
         (CStr (safe_img img))).
Proof.
  intros. unfold medal_click. rewrite onclick_attr_medal by (done || by apply plain_attr_safe).
  cbn [rd_bind]. by rewrite read_call_onclick.
Qed.




(** ** Theorems *)

(** C31: the medal of a card opens the modal of its student: for a
    student with a medal whose name, group and picture hold no quote,
    backslash, [&] or line break, a click runs the code [getMedalHtml]
    wrote and [showRankingModal] shows the emoji of the medal (🥇 for
    rank 1, 🥈 for 2, 🥉 for 3), the picture if there is one, the name,
    the group, the rank text and the cumulative score. *)
Theorem medal_click_roundtrip rankMap stu html :
  student_medal_html rankMap stu = Some html →
  plain (s_name stu) = true → plain (rank_group_of stu) = true →
  plain (safe_img (card_img stu)) = true →
  ∃ m, medal_of (rankMap !! s_name stu) = Some m ∧
    medal_click html = ROk (mkView (medal_emoji m)
      (if String.eqb (safe_img (card_img stu)) "" then None else Some (safe_img (card_img stu)))
      (s_name stu) (rank_group_of stu) (medal_rank_text (medal_type m))
      (pretty (cumulative_of stu))).
Proof.
  unfold student_medal_html. destruct (medal_of _) as [m|]; intros [= <-] Hn Hg Hi.
  exists m. split; [done|]. rewrite medal_click_html by done.
  unfold showRankingModal. cbn [js_truthy js_String].
  by destruct m, (String.eqb (safe_img (card_img stu)) "").
Qed.

Import MedalDemo.



(** ** Witnesses *)

Lemma medal_click_roundtrip_witness :
  medal_click (getMedalHtml "gold" "Amy" "g1" 80 (CStr "")) = ROk (mkView "🥇" None "Amy" "g1" "第一" "80").
Proof.
  destruct (medal_click_roundtrip (getGroupRankings [demo_amy]) demo_amy
              (getMedalHtml "gold" "Amy" "g1" 80 (CStr "")))
    as (m & Hm & Hc); [vm_compute; reflexivity..|].
  vm_compute in Hm. injection Hm as <-. exact Hc.
Defined.


End MedalFacts.
