(* ===== verification/Api.v ===== *)
(** * The server calls (10-28) and the e-learning link (1108-1112)

    [callApi(action, params)] (10-28) builds the payload
    [{ action: action, ...params }].  The two read actions send it as
    the query string of a GET ([new URLSearchParams(payload).toString()],
    the application/x-www-form-urlencoded serializer); the others send
    [JSON.stringify(payload)] as the body of a POST.  A reply whose
    [error] field is truthy becomes [throw new Error(data.error)].
    [openELearning] (1108-1112) opens the link of the settings when it
    is a string starting with "http".

    A JavaScript object is the list of its properties in insertion
    order ([jsobj]); the keys the script uses are not array indices,
    which objects would order first.  Strings are byte strings: a
    character beyond ASCII is the bytes of its UTF-8 encoding, which is
    what both serializers put on the wire.  What the server reads is
    modelled by a reader of each format: [form_parse] (the WHATWG
    urlencoded parser) and [json_parse] (JSON.parse on objects whose
    values are strings, integers, booleans and null). *)

From S2P Require Import Prelude JsValue Text.
From Stdlib Require Import Ascii.
From stdpp Require Import pretty.
Local Open Scope string_scope.
Local Open Scope Z_scope.

Module Api.

(** [API_URL] (5). *)
Definition API_URL : string :=
  "https://script.google.com/macros/s/AKfycbyWkt5bTcX8BokqviAXoMgFaWTyU2PkqqeHy-rhGRiJlsWkkn6-wLGfdylDFWLfh-nC/exec".

(** The own properties of an object, in insertion order. *)
Definition jsobj := list (string * cell).

(** [o[k] = v]: an existing key keeps its place. *)
Definition obj_set (o : jsobj) (k : string) (v : cell) : jsobj :=
  if existsb (λ kv, String.eqb kv.1 k) o
  then (λ kv, if String.eqb kv.1 k then (k, v) else kv) <$> o
  else (o ++ [(k, v)])%list.

(** [{ ...o, ...src }]: the properties of [src] copied in order. *)
Definition obj_spread (o src : jsobj) : jsobj := foldl (λ o kv, obj_set o kv.1 kv.2) o src.

(** [{ action: action, ...params }] (16, 20). *)
Definition payload (action : string) (params : jsobj) : jsobj :=
  obj_spread [("action", CStr action)] params.

(** [isReadAction] (11). *)
Definition isReadAction (action : string) : bool :=
  bool_decide (action ∈ ["getInitialData"; "getLatestScores"]).

(** ** The query string of [URLSearchParams] *)

Definition hex_upper (n : nat) : ascii := ascii_of_nat (if (n <? 10)%nat then 48 + n else 55 + n).

(** The bytes the urlencoded serializer keeps. *)
Definition form_safe (c : ascii) : bool :=
  is_digit c || in_range 65 90 c || in_range 97 122 c ||
  Ascii.eqb c "*" || Ascii.eqb c "-" || Ascii.eqb c "." || Ascii.eqb c "_".

Definition form_byte (c : ascii) : string :=
  if form_safe c then String c ""
  else if Ascii.eqb c " " then "+"
  else String "%" (String (hex_upper (nat_of_ascii c / 16)) (String (hex_upper (nat_of_ascii c mod 16)) "")).

Fixpoint form_encode (s : string) : string :=
  match s with EmptyString => "" | String c s' => form_byte c +:+ form_encode s' end.

(** The text of the form of one property. *)
Definition form_pair (kv : string * cell) : string := form_encode kv.1 +:+ "=" +:+ form_encode (js_String kv.2).

(** [new URLSearchParams(o).toString()]: each value through [String]. *)
Definition form_serialize (o : jsobj) : string :=
  String.concat "&" (form_pair <$> o).

(** ** [JSON.stringify] *)

Definition hex_lower (n : nat) : ascii := ascii_of_nat (if (n <? 10)%nat then 48 + n else 87 + n).

(** QuoteJSONString on one character. *)
Definition json_char (c : ascii) : string :=
  let n := nat_of_ascii c in
  if Ascii.eqb c dq then String "\" (String dq "")
  else if Ascii.eqb c "\" then String "\" "\"
  else if (n =? 8)%nat then "\b"
  else if (n =? 9)%nat then "\t"
  else if (n =? 10)%nat then "\n"
  else if (n =? 12)%nat then "\f"
  else if (n =? 13)%nat then "\r"
  else if (n <? 32)%nat then "\u00" +:+ String (hex_lower (n / 16)) (String (hex_lower (n mod 16)) "")
  else String c "".

Fixpoint json_escape (s : string) : string :=
  match s with EmptyString => "" | String c s' => json_char c +:+ json_escape s' end.

Definition json_quote (s : string) : string := String dq (json_escape s +:+ String dq "").

(** SerializeJSONProperty: [undefined] is left out of an object. *)
Definition json_value (v : cell) : option string :=
  match v with
  | CStr s => Some (json_quote s)
  | CNum z => Some (pretty z)
  | CBool b => Some (if b then "true" else "false")
  | CNull => Some "null"
  | CUndef => None
  end.

(** A member ["key":value]. *)
Definition json_member (k t : string) : string := json_quote k +:+ ":" +:+ t.

Definition json_stringify (o : jsobj) : string :=
  "{" +:+ String.concat "," (omap (λ kv, json_member kv.1 <$> json_value kv.2) o) +:+ "}".

(** ** [callApi] *)

Record request := mkRequest {
  req_method : string;
  req_url : string;
  req_body : option string
}.

(** The request of [callApi(action, params)] (11-24). *)
Definition callApi_request (action : string) (params : jsobj) : request :=
  if isReadAction action
  then mkRequest "GET" (API_URL +:+ "?" +:+ form_serialize (payload action params)) None
  else mkRequest "POST" API_URL (Some (json_stringify (payload action params))).

(** The reply (25-27): [data.error] truthy throws [new Error(data.error)],
    whose message is [String(data.error)]. *)
Definition callApi_reply {A} (error : cell) (data : A) : string + A :=
  if js_truthy error then inl (js_String error) else inr data.

(** ** What the server reads *)

Definition hex_val (c : ascii) : option nat :=
  let n := nat_of_ascii c in
  if is_digit c then Some (n - 48)%nat
  else if in_range 65 70 c then Some (n - 55)%nat
  else if in_range 97 102 c then Some (n - 87)%nat
  else None.

(** Percent-decoding after [+] became a space; a [%] not followed by
    two hex digits stays. *)
Fixpoint pct_decode (cs : list ascii) : list ascii :=
  match cs with
  | [] => []
  | c :: r =>
      if Ascii.eqb c "+" then " "%char :: pct_decode r
      else if Ascii.eqb c "%" then
        match r with
        | h1 :: h2 :: r' =>
            match hex_val h1, hex_val h2 with
            | Some a, Some b => ascii_of_nat (16 * a + b) :: pct_decode r'
            | _, _ => c :: pct_decode r
            end
        | _ => c :: pct_decode r
        end
      else c :: pct_decode r
  end.

(** The pieces of a text between the separators [sep]. *)
Definition split_on (sep : ascii) (cs : list ascii) : list (list ascii) :=
  foldr (λ c acc, if Ascii.eqb c sep then [] :: acc
                  else match acc with w :: ws => (c :: w) :: ws | [] => [[c]] end) [[]] cs.

(** A piece cut at its first [=], both sides decoded. *)
Definition form_field (piece : list ascii) : string * string :=
  let '(n, v) := span (λ c, negb (Ascii.eqb c "=")) piece in
  (String.string_of_list_ascii (pct_decode n), String.string_of_list_ascii (pct_decode (drop 1 v))).

(** The urlencoded parser: the non-empty pieces between [&]. *)
Definition form_parse (q : list ascii) : list (string * string) :=
  omap (λ piece, match piece with [] => None | _ => Some (form_field piece) end) (split_on "&" q).

(** The query of a URL of [API_URL]. *)
Definition query_of (url : string) : option (list ascii) :=
  drop_prefix (String.list_ascii_of_string (API_URL +:+ "?")) (String.list_ascii_of_string url).

(** The character a simple escape [\e] of JSON stands for. *)
Definition json_simple_escape (e : ascii) : option ascii :=
  if Ascii.eqb e dq then Some dq
  else if Ascii.eqb e "\" then Some "\"%char
  else if Ascii.eqb e "/" then Some "/"%char
  else if Ascii.eqb e "b" then Some (ascii_of_nat 8)
  else if Ascii.eqb e "t" then Some (ascii_of_nat 9)
  else if Ascii.eqb e "n" then Some (ascii_of_nat 10)
  else if Ascii.eqb e "f" then Some (ascii_of_nat 12)
  else if Ascii.eqb e "r" then Some (ascii_of_nat 13)
  else None.

Definition str_cons (d : ascii) (x : option (string * list ascii)) : option (string * list ascii) :=
  (λ sr, (String d sr.1, sr.2)) <$> x.

(** The body of a JSON string up to its closing quote; a [\u] escape
    beyond one byte is outside this reader. *)
Fixpoint read_json_str (cs : list ascii) : option (string * list ascii) :=
  match cs with
  | [] => None
  | c :: r =>
      if Ascii.eqb c dq then Some ("", r)
      else if Ascii.eqb c "\" then
        match r with
        | [] => None
        | e :: r' =>
            if Ascii.eqb e "u" then
              match r' with
              | a :: b :: h1 :: h2 :: r'' =>
                  match hex_val a, hex_val b, hex_val h1, hex_val h2 with
                  | Some 0%nat, Some 0%nat, Some x, Some y => str_cons (ascii_of_nat (16 * x + y)) (read_json_str r'')
                  | _, _, _, _ => None
                  end
              | _ => None
              end
            else match json_simple_escape e with
                 | Some d => str_cons d (read_json_str r')
                 | None => None
                 end
        end
      else if (nat_of_ascii c <? 32)%nat then None
      else str_cons c (read_json_str r)
  end.

(** A JSON value: a string, an integer, [true], [false] or [null]. *)
Definition read_json_value (cs : list ascii) : option (cell * list ascii) :=
  match cs with
  | [] => None
  | c :: r =>
      if Ascii.eqb c dq then (λ sr, (CStr sr.1, sr.2)) <$> read_json_str r
      else if is_num_char c then
        let '(tok, r') := span is_num_char cs in
        (λ z, (CNum z, r')) <$> string_to_number (String.string_of_list_ascii tok)
      else match drop_prefix (String.list_ascii_of_string "true") cs,
                 drop_prefix (String.list_ascii_of_string "false") cs,
                 drop_prefix (String.list_ascii_of_string "null") cs with
           | Some r', _, _ => Some (CBool true, r')
           | _, Some r', _ => Some (CBool false, r')
           | _, _, Some r' => Some (CNull, r')
           | _, _, _ => None
           end
  end.

(** The members of an object up to its closing brace; each member
    consumes a character, so [length cs] is enough fuel. *)
Fixpoint read_json_members (fuel : nat) (cs : list ascii) : option (jsobj * list ascii) :=
  match fuel, cs with
  | S fuel, c :: r =>
      if Ascii.eqb c dq then
        match read_json_str r with
        | Some (k, d :: r1) =>
            if Ascii.eqb d ":" then
              match read_json_value r1 with
              | Some (v, e :: r2) =>
                  if Ascii.eqb e "," then (λ or, ((k, v) :: or.1, or.2)) <$> read_json_members fuel r2
                  else if Ascii.eqb e "}" then Some ([(k, v)], r2)
                  else None
              | _ => None
              end
            else None
        | _ => None
        end
      else None
  | _, _ => None
  end.

(** [JSON.parse] on an object written without insignificant white
    space, as [JSON.stringify] writes it. *)
Definition json_parse (s : string) : option jsobj :=
  match String.list_ascii_of_string s with
  | c :: r =>
      if Ascii.eqb c "{" then
        match r with
        | d :: [] => if Ascii.eqb d "}" then Some [] else None
        | _ => match read_json_members (length r) r with Some (o, []) => Some o | _ => None end
        end
      else None
  | [] => None
  end.

(** ** [openELearning] *)

Inductive elearning := OpenTab (url : string) | AlertNoLink | ThrowsTypeError.

(** [appSettings["電子溫習站超連結"]] (1109), [undefined] when missing. *)
Definition setting (settings : jsobj) (k : string) : cell :=
  match list_find (λ kv, kv.1 = k) settings with Some (_, kv) => kv.2 | None => CUndef end.

(** [url && url.startsWith("http")] (1110): a truthy value that is not a
    string has no [startsWith], and the call throws. *)
Definition openELearning (settings : jsobj) : elearning :=
  let url := setting settings "電子溫習站超連結" in
  if js_truthy url then
    match url with
    | CStr s => if String.prefix "http" s then OpenTab s else AlertNoLink
    | _ => ThrowsTypeError
    end
  else AlertNoLink.

End Api.

Module ApiFacts.
Import Api.
Local Open Scope list_scope.

Local Abbreviation lchars := String.list_ascii_of_string.

(** The characters the urlencoded text of a string can hold: no [&], no [=]. *)
Definition form_sep_free (c : ascii) : bool := negb (Ascii.eqb c "&" || Ascii.eqb c "=").

Lemma form_byte_decode c r : pct_decode (lchars (form_byte c) ++ r) = c :: pct_decode r.
Proof. revert r. destruct c as [[][][][][][][][]]; reflexivity. Qed.

Lemma form_byte_sep_free c : forallb form_sep_free (lchars (form_byte c)) = true.
Proof. destruct c as [[][][][][][][][]]; reflexivity. Qed.

Lemma pct_decode_form_encode s r : pct_decode (lchars (form_encode s) ++ r) = lchars s ++ pct_decode r.
Proof.
  induction s as [|c s IH]; [done|]. cbn [form_encode].
  by rewrite chars_app, <- app_assoc, form_byte_decode, IH.
Qed.

Lemma pct_decode_form_encode_all s : pct_decode (lchars (form_encode s)) = lchars s.
Proof. by rewrite <- (app_nil_r (lchars (form_encode s))), pct_decode_form_encode, app_nil_r. Qed.

Lemma form_encode_sep_free s : Forall (λ c, form_sep_free c = true) (lchars (form_encode s)).
Proof.
  induction s as [|c s IH]; [constructor|]. cbn [form_encode]. rewrite chars_app.
  apply Forall_app_2; [|done]. apply Forall_forallb_true, form_byte_sep_free.
Qed.

(** The pieces between separators. *)
Lemma split_on_nosep sep l : Forall (λ c, Ascii.eqb c sep = false) l → split_on sep l = [l].
Proof.
  unfold split_on. induction 1 as [|c l Hc _ IH]; [done|]. cbn. rewrite IH, Hc. done.
Qed.

Lemma split_on_app sep l r :
  Forall (λ c, Ascii.eqb c sep = false) l → split_on sep (l ++ sep :: r) = l :: split_on sep r.
Proof.
  unfold split_on. induction 1 as [|c l Hc _ IH]; cbn; [by rewrite Ascii.eqb_refl|].
  rewrite Hc. cbn in IH. by rewrite IH.
Qed.

Lemma form_pair_no_amp kv : Forall (λ c, Ascii.eqb c "&" = false) (lchars (form_pair kv)).
Proof.
  unfold form_pair. rewrite !chars_app.
  assert (∀ s, Forall (λ c, Ascii.eqb c "&" = false) (lchars (form_encode s))) as H.
  { intros s. eapply Forall_impl; [apply form_encode_sep_free|]. intros c.
    unfold form_sep_free. by destruct (Ascii.eqb c "&"). }
  apply Forall_app_2; [apply H|]. apply Forall_app_2; [by repeat constructor|apply H].
Qed.

Lemma split_on_concat p ps :
  Forall (λ c, Ascii.eqb c "&" = false) (lchars p) →
  Forall (λ q, Forall (λ c, Ascii.eqb c "&" = false) (lchars q)) ps →
  split_on "&" (lchars (String.concat "&" (p :: ps))) = lchars p :: (lchars <$> ps).
Proof.
  intros Hp Hps. revert p Hp. induction Hps as [|q ps Hq _ IH]; intros p Hp.
  - by apply split_on_nosep.
  - change (String.concat "&" (p :: q :: ps)) with (p +:+ "&" +:+ String.concat "&" (q :: ps)).
    rewrite !chars_app. cbn [lchars app]. rewrite split_on_app by done. by rewrite IH.
Qed.

(** A piece of the form reads back as its property. *)
Lemma form_field_pair kv : form_field (lchars (form_pair kv)) = (kv.1, js_String kv.2).
Proof.
  unfold form_field, form_pair. rewrite !chars_app. cbn [lchars app].
  rewrite span_app.
  - cbn [drop]. by rewrite drop_0, !pct_decode_form_encode_all, !String.string_of_list_ascii_of_string.
  - eapply Forall_impl; [apply form_encode_sep_free|]. intros c. unfold form_sep_free.
    by destruct (Ascii.eqb c "="); rewrite ?orb_true_r.
  - by intros ? ? [= <- _].
Qed.

Lemma form_pair_nonempty kv : ∃ c l, lchars (form_pair kv) = c :: l.
Proof.
  unfold form_pair. rewrite !chars_app. cbn [lchars].
  destruct (lchars (form_encode kv.1)); cbn; eauto.
Qed.

Lemma form_parse_pairs (L : jsobj) :
  omap (λ piece, match piece with [] => None | _ => Some (form_field piece) end)
    (lchars <$> (form_pair <$> L)) = (λ kv, (kv.1, js_String kv.2)) <$> L.
Proof.
  induction L as [|kv L IH]; [done|]. cbn [fmap list_fmap omap].
  destruct (form_pair_nonempty kv) as (c & l & E). rewrite E. cbn [list_omap]. rewrite <- E, form_field_pair. f_equal. exact IH.
Qed.

(** The server reads the query back as the properties, each value
    through [String]. *)
Lemma form_parse_serialize (L : jsobj) :
  form_parse (lchars (form_serialize L)) = (λ kv, (kv.1, js_String kv.2)) <$> L.
Proof.
  destruct L as [|kv L]; [done|]. unfold form_parse, form_serialize.
  rewrite fmap_cons, split_on_concat, <- fmap_cons; [apply (form_parse_pairs (kv :: L))|apply form_pair_no_amp|].
  apply Forall_fmap, Forall_true. intros x. apply form_pair_no_amp.
Qed.

(** ** JSON *)

Lemma json_char_read c r : read_json_str (lchars (json_char c) ++ r) = str_cons c (read_json_str r).
Proof. revert r. destruct c as [[][][][][][][][]]; reflexivity. Qed.

Lemma read_json_escape s r : read_json_str (lchars (json_escape s) ++ dq :: r) = Some (s, r).
Proof.
  induction s as [|c s IH]; [done|]. cbn [json_escape].
  by rewrite chars_app, <- app_assoc, json_char_read, IH.
Qed.

Lemma read_json_value_ok v t d r :
  json_value v = Some t → is_num_char d = false →
  read_json_value (lchars t ++ d :: r) = Some (v, d :: r).
Proof.
  intros Hv Hd. destruct v as [z|s|[]| |]; cbn in Hv; simplify_eq; cbn [lchars app]; try reflexivity.
  - destruct (pretty_shape z) as (c & l & E & Hf). rewrite E.
    pose proof Hf as [Hc _]%Forall_cons.
    assert (Ascii.eqb c dq = false) as Hq by (apply Ascii.eqb_neq, (num_char_not c dq Hc); done).
    cbn [app read_json_value]. rewrite Hq, Hc.
    change (c :: l ++ d :: r) with ((c :: l) ++ d :: r).
    rewrite span_app by (done || by intros ? ? [= <- _]).
    rewrite <- E, String.string_of_list_ascii_of_string.
    pose proof (Number_String_roundtrip z) as Hz. cbn [js_Number js_String] in Hz. by rewrite Hz.
  - unfold json_quote. cbn [lchars app read_json_value]. rewrite Ascii.eqb_refl, chars_app.
    cbn [lchars]. rewrite <- app_assoc. cbn [app]. by rewrite read_json_escape.
Qed.

(** The members [JSON.stringify] writes: one per property that is not
    [undefined]. *)
Definition member_text (kv : string * cell) : string := json_member kv.1 (default "" (json_value kv.2)).

Lemma json_value_defined v : v ≠ CUndef → json_value v = Some (default "" (json_value v)).
Proof. by destruct v. Qed.

Lemma stringify_members (L : jsobj) :
  omap (λ kv, json_member kv.1 <$> json_value kv.2) L = member_text <$> filter (λ kv, kv.2 ≠ CUndef) L.
Proof.
  induction L as [|[k v] L IH]; [done|]. rewrite (filter_cons (λ kv : string * cell, kv.2 ≠ CUndef)).
  destruct v; cbn [omap list_omap json_value fmap option_fmap option_map]; case_decide as Hd;
    cbn in Hd; try done; cbn; f_equal; exact IH.
Qed.

Lemma json_member_chars k t rest :
  lchars (json_member k t) ++ rest = dq :: lchars (json_escape k) ++ dq :: ":"%char :: lchars t ++ rest.
Proof.
  unfold json_member, json_quote. rewrite !chars_app. cbn [lchars app].
  rewrite chars_app, <- !app_assoc. reflexivity.
Qed.

Lemma read_json_member_step fuel kv e r :
  kv.2 ≠ CUndef → is_num_char e = false →
  read_json_members (S fuel) (lchars (member_text kv) ++ e :: r) =
  if Ascii.eqb e "," then (λ or, (kv :: or.1, or.2)) <$> read_json_members fuel r
  else if Ascii.eqb e "}" then Some ([kv], r) else None.
Proof.
  intros Hv He. unfold member_text. rewrite json_member_chars. cbn [read_json_members].
  rewrite Ascii.eqb_refl, read_json_escape. cbn [Ascii.eqb Bool.eqb].
  rewrite (read_json_value_ok kv.2) by (done || by apply json_value_defined). by destruct kv.
Qed.

Lemma read_json_members_ok (M : jsobj) fuel r :
  Forall (λ kv, kv.2 ≠ CUndef) M → M ≠ [] → (length M ≤ fuel)%nat →
  read_json_members fuel (lchars (String.concat "," (member_text <$> M)) ++ "}"%char :: r) = Some (M, r).
Proof.
  intros HM. revert fuel. induction HM as [|kv M Hkv HM IH]; intros fuel Hne Hlen; [done|].
  destruct fuel as [|fuel]; [cbn in Hlen; lia|].
  destruct M as [|kv' M].
  - cbn [fmap list_fmap String.concat]. by rewrite read_json_member_step.
  - change (String.concat "," (member_text <$> kv :: kv' :: M))
      with (member_text kv +:+ "," +:+ String.concat "," (member_text <$> kv' :: M)).
    rewrite !chars_app, <- app_assoc. cbn [lchars app].
    rewrite read_json_member_step by done. cbn [Ascii.eqb Bool.eqb].
    rewrite IH by (done || cbn in *; lia). done.
Qed.

Lemma members_length (M : jsobj) :
  (length M ≤ length (lchars (String.concat "," (member_text <$> M))))%nat.
Proof.
  induction M as [|kv M IH]; [cbn; lia|].
  assert (Hm : ∀ rest, ∃ t, lchars (member_text kv) ++ rest = dq :: t)
    by (intros rest; unfold member_text; rewrite json_member_chars; eauto).
  destruct (Hm []) as [t Ht]. rewrite app_nil_r in Ht.
  destruct M as [|kv' M].
  - cbn [fmap list_fmap String.concat]. rewrite Ht. cbn. lia.
  - change (String.concat "," (member_text <$> kv :: kv' :: M))
      with (member_text kv +:+ "," +:+ String.concat "," (member_text <$> kv' :: M)).
    rewrite !chars_app, length_app, Ht. cbn [length] in *. cbn [lchars length app]. lia.
Qed.

Lemma members_head (M : jsobj) : M ≠ [] → ∃ t, lchars (String.concat "," (member_text <$> M)) = dq :: t.
Proof.
  intros HM. destruct M as [|kv [|kv' M]]; [done| |].
  - cbn [fmap list_fmap String.concat]. unfold member_text.
    rewrite <- (app_nil_r (lchars (json_member _ _))), json_member_chars. eauto.
  - change (String.concat "," (member_text <$> kv :: kv' :: M))
      with (member_text kv +:+ "," +:+ String.concat "," (member_text <$> kv' :: M)).
    rewrite chars_app. unfold member_text at 1. rewrite json_member_chars. eauto.
Qed.

(** The server reads the body back as the properties that are not
    [undefined]. *)
Lemma json_parse_stringify (L : jsobj) :
  json_parse (json_stringify L) = Some (filter (λ kv, kv.2 ≠ CUndef) L).
Proof.
  unfold json_parse, json_stringify. rewrite stringify_members.
  assert (HF : Forall (λ kv : string * cell, kv.2 ≠ CUndef) (filter (λ kv, kv.2 ≠ CUndef) L))
    by (apply Forall_forall; intros x Hx%list_elem_of_filter; apply Hx).
  destruct (filter _ L) as [|kv M] eqn:EM; [done|].
  rewrite !chars_app. cbn [lchars app Ascii.eqb Bool.eqb].
  destruct (members_head (kv :: M)) as [t Ht]; [done|].
  rewrite Ht at 1. cbn [app]. destruct t; cbv iota;
    (rewrite read_json_members_ok; [done..|rewrite length_app; pose proof (members_length (kv :: M)); lia]).
Qed.

(** ** The payload *)

Lemma obj_set_fresh (o : jsobj) k v : k ∉ o.*1 → obj_set o k v = o ++ [(k, v)].
Proof.
  unfold obj_set. intros Hk. replace (existsb _ o) with false; [done|]. symmetry.
  apply not_true_iff_false. intros ([k' v'] & Hin & Heq)%existsb_exists.
  apply String.eqb_eq in Heq. cbn in Heq. subst. apply Hk, list_elem_of_fmap.
  exists (k, v'). split; [done|]. by apply list_elem_of_In.
Qed.

Lemma obj_spread_fresh (o src : jsobj) : NoDup (o.*1 ++ src.*1) → obj_spread o src = o ++ src.
Proof.
  revert o. induction src as [|kv src IH]; intros o Hnd; [by rewrite app_nil_r|].
  unfold obj_spread. cbn [foldl]. rewrite obj_set_fresh.
  - destruct kv as [k v]. cbn [fst snd]. rewrite IH, <- app_assoc; [done|].
    rewrite fmap_app, <- app_assoc. done.
  - intros Hin. rewrite fmap_cons in Hnd. apply NoDup_app in Hnd as (_ & Hd & _). apply (Hd kv.1 Hin). constructor.
Qed.

(** [openELearning] throws exactly on a truthy link that is not a
    string: a number or [true] from the sheet. *)
Lemma openELearning_non_string settings :
  openELearning settings = ThrowsTypeError ↔
  js_truthy (setting settings "電子溫習站超連結") = true ∧ ∀ s, setting settings "電子溫習站超連結" ≠ CStr s.
Proof.
  unfold openELearning. cbv zeta. split.
  - intros H. destruct (js_truthy _) eqn:Ht; [|done].
    destruct (setting _ _) eqn:E; [| |done..]; [|by case_match].
    split; [done|congruence].
  - intros [Ht Hs]. rewrite Ht. destruct (setting _ _) eqn:E; [done| |done..]. by destruct (Hs s).
Qed.

(** ** Theorems *)

(** C37: the server reads back what [callApi] meant to send.  A read
    action is a GET without body whose query the urlencoded parser
    reads back as the payload, each value through [String]; any other
    action is a POST to [API_URL] whose body [JSON.parse] reads back as
    the payload without its [undefined] properties; and the payload is
    [action] followed by the parameters when their keys are distinct and
    none is "action". *)
Theorem callApi_request_roundtrip action params :
  (isReadAction action = true →
     req_method (callApi_request action params) = "GET" ∧ req_body (callApi_request action params) = None ∧
     form_parse <$> query_of (req_url (callApi_request action params)) =
       Some ((λ kv, (kv.1, js_String kv.2)) <$> payload action params)) ∧
  (isReadAction action = false →
     req_method (callApi_request action params) = "POST" ∧ req_url (callApi_request action params) = API_URL ∧
     (req_body (callApi_request action params) ≫= json_parse) =
       Some (filter (λ kv, kv.2 ≠ CUndef) (payload action params))) ∧
  (NoDup ("action" :: params.*1) → payload action params = ("action", CStr action) :: params).
Proof.
  unfold callApi_request. split_and!; intros H; rewrite ?H.
  - split_and!; [done|done|]. unfold query_of. cbn [req_url].
    rewrite !chars_app, app_assoc, drop_prefix_app. cbn [fmap option_fmap option_map].
    by rewrite form_parse_serialize.
  - split_and!; [done|done|]. cbn. apply json_parse_stringify.
  - by apply obj_spread_fresh.
Qed.

(** ** Witnesses *)

Lemma callApi_request_roundtrip_witness :
  payload "addScoreRecord" [("teacherAccount", CStr "t1"); ("score", CNum 3)] =
  [("action", CStr "addScoreRecord"); ("teacherAccount", CStr "t1"); ("score", CNum 3)].
Proof.
  apply (proj2 (proj2 (callApi_request_roundtrip "addScoreRecord"
                          [("teacherAccount", CStr "t1"); ("score", CNum 3)]))).
  apply NoDup_cons; split; [by vm_compute; intros [?|[?|?]]%list_elem_of_In|].
  by apply (bool_decide_unpack _).
Defined.

End ApiFacts.
