(* ===== verification/ScoreEntry.v ===== *)
(** * The group target of [sendScoreRecord] and the batch selector

    Opening the score modal of a group calls [renderBatchSelector] (1067-
    1091), which clears [batchExcludedSet] and draws one item per member
    of the group; a click on an item toggles its name in the set
    ([toggleBatchItem], 1093-1101), and [resetBatchSelection] (1103-1106)
    clears it.  [sendScoreRecord] (456-467) then refuses when the set has
    as many names as the group has members, and otherwise, when the set
    is not empty, sends the score to the custom list of the members whose
    name is not in the set.

    The set is a [gset string]; [batch_reachable] collects the sets the
    clicks on the items of one group can produce. *)

From S2P Require Import Prelude JsValue JsNumber Records.
From Stdlib Require Import QArith.
From stdpp Require Import pretty.
Local Open Scope Z_scope.

Module ScoreEntry.

(** [allStudents.filter(s => String(s["分組"]).trim() === name)] *)
Definition group_students (students : list Student) (g : string) : list Student :=
  filter (λ s, group_of s = g) students.

(** The names on the items of [renderBatchSelector(groupName)]
    (1077-1090), one per member, in the order of [allStudents]. *)
Definition batch_items (students : list Student) (g : string) : list string :=
  s_name <$> group_students students g.

(** A button of the group tab: the group, its members joined by "、",
    and the index of its gradient. *)
Record group_button := mkGroupButton {
  gb_name : string;
  gb_students : string;
  gb_gradient : nat
}.

(** [renderGroups] (213-233): one button per name of [allGroups], in
    order; a click opens the score modal of the group. *)
Definition renderGroups (allGroups : list string) (students : list Student) : list group_button :=
  imap (λ i g, mkGroupButton g (String.concat "、" (s_name <$> group_students students g))
                 (i mod 6)) allGroups.

(** [toggleBatchItem(name)] (1094-1100). *)
Definition toggleBatchItem (ex : gset string) (name : string) : gset string :=
  if decide (name ∈ ex) then ex ∖ {[name]} else ex ∪ {[name]}.

(** [renderBatchSelector] and [resetBatchSelection] clear the set. *)
Definition resetBatchSelection : gset string := ∅.

(** The target of [sendScoreRecord] (456-467): [None] is the alert
    "請至少選擇一位學生！", otherwise [(finalTargetType, finalTargetName)]. *)
Definition send_target (students : list Student) (modalTargetType modalTargetName : string)
    (ex : gset string) : option (string * string) :=
  if String.eqb modalTargetType "小組" then
    let groupStudents := group_students students modalTargetName in
    if Nat.eqb (size ex) (length groupStudents) then None
    else if Nat.ltb 0 (size ex) then
      Some ("自訂名單", String.concat ","
                          (filter (λ n, n ∉ ex) (s_name <$> groupStudents)))
    else Some (modalTargetType, modalTargetName)
  else Some (modalTargetType, modalTargetName).

(** The sets the items of group [g] can produce from the cleared set. *)
Inductive batch_reachable (students : list Student) (g : string) : gset string → Prop :=
  | batch_reach_clear : batch_reachable students g resetBatchSelection
  | batch_reach_toggle ex s :
      batch_reachable students g ex → s ∈ group_students students g →
      batch_reachable students g (toggleBatchItem ex (s_name s))
  | batch_reach_reset ex :
      batch_reachable students g ex → batch_reachable students g resetBatchSelection.

(** [score <= 0] for a number that may be NaN or infinite. *)
Definition js_le0 (x : jsnum) : bool :=
  match x with
  | JFin q => Qle_bool q 0
  | JNegInf => true
  | JPosInf | JNaN => false
  end.

(** The guard of a custom score (450): [!score || score <= 0], with
    [score] the text of the input. *)
Definition custom_score_rejected (score : string) : bool :=
  String.eqb score "" || js_le0 (string_to_jsnum score).

(** The values of the score options of [updateScoreOptions]
    (1170-1175). *)
Definition preset_scores (category : string) : list string :=
  pretty <$> (if String.eqb category "加分" then [1; 2; 3; 4; 5] else [1; 2; 3; 5; 7]).

(** The values of the item options of [setScoreCategory] (1155-1160):
    [String(it["項目名稱"])] for the items with [it["加扣分"] === c]. *)
Definition category_items (allItems : list Item) (c : string) : list string :=
  (λ it, js_String (it_name it)) <$> filter (λ it, it_kind it = CStr c) allItems.

(** The score modal: its globals (36-37) and its controls, the two
    selects with their options and values and the custom input. *)
Record score_form := mkForm {
  modalTargetType : string;
  modalTargetName : string;
  currentScoreCategory : string;
  itemOptions : list string;
  itemSel : string;
  scoreOptions : list string;
  scoreSel : string;
  customVisible : bool;
  customValue : string;
  batchExcludedSet : gset string
}.

(** [let modalTargetType = "", modalTargetName = "", currentScoreCategory
    = "加分"] and [batchExcludedSet = new Set()] (36-37). *)
Definition form_init : score_form := mkForm "" "" "加分" [] "" [] "" false "" ∅.

(** The value of a select whose options were just rebuilt: the first
    option, or "" when there is none. *)
Definition first_value (opts : list string) : string := default "" (head opts).

(** [toggleCustomInput] (1181-1192): the input shows, emptied, exactly
    when "custom" is selected. *)
Definition toggleCustomInput (f : score_form) : score_form :=
  if String.eqb (scoreSel f) "custom" then
    mkForm (modalTargetType f) (modalTargetName f) (currentScoreCategory f) (itemOptions f)
      (itemSel f) (scoreOptions f) (scoreSel f) true "" (batchExcludedSet f)
  else
    mkForm (modalTargetType f) (modalTargetName f) (currentScoreCategory f) (itemOptions f)
      (itemSel f) (scoreOptions f) (scoreSel f) false (customValue f) (batchExcludedSet f).

(** [updateScoreOptions] (1165-1179). *)
Definition updateScoreOptions (f : score_form) : score_form :=
  let opts := preset_scores (currentScoreCategory f) ++ ["custom"] in
  toggleCustomInput
    (mkForm (modalTargetType f) (modalTargetName f) (currentScoreCategory f) (itemOptions f)
       (itemSel f) opts (first_value opts) (customVisible f) (customValue f) (batchExcludedSet f)).

(** [setScoreCategory(c)] (1150-1163). *)
Definition setScoreCategory (allItems : list Item) (f : score_form) (c : string) : score_form :=
  let items := category_items allItems c in
  updateScoreOptions
    (mkForm (modalTargetType f) (modalTargetName f) c items (first_value items) (scoreOptions f)
       (scoreSel f) (customVisible f) (customValue f) (batchExcludedSet f)).

(** The form part of [openScoreModal(type, name)] (548-589): the target,
    the cleared batch set of a group ([renderBatchSelector]), and, for a
    logged-in teacher, the category 加分. *)
Definition openScoreModal (loggedIn : bool) (allItems : list Item) (f : score_form)
    (type name : string) : score_form :=
  let f1 := mkForm type name (currentScoreCategory f) (itemOptions f) (itemSel f)
              (scoreOptions f) (scoreSel f) (customVisible f) (customValue f)
              (if String.eqb type "小組" then resetBatchSelection else batchExcludedSet f) in
  if loggedIn then setScoreCategory allItems f1 "加分" else f1.

(** What [sendScoreRecord] does: an alert, or the payload of
    [addScoreRecord] (473). *)
Inductive send_outcome :=
  | SendAlert (msg : string)
  | SendPayload (teacherAccount : cell) (targetType targetName item score : string).

(** [sendScoreRecord] (445-473) for the logged-in [teacher]. *)
Definition sendScoreRecord (teacher : Teacher) (students : list Student) (f : score_form)
    : send_outcome :=
  let custom := String.eqb (scoreSel f) "custom" in
  let score := if custom then customValue f else scoreSel f in
  if custom && custom_score_rejected score then SendAlert "請輸入有效的正整數！"
  else
    match send_target students (modalTargetType f) (modalTargetName f) (batchExcludedSet f) with
    | None => SendAlert "請至少選擇一位學生！"
    | Some (ty, nm) => SendPayload (t_account teacher) ty nm (itemSel f) score
    end.

(** The events of the modal: opening it for a student or a group, the
    two category buttons, a choice in each select, typing in the custom
    input, a click on a batch item. *)
Inductive form_event :=
  | FOpen (type name : string)
  | FCategory (c : string)
  | FItem (n : string)
  | FScore (v : string)
  | FCustom (text : string)
  | FBatch (name : string).

(** What the page can deliver: a select one of its options, the custom
    input only while shown, a batch item only of the open group. *)
Definition form_enabled (students : list Student) (f : score_form) (ev : form_event) : Prop :=
  match ev with
  | FOpen type _ => type = "學生" ∨ type = "小組"
  | FCategory c => c = "加分" ∨ c = "扣分"
  | FItem n => n ∈ itemOptions f
  | FScore v => v ∈ scoreOptions f
  | FCustom _ => customVisible f = true
  | FBatch name =>
      modalTargetType f = "小組" ∧ name ∈ batch_items students (modalTargetName f)
  end.

(** One event for a logged-in teacher.  A choice in the score select
    runs [toggleCustomInput], its [onchange]. *)
Definition form_step (allItems : list Item) (f : score_form) (ev : form_event) : score_form :=
  match ev with
  | FOpen type name => openScoreModal true allItems f type name
  | FCategory c => setScoreCategory allItems f c
  | FItem n =>
      mkForm (modalTargetType f) (modalTargetName f) (currentScoreCategory f) (itemOptions f) n
        (scoreOptions f) (scoreSel f) (customVisible f) (customValue f) (batchExcludedSet f)
  | FScore v =>
      toggleCustomInput
        (mkForm (modalTargetType f) (modalTargetName f) (currentScoreCategory f) (itemOptions f)
           (itemSel f) (scoreOptions f) v (customVisible f) (customValue f) (batchExcludedSet f))
  | FCustom text =>
      mkForm (modalTargetType f) (modalTargetName f) (currentScoreCategory f) (itemOptions f)
        (itemSel f) (scoreOptions f) (scoreSel f) (customVisible f) text (batchExcludedSet f)
  | FBatch name =>
      mkForm (modalTargetType f) (modalTargetName f) (currentScoreCategory f) (itemOptions f)
        (itemSel f) (scoreOptions f) (scoreSel f) (customVisible f) (customValue f)
        (toggleBatchItem (batchExcludedSet f) name)
  end.

(** The forms reachable once a teacher opened the modal. *)
Inductive form_reachable (allItems : list Item) (students : list Student) : score_form → Prop :=
  | form_reach_open type name :
      type = "學生" ∨ type = "小組" →
      form_reachable allItems students (form_step allItems form_init (FOpen type name))
  | form_reach_step f ev :
      form_reachable allItems students f → form_enabled students f ev →
      form_reachable allItems students (form_step allItems f ev).

End ScoreEntry.

(** A group with two students named Amy and one Bob. *)
Module ScoreEntryDemo.
Definition demo_member (n : string) : Student :=
  mkStudent n (CStr "g") (CNum 0) (CNum 0) (CNum 0) CUndef.
Definition demo_group := [demo_member "Amy"; demo_member "Bob"; demo_member "Cat"].
Definition demo_twins := [demo_member "Amy"; demo_member "Amy"; demo_member "Bob"].
(** One item of each category and a teacher. *)
Definition demo_items : list Item :=
  [mkScoreItem (CStr "作業") (CStr "加分"); mkScoreItem (CStr "遲到") (CStr "扣分")].
Definition demo_teacher : Teacher := mkTeacher (CStr "t1") (CStr "pw") (CStr "Lin").
End ScoreEntryDemo.

Module ScoreEntryFacts.
Import ScoreEntry.

(** Every reachable set holds names of members of the group. *)
Lemma batch_reachable_subseteq students g ex :
  batch_reachable students g ex → ex ⊆ list_to_set (s_name <$> group_students students g).
Proof.
  induction 1 as [|ex s _ IH Hs|]; [set_solver| |set_solver].
  assert (s_name s ∈ list_to_set (C := gset string) (s_name <$> group_students students g)).
  { apply elem_of_list_to_set, list_elem_of_fmap_2, Hs. }
  unfold toggleBatchItem. case_decide; set_solver.
Qed.

(** On distinct names, the set is full exactly when it has as many
    names as the group has members. *)
Lemma size_full_iff (names : list string) (ex : gset string) :
  NoDup names → ex ⊆ list_to_set names →
  size ex = length names ↔ ∀ n, n ∈ names → n ∈ ex.
Proof.
  intros Hnd Hsub. rewrite <- (size_list_to_set (C := gset string) names) by done. split.
  - intros Hsz n Hn. destruct (decide (n ∈ ex)) as [|Hnot]; [done|].
    assert (ex ⊂ list_to_set names) as Hlt%subset_size; [|lia].
    split; [done|]. intros Hsup. apply Hnot, Hsup, elem_of_list_to_set, Hn.
  - intros Hall. f_equal. apply set_eq. intros n. split; [apply Hsub|].
    rewrite elem_of_list_to_set. apply Hall.
Qed.

(** The controls of the modal agree with its category: the item select
    lists the category's items and holds one of them (or nothing when
    there is none), the score select lists the presets and "custom" and
    holds one of them, and the custom input shows exactly on "custom". *)
Definition form_inv (allItems : list Item) (f : score_form) : Prop :=
  itemOptions f = category_items allItems (currentScoreCategory f) ∧
  (itemSel f ∈ itemOptions f ∨ (itemOptions f = [] ∧ itemSel f = "")) ∧
  scoreOptions f = preset_scores (currentScoreCategory f) ++ ["custom"] ∧
  scoreSel f ∈ scoreOptions f ∧
  customVisible f = String.eqb (scoreSel f) "custom".

Lemma first_value_in (l : list string) : first_value l ∈ l ∨ (l = [] ∧ first_value l = "").
Proof. destruct l; cbn; [by right|left; constructor]. Qed.

Lemma toggleCustomInput_visible f :
  customVisible (toggleCustomInput f) = String.eqb (scoreSel f) "custom".
Proof. unfold toggleCustomInput. by destruct (String.eqb _ _). Qed.

(** [setScoreCategory] establishes the invariant, whatever the form. *)
Lemma setScoreCategory_inv allItems f c : form_inv allItems (setScoreCategory allItems f c).
Proof.
  unfold setScoreCategory, updateScoreOptions. set (opts := preset_scores c ++ ["custom"]).
  assert (Hs : first_value opts ∈ opts) by (subst opts; unfold preset_scores; by destruct (String.eqb c _); left).
  unfold toggleCustomInput. cbn. destruct (String.eqb _ _) eqn:He; cbn;
    split_and!; try done; apply first_value_in.
Qed.

Lemma form_step_inv allItems students f ev :
  form_inv allItems f → form_enabled students f ev → form_inv allItems (form_step allItems f ev).
Proof.
  intros (Hi & Hsel & Ho & Hs & Hv) Hen.
  destruct ev as [type name|c|n|v|text|name]; cbn [form_step form_enabled] in Hen |- *.
  - apply setScoreCategory_inv.
  - apply setScoreCategory_inv.
  - cbn. split_and!; auto.
  - unfold toggleCustomInput. cbn [scoreSel]. destruct (String.eqb v "custom") eqn:E;
      split_and!; cbn [itemOptions itemSel scoreOptions scoreSel customVisible currentScoreCategory];
      auto; congruence.
  - cbn. split_and!; auto.
  - cbn. split_and!; auto.
Qed.

Lemma form_reachable_inv allItems students f :
  form_reachable allItems students f → form_inv allItems f.
Proof.
  induction 1; [|by eapply form_step_inv]. apply setScoreCategory_inv.
Qed.

(** [score <= 0] is false exactly on NaN, [+Infinity] and the positive
    numbers. *)
Lemma js_le0_false x :
  js_le0 x = false ↔ x = JNaN ∨ x = JPosInf ∨ ∃ q, x = JFin q ∧ (0 < q)%Q.
Proof.
  destruct x as [q| | |]; cbn; [|naive_solver..].
  rewrite <- not_true_iff_false, Qle_bool_iff. split.
  - intros Hq. right; right. exists q. split; [done|]. by apply Qnot_le_lt.
  - intros [?|[?|(q' & [= <-] & Hq)]]; [done|done|]. by apply Qlt_not_le.
Qed.

(** ** Theorems *)

(** C34: every record [sendScoreRecord] sends from a modal a teacher
    opened and then used goes out under the teacher's account, with an
    item of the current category (or no item when the category has
    none), a preset score of the category or an accepted custom text,
    and the target [send_target] computes. *)
Theorem sendScoreRecord_payload allItems students teacher f acc ty nm item score :
  form_reachable allItems students f →
  sendScoreRecord teacher students f = SendPayload acc ty nm item score →
  acc = t_account teacher ∧
  (item ∈ category_items allItems (currentScoreCategory f) ∨
     (category_items allItems (currentScoreCategory f) = [] ∧ item = "")) ∧
  (score ∈ preset_scores (currentScoreCategory f) ∨
     (customVisible f = true ∧ score = customValue f ∧ custom_score_rejected score = false)) ∧
  send_target students (modalTargetType f) (modalTargetName f) (batchExcludedSet f) = Some (ty, nm).
Proof.
  intros Hr Hsend. destruct (form_reachable_inv _ _ _ Hr) as (Hi & Hsel & Ho & Hs & Hv).
  rewrite Hi in Hsel. unfold sendScoreRecord in Hsend. cbv zeta in Hsend.
  destruct (String.eqb_spec (scoreSel f) "custom") as [Hc|Hc]; cbn [andb] in Hsend.
  - destruct (custom_score_rejected _) eqn:Hrej; [done|].
    destruct (send_target _ _ _ _) as [[ty' nm']|]; simplify_eq.
    split_and!; auto.
  - destruct (send_target _ _ _ _) as [[ty' nm']|]; simplify_eq.
    split_and!; auto. left. rewrite Ho in Hs. apply elem_of_app in Hs as [|Hs]; [done|].
    by apply list_elem_of_singleton in Hs.
Qed.

(** C15: the guard of a custom score lets text that is not a number
    through, although its alert asks for a positive integer: in a modal
    whose target is valid, any non-empty text whose [Number] is NaN,
    typed in the shown custom input, is sent as the score. *)
Theorem custom_text_sent allItems students teacher f text ty nm :
  form_reachable allItems students f → customVisible f = true →
  text ≠ "" → string_to_jsnum text = JNaN →
  send_target students (modalTargetType f) (modalTargetName f) (batchExcludedSet f) = Some (ty, nm) →
  sendScoreRecord teacher students (form_step allItems f (FCustom text)) =
    SendPayload (t_account teacher) ty nm (itemSel f) text.
Proof.
  intros Hr Hvis Hne Hnan Ht. destruct (form_reachable_inv _ _ _ Hr) as (_ & _ & _ & _ & Hv).
  rewrite Hvis in Hv. unfold sendScoreRecord. cbn [form_step scoreSel customValue modalTargetType
    modalTargetName batchExcludedSet itemSel]. rewrite <- Hv. cbn [andb].
  unfold custom_score_rejected. rewrite Hnan. cbn [js_le0].
  destruct (String.eqb_spec text "") as [|_]; [done|]. cbn. by rewrite Ht.
Qed.

Import ScoreEntryDemo.

(** C36: for a group whose members have distinct names, and any set the
    clicks on its items produce, [sendScoreRecord] refuses exactly when
    every member is excluded; with no exclusion the score goes to the
    group; otherwise it goes to the custom list of the members not
    excluded, in group order, which is not empty.  The distinct names
    are needed: with two members of one name, after clicking one Amy
    item and the Bob item, the set {Amy, Bob} has 2 names for 3
    members, and the score is sent to a custom list that is empty. *)
Theorem batch_target_spec :
  (∀ students g ex, batch_reachable students g ex → NoDup (s_name <$> group_students students g) →
    (send_target students "小組" g ex = None ↔
       ∀ s, s ∈ group_students students g → s_name s ∈ ex) ∧
    (ex = ∅ → group_students students g ≠ [] → send_target students "小組" g ex = Some ("小組", g)) ∧
    (ex ≠ ∅ → ∀ ty nm, send_target students "小組" g ex = Some (ty, nm) →
       ty = "自訂名單" ∧
       nm = String.concat "," (filter (λ n, n ∉ ex) (s_name <$> group_students students g)) ∧
       filter (λ n, n ∉ ex) (s_name <$> group_students students g) ≠ [])) ∧
  (let ex := toggleBatchItem (toggleBatchItem resetBatchSelection "Amy") "Bob" in
   batch_reachable demo_twins "g" ex ∧ send_target demo_twins "小組" "g" ex = Some ("自訂名單", "")).
Proof.
  split.
  { intros students g ex.
    intros Hr Hnd. pose proof (batch_reachable_subseteq _ _ _ Hr) as Hsub.
    pose proof (size_full_iff _ ex Hnd Hsub) as Hfull. rewrite length_fmap in Hfull.
    assert (Hmem : (∀ n, n ∈ s_name <$> group_students students g → n ∈ ex) ↔
                   ∀ s, s ∈ group_students students g → s_name s ∈ ex).
    { split; [intros H s Hs; apply H, list_elem_of_fmap_2, Hs|].
      intros H n (s & -> & Hs)%list_elem_of_fmap. auto. }
    unfold send_target. destruct (String.eqb_spec "小組" "小組") as [_|[]]; [|done].
    destruct (Nat.eqb_spec (size ex) (length (group_students students g))) as [Heq|Hne].
    - split_and!; [by rewrite <- Hmem, <- Hfull| |done].
      intros -> Hnil. exfalso. apply Hnil, length_zero_iff_nil. by rewrite <- Heq, size_empty.
    - split_and!.
      + rewrite <- Hmem, <- Hfull. split; [by case_match|intros Heq; contradiction].
      + intros ->. by rewrite size_empty.
      + intros Hex ty nm. destruct (Nat.ltb_spec 0 (size ex)) as [_|Hle].
        2:{ exfalso. apply Hex, leibniz_equiv, size_empty_inv. lia. }
        intros [= <- <-]. split_and!; [done..|]. intros Hnil. apply Hne, Hfull.
        intros n Hn. destruct (decide (n ∈ ex)) as [|Hnot]; [done|].
        assert (n ∈ filter (λ n, n ∉ ex) (s_name <$> group_students students g)) as Hin
          by (by apply list_elem_of_filter).
        rewrite Hnil in Hin. set_solver. }
  split.
  - apply (batch_reach_toggle _ _ _ (demo_member "Bob")); [|by apply (bool_decide_unpack _)].
    apply (batch_reach_toggle _ _ _ (demo_member "Amy")); [constructor|].
    by apply (bool_decide_unpack _).
  - vm_compute. reflexivity.
Qed.

(** ** Witnesses *)

Lemma batch_target_spec_witness :
  send_target demo_group "小組" "g" (toggleBatchItem resetBatchSelection "Amy") = None ↔
  ∀ s, s ∈ group_students demo_group "g" → s_name s ∈ toggleBatchItem resetBatchSelection "Amy".
Proof.
  apply (proj1 batch_target_spec demo_group "g" (toggleBatchItem resetBatchSelection "Amy")).
  - apply (batch_reach_toggle _ _ _ (demo_member "Amy")); [constructor|].
    by apply (bool_decide_unpack _).
  - apply (bool_decide_unpack _). vm_compute. reflexivity.
Defined.
Lemma sendScoreRecord_payload_witness :
  let f := form_step demo_items form_init (FOpen "學生" "Amy") in
  "作業" ∈ category_items demo_items (currentScoreCategory f) ∨
    (category_items demo_items (currentScoreCategory f) = [] ∧ "作業" = "").
Proof.
  intros f. refine (proj1 (proj2 (sendScoreRecord_payload demo_items demo_group demo_teacher f
    (CStr "t1") "學生" "Amy" "作業" "1" _ _))).
  - constructor. by left.
  - vm_compute. reflexivity.
Defined.

Lemma custom_text_sent_witness :
  let f := form_step demo_items (form_step demo_items form_init (FOpen "學生" "Amy")) (FScore "custom") in
  sendScoreRecord demo_teacher demo_group (form_step demo_items f (FCustom "abc")) =
    SendPayload (CStr "t1") "學生" "Amy" "作業" "abc".
Proof.
  intros f. apply (custom_text_sent demo_items demo_group demo_teacher f "abc" "學生" "Amy").
  - apply form_reach_step; [constructor; by left|]. cbn [form_enabled].
    apply (bool_decide_unpack _). vm_compute. reflexivity.
  - vm_compute. reflexivity.
  - discriminate.
  - vm_compute. reflexivity.
  - vm_compute. reflexivity.
Defined.
End ScoreEntryFacts.
