(* ===== verification/Network.v ===== *)
(** * Requests in flight and their replies (55-86, 423-489, 640-665)

    Four handlers call the server and return at once: [window.onload]
    (55-86) and [updateScores] (423-443) ask for [getInitialData],
    [sendScoreRecord] (445-489) sends [addScoreRecord] and [doEditLog]
    (640-665) sends [editLogRecord].  The three buttons are disabled
    until the reply comes back; the [then] branch applies the reply to
    the page, the [catch] branch (a network failure, or a reply whose
    [error] is truthy, which [callApi] throws) alerts and re-enables the
    button.  Nothing orders the replies of different buttons: a reply is
    applied when it arrives.

    [net] is the page of [Page], the three [disabled] flags, whether the
    loading overlay is gone, the requests in flight (each with the reply
    once the server has answered) and the alerts shown.  The server is a
    parameter: a state and a function that answers a request of [Api]
    with its new state, the [error] field of the reply and the data.
    [net_step] takes one event: a click of the page, a handler that
    sends, the server answering the [i]-th request or its [fetch]
    failing with an error (the [Error] object the [catch] receives, whose
    name and message the alerts print), or the delivery of the [i]-th
    reply; [net_reachable] collects the worlds reachable from the page
    load.  [NetworkFacts] proves that each button is disabled exactly
    while its request is in flight and that every world can drain
    (C20), and that the logs on screen are those of the reply delivered
    last (C27). *)

From S2P Require Import Prelude JsValue Records Store LogView Page ScoreEntry Api.
Local Open Scope string_scope.
Local Open Scope Z_scope.

Module Network.
Import Store LogView Page ScoreEntry Api.

(** The handler that sent a request. *)
Inductive origin := OLoad | OUpdate | OScore | OEdit.

#[export] Instance origin_eq_dec : EqDecision origin.
Proof. solve_decision. Defined.

(** An [Error] object as the callbacks print it: its [name] and
    [message].  A failed [fetch] rejects with a [TypeError], a body that
    is not JSON with a [SyntaxError], and [callApi] throws an [Error]. *)
Record js_error := mkError { err_name : string; err_message : string }.

(** [String(e)]: Error.prototype.toString. *)
Definition error_string (e : js_error) : string :=
  if String.eqb (err_message e) "" then err_name e
  else if String.eqb (err_name e) "" then err_message e
  else err_name e +:+ ": " +:+ err_message e.

(** What came back: the [error] field and the data of the server's
    reply, or the error [fetch] or [response.json()] rejects with. *)
Definition reply := ((cell * api_data) + js_error)%type.

(** A request in flight. *)
Record pending := mkPending {
  p_origin : origin;
  p_action : string;
  p_params : jsobj;
  p_reply : option reply
}.

Record net := mkNet {
  n_page : page;
  n_loaded : bool;
  n_update_disabled : bool;
  n_score_disabled : bool;
  n_edit_disabled : bool;
  n_pending : list pending;
  n_alerts : list string
}.

(** The globals before the first reply (33-36): the store [onload]
    builds from an empty reply, no teacher, the student tab. *)
Definition empty_data : api_data := mkData None None None None.
Definition page_init : page :=
  mkPage (onload empty_data) None "student" (mkLogView [] [] "all" "all") (LogRows []).

(** [window.onload] has called [callApi('getInitialData')] (57). *)
Definition net_init : net :=
  mkNet page_init false false false false [mkPending OLoad "getInitialData" [] None] [].

Definition set_page (n : net) (p : page) : net :=
  mkNet p (n_loaded n) (n_update_disabled n) (n_score_disabled n) (n_edit_disabled n)
    (n_pending n) (n_alerts n).

Definition alert (n : net) (msg : string) : net :=
  mkNet (n_page n) (n_loaded n) (n_update_disabled n) (n_score_disabled n) (n_edit_disabled n)
    (n_pending n) (n_alerts n ++ [msg]).

(** The [disabled] flag of the button of an origin, and its update; the
    flag of the load is the overlay still shown. *)
Definition busy (n : net) (o : origin) : bool :=
  match o with
  | OLoad => negb (n_loaded n)
  | OUpdate => n_update_disabled n
  | OScore => n_score_disabled n
  | OEdit => n_edit_disabled n
  end.

Definition set_busy (n : net) (o : origin) (b : bool) : net :=
  match o with
  | OLoad => mkNet (n_page n) (negb b) (n_update_disabled n) (n_score_disabled n) (n_edit_disabled n)
               (n_pending n) (n_alerts n)
  | OUpdate => mkNet (n_page n) (n_loaded n) b (n_score_disabled n) (n_edit_disabled n)
                 (n_pending n) (n_alerts n)
  | OScore => mkNet (n_page n) (n_loaded n) (n_update_disabled n) b (n_edit_disabled n)
                (n_pending n) (n_alerts n)
  | OEdit => mkNet (n_page n) (n_loaded n) (n_update_disabled n) (n_score_disabled n) b
               (n_pending n) (n_alerts n)
  end.

Definition set_pending (n : net) (ps : list pending) : net :=
  mkNet (n_page n) (n_loaded n) (n_update_disabled n) (n_score_disabled n) (n_edit_disabled n)
    ps (n_alerts n).

(** A handler disables its button and calls [callApi]. *)
Definition send (n : net) (o : origin) (action : string) (params : jsobj) : net :=
  set_pending (set_busy n o true) (n_pending n ++ [mkPending o action params None]).

(** The parameters of [addScoreRecord] (473) and [editLogRecord] (649). *)
Definition score_params (acc : cell) (ty nm item score : string) : jsobj :=
  [("teacherAccount", acc); ("targetType", CStr ty); ("targetName", CStr nm);
   ("item", CStr item); ("score", CStr score)].

Definition edit_params (r n s i : string) : jsobj :=
  [("rowIndex", CStr r); ("newName", CStr n); ("newScore", CStr s); ("newItem", CStr i)].

(** The events of the page and of the network. *)
Inductive net_event :=
  | NUser (ev : page_event)
  | NUpdate
  | NSendScore (o : send_outcome)
  | NEdit (o : edit_outcome)
  | NServe (i : nat)
  | NFail (i : nat) (e : js_error)
  | NDeliver (i : nat).

Section Net.
Context (locale : string → string → Z) (teacherList : list Teacher) (allGroups : list string).
Context {server : Type} (serve : server → request → server * (cell * api_data)).

(** [then] and [catch] of each handler, on the outcome of [callApi]. *)
Definition on_reply (n : net) (o : origin) (r : js_error + api_data) : net :=
  match o, r with
  | OLoad, inr d => set_busy (set_page n (page_load locale allGroups d)) OLoad false
  | OLoad, inl e => alert (set_busy n OLoad false) ("資料載入失敗：" +:+ err_message e)
  | OUpdate, inr d =>
      set_page (set_busy n OUpdate false) (page_step locale teacherList allGroups (n_page n) (PScoreReply d))
  | OUpdate, inl e => set_busy (alert n ("更新失敗: " +:+ error_string e)) OUpdate false
  | OScore, inr d =>
      set_page (set_busy n OScore false) (page_step locale teacherList allGroups (n_page n) (PScoreReply d))
  | OScore, inl e => set_busy (alert n ("錯誤：" +:+ error_string e)) OScore false
  | OEdit, inr d =>
      alert (set_busy (set_page n (page_step locale teacherList allGroups (n_page n) (PEditReply d))) OEdit false)
        "修改成功！"
  | OEdit, inl e => set_busy (alert n ("失敗: " +:+ err_message e)) OEdit false
  end.

(** What [callApi] resolves to: the data, or the error it rejects with
    ([new Error(data.error)] for a truthy [error] field). *)
Definition outcome (r : reply) : js_error + api_data :=
  match r with
  | inl (err, d) => match callApi_reply err d with inl m => inl (mkError "Error" m) | inr d => inr d end
  | inr e => inl e
  end.

(** One event on the page and the server. *)
Definition net_step (w : net * server) (ev : net_event) : net * server :=
  let '(n, s) := w in
  match ev with
  | NUser e => (set_page n (page_step locale teacherList allGroups (n_page n) e), s)
  | NUpdate => (send n OUpdate "getInitialData" [], s)
  | NSendScore (SendAlert msg) => (alert n msg, s)
  | NSendScore (SendPayload acc ty nm item score) =>
      (send n OScore "addScoreRecord" (score_params acc ty nm item score), s)
  | NEdit EditAlert => (alert n "請填寫完整", s)
  | NEdit (EditPayload r nm sc it) => (send n OEdit "editLogRecord" (edit_params r nm sc it), s)
  | NServe i =>
      match n_pending n !! i with
      | Some (mkPending o a ps None) =>
          let '(s', r) := serve s (callApi_request a ps) in
          (set_pending n (<[i := mkPending o a ps (Some (inl r))]> (n_pending n)), s')
      | _ => (n, s)
      end
  | NFail i e =>
      match n_pending n !! i with
      | Some (mkPending o a ps None) =>
          (set_pending n (<[i := mkPending o a ps (Some (inr e))]> (n_pending n)), s)
      | _ => (n, s)
      end
  | NDeliver i =>
      match n_pending n !! i with
      | Some (mkPending o _ _ (Some r)) => (on_reply (set_pending n (delete i (n_pending n))) o (outcome r), s)
      | _ => (n, s)
      end
  end.

(** What the page offers: its own events once the overlay is gone (the
    replies are deliveries here) and a button that is not disabled; the
    score button only to a logged-in teacher (the score modal is opened
    by one, and [sendScoreRecord] reads [currentTeacher["帳號"]]), the
    edit button of the edit modal also after a logout, which leaves the
    rows' edit buttons on screen; the server answers or fails an
    unanswered request, and any answered one may arrive. *)
Definition net_enabled (w : net * server) (ev : net_event) : Prop :=
  let n := w.1 in
  match ev with
  | NUser e => n_loaded n = true ∧ page_enabled allGroups (n_page n) e ∧
               (∀ d, e ≠ PEditReply d) ∧ (∀ d, e ≠ PScoreReply d)
  | NUpdate => n_loaded n = true ∧ n_update_disabled n = false
  | NSendScore _ => n_loaded n = true ∧ n_score_disabled n = false ∧ is_Some (pg_teacher (n_page n))
  | NEdit _ => n_loaded n = true ∧ n_edit_disabled n = false
  | NServe i | NFail i _ => ∃ p, n_pending n !! i = Some p ∧ p_reply p = None
  | NDeliver i => ∃ p, n_pending n !! i = Some p ∧ is_Some (p_reply p)
  end.

Inductive net_reachable (s0 : server) : net * server → Prop :=
  | net_reach_init : net_reachable s0 (net_init, s0)
  | net_reach_step w ev : net_reachable s0 w → net_enabled w ev → net_reachable s0 (net_step w ev).

(** A run of events, each enabled where it is taken. *)
Fixpoint net_run (w : net * server) (evs : list net_event) : Prop :=
  match evs with
  | [] => True
  | ev :: evs' => net_enabled w ev ∧ net_run (net_step w ev) evs'
  end.

Definition net_after (w : net * server) (evs : list net_event) : net * server := foldl net_step w evs.

(** The number of requests of an origin in flight. *)
Definition in_flight (n : net) (o : origin) : nat :=
  length (filter (λ o', o' = o) (p_origin <$> n_pending n)).

(** Each button is disabled exactly while its one request is in flight. *)
Definition flags_ok (n : net) : Prop :=
  ∀ o, in_flight n o = if busy n o then 1%nat else 0%nat.

End Net.
End Network.

(** A server that keeps the logs: each request that carries a JSON body
    adds the score it names, and every reply sends the whole list. *)
Module NetworkDemo.
Import Store LogView Page ScoreEntry Api Network LogViewDemo PageDemo StoreDemo.

Definition field (o : jsobj) (k : string) : cell :=
  match list_find (λ kv, kv.1 = k) o with Some (_, kv) => kv.2 | None => CUndef end.

Definition demo_students : list Student := [demo_member "Amy" "g1"; demo_member "Bob" "g2"].

Definition demo_serve (s : list LogEntry) (r : request) : list LogEntry * (cell * api_data) :=
  let s' := match req_body r ≫= json_parse with
            | Some o => (s ++ [mkLog (js_String (field o "targetName")) (field o "score")
                                 (js_String (field o "item")) CUndef "t1" (Z.of_nat (length s) + 2)])%list
            | None => s
            end in
  (s', (CUndef, mkData (Some demo_students) (Some s') (Some []) None)).

(** The load, a login, then [updateScores] and [sendScoreRecord] before
    either reply. *)
Definition demo_start : list net_event :=
  [NServe 0; NDeliver 0; NUser (PLogin "t1" "pw"); NUpdate;
   NSendScore (SendPayload (CStr "t1") "個人" "Amy" "作業" "5")].

(** Both requests answered, the update first. *)
Definition demo_answered : list net_event := demo_start ++ [NServe 0; NServe 1].

(** The data of the two replies: before and after Amy's 5 points. *)
Definition demo_amy_log : LogEntry := mkLog "Amy" (CStr "5") "作業" CUndef "t1" 2.
Definition reply_data (logs : list LogEntry) : api_data :=
  mkData (Some demo_students) (Some logs) (Some []) None.

Definition demo_world (evs : list net_event) : net * list LogEntry :=
  net_after demo_locale demo_teachers ["g1"; "g2"] demo_serve (net_init, []) evs.

End NetworkDemo.

Module NetworkFacts.
Import Store Page ScoreEntry Api Network.
Local Open Scope list_scope.

Section Facts.
Context (locale : string → string → Z) (teacherList : list Teacher) (allGroups : list string).
Context {server : Type} (serve : server → request → server * (cell * api_data)).

Local Notation step := (net_step locale teacherList allGroups serve).
Local Notation enabled := (net_enabled allGroups).
Local Notation reachable := (net_reachable locale teacherList allGroups serve).
Local Notation run := (net_run locale teacherList allGroups serve).
Local Notation after := (net_after locale teacherList allGroups serve).

(** ** What each update touches *)

Lemma busy_set_busy n o o' b : busy (set_busy n o b) o' = if decide (o = o') then b else busy n o'.
Proof. destruct o, o'; cbn; rewrite ?negb_involutive; done. Qed.

Lemma pending_set_busy n o b : n_pending (set_busy n o b) = n_pending n.
Proof. by destruct o. Qed.

Lemma in_flight_set_busy n o b o' : in_flight (set_busy n o b) o' = in_flight n o'.
Proof. by destruct o. Qed.

Lemma flags_ok_set_page n p : flags_ok (set_page n p) ↔ flags_ok n.
Proof. done. Qed.

Lemma flags_ok_alert n msg : flags_ok (alert n msg) ↔ flags_ok n.
Proof. done. Qed.

Lemma in_flight_pending n ps o :
  in_flight (set_pending n ps) o = length (filter (λ o', o' = o) (p_origin <$> ps)).
Proof. done. Qed.

Lemma busy_set_pending n ps o : busy (set_pending n ps) o = busy n o.
Proof. by destruct o. Qed.

(** A count of origins after one more request, and after one less. *)
Lemma count_snoc (l : list origin) x o :
  length (filter (λ o', o' = o) (l ++ [x])) = (length (filter (λ o', o' = o) l) + if decide (x = o) then 1 else 0)%nat.
Proof. rewrite filter_app, length_app, filter_cons, filter_nil. by case_decide. Qed.

Lemma count_delete (l : list pending) i x o :
  l !! i = Some x →
  (length (filter (λ o', o' = o) (p_origin <$> l)) =
   length (filter (λ o', o' = o) (p_origin <$> delete i l)) + if decide (p_origin x = o) then 1 else 0)%nat.
Proof.
  intros Hi. pose proof (Permutation_map p_origin (delete_Permutation l i x Hi)) as HP.
  apply (filter_Permutation (λ o', o' = o)), Permutation_length in HP.
  cbn [map] in HP. change (map p_origin ?k) with (p_origin <$> k) in HP.
  rewrite HP, filter_cons. case_decide; cbn; lia.
Qed.

(** Answering or failing a request keeps the origins in flight. *)
Lemma origins_insert (l : list pending) i x y :
  l !! i = Some x → p_origin y = p_origin x → p_origin <$> <[i := y]> l = p_origin <$> l.
Proof. intros Hi Ho. by rewrite list_fmap_insert, Ho, list_insert_id by (by rewrite list_lookup_fmap, Hi). Qed.

(** A handler that sends from a button that is not disabled. *)
Lemma flags_ok_send n o a ps :
  flags_ok n → busy n o = false → flags_ok (send n o a ps).
Proof.
  intros Hf Hb o'. unfold send. rewrite in_flight_pending, fmap_app.
  change (p_origin <$> [mkPending o a ps None]) with [o].
  rewrite count_snoc, busy_set_pending, busy_set_busy. specialize (Hf o'). unfold in_flight in Hf.
  rewrite Hf. case_decide as Ho; [subst; by rewrite Hb|]. destruct (busy n o'); lia.
Qed.

(** A new list of requests with the same origins keeps the flags right. *)
Lemma flags_ok_set_pending n ps :
  p_origin <$> ps = p_origin <$> n_pending n → flags_ok n → flags_ok (set_pending n ps).
Proof. intros Hps Hf o. rewrite in_flight_pending, busy_set_pending, Hps. apply Hf. Qed.

(** The [then] and [catch] branches re-enable the button of their
    origin and nothing else. *)
Lemma busy_on_reply n o r o' :
  busy (on_reply locale teacherList allGroups n o r) o' = if decide (o = o') then false else busy n o'.
Proof.
  destruct o, r; cbn [on_reply]; rewrite ?busy_set_busy; try done;
    unfold set_page, alert; destruct o'; cbn; try done;
    repeat (case_decide; try done); congruence.
Qed.

Lemma pending_on_reply n o r : n_pending (on_reply locale teacherList allGroups n o r) = n_pending n.
Proof. by destruct o, r. Qed.

(** Delivering the reply of the [i]-th request, whatever it is. *)
Lemma flags_ok_deliver n i p r :
  flags_ok n → n_pending n !! i = Some p →
  flags_ok (on_reply locale teacherList allGroups (set_pending n (delete i (n_pending n))) (p_origin p) r).
Proof.
  intros Hf Hi o. unfold in_flight. rewrite pending_on_reply, busy_on_reply, busy_set_pending.
  cbn [n_pending set_pending]. specialize (Hf o). unfold in_flight in Hf.
  rewrite (count_delete _ i p o Hi) in Hf. case_decide as Ho.
  - destruct (busy n o); lia.
  - destruct (busy n o); lia.
Qed.

(** Every enabled event keeps the flags right. *)
Lemma flags_ok_step w ev : enabled w ev → flags_ok w.1 → flags_ok (step w ev).1.
Proof.
  destruct w as [n s]. cbn [fst]. intros Hen Hf.
  destruct ev as [e| |[msg|acc ty nm item sc]|[|r nm sc it]|i|i msg|i]; cbn in Hen |- *.
  - done.
  - apply flags_ok_send; [done|]. by destruct Hen.
  - done.
  - apply flags_ok_send; [done|]. by destruct Hen as (_ & ? & _).
  - done.
  - apply flags_ok_send; [done|]. by destruct Hen.
  - destruct (n_pending n !! i) as [[o a ps [rp|]]|] eqn:Hi; [done| |done].
    destruct (serve s _) as [s' rp]. apply flags_ok_set_pending; [|done].
    by eapply origins_insert.
  - destruct (n_pending n !! i) as [[o a ps [rp|]]|] eqn:Hi; [done| |done].
    apply flags_ok_set_pending; [|done]. by eapply origins_insert.
  - destruct (n_pending n !! i) as [[o a ps [rp|]]|] eqn:Hi; [|done..].
    by apply (flags_ok_deliver _ _ _ _ Hf Hi).
Qed.

Lemma flags_ok_init : flags_ok net_init.
Proof. by intros []. Qed.

Lemma flags_ok_reachable s0 w : reachable s0 w → flags_ok w.1.
Proof.
  induction 1 as [|w ev _ IH Hen]; [apply flags_ok_init|]. by apply flags_ok_step.
Qed.

(** ** Runs *)

Lemma net_run_app w evs1 evs2 :
  run w (evs1 ++ evs2) ↔
  run w evs1 ∧ run (after w evs1) evs2.
Proof.
  revert w. induction evs1 as [|ev evs1 IH]; intros w; cbn; [tauto|].
  rewrite IH. unfold net_after. tauto.
Qed.

Lemma net_after_app w evs1 evs2 :
  after w (evs1 ++ evs2) = after (after w evs1) evs2.
Proof. apply foldl_app. Qed.

Lemma net_run_reachable s0 w evs :
  reachable s0 w → run w evs →
  reachable s0 (after w evs).
Proof.
  revert w. induction evs as [|ev evs IH]; intros w Hw; cbn; [done|].
  intros [Hen Hr]. apply IH; [by constructor|done].
Qed.

(** The first request in flight can be answered and delivered. *)
Lemma deliver_first w p rest :
  n_pending w.1 = p :: rest →
  ∃ evs, run w evs ∧ n_pending (after w evs).1 = rest.
Proof.
  destruct w as [n s]. cbn [fst]. intros Hn. destruct p as [o a ps [r|]].
  - exists [NDeliver 0]. cbn. rewrite Hn. split.
    + split; [by eexists; split; [done|]|done].
    + cbn. by rewrite pending_on_reply.
  - exists [NServe 0; NDeliver 0]. cbn. rewrite Hn.
    destruct (serve s (callApi_request a ps)) as [s' r] eqn:E. cbn. rewrite E. cbn. split.
    + split; [by eexists|]. split; [|done]. by eexists; split.
    + by rewrite pending_on_reply.
Qed.

Lemma drain l w :
  n_pending w.1 = l →
  ∃ evs, run w evs ∧ n_pending (after w evs).1 = [].
Proof.
  revert w. induction l as [|p rest IH]; intros w Hw; [by exists []|].
  destruct (deliver_first w p rest Hw) as (evs1 & Hr1 & Hp1).
  destruct (IH _ Hp1) as (evs2 & Hr2 & Hp2). exists (evs1 ++ evs2).
  by rewrite net_run_app, net_after_app.
Qed.

(** With nothing in flight, no button is disabled. *)
Lemma flags_ok_idle n : flags_ok n → n_pending n = [] → ∀ o, busy n o = false.
Proof.
  intros Hf Hn o. specialize (Hf o). unfold in_flight in Hf. rewrite Hn in Hf. by destruct (busy n o).
Qed.

(** C20: In every world reachable from the page load, each of the three
    buttons (and the loading overlay) is disabled exactly while its one
    request is in flight, so no handler has two requests out at once; and
    from every such world the server and the network can answer and
    deliver every request, after which nothing is in flight and no button
    is left disabled. *)
Theorem net_buttons_recover s0 w :
  reachable s0 w →
  flags_ok w.1 ∧
  ∃ evs, run w evs ∧ n_pending (after w evs).1 = [] ∧ ∀ o, busy (after w evs).1 o = false.
Proof.
  intros Hw. split; [by eapply flags_ok_reachable|].
  destruct (drain (n_pending w.1) w eq_refl) as (evs & Hr & Hp).
  exists evs. split_and!; [done|done|]. apply flags_ok_idle; [|done].
  by eapply flags_ok_reachable, net_run_reachable.
Qed.

(** ** Delivering a reply *)

Lemma step_deliver n (s : server) i o a ps r :
  n_pending n !! i = Some (mkPending o a ps (Some r)) →
  step (n, s) (NDeliver i) = (on_reply locale teacherList allGroups (set_pending n (delete i (n_pending n))) o (outcome r), s).
Proof. intros Hi. cbn. by rewrite Hi. Qed.

Lemma deliver_enabled n (s : server) i o a ps r :
  n_pending n !! i = Some (mkPending o a ps (Some r)) → enabled (n, s) (NDeliver i).
Proof. intros Hi. exists (mkPending o a ps (Some r)). split; [done|by eexists]. Qed.

(** The [then] of [updateScores] and [sendScoreRecord] shows the logs of
    its reply, whatever the page showed before. *)
Lemma logs_on_refresh n o e d l :
  o = OUpdate ∨ o = OScore → js_truthy e = false → d_logs d = Some l →
  allLogs (pg_store (n_page (on_reply locale teacherList allGroups n o (outcome (inl (e, d)))))) = l.
Proof.
  intros Ho He Hd. cbn [outcome]. unfold callApi_reply. rewrite He.
  destruct Ho as [-> | ->]; cbn; unfold apply_refresh; rewrite Hd; by destruct (isSorted _).
Qed.

(** C27: The replies of [updateScores] and [sendScoreRecord] are applied
    in the order they arrive, not the order they were sent.  In any world
    where an update request was sent before a score request and both
    were answered without error, with logs [lu] and [ls]: both orders of
    delivery can happen, and the page ends up showing the logs of the
    reply that arrived last.  So when the update, answered before the
    score was recorded, arrives last, the page shows logs without the
    new score. *)
Theorem replies_arrival_order n (s : server) i j au pu eu du lu sa ps es ds ls :
  (i < j)%nat →
  n_pending n !! i = Some (mkPending OUpdate au pu (Some (inl (eu, du)))) →
  js_truthy eu = false → d_logs du = Some lu →
  n_pending n !! j = Some (mkPending OScore sa ps (Some (inl (es, ds)))) →
  js_truthy es = false → d_logs ds = Some ls →
  run (n, s) [NDeliver j; NDeliver i] ∧
  allLogs (pg_store (n_page (after (n, s) [NDeliver j; NDeliver i]).1)) = lu ∧
  run (n, s) [NDeliver i; NDeliver (j - 1)] ∧
  allLogs (pg_store (n_page (after (n, s) [NDeliver i; NDeliver (j - 1)]).1)) = ls.
Proof.
  intros Hij Hi Heu Hdu Hj Hes Hds.
  assert (Hi' : ∀ o r, n_pending (on_reply locale teacherList allGroups (set_pending n (delete j (n_pending n))) o r) !! i =
                       Some (mkPending OUpdate au pu (Some (inl (eu, du)))))
    by (intros; rewrite pending_on_reply; cbn; rewrite list_lookup_delete_lt; [done|lia]).
  assert (Hj' : ∀ o r, n_pending (on_reply locale teacherList allGroups (set_pending n (delete i (n_pending n))) o r) !! (j - 1)%nat =
                       Some (mkPending OScore sa ps (Some (inl (es, ds)))))
    by (intros; rewrite pending_on_reply; cbn; rewrite list_lookup_delete_ge by lia; by replace (S (j - 1)%nat) with j by lia).
  unfold net_after. cbn [net_run foldl]. rewrite (step_deliver _ _ _ _ _ _ _ Hj), (step_deliver _ _ _ _ _ _ _ Hi).
  rewrite (step_deliver _ _ _ _ _ _ _ (Hi' _ _)), (step_deliver _ _ _ _ _ _ _ (Hj' _ _)).
  split_and!; try done; try (by eapply deliver_enabled); try (by eapply deliver_enabled, Hi'); try (by eapply deliver_enabled, Hj');
    (apply logs_on_refresh; [by (left + right)|done..]).
Qed.

End Facts.

Import NetworkDemo StoreDemo PageDemo.

Ltac run_demo :=
  vm_compute;
  repeat match goal with
  | |- True => exact I
  | |- _ ∧ _ => split
  | |- ∃ _, Some _ = Some _ ∧ _ => eexists; split; [reflexivity|]
  | |- ∃ _, _ = Some _ => eexists; reflexivity
  | |- ∀ _, _ → False => intros ? ?; discriminate
  | |- _ = _ => reflexivity
  end.

Lemma demo_start_run :
  net_run demo_locale demo_teachers ["g1"; "g2"] demo_serve (net_init, []) demo_start.
Proof. run_demo. Qed.

(** C20 at the world where [updateScores] and [sendScoreRecord] both wait
    for their reply. *)
Lemma net_buttons_recover_witness :
  net_reachable demo_locale demo_teachers ["g1"; "g2"] demo_serve [] (demo_world demo_start) ∧
  flags_ok (demo_world demo_start).1 ∧
  ∃ evs, net_run demo_locale demo_teachers ["g1"; "g2"] demo_serve (demo_world demo_start) evs ∧
    n_pending (net_after demo_locale demo_teachers ["g1"; "g2"] demo_serve (demo_world demo_start) evs).1 = [] ∧
    ∀ o, busy (net_after demo_locale demo_teachers ["g1"; "g2"] demo_serve (demo_world demo_start) evs).1 o = false.
Proof.
  assert (Hr : net_reachable demo_locale demo_teachers ["g1"; "g2"] demo_serve [] (demo_world demo_start))
    by (apply net_run_reachable; [constructor|apply demo_start_run]).
  split; [exact Hr|]. apply (net_buttons_recover demo_locale demo_teachers ["g1"; "g2"] demo_serve [] _ Hr).
Defined.


(** C27 at the demo: the update (no logs) and the score (Amy's log) are
    answered; delivered score first, the page shows no logs. *)
Lemma replies_arrival_order_witness :
  allLogs (pg_store (n_page (net_after demo_locale demo_teachers ["g1"; "g2"] demo_serve
     (demo_world demo_answered) [NDeliver 1; NDeliver 0]).1)) = [].
Proof.
  apply (replies_arrival_order demo_locale demo_teachers ["g1"; "g2"] demo_serve
           (demo_world demo_answered).1 (demo_world demo_answered).2 0 1
           "getInitialData" [] CUndef (reply_data []) []
           "addScoreRecord" (score_params (CStr "t1") "個人" "Amy" "作業" "5") CUndef
           (reply_data [demo_amy_log]) [demo_amy_log]); vm_compute; reflexivity || lia.
Defined.

End NetworkFacts.
